(** * Nebula: URL-rewriting proxy and browser-session broker

    A shallow embedding of the two servers of the repository, and the
    properties of them that the specification states:
    - the URL-rewriting proxy: the URL codec ([encodeUrl], [decodeUrl]), the
      redirect handling of [fetchUrl], the URL rewriting of [rewriteUrls] and
      [rewriteCss], and the routing of a [__cpo] request and of a request
      for a relative path;
    - the browser-session broker of [browser-sessions/server.js]: the slot
      pool, the two-token access control, assignment and release, the access
      checks of the HTTP and the WebSocket handler, the JSON API, the two
      clean-up timers, the restore from the state mirror, the connection
      records, and the helpers for cookies, paths, container names, the
      status report and WebSocket frames.

    The first part of the file holds the definitions, one module for each
    component, in the order of the source; the second part holds the
    properties.

    Conventions.
    - A JavaScript string is a Rocq [string] that holds the octets of its
      UTF-8 form.  An unpaired surrogate, which a JavaScript string may hold
      and UTF-8 cannot write, stands in the three-octet form of its code
      point ([ED A0..BF 80..BF]); a pair always stands in the four-octet form
      of its character.  [Buffer.from(s)] gives the octets, with U+FFFD for
      every unpaired surrogate; [buf.toString('utf-8')] reads octets back
      and replaces ill-formed ones by U+FFFD.  [s.length] and
      [s.substring] count UTF-16 code units ([Js.len], [Js.take]): one for
      a character of up to three octets, two for one of four.
    - [null] and [undefined] are [None]; truthiness tests are written out
      ([Js.truthy]: the empty string is falsy, [0] is falsy).
    - Platform services are inputs: the URL parser is a parameter of the
      functions that call [new URL]; [Date.now()], [generateSessionId()] and
      [Math.random()] are arguments of the handlers; the values of
      [crypto.randomBytes(32).toString('hex')] come from an oracle indexed by
      the number of calls so far.
    - Module state is passed explicitly: a handler takes the state and
      returns its reply with the new state.  An object shared by reference
      (an element of [BROWSERS]) is referred to by its position. *)

From Stdlib Require Import ZArith List String Ascii Bool Lia.
From stdpp Require Import gmap strings list fin_maps.

Local Open Scope string_scope.

(** ** JavaScript string primitives *)

Module Js.

(** [s.startsWith(p)] *)
Fixpoint startsWith (s p : string) {struct p} : bool :=
  match p, s with
  | EmptyString, _ => true
  | String _ _, EmptyString => false
  | String a p', String b s' => if Ascii.eqb a b then startsWith s' p' else false
  end.

(** [s.includes(p)] *)
Fixpoint includes (s p : string) : bool :=
  startsWith s p ||
  match s with
  | EmptyString => false
  | String _ s' => includes s' p
  end.

(** The UTF-16 code units of the character that the octet [c] begins: two
    for the first octet of a sequence of four, none for an octet that
    continues a sequence. *)
Definition unitsOf (c : ascii) : nat :=
  let n := nat_of_ascii c in
  if (n <? 128)%nat then 1%nat
  else if (n <? 192)%nat then 0%nat
  else if (n <? 240)%nat then 1%nat
  else 2%nat.

(** [s.length]: the number of UTF-16 code units. *)
Fixpoint len (s : string) : nat :=
  match s with
  | EmptyString => 0%nat
  | String c s' => (unitsOf c + len s')%nat
  end.

(** The first half of the surrogate pair of a character of four octets, of
    which [c] is the first and [s] holds the others: the surrogate
    [D800 + h], where [h] is the ten high bits of the code point less
    [10000] (hexadecimal), in the three-octet form. *)
Definition highSurrogate (c : ascii) (s : string) : string :=
  let octet (k : nat) :=
    match String.get k s with
    | Some x => nat_of_ascii x
    | None => 128%nat
    end in
  let h := ((nat_of_ascii c mod 8) * 256 + (octet 0%nat mod 64) * 4
            + (octet 1%nat mod 64) / 16 - 64)%nat in
  String (ascii_of_nat 237)
    (String (ascii_of_nat (160 + h / 64))
       (String (ascii_of_nat (128 + h mod 64)) EmptyString)).

(** [s.substring(0, n)]: the first [n] UTF-16 code units.  When the cut
    falls inside a surrogate pair, the result ends with the first half of
    the pair. *)
Fixpoint take (n : nat) (s : string) : string :=
  match s with
  | EmptyString => EmptyString
  | String c s' =>
      match unitsOf c, n with
      | O, _ => String c (take n s')
      | _, O => EmptyString
      | S O, S n' => String c (take n' s')
      | _, S O => highSurrogate c s'
      | _, S (S n') => String c (take n' s')
      end
  end.

(** [s.replace(/c/g, d)] for a single character [c] *)
Fixpoint replaceAll (c d : ascii) (s : string) : string :=
  match s with
  | EmptyString => EmptyString
  | String x s' => String (if Ascii.eqb x c then d else x) (replaceAll c d s')
  end.

(** [s.replace(/c/g, '')] *)
Fixpoint removeAll (c : ascii) (s : string) : string :=
  match s with
  | EmptyString => EmptyString
  | String x s' => if Ascii.eqb x c then removeAll c s' else String x (removeAll c s')
  end.

(** [s.split(c)]: the pieces between the occurrences of [c]; never empty. *)
Fixpoint split (c : ascii) (s : string) : list string :=
  match s with
  | EmptyString => [EmptyString]
  | String x s' =>
      if Ascii.eqb x c then EmptyString :: split c s'
      else match split c s' with
           | [] => [String x EmptyString]
           | p :: ps => String x p :: ps
           end
  end.

(** [s.split(c)[0]] *)
Definition split0 (c : ascii) (s : string) : string :=
  match split c s with
  | [] => EmptyString
  | p :: _ => p
  end.

Definition isSpace (c : ascii) : bool :=
  let n := nat_of_ascii c in
  (n =? 32)%nat || ((9 <=? n)%nat && (n <=? 13)%nat).

(** The white space and line terminators of the language, which [trim] and
    [parseInt] skip, as octets: U+0009 to U+000D, U+0020, U+00A0, U+1680,
    U+2000 to U+200A, U+2028, U+2029, U+202F, U+205F, U+3000 and U+FEFF. *)
Definition blanks : list string :=
  map (fun l => string_of_list_ascii (map ascii_of_nat l))
      ([[9]; [10]; [11]; [12]; [13]; [32]; [194; 160]; [225; 154; 128]]
       ++ map (fun k => [226; 128; k]) (seq 128 11)
       ++ [[226; 128; 168]; [226; 128; 169]; [226; 128; 175]; [226; 129; 159];
           [227; 128; 128]; [239; 187; 191]])%list.

(** [s] without its prefix [p], when it begins with [p]. *)
Fixpoint stripPrefix (p s : string) : option string :=
  match p, s with
  | EmptyString, _ => Some s
  | String _ _, EmptyString => None
  | String a p', String b s' => if Ascii.eqb a b then stripPrefix p' s' else None
  end.

(** [s] without the first of [ps] that it begins with. *)
Fixpoint stripAny (ps : list string) (s : string) : option string :=
  match ps with
  | [] => None
  | p :: ps' =>
      match stripPrefix p s with
      | Some r => Some r
      | None => stripAny ps' s
      end
  end.

(** [s] without the members of [ps] that it begins with, one after the
    other; [fuel] bounds their number. *)
Fixpoint stripAll (ps : list string) (fuel : nat) (s : string) : string :=
  match fuel with
  | O => s
  | S fuel' =>
      match stripAny ps s with
      | Some r => stripAll ps fuel' r
      | None => s
      end
  end.

Definition reverse (s : string) : string :=
  string_of_list_ascii (rev (list_ascii_of_string s)).

(** [s.trimStart()] *)
Definition trimStart (s : string) : string := stripAll blanks (String.length s) s.

(** [s.trimEnd()] *)
Definition trimEnd (s : string) : string :=
  reverse (stripAll (map reverse blanks) (String.length s) (reverse s)).

(** [s.trim()] *)
Definition trim (s : string) : string := trimEnd (trimStart s).

(** Truthiness of a string value: [''] is falsy. *)
Definition truthy (s : string) : bool :=
  match s with
  | EmptyString => false
  | String _ _ => true
  end.

(** Truthiness of a possibly [undefined] string. *)
Definition truthyOpt (o : option string) : bool :=
  match o with
  | Some s => truthy s
  | None => false
  end.

(** [a || d] on a possibly [undefined] string with a string default. *)
Definition orElse (o : option string) (d : string) : string :=
  match o with
  | Some s => if truthy s then s else d
  | None => d
  end.

Definition isDigit (c : ascii) : bool :=
  let n := nat_of_ascii c in (48 <=? n)%nat && (n <=? 57)%nat.

Fixpoint takeWhile (p : ascii -> bool) (s : string) : string :=
  match s with
  | EmptyString => EmptyString
  | String c s' => if p c then String c (takeWhile p s') else EmptyString
  end.

Fixpoint dropWhile (p : ascii -> bool) (s : string) : string :=
  match s with
  | EmptyString => EmptyString
  | String c s' => if p c then dropWhile p s' else s
  end.

Fixpoint drop (n : nat) (s : string) : string :=
  match n, s with
  | O, _ => s
  | S _, EmptyString => EmptyString
  | S n', String _ s' => drop n' s'
  end.

(** Value of a run of decimal digits. *)
Definition digitsValue (s : string) : Z :=
  fold_left (fun acc c => (10 * acc + (Z.of_nat (nat_of_ascii c) - 48))%Z)
            (list_ascii_of_string s) 0%Z.

End Js.

(** ** Parsed URLs

    [new URL(s)] and [new URL(rel, base)] are the platform's URL parser.  The
    proxy only reads a few components of the parsed value; the parser itself
    is a parameter of the functions that call it ([None] when the constructor
    throws). *)

Record URL := mkURL {
  protocol : string;   (* "https:" *)
  hostname : string;   (* "www.tiktok.com" *)
  origin : string;     (* "https://www.tiktok.com" *)
  pathname : string;   (* "/explore" *)
  search : string;     (* "" or "?a=b" *)
  href : string
}.

(** A small parser for plain [scheme://authority/path?query] strings, used to
    run the functions below on concrete inputs. *)
Module PlainUrl.

Definition isPathEnd (c : ascii) : bool := Ascii.eqb c "?" || Ascii.eqb c "#".
Definition isAuthorityEnd (c : ascii) : bool := Ascii.eqb c "/" || isPathEnd c.
Definition notColon (c : ascii) : bool := negb (Ascii.eqb c ":").
Definition notHash (c : ascii) : bool := negb (Ascii.eqb c "#").

Definition parse (s : string) : option URL :=
  let scheme := Js.takeWhile notColon s in
  let rest := Js.dropWhile notColon s in
  if Js.truthy scheme && Js.startsWith rest "://" then
    let rest := Js.drop 3 rest in
    let authority := Js.takeWhile (fun c => negb (isAuthorityEnd c)) rest in
    let rest := Js.dropWhile (fun c => negb (isAuthorityEnd c)) rest in
    let path := Js.takeWhile (fun c => negb (isPathEnd c)) rest in
    let rest := Js.dropWhile (fun c => negb (isPathEnd c)) rest in
    let query := Js.takeWhile notHash rest in
    if Js.truthy authority then
      Some {| protocol := scheme +:+ ":";
              hostname := Js.takeWhile notColon authority;
              origin := scheme +:+ "://" +:+ authority;
              pathname := if Js.truthy path then path else "/";
              search := if String.eqb query "?" then "" else query;
              href := s |}
    else None
  else None.

(** [new URL(rel, base).href] for an absolute [rel] or a [rel] that starts
    with [/]. *)
Definition resolveHref (rel base : string) : option string :=
  if Js.includes rel "://" then Some rel
  else if Js.startsWith rel "/" then
    match parse base with
    | Some b => Some (origin b +:+ rel)
    | None => None
    end
  else None.

End PlainUrl.

(** ** 4.A URL codec: [encodeUrl] / [decodeUrl] *)

Module Codec.

Local Open Scope Z_scope.

(** *** Node's [Buffer] conversions *)

Definition byteOf (c : ascii) : Z := Z.of_nat (nat_of_ascii c).
Definition charOf (b : Z) : ascii := ascii_of_nat (Z.to_nat b).

(** The octets that the string holds. *)
Definition octets (s : string) : list Z := map byteOf (list_ascii_of_string s).

(** For the first octet of a UTF-8 sequence of more than one octet: how many
    octets follow it, and the range of the first of them. *)
Definition utf8Lead (b : Z) : option (nat * Z * Z) :=
  if (194 <=? b) && (b <=? 223) then Some (1%nat, 128, 191)
  else if b =? 224 then Some (2%nat, 160, 191)
  else if b =? 237 then Some (2%nat, 128, 159)
  else if (225 <=? b) && (b <=? 239) then Some (2%nat, 128, 191)
  else if b =? 240 then Some (3%nat, 144, 191)
  else if b =? 244 then Some (3%nat, 128, 143)
  else if (241 <=? b) && (b <=? 243) then Some (3%nat, 128, 191)
  else None.

Definition inRange (lo hi b : Z) : bool := (lo <=? b) && (b <=? hi).

(** The octets of U+FFFD, the replacement character. *)
Definition replacement : list Z := [239; 191; 189].

(** U+FFFD in the place of every unpaired surrogate, that is of every
    sequence [ED A0..BF 80..BF]. *)
Fixpoint unpaired (bs : list Z) : list Z :=
  match bs with
  | [] => []
  | b :: r =>
      match r with
      | c1 :: c2 :: r2 =>
          if (b =? 237) && inRange 160 191 c1 && inRange 128 191 c2
          then replacement ++ unpaired r2
          else b :: unpaired r
      | _ => b :: unpaired r
      end
  end.

(** [Buffer.from(s)]: the UTF-8 octets of the string. *)
Definition Buffer_from (s : string) : list Z := unpaired (octets s).

(** UTF-8 decoding, on octets: a well-formed sequence is kept, and every
    maximal ill-formed run is replaced by U+FFFD. *)
Fixpoint sanitize (bs : list Z) : list Z :=
  match bs with
  | [] => []
  | b :: r =>
      if b <? 128 then b :: sanitize r
      else
        match utf8Lead b with
        | None => replacement ++ sanitize r
        | Some (n, lo, hi) =>
            match r with
            | [] => replacement
            | c1 :: r1 =>
                if inRange lo hi c1 then
                  match n with
                  | 1%nat => b :: c1 :: sanitize r1
                  | _ =>
                      match r1 with
                      | [] => replacement
                      | c2 :: r2 =>
                          if inRange 128 191 c2 then
                            match n with
                            | 2%nat => b :: c1 :: c2 :: sanitize r2
                            | _ =>
                                match r2 with
                                | [] => replacement
                                | c3 :: r3 =>
                                    if inRange 128 191 c3
                                    then b :: c1 :: c2 :: c3 :: sanitize r3
                                    else replacement ++ sanitize r2
                                end
                            end
                          else replacement ++ sanitize r1
                      end
                  end
                else replacement ++ sanitize r
            end
        end
  end.

(** [buf.toString('utf-8')] *)
Definition toString_utf8 (b : list Z) : string :=
  string_of_list_ascii (map charOf (sanitize b)).

(** The octets of [s] are well-formed UTF-8: decoding them loses nothing. *)
Definition wellFormed (s : string) : Prop :=
  sanitize (octets s) = octets s.

Definition alphabet : string :=
  "ABCDEFGHIJKLMNOPQRSTUVWXYZabcdefghijklmnopqrstuvwxyz0123456789+/".

Definition b64char (n : Z) : ascii :=
  match String.get (Z.to_nat n) alphabet with
  | Some c => c
  | None => "="%char
  end.

(** [buf.toString('base64')]: standard alphabet, padded with [=]. *)
Fixpoint toString_base64 (b : list Z) : string :=
  match b with
  | [] => EmptyString
  | [x] =>
      String (b64char (x / 4)) (String (b64char (x mod 4 * 16)) "==")
  | [x; y] =>
      String (b64char (x / 4)) (String (b64char (x mod 4 * 16 + y / 16))
        (String (b64char (y mod 16 * 4)) "="))
  | x :: y :: z :: rest =>
      String (b64char (x / 4)) (String (b64char (x mod 4 * 16 + y / 16))
        (String (b64char (y mod 16 * 4 + z / 64)) (String (b64char (z mod 64))
          (toString_base64 rest))))
  end.

(** Node's decoding table: both the standard and the URL-safe alphabet. *)
Definition unbase64 (c : ascii) : option Z :=
  let n := byteOf c in
  if (65 <=? n) && (n <=? 90) then Some (n - 65)
  else if (97 <=? n) && (n <=? 122) then Some (n - 71)
  else if (48 <=? n) && (n <=? 57) then Some (n + 4)
  else if (n =? 43) || (n =? 45) then Some 62
  else if (n =? 47) || (n =? 95) then Some 63
  else None.

(** The decoder skips characters outside the table and stops at the first
    padding character. *)
Fixpoint sextets (s : string) : list Z :=
  match s with
  | EmptyString => []
  | String c r =>
      match unbase64 c with
      | Some n => n :: sextets r
      | None => if Ascii.eqb c "=" then [] else sextets r
      end
  end.

Fixpoint bytesOfSextets (l : list Z) : list Z :=
  match l with
  | a :: b :: c :: d :: rest =>
      (a * 4 + b / 16) :: (b mod 16 * 16 + c / 4) :: (c mod 4 * 64 + d)
        :: bytesOfSextets rest
  | [a; b; c] => [a * 4 + b / 16; b mod 16 * 16 + c / 4]
  | [a; b] => [a * 4 + b / 16]
  | _ => []
  end.

(** [Buffer.from(s, 'base64')] *)
Definition Buffer_from_base64 (s : string) : list Z := bytesOfSextets (sextets s).

Definition hexVal (c : ascii) : option Z :=
  let n := byteOf c in
  if (48 <=? n) && (n <=? 57) then Some (n - 48)
  else if (65 <=? n) && (n <=? 70) then Some (n - 55)
  else if (97 <=? n) && (n <=? 102) then Some (n - 87)
  else None.

(** The octet of the escape [%XY] at the head of [s], and what follows it. *)
Definition escapedOctet (s : string) : option (Z * string) :=
  match s with
  | String p (String h (String l r)) =>
      if Ascii.eqb p "%" then
        match hexVal h, hexVal l with
        | Some a, Some b => Some (16 * a + b, r)
        | _, _ => None
        end
      else None
  | _ => None
  end.

(** [n] escaped continuation octets, the first of them within [lo..hi]. *)
Fixpoint continuation (n : nat) (lo hi : Z) (s : string) : option (string * string) :=
  match n with
  | O => Some (EmptyString, s)
  | S n' =>
      match escapedOctet s with
      | Some (b, r) =>
          if (lo <=? b) && (b <=? hi) then
            match continuation n' 128 191 r with
            | Some (octets, r') => Some (String (charOf b) octets, r')
            | None => None
            end
          else None
      | None => None
      end
  end.

(** [decodeURIComponent(s)]: every escape is replaced by its octet, and the
    escaped octets above 127 have to spell well-formed UTF-8; [None] stands
    for the [URIError] thrown otherwise.  Each round consumes at least one
    character, so [String.length s] rounds are enough. *)
Fixpoint decodeFrom (fuel : nat) (s : string) : option string :=
  match fuel with
  | O => Some EmptyString
  | S fuel' =>
      match s with
      | EmptyString => Some EmptyString
      | String c r =>
          if Ascii.eqb c "%" then
            match escapedOctet s with
            | Some (b, r1) =>
                if b <? 128 then option_map (String (charOf b)) (decodeFrom fuel' r1)
                else
                  match utf8Lead b with
                  | Some (n, lo, hi) =>
                      match continuation n lo hi r1 with
                      | Some (octets, r2) =>
                          option_map (fun t => String (charOf b) (octets +:+ t))
                                     (decodeFrom fuel' r2)
                      | None => None
                      end
                  | None => None
                  end
            | None => None
            end
          else option_map (String c) (decodeFrom fuel' r)
      end
  end.

Definition decodeURIComponent (s : string) : option string :=
  decodeFrom (String.length s) s.

(** *** The codec of the proxy *)

(** [encodeUrl(url)] *)
Definition encodeUrl (url : string) : string :=
  Js.removeAll "="
    (Js.replaceAll "/" "_"
      (Js.replaceAll "+" "-" (toString_base64 (Buffer_from url)))).

(** [while (base64.length % 4) base64 += '=';] runs at most three times. *)
Fixpoint padLoop (fuel : nat) (base64 : string) : string :=
  match fuel with
  | O => base64
  | S fuel' =>
      if (String.length base64 mod 4 =? 0)%nat then base64
      else padLoop fuel' (base64 +:+ "=")
  end.

Definition addPadding (base64 : string) : string := padLoop 3 base64.

Section Decode.

Variable newURL : string -> option URL.

(** [decodeUrl(encoded)]; [None] is the [null] result. *)
Definition decodeUrl (encoded : string) : option string :=
  let base64Part := Js.split0 "&" (Js.split0 "?" encoded) in
  let base64 := Js.replaceAll "_" "/" (Js.replaceAll "-" "+" base64Part) in
  let base64 := addPadding base64 in
  let base64 :=
    match decodeURIComponent base64 with
    | Some s => s
    | None => base64
    end in
  let decoded := toString_utf8 (Buffer_from_base64 base64) in
  if negb (Js.startsWith decoded "http://") && negb (Js.startsWith decoded "https://")
  then None
  else
    match newURL decoded with
    | None => None
    | Some _ => Some decoded
    end.

End Decode.

(** *** Auxiliary definitions for the round trip *)

Definition isByte (b : Z) : Prop := 0 <= b < 256.
Definition isSextet (n : Z) : Prop := 0 <= n < 64.

(** The six-bit groups behind [toString_base64]. *)
Fixpoint sextetsOfBytes (b : list Z) : list Z :=
  match b with
  | [] => []
  | [x] => [x / 4; x mod 4 * 16]
  | [x; y] => [x / 4; x mod 4 * 16 + y / 16; y mod 16 * 4]
  | x :: y :: z :: rest =>
      x / 4 :: (x mod 4 * 16 + y / 16) :: (y mod 16 * 4 + z / 64) :: z mod 64
        :: sextetsOfBytes rest
  end.

Fixpoint chars (f : Z -> ascii) (l : list Z) : string :=
  match l with
  | [] => EmptyString
  | n :: l' => String (f n) (chars f l')
  end.

Fixpoint eqs (k : nat) : string :=
  match k with
  | O => EmptyString
  | S k' => String "=" (eqs k')
  end.

Definition urlSafe (c : ascii) : ascii :=
  let c1 := if Ascii.eqb c "+" then "-"%char else c in
  if Ascii.eqb c1 "/" then "_"%char else c1.

Definition safeChar (n : Z) : ascii := urlSafe (b64char n).

End Codec.

(** ** 4.B Upstream fetcher: redirect handling of [fetchUrl] *)

Module Fetcher.

Local Open Scope Z_scope.

(** The [options] argument of [fetchUrl]. *)
Record Options := mkOptions {
  o_method : option string;
  o_body : option string;
  o_referer : option string;
  o_csrfToken : option string;
  o_cookies : option string
}.

(** What [lib.request(reqOptions, ...)] sends. *)
Record Request := mkRequest {
  q_url : string;
  q_method : string;
  q_body : option string
}.

(** What the response callback reads of [res]. *)
Record Response := mkResponse {
  statusCode : Z;
  location : option string;   (* res.headers.location *)
  payload : string
}.

(** What the promise resolves to. *)
Record Result := mkResult {
  r_data : string;
  r_statusCode : Z;
  r_url : string
}.

Inductive Outcome :=
| Resolved (r : Result)
| Rejected                     (* 'error' or 'timeout' of the request *)
| Unsettled.                   (* the response callback threw *)

Definition requestOf (url : string) (options : Options) : Request :=
  {| q_url := url;
     q_method := Js.orElse (o_method options) "GET";
     q_body := o_body options |}.

Definition isRedirect (res : Response) : bool :=
  (300 <=? statusCode res) && (statusCode res <? 400) && Js.truthyOpt (location res).

Section Fetch.

(** The origin servers: the response to a request, [None] for a connection
    error or a timeout. *)
Variable upstream : Request -> option Response.

(** [new URL(location, url).href] *)
Variable resolveHref : string -> string -> option string.

(** [fetchUrl(url, options)], with the requests it issues in order.  The
    source recurses on every redirect without a counter, so the recursion is
    cut by [fuel]; [None] means that [fuel] was too small. *)
Fixpoint fetchUrl (fuel : nat) (url : string) (options : Options)
  : list Request * option Outcome :=
  match fuel with
  | O => ([], None)
  | S fuel' =>
      let req := requestOf url options in
      match upstream req with
      | None => ([req], Some Rejected)
      | Some res =>
          if isRedirect res then
            match resolveHref (Js.orElse (location res) "") url with
            | None => ([req], Some Unsettled)
            | Some redirectUrl =>
                let '(sent, out) := fetchUrl fuel' redirectUrl options in
                (req :: sent, out)
            end
          else
            ([req], Some (Resolved {| r_data := payload res;
                                      r_statusCode := statusCode res;
                                      r_url := url |}))
      end
  end.

(** [hops n url url']: the origin answers [n] redirects in a row that lead
    from [url] to [url']. *)
Inductive hops (options : Options) : nat -> string -> string -> Prop :=
| hops_here url : hops options 0 url url
| hops_next n url res mid url' :
    upstream (requestOf url options) = Some res ->
    isRedirect res = true ->
    resolveHref (Js.orElse (location res) "") url = Some mid ->
    hops options n mid url' ->
    hops options (S n) url url'.

End Fetch.

(** The method the spec asks for after a redirect with status [status]. *)
Definition specRedirectMethod (status : Z) (method : string) : string :=
  if ((status =? 301) || (status =? 302) || (status =? 303)) && String.eqb method "POST"
  then "GET" else method.

End Fetcher.

(** ** Regular-expression replacement

    The rewriters are [String.prototype.replace] calls with a global,
    case-insensitive regular expression and a callback.  The expressions used
    are sequences of literals and single-character classes under [*], [+]
    and [?], with one capture group of interest.  [matchSeq] is the
    backtracking matcher for such sequences: quantifiers are greedy and give
    characters back one at a time when the rest of the sequence fails. *)

Module Regex.

Inductive item :=
| Exact (s : string)             (* literal text *)
| Lit (s : string)               (* literal text, compared without case *)
| Cls (p : ascii -> bool)        (* one character of a class *)
| Star (p : ascii -> bool)       (* class* *)
| Plus (p : ascii -> bool)       (* class+ *)
| Opt (p : ascii -> bool)        (* class? *)
| CapPlus (p : ascii -> bool).   (* (class+), the captured group *)

(** A successful match: the matched text is [pre ++ cap ++ post], and [rest]
    is what follows it. *)
Record found := mkFound {
  pre : string;
  cap : option string;
  post : string;
  rest : string
}.

Definition consume (c : ascii) (m : found) : found :=
  match cap m with
  | Some _ => {| pre := String c (pre m); cap := cap m; post := post m; rest := rest m |}
  | None => {| pre := pre m; cap := None; post := String c (post m); rest := rest m |}
  end.

Definition capture (c : ascii) (m : found) : found :=
  {| pre := EmptyString;
     cap := Some (String c (match cap m with Some t => t | None => EmptyString end));
     post := post m; rest := rest m |}.

Definition lower (c : ascii) : ascii :=
  let n := nat_of_ascii c in
  if (65 <=? n)%nat && (n <=? 90)%nat then ascii_of_nat (n + 32) else c.

(** [\s] *)
Definition ws (c : ascii) : bool := Js.isSpace c.

Fixpoint matchLit (l : string) (k : string -> option found) (s : string)
  {struct l} : option found :=
  match l with
  | EmptyString => k s
  | String a l' =>
      match s with
      | EmptyString => None
      | String c s' =>
          if Ascii.eqb (lower a) (lower c)
          then option_map (consume c) (matchLit l' k s')
          else None
      end
  end.

Fixpoint matchExact (l : string) (k : string -> option found) (s : string)
  {struct l} : option found :=
  match l with
  | EmptyString => k s
  | String a l' =>
      match s with
      | EmptyString => None
      | String c s' =>
          if Ascii.eqb a c then option_map (consume c) (matchExact l' k s') else None
      end
  end.

(** Greedy [class*] before the continuation [k]. *)
Fixpoint matchStar (p : ascii -> bool) (k : string -> option found) (s : string)
  {struct s} : option found :=
  match s with
  | EmptyString => k s
  | String c s' =>
      if p c then
        match matchStar p k s' with
        | Some m => Some (consume c m)
        | None => k s
        end
      else k s
  end.

(** Greedy captured [class+] before the continuation [k]. *)
Fixpoint matchCapPlus (p : ascii -> bool) (k : string -> option found) (s : string)
  {struct s} : option found :=
  match s with
  | EmptyString => None
  | String c s' =>
      if p c then
        match matchCapPlus p k s' with
        | Some m => Some (capture c m)
        | None => option_map (capture c) (k s')
        end
      else None
  end.

Definition matchOne (p : ascii -> bool) (k : string -> option found) (s : string)
  : option found :=
  match s with
  | EmptyString => None
  | String c s' => if p c then option_map (consume c) (k s') else None
  end.

Fixpoint matchSeq (items : list item) (s : string) {struct items} : option found :=
  match items with
  | [] => Some {| pre := EmptyString; cap := None; post := EmptyString; rest := s |}
  | Exact l :: items' => matchExact l (matchSeq items') s
  | Lit l :: items' => matchLit l (matchSeq items') s
  | Cls p :: items' => matchOne p (matchSeq items') s
  | Star p :: items' => matchStar p (matchSeq items') s
  | Plus p :: items' => matchOne p (matchStar p (matchSeq items')) s
  | Opt p :: items' =>
      match matchOne p (matchSeq items') s with
      | Some m => Some m
      | None => matchSeq items' s
      end
  | CapPlus p :: items' => matchCapPlus p (matchSeq items') s
  end.

(** [s.replace(/re/gi, callback)]: leftmost matches, each replaced by
    [callback pre cap post]; the scan resumes after the match.  Every
    expression here matches at least one character, so [String.length s]
    rounds are enough. *)
Fixpoint replaceFrom (fuel : nat) (re : list item)
    (callback : string -> string -> string -> string) (s : string) : string :=
  match fuel with
  | O => s
  | S fuel' =>
      match s with
      | EmptyString => EmptyString
      | String c s' =>
          match matchSeq re s with
          | Some m =>
              callback (pre m) (match cap m with Some t => t | None => EmptyString end) (post m)
              +:+ (if (String.length (rest m) <? String.length s)%nat
                   then replaceFrom fuel' re callback (rest m)
                   else rest m)
          | None => String c (replaceFrom fuel' re callback s')
          end
      end
  end.

(** [s.match(/re/)]: the leftmost match. *)
Fixpoint firstMatch (re : list item) (s : string) : option found :=
  match matchSeq re s with
  | Some m => Some m
  | None =>
      match s with
      | EmptyString => None
      | String _ s' => firstMatch re s'
      end
  end.

Definition replace (re : list item) (callback : string -> string -> string -> string)
    (s : string) : string :=
  replaceFrom (String.length s) re callback s.

End Regex.

(** ** 4.C Content rewriter: [toProxyUrl] of [rewriteUrls], and [rewriteCss] *)

Module Rewriter.

Import Regex.

(** The double-quote character. *)
Definition dquote : ascii := "034"%char.
Definition dq : string := String dquote EmptyString.

Definition isQuote (c : ascii) : bool := Ascii.eqb c dquote || Ascii.eqb c "'".
Definition notQuote (c : ascii) : bool := negb (isQuote c).
Definition notQuoteParen (c : ascii) : bool := notQuote c && negb (Ascii.eqb c ")").
Definition notGt (c : ascii) : bool := negb (Ascii.eqb c ">").

(** [p.substring(0, p.lastIndexOf('/') + 1)] *)
Fixpoint dirOf (p : string) : string :=
  match p with
  | EmptyString => EmptyString
  | String c p' =>
      if Js.includes p' "/" then String c (dirOf p')
      else if Ascii.eqb c "/" then String c EmptyString
      else EmptyString
  end.

Section Rewrite.

Variable newURL : string -> option URL.

(** The parsed [baseUrl] and the public origin of the proxy. *)
Variable base : URL.
Variable proxyOrigin : string.

(** The absolute form of a reference, as each rewriter computes it. *)
Definition absolutise (url : string) : string :=
  if Js.startsWith url "//" then protocol base +:+ url
  else if Js.startsWith url "/" then origin base +:+ url
  else if negb (Js.includes url "://") then origin base +:+ dirOf (pathname base) +:+ url
  else url.

(** [proxyOrigin + path + query + '__cpo=' + encodeUrl(absolute)] *)
Definition proxied (absolute : string) : string :=
  match newURL absolute with
  | Some targetUrl =>
      proxyOrigin +:+ pathname targetUrl
        +:+ (if Js.truthy (search targetUrl) then search targetUrl +:+ "&" else "?")
        +:+ "__cpo=" +:+ Codec.encodeUrl absolute
  | None => proxyOrigin +:+ "/?__cpo=" +:+ Codec.encodeUrl absolute
  end.

(** The [toProxyUrl] helper of [rewriteUrls]. *)
Definition toProxyUrl (url : string) : string :=
  if negb (Js.truthy url) || Js.startsWith url "data:" || Js.startsWith url "blob:"
     || Js.startsWith url "javascript:" || Js.startsWith url "#"
  then url
  else proxied (absolutise url).

(** Step 1 of [rewriteUrls], the [href] of an anchor: [<a], at least one
    space, characters other than [>], [href], [=] between optional spaces, a
    quote, the captured run of characters other than quotes, a quote. *)
Definition anchorHref : list item :=
  [Lit "<a"; Plus ws; Star notGt; Lit "href"; Star ws; Lit "="; Star ws;
   Cls isQuote; CapPlus notQuote; Cls isQuote].

Definition rewriteAnchors (html : string) : string :=
  replace anchorHref (fun prefix url suffix => prefix +:+ toProxyUrl url +:+ suffix) html.

(** The [url(...)] expression of [rewriteCss] and of step 9 of
    [rewriteUrls]: [url], spaces, an opening parenthesis, spaces, an optional
    quote, the captured run of characters other than quotes and [)], an
    optional quote, spaces, the closing parenthesis. *)
Definition cssUrl : list item :=
  [Lit "url"; Star ws; Lit "("; Star ws; Opt isQuote; CapPlus notQuoteParen;
   Opt isQuote; Star ws; Lit ")"].

(** The [@import] expression of [rewriteCss]: [@import], at least one space,
    a quote, the captured run of characters other than quotes, a quote. *)
Definition cssImport : list item :=
  [Lit "@import"; Plus ws; Cls isQuote; CapPlus notQuote; Cls isQuote].

(** [rewriteCss(content, baseUrl, proxyOrigin)] *)
Definition rewriteCss (content : string) : string :=
  let css :=
    replace cssUrl
      (fun before url after =>
         if Js.startsWith url "data:" then before +:+ url +:+ after
         else "url(" +:+ dq +:+ proxied (absolutise url) +:+ dq +:+ ")")
      content in
  replace cssImport
    (fun _ url _ => "@import " +:+ dq +:+ proxied (absolutise url) +:+ dq)
    css.

End Rewrite.

(** The guard of the client-side [toProxyUrl] injected by the same file:
    [if (s.includes('__cpo=')) return s;]. *)
Definition alreadyProxied (s : string) : bool := Js.includes s "__cpo=".

End Rewriter.

(** ** 4.E Request router: the target of a [__cpo] request *)

Module Router.

Import Regex.

(** What the handler reads of the incoming request. *)
Record Request := mkRequest {
  h_referer : option string;          (* req.headers['referer'] *)
  h_forwardedFor : option string;     (* req.headers['x-forwarded-for'] *)
  remoteAddress : option string       (* req.socket.remoteAddress *)
}.

(** [req.headers['x-forwarded-for'] || req.socket.remoteAddress || 'default'] *)
Definition clientIdOf (req : Request) : string :=
  Js.orElse (h_forwardedFor req) (Js.orElse (remoteAddress req) "default").

(** The class [A-Za-z0-9+/=_-] of the referer expression. *)
Definition tokenChar (c : ascii) : bool :=
  let n := nat_of_ascii c in
  ((65 <=? n)%nat && (n <=? 90)%nat) || ((97 <=? n)%nat && (n <=? 122)%nat)
  || ((48 <=? n)%nat && (n <=? 57)%nat)
  || Ascii.eqb c "+" || Ascii.eqb c "/" || Ascii.eqb c "=" || Ascii.eqb c "_"
  || Ascii.eqb c "-".

(** [/__cpo=([A-Za-z0-9+/=_-]+)/] *)
Definition refererCpo : list item := [Exact "__cpo="; CapPlus tokenChar].

Definition pointsAtLocalhost (targetUrl : string) : bool :=
  Js.includes targetUrl "localhost:" || Js.includes targetUrl "127.0.0.1:".

Section Route.

Variable newURL : string -> option URL.

(** The body of the [try] block that resolves a localhost target.  The
    result is the value of [targetUrl] when the block is left, whether at
    its end or through the [catch]. *)
Definition resolveLocalhost (req : Request) (sessionBaseUrls : gmap string string)
    (targetUrl : string) : string :=
  match newURL targetUrl with
  | None => targetUrl
  | Some localUrl =>
      let localPath := pathname localUrl +:+ search localUrl in
      let referer := Js.orElse (h_referer req) "" in
      let fromReferer : option string :=      (* None: [new URL] threw *)
        match firstMatch refererCpo referer with
        | Some m =>
            match Codec.decodeUrl newURL (default "" (cap m)) with
            | Some refererBase =>
                if Js.truthy refererBase && negb (Js.includes refererBase "localhost")
                then option_map (fun realBase => origin realBase +:+ localPath)
                                (newURL refererBase)
                else Some targetUrl
            | None => Some targetUrl
            end
        | None => Some targetUrl
        end in
      match fromReferer with
      | None => targetUrl
      | Some targetUrl1 =>
          if Js.includes targetUrl1 "localhost" then
            match sessionBaseUrls !! clientIdOf req with
            | Some sessionBase =>
                if Js.truthy sessionBase && negb (Js.includes sessionBase "localhost")
                then match newURL sessionBase with
                     | Some realBase => origin realBase +:+ localPath
                     | None => targetUrl1
                     end
                else targetUrl1
            | None => targetUrl1
            end
          else targetUrl1
      end
  end.

(** What the [__cpo] branch of the handler does up to its [fetchUrl] call. *)
Inductive Routed :=
| BadRequest400
| Fetch (targetUrl : string) (sessionBaseUrls : gmap string string).

Definition routeCpo (req : Request) (sessionBaseUrls : gmap string string)
    (cpoParam : string) : Routed :=
  match Codec.decodeUrl newURL cpoParam with
  | None => BadRequest400
  | Some targetUrl =>
      let targetUrl :=
        if pointsAtLocalhost targetUrl
        then resolveLocalhost req sessionBaseUrls targetUrl
        else targetUrl in
      Fetch targetUrl (<[clientIdOf req := targetUrl]> sessionBaseUrls)
  end.

(** The guard of the relative fall-through branch of the same handler:
    [base.hostname === 'localhost' || base.hostname === '127.0.0.1']. *)
Definition isLoopbackHost (u : URL) : bool :=
  String.eqb (hostname u) "localhost" || String.eqb (hostname u) "127.0.0.1".

End Route.

(** *** The relative fall-through branch

    A request without [__cpo] that is not the home page: a reference of a
    proxied page that was not rewritten.  It is resolved against the base
    read from the referer or stored for the client. *)

(** The class [A-Za-z0-9_-]. *)
Definition cpoChar (c : ascii) : bool :=
  let n := nat_of_ascii c in
  ((65 <=? n)%nat && (n <=? 90)%nat) || ((97 <=? n)%nat && (n <=? 122)%nat)
  || ((48 <=? n)%nat && (n <=? 57)%nat) || Ascii.eqb c "_" || Ascii.eqb c "-".

Definition isQueryMark (c : ascii) : bool := Ascii.eqb c "?" || Ascii.eqb c "&".

(** [/[?&]__cpo=([A-Za-z0-9_-]+)/] *)
Definition relativeCpo : list item := [Cls isQueryMark; Exact "__cpo="; CapPlus cpoChar].

(** What the branch does up to its [fetchUrl] call: the URL it fetches and
    the referer it sends, or the 404 at the end of the handler. *)
Inductive RelativeRouted :=
| NotFound404
| FetchRelative (fullUrl : string) (referer : string).

(** What the handler does with a request, up to the fetch. *)
Inductive Handled :=
| Preflight200
| HomePage
| CpoRequest (r : Routed)
| RelativeRequest (r : RelativeRouted).

Section Relative.

Variable newURL : string -> option URL.

(** [new URL(rel, base).href] *)
Variable resolveHref : string -> string -> option string.

(** The value of [baseUrl] before [if (baseUrl)]. *)
Definition baseOf (req : Request) (sessionBaseUrls : gmap string string) : option string :=
  let fromReferer : option string :=
    match h_referer req with
    | Some referer =>
        if Js.truthy referer && Js.includes referer "__cpo=" then
          match firstMatch relativeCpo referer with
          | Some m => Codec.decodeUrl newURL (default "" (cap m))
          | None => None
          end
        else None
    | None => None
    end in
  if Js.truthyOpt fromReferer then fromReferer
  else
    match sessionBaseUrls !! clientIdOf req with
    | Some sessionBase => Some sessionBase
    | None => fromReferer
    end.

Definition routeRelative (req : Request) (sessionBaseUrls : gmap string string)
    (reqUrl : string) : RelativeRouted :=
  match baseOf req sessionBaseUrls with
  | Some baseUrl =>
      if Js.truthy baseUrl then
        match newURL baseUrl with
        | Some base =>
            if isLoopbackHost base then NotFound404
            else
              match resolveHref reqUrl (origin base) with
              | Some fullUrl => FetchRelative fullUrl baseUrl
              | None => NotFound404
              end
        | None => NotFound404
        end
      else NotFound404
  | None => NotFound404
  end.

(** The handler, up to the fetch: [reqUrl] is [req.url] and [cpoParam] the
    value of [urlObj.searchParams.get('__cpo')].  The second component is
    [sessionBaseUrls] afterwards. *)
Definition handle (method reqUrl : string) (cpoParam : option string) (req : Request)
    (sessionBaseUrls : gmap string string) : Handled * gmap string string :=
  if String.eqb method "OPTIONS" then (Preflight200, sessionBaseUrls)
  else if String.eqb reqUrl "/" || String.eqb reqUrl "" then (HomePage, sessionBaseUrls)
  else if Js.truthyOpt cpoParam then
    match routeCpo newURL req sessionBaseUrls (default "" cpoParam) with
    | BadRequest400 => (CpoRequest BadRequest400, sessionBaseUrls)
    | Fetch targetUrl sessionBaseUrls' =>
        (CpoRequest (Fetch targetUrl sessionBaseUrls'), sessionBaseUrls')
    end
  else (RelativeRequest (routeRelative req sessionBaseUrls reqUrl), sessionBaseUrls).

End Relative.

End Router.

(** ** 4.F-4.I Browser-session broker ([browser-sessions/server.js]) *)

Module Broker.

Local Open Scope Z_scope.

(** *** Data *)

(** An element of the [BROWSERS] array.  A browser object is referred to by
    its position in the array. *)
Record Browser := mkBrowser {
  id : Z;
  port : Z;
  audioPort : Z;
  host : string;
  inUse : bool;
  lastUsed : option Z;
  lastHeartbeat : option Z;
  userId : option string;
  sessionId : option string;
  clientId : option string
}.

(** A value of the [sessions] map. *)
Record Session := mkSession {
  s_browserId : Z;
  s_clientId : option string;
  createdAt : option Z;
  lastActivity : option Z
}.

(** A value of [activeConnections]. *)
Record Conn := mkConn {
  count : Z;
  lastDisconnect : option Z
}.

(** A value of [urlTokens]. *)
Record UrlEntry := mkUrlEntry {
  u_browserId : Z;
  u_cookieToken : string;
  u_createdAt : Z
}.

(** What [syncBrowserToFirebase] writes at [nebula/browsers/state/<id>]. *)
Record MirrorEntry := mkMirrorEntry {
  m_inUse : bool;
  m_clientId : option string;
  m_sessionId : option string;
  m_lastUsed : option Z;
  m_lastHeartbeat : option Z
}.

(** The module-level state of the server.  [sessions] keeps the insertion
    order of the JavaScript [Map], which [doReleaseBrowser] and the heartbeat
    handler iterate.  [mirror] is the list of state writes issued to the
    realtime database, oldest first, or [None] when [db] is [null].  [drawn]
    counts the calls of [generateSecureToken]. *)
Record State := mkState {
  BROWSERS : list Browser;
  sessions : list (string * Session);
  clientSessions : gmap string Z;
  activeConnections : gmap Z Conn;
  browserTokens : gmap Z string;
  tokenToBrowser : gmap string Z;
  urlTokens : gmap string UrlEntry;
  mirror : option (list (Z * MirrorEntry));
  drawn : nat
}.

Definition SESSION_TIMEOUT_MS : Z := 5 * 60 * 1000.
Definition WS_PRESENCE_TIMEOUT_MS : Z := 2 * 60 * 1000.

Definition slot (n : Z) : Browser :=
  {| id := n; port := 6900 + n; audioPort := 4900 + n; host := "localhost";
     inUse := false; lastUsed := None; lastHeartbeat := None;
     userId := None; sessionId := None; clientId := None |}.

Definition initialBrowsers : list Browser := map slot [1; 2; 3; 4; 5; 6; 7; 8; 9; 10].

(** The state at start, before any restore from the mirror. *)
Definition initial (db : bool) : State :=
  {| BROWSERS := initialBrowsers; sessions := []; clientSessions := ∅;
     activeConnections := ∅; browserTokens := ∅; tokenToBrowser := ∅;
     urlTokens := ∅; mirror := if db then Some [] else None; drawn := 0 |}.

(** *** Field updates *)

Definition setBrowsers (v : list Browser) (st : State) : State :=
  {| BROWSERS := v; sessions := sessions st; clientSessions := clientSessions st;
     activeConnections := activeConnections st; browserTokens := browserTokens st;
     tokenToBrowser := tokenToBrowser st; urlTokens := urlTokens st;
     mirror := mirror st; drawn := drawn st |}.

Definition setSessions (v : list (string * Session)) (st : State) : State :=
  {| BROWSERS := BROWSERS st; sessions := v; clientSessions := clientSessions st;
     activeConnections := activeConnections st; browserTokens := browserTokens st;
     tokenToBrowser := tokenToBrowser st; urlTokens := urlTokens st;
     mirror := mirror st; drawn := drawn st |}.

Definition setClientSessions (v : gmap string Z) (st : State) : State :=
  {| BROWSERS := BROWSERS st; sessions := sessions st; clientSessions := v;
     activeConnections := activeConnections st; browserTokens := browserTokens st;
     tokenToBrowser := tokenToBrowser st; urlTokens := urlTokens st;
     mirror := mirror st; drawn := drawn st |}.

Definition setActiveConnections (v : gmap Z Conn) (st : State) : State :=
  {| BROWSERS := BROWSERS st; sessions := sessions st; clientSessions := clientSessions st;
     activeConnections := v; browserTokens := browserTokens st;
     tokenToBrowser := tokenToBrowser st; urlTokens := urlTokens st;
     mirror := mirror st; drawn := drawn st |}.

Definition setBrowserTokens (v : gmap Z string) (st : State) : State :=
  {| BROWSERS := BROWSERS st; sessions := sessions st; clientSessions := clientSessions st;
     activeConnections := activeConnections st; browserTokens := v;
     tokenToBrowser := tokenToBrowser st; urlTokens := urlTokens st;
     mirror := mirror st; drawn := drawn st |}.

Definition setTokenToBrowser (v : gmap string Z) (st : State) : State :=
  {| BROWSERS := BROWSERS st; sessions := sessions st; clientSessions := clientSessions st;
     activeConnections := activeConnections st; browserTokens := browserTokens st;
     tokenToBrowser := v; urlTokens := urlTokens st;
     mirror := mirror st; drawn := drawn st |}.

Definition setUrlTokens (v : gmap string UrlEntry) (st : State) : State :=
  {| BROWSERS := BROWSERS st; sessions := sessions st; clientSessions := clientSessions st;
     activeConnections := activeConnections st; browserTokens := browserTokens st;
     tokenToBrowser := tokenToBrowser st; urlTokens := v;
     mirror := mirror st; drawn := drawn st |}.

Definition setMirror (v : option (list (Z * MirrorEntry))) (st : State) : State :=
  {| BROWSERS := BROWSERS st; sessions := sessions st; clientSessions := clientSessions st;
     activeConnections := activeConnections st; browserTokens := browserTokens st;
     tokenToBrowser := tokenToBrowser st; urlTokens := urlTokens st;
     mirror := v; drawn := drawn st |}.

Definition setDrawn (v : nat) (st : State) : State :=
  {| BROWSERS := BROWSERS st; sessions := sessions st; clientSessions := clientSessions st;
     activeConnections := activeConnections st; browserTokens := browserTokens st;
     tokenToBrowser := tokenToBrowser st; urlTokens := urlTokens st;
     mirror := mirror st; drawn := v |}.

(** Assignment to the fields of the browser object at position [i]. *)
Definition updateBrowser (i : nat) (f : Browser -> Browser) (st : State) : State :=
  setBrowsers (alter f i (BROWSERS st)) st.

Definition withHeartbeat (t : option Z) (b : Browser) : Browser :=
  {| id := id b; port := port b; audioPort := audioPort b; host := host b;
     inUse := inUse b; lastUsed := lastUsed b; lastHeartbeat := t;
     userId := userId b; sessionId := sessionId b; clientId := clientId b |}.

(** The assignments of the new-session branch of [assignBrowser]. *)
Definition claimed (sid cid : string) (now : Z) (b : Browser) : Browser :=
  {| id := id b; port := port b; audioPort := audioPort b; host := host b;
     inUse := true; lastUsed := Some now; lastHeartbeat := Some now;
     userId := Some sid; sessionId := Some sid; clientId := Some cid |}.

(** The assignments at the end of [doReleaseBrowser]. *)
Definition released (b : Browser) : Browser :=
  {| id := id b; port := port b; audioPort := audioPort b; host := host b;
     inUse := false; lastUsed := lastUsed b; lastHeartbeat := None;
     userId := None; sessionId := None; clientId := None |}.

(** *** JavaScript values met by the handlers *)

(** [x || null] on a possibly empty string. *)
Definition orNull (o : option string) : option string :=
  match o with
  | Some s => if Js.truthy s then Some s else None
  | None => None
  end.

(** [x || null] on a timestamp: [0] is falsy. *)
Definition orNullZ (o : option Z) : option Z :=
  match o with
  | Some t => if t =? 0 then None else Some t
  | None => None
  end.

(** [a || b || 0] on timestamps. *)
Definition firstTime (a b : option Z) : Z :=
  match orNullZ a with
  | Some t => t
  | None => default 0 (orNullZ b)
  end.

(** A field of a parsed JSON body.  [JNumber n] is a number that is an
    integer below [10^21] in absolute value: its text, which [parseInt]
    reads, is then the decimal spelling of [n].  Fractions and larger
    numbers are not among these values; the handlers treat them as they
    treat the number [parseInt] makes of them, or as a missing field. *)
Inductive JsValue :=
| JUndefined
| JNull
| JBool (b : bool)
| JNumber (n : Z)
| JString (s : string)
| JObject.

Definition jsTruthy (v : JsValue) : bool :=
  match v with
  | JUndefined | JNull => false
  | JBool b => b
  | JNumber n => negb (n =? 0)
  | JString s => Js.truthy s
  | JObject => true
  end.

(** [parseInt(s, 10)] on a string: leading blanks, an optional sign, then
    digits; [None] is [NaN]. *)
Definition parseInt10 (s : string) : option Z :=
  let s := Js.trimStart s in
  let '(neg, s) :=
    match s with
    | String c s' =>
        if Ascii.eqb c "-" then (true, s')
        else if Ascii.eqb c "+" then (false, s') else (false, s)
    | EmptyString => (false, s)
    end in
  let ds := Js.takeWhile Js.isDigit s in
  if Js.truthy ds
  then Some (if neg then - Js.digitsValue ds else Js.digitsValue ds)
  else None.

(** [parseInt(v, 10)] on a body field: the integer that the text of the
    value begins with.  For a number of the model, an integer below
    [10^21], this is the number itself. *)
Definition parseIntValue (v : JsValue) : option Z :=
  match v with
  | JNumber n => Some n
  | JString s => parseInt10 s
  | _ => None
  end.

(** *** The ordered [sessions] map *)

(** [sessions.set(k, v)]: an existing key keeps its place. *)
Fixpoint sessionsSet (k : string) (v : Session) (m : list (string * Session))
  : list (string * Session) :=
  match m with
  | [] => [(k, v)]
  | (k', v') :: m' =>
      if String.eqb k' k then (k, v) :: m' else (k', v') :: sessionsSet k v m'
  end.

(** [sessions.get(k)] *)
Fixpoint sessionsGet (k : string) (m : list (string * Session)) : option Session :=
  match m with
  | [] => None
  | (k', v') :: m' => if String.eqb k' k then Some v' else sessionsGet k m'
  end.

(** The loop of [doReleaseBrowser] over [sessions]: the first session of the
    browser is deleted, then the loop breaks. *)
Fixpoint deleteFirstSessionOf (browserId : Z) (m : list (string * Session))
  : list (string * Session) :=
  match m with
  | [] => []
  | (k, s) :: m' =>
      if s_browserId s =? browserId then m'
      else (k, s) :: deleteFirstSessionOf browserId m'
  end.

(** The loop of the heartbeat handler: the first session of the browser gets
    [lastActivity = now], then the loop breaks. *)
Fixpoint touchFirstSessionOf (browserId now : Z) (m : list (string * Session))
  : list (string * Session) :=
  match m with
  | [] => []
  | (k, s) :: m' =>
      if s_browserId s =? browserId
      then (k, {| s_browserId := s_browserId s; s_clientId := s_clientId s;
                  createdAt := createdAt s; lastActivity := Some now |}) :: m'
      else (k, s) :: touchFirstSessionOf browserId now m'
  end.

(** *** Requests *)

(** What the handlers read of an incoming request. *)
Record Request := mkRequest {
  method : string;
  path : string;                          (* url.pathname *)
  query : list (string * string);         (* url.searchParams *)
  rawSearch : string;                     (* url.search *)
  cookieHeader : option string;           (* req.headers.cookie *)
  forwardedFor : option string;           (* req.headers['x-forwarded-for'] *)
  socketAddress : option string;          (* req.socket.remoteAddress *)
  userAgent : option string;              (* req.headers['user-agent'] *)
  wsKey : option string;                  (* req.headers['sec-websocket-key'] *)
  forwardedProto : option string;         (* req.headers['x-forwarded-proto'] *)
  forwardedHost : option string;          (* req.headers['x-forwarded-host'] *)
  hostHeader : option string              (* req.headers.host *)
}.

(** [url.searchParams.get(name)] *)
Fixpoint searchParamsGet (name : string) (q : list (string * string)) : option string :=
  match q with
  | [] => None
  | (k, v) :: q' => if String.eqb k name then Some v else searchParamsGet name q'
  end.

(** [cleanSearch.delete(name)] *)
Definition searchParamsDelete (name : string) (q : list (string * string))
  : list (string * string) :=
  List.filter (fun kv => negb (String.eqb (fst kv) name)) q.

(** [cookies[name] = value] on the plain object [cookies], of which the
    map holds the own properties.  The name [__proto__] is the accessor of
    [Object.prototype]: assigning a string to it changes nothing. *)
Definition setProperty (name value : string) (cookies : gmap string string)
  : gmap string string :=
  if String.eqb name "__proto__" then cookies else <[name := value]> cookies.

(** [parseCookies(req)]: the header is split at [;], each piece trimmed and
    split at [=]; a piece whose name and value are both non-empty sets
    [cookies[name] = value].  The two names the server reads from the
    result, [nebula_session] and [nebula_browser], are no properties of
    [Object.prototype], so reading them is a lookup in the map. *)
Definition parseCookies (req : Request) : gmap string string :=
  match cookieHeader req with
  | Some h =>
      if Js.truthy h then
        fold_left
          (fun cookies cookie =>
             match Js.split "=" (Js.trim cookie) with
             | name :: value :: _ =>
                 if Js.truthy name && Js.truthy value
                 then setProperty name value cookies else cookies
             | _ => cookies
             end)
          (Js.split ";" h) ∅
      else ∅
  | None => ∅
  end.

(** [parseBrowserPath(pathname)]: [/browser/], digits, then nothing or a
    rest that starts with [/] and has no line break. *)
Definition isLineBreak (c : ascii) : bool :=
  Ascii.eqb c "010" || Ascii.eqb c "013".

Definition parseBrowserPath (pathname : string) : option (Z * string) :=
  if Js.startsWith pathname "/browser/" then
    let tail := Js.drop 9 pathname in
    let digits := Js.takeWhile Js.isDigit tail in
    let remaining := Js.dropWhile Js.isDigit tail in
    if Js.truthy digits then
      match remaining with
      | EmptyString => Some (Js.digitsValue digits, "/")
      | String c _ =>
          if Ascii.eqb c "/"
             && String.eqb (Js.takeWhile (fun x => negb (isLineBreak x)) remaining) remaining
          then Some (Js.digitsValue digits, remaining)
          else None
      end
    else None
  else None.

(** *** Slots *)

(** [BROWSERS.find(b => b.id === id)], as a position. *)
Definition getBrowserById (st : State) (browserId : Z) : option nat :=
  fst <$> list_find (fun b => id b = browserId) (BROWSERS st).

(** [BROWSERS.find(b => !b.inUse)], as a position. *)
Definition findAvailableBrowser (st : State) : option nat :=
  fst <$> list_find (fun b => inUse b = false) (BROWSERS st).

(** [BROWSERS.filter(b => b.inUse).length] *)
Definition inUseCount (st : State) : nat :=
  length (List.filter inUse (BROWSERS st)).

(** [syncBrowserToFirebase(browser)]: the state write it issues; the summary
    write that follows it is not part of this model. *)
Definition snapshot (b : Browser) : MirrorEntry :=
  {| m_inUse := inUse b;
     m_clientId := orNull (clientId b);
     m_sessionId := orNull (sessionId b);
     m_lastUsed := orNullZ (lastUsed b);
     m_lastHeartbeat := orNullZ (lastHeartbeat b) |}.

Definition syncBrowserToFirebase (i : nat) (st : State) : State :=
  match mirror st, BROWSERS st !! i with
  | Some log, Some b => setMirror (Some (log ++ [(id b, snapshot b)])%list) st
  | _, _ => st
  end.

(** [findBrowserByClientId(clientId)]; a stale mapping is deleted. *)
Definition findBrowserByClientId (cid : string) (st : State) : option nat * State :=
  if negb (Js.truthy cid) then (None, st)
  else
    match clientSessions st !! cid with
    | None => (None, st)
    | Some browserId =>
        if browserId =? 0 then (None, st)
        else
          let stale := (None, setClientSessions (delete cid (clientSessions st)) st) in
          match getBrowserById st browserId with
          | Some i =>
              match BROWSERS st !! i with
              | Some b =>
                  if inUse b && bool_decide (clientId b = Some cid)
                  then (Some i, st) else stale
              | None => stale
              end
          | None => stale
          end
    end.

(** *** Tokens *)

Section Tokens.

(** [secureToken n] is what the [n]-th call of [generateSecureToken] returns:
    the hexadecimal spelling of 32 random bytes. *)
Variable secureToken : nat -> string.

Definition generateSecureToken (st : State) : string * State :=
  (secureToken (drawn st), setDrawn (S (drawn st)) st).

(** [createSessionTokens(browserId)] *)
Definition createSessionTokens (browserId now : Z) (st : State)
  : (string * string) * State :=
  let st :=
    match browserTokens st !! browserId with
    | Some oldCookieToken =>
        if Js.truthy oldCookieToken
        then setTokenToBrowser (delete oldCookieToken (tokenToBrowser st)) st
        else st
    | None => st
    end in
  let '(cookieToken, st) := generateSecureToken st in
  let '(urlToken, st) := generateSecureToken st in
  let st := setBrowserTokens (<[browserId := cookieToken]> (browserTokens st)) st in
  let st := setTokenToBrowser (<[cookieToken := browserId]> (tokenToBrowser st)) st in
  let st :=
    setUrlTokens
      (<[urlToken := {| u_browserId := browserId; u_cookieToken := cookieToken;
                        u_createdAt := now |}]> (urlTokens st)) st in
  ((cookieToken, urlToken), st).

(** [createUrlToken(browserId)]; [None] is [null]. *)
Definition createUrlToken (browserId now : Z) (st : State) : option string * State :=
  match browserTokens st !! browserId with
  | Some cookieToken =>
      if Js.truthy cookieToken then
        let '(urlToken, st) := generateSecureToken st in
        (Some urlToken,
         setUrlTokens
           (<[urlToken := {| u_browserId := browserId; u_cookieToken := cookieToken;
                             u_createdAt := now |}]> (urlTokens st)) st)
      else (None, st)
  | None => (None, st)
  end.

(** The "ensure cookie token exists" block of [assignBrowser] and of the
    check-session handler. *)
Definition ensureCookieToken (browserId : Z) (st : State) : string * State :=
  match orNull (browserTokens st !! browserId) with
  | Some cookieToken => (cookieToken, st)
  | None =>
      let '(cookieToken, st) := generateSecureToken st in
      let st := setBrowserTokens (<[browserId := cookieToken]> (browserTokens st)) st in
      (cookieToken, setTokenToBrowser (<[cookieToken := browserId]> (tokenToBrowser st)) st)
  end.

(** [validateBrowserAccess(req, browserId)] *)
Definition validateBrowserAccess (st : State) (req : Request) (browserId : Z) : bool :=
  match parseCookies req !! "nebula_session" with
  | Some token =>
      if Js.truthy token
      then bool_decide (tokenToBrowser st !! token = Some browserId)
      else false
  | None => false
  end.

(** [cleanupUrlTokens()] *)
Definition cleanupUrlTokens (now : Z) (st : State) : State :=
  setUrlTokens
    (filter (fun kv => ¬ (now - u_createdAt (snd kv) > 5 * 60 * 1000)) (urlTokens st)) st.

(** *** Release *)

(** [doReleaseBrowser(browser, reason)] on the browser at position [i]. *)
Definition doReleaseBrowser (i : nat) (st : State) : State :=
  match BROWSERS st !! i with
  | None => st
  | Some browser =>
      if negb (inUse browser) then st
      else
        let st := setSessions (deleteFirstSessionOf (id browser) (sessions st)) st in
        let st :=
          match orNull (clientId browser) with
          | Some cid => setClientSessions (delete cid (clientSessions st)) st
          | None => st
          end in
        let st :=
          match orNull (browserTokens st !! id browser) with
          | Some oldToken =>
              setBrowserTokens (delete (id browser) (browserTokens st))
                (setTokenToBrowser (delete oldToken (tokenToBrowser st)) st)
          | None => st
          end in
        let st :=
          setUrlTokens
            (filter (fun kv => u_browserId (snd kv) ≠ id browser) (urlTokens st)) st in
        let st := updateBrowser i released st in
        let st := setActiveConnections (delete (id browser) (activeConnections st)) st in
        syncBrowserToFirebase i st
  end.

(** One round of the loop of [cleanupSessions] on the browser at [i]. *)
Definition reapBrowser (now : Z) (st : State) (i : nat) : State :=
  match BROWSERS st !! i with
  | None => st
  | Some browser =>
      if negb (inUse browser) then st
      else
        let lastHb := firstTime (lastHeartbeat browser) (lastUsed browser) in
        if negb (lastHb =? 0) && (now - lastHb >? SESSION_TIMEOUT_MS)
        then doReleaseBrowser i st
        else
          let conn := activeConnections st !! id browser in
          let idle :=
            match conn with
            | None => true
            | Some c => count c <=? 0
            end in
          if idle then
            let disconnectTime :=
              firstTime (conn ≫= lastDisconnect) (lastUsed browser) in
            let assignAge := now - default 0 (lastUsed browser) in
            if (assignAge >? 60000) && negb (disconnectTime =? 0)
               && (now - disconnectTime >? WS_PRESENCE_TIMEOUT_MS)
            then doReleaseBrowser i st
            else st
          else st
  end.

(** [cleanupSessions()] *)
Definition cleanupSessions (now : Z) (st : State) : State :=
  fold_left (reapBrowser now) (seq 0 (length (BROWSERS st))) st.

(** [trackWsConnect(browserId)] *)
Definition trackWsConnect (browserId now : Z) (st : State) : State :=
  let conn := default {| count := 0; lastDisconnect := None |}
                      (activeConnections st !! browserId) in
  let st :=
    setActiveConnections
      (<[browserId := {| count := count conn + 1; lastDisconnect := None |}]>
         (activeConnections st)) st in
  match getBrowserById st browserId with
  | Some i =>
      match BROWSERS st !! i with
      | Some b => if inUse b then updateBrowser i (withHeartbeat (Some now)) st else st
      | None => st
      end
  | None => st
  end.

(** [trackWsDisconnect(browserId)] *)
Definition trackWsDisconnect (browserId now : Z) (st : State) : State :=
  match activeConnections st !! browserId with
  | Some conn =>
      let n := Z.max 0 (count conn - 1) in
      setActiveConnections
        (<[browserId := {| count := n;
                           lastDisconnect := if n =? 0 then Some now
                                             else lastDisconnect conn |}]>
           (activeConnections st)) st
  | None => st
  end.

(** *** Assignment *)

(** The value [assignBrowser] returns; [a_browser] is a position. *)
Record Assigned := mkAssigned {
  a_browser : nat;
  a_existing : bool;
  a_cookieToken : string;
  a_urlToken : option string
}.

(** [assignBrowser(sessionId, clientId)] *)
Definition assignBrowser (sid cid : string) (now : Z) (st : State)
  : option Assigned * State :=
  let '(found, st) := findBrowserByClientId cid st in
  match found with
  | Some i =>
      let bid := default 0 (id <$> BROWSERS st !! i) in
      let st := updateBrowser i (withHeartbeat (Some now)) st in
      let st :=
        setSessions
          (sessionsSet sid {| s_browserId := bid; s_clientId := Some cid;
                              createdAt := Some now; lastActivity := Some now |}
                       (sessions st)) st in
      let st := syncBrowserToFirebase i st in
      let '(cookieToken, st) := ensureCookieToken bid st in
      let '(urlToken, st) := createUrlToken bid now st in
      (Some {| a_browser := i; a_existing := true;
               a_cookieToken := cookieToken; a_urlToken := urlToken |}, st)
  | None =>
      match findAvailableBrowser st with
      | None => (None, st)
      | Some i =>
          let bid := default 0 (id <$> BROWSERS st !! i) in
          let st := updateBrowser i (claimed sid cid now) st in
          let st :=
            setSessions
              (sessionsSet sid {| s_browserId := bid; s_clientId := Some cid;
                                  createdAt := Some now; lastActivity := Some now |}
                           (sessions st)) st in
          let st :=
            if Js.truthy cid
            then setClientSessions (<[cid := bid]> (clientSessions st)) st
            else st in
          let st :=
            setActiveConnections
              (<[bid := {| count := 0; lastDisconnect := None |}]>
                 (activeConnections st)) st in
          let '((cookieToken, urlToken), st) := createSessionTokens bid now st in
          let st := syncBrowserToFirebase i st in
          (Some {| a_browser := i; a_existing := false;
                   a_cookieToken := cookieToken; a_urlToken := Some urlToken |}, st)
      end
  end.

(** *** The browser proxy route of the HTTP handler *)

(** The two [Set-Cookie] lines the handler writes:
    [nebula_session=<token>; Path=/; HttpOnly; SameSite=Lax; Max-Age=86400]
    and [nebula_browser=<id>; ...] with the same attributes. *)
Inductive Cookie :=
| SessionCookie (token : string)
| BrowserCookie (browserId : Z).

Inductive HttpReply :=
| NoContent204                    (* CORS preflight *)
| NotFound404                     (* no such browser *)
| Forbidden403                    (* access denied *)
| Proxied (setCookie : list Cookie) (upstreamHost : string) (upstreamPort : Z)
          (url : string) (cleanQuery : list (string * string))
| OtherRoute.                     (* landing page and JSON API *)

(** The branch [if (browserRoute) { ... }] of the HTTP handler, up to the
    point where the request is handed to the upstream container. *)
Definition browseRoute (req : Request) (browserId : Z) (remainingPath : string)
    (st : State) : HttpReply * State :=
  match getBrowserById st browserId ≫= (fun i => BROWSERS st !! i) with
  | None => (NotFound404, st)
  | Some browser =>
      let hasAccess := validateBrowserAccess st req (id browser) in
      let '(hasAccess, setCookie, st) :=
        match searchParamsGet "token" (query req) with
        | Some qToken =>
            if negb hasAccess then
              match urlTokens st !! qToken with
              | Some urlEntry =>
                  if u_browserId urlEntry =? id browser
                  then (true,
                        [SessionCookie (u_cookieToken urlEntry); BrowserCookie (id browser)],
                        setUrlTokens (delete qToken (urlTokens st)) st)
                  else (hasAccess, [], st)
              | None => (hasAccess, [], st)
              end
            else (hasAccess, [], st)
        | None => (hasAccess, [], st)
        end in
      if negb hasAccess then (Forbidden403, st)
      else
        let setCookie :=
          match setCookie with
          | [] => [BrowserCookie (id browser)]
          | _ => setCookie
          end in
        (Proxied setCookie (host browser) (port browser) remainingPath
                 (searchParamsDelete "token" (query req)), st)
  end.

(** The HTTP handler down to the browser route: an [OPTIONS] request is
    answered before any route is looked at. *)
Definition handleRequest (req : Request) (st : State) : HttpReply * State :=
  if String.eqb (method req) "OPTIONS" then (NoContent204, st)
  else
    match parseBrowserPath (path req) with
    | Some (browserId, remainingPath) => browseRoute req browserId remainingPath st
    | None => (OtherRoute, st)
    end.

(** *** The [upgrade] handler *)

Inductive UpgradeReply :=
| WsBadRequest400                 (* no browser found *)
| WsForbidden403                  (* access denied *)
| WsMissingKey400                 (* audio socket without Sec-WebSocket-Key *)
| AudioStream (browserId : Z)     (* handshake completed, local audio pipe *)
| Tunnel (upstreamHost : string) (upstreamPort : Z) (targetPath : string).

(** [getBrowserFromCookie(req)] *)
Definition getBrowserFromCookie (st : State) (req : Request) : option nat :=
  match parseCookies req !! "nebula_browser" ≫= parseInt10 with
  | Some browserId =>
      if negb (browserId =? 0) && (1 <=? browserId)
         && (browserId <=? Z.of_nat (length (BROWSERS st)))
      then getBrowserById st browserId
      else None
  | None => None
  end.

(** [isAudioWs] for a browser route. *)
Definition isAudioPath (remainingPath : string) : bool :=
  String.eqb remainingPath "/audio" || Js.startsWith remainingPath "/kasmaudio".

(** [server.on('upgrade', ...)] up to the choice between refusal, the local
    audio pipe and the tunnel to the container. *)
Definition upgrade (st : State) (req : Request) : UpgradeReply :=
  let browserRoute := parseBrowserPath (path req) in
  let '(browser, targetPath) :=
    match browserRoute with
    | Some (browserId, remainingPath) =>
        (getBrowserById st browserId, remainingPath +:+ rawSearch req)
    | None =>
        if String.eqb (path req) "/websockify" || Js.startsWith (path req) "/api/"
        then (getBrowserFromCookie st req, path req +:+ rawSearch req)
        else (None, path req +:+ rawSearch req)
    end in
  match browser ≫= (fun i => BROWSERS st !! i) with
  | None => WsBadRequest400
  | Some browser =>
      let isAudioWs :=
        match browserRoute with
        | Some (_, remainingPath) => isAudioPath remainingPath
        | None => false
        end in
      if negb isAudioWs && negb (validateBrowserAccess st req (id browser))
      then WsForbidden403
      else if isAudioWs then
        if Js.truthyOpt (wsKey req) then AudioStream (id browser) else WsMissingKey400
      else Tunnel (host browser) (port browser) targetPath
  end.

(** *** The JSON API *)

(** [`${protocol}://${host}/browser/${browser.id}/?token=${urlToken}`] *)
Record BrowserUrl := mkBrowserUrl {
  bu_protocol : string;
  bu_host : option string;
  bu_browserId : Z;
  bu_token : option string
}.

Definition browserUrlFor (req : Request) (browserId : Z) (urlToken : option string)
  : BrowserUrl :=
  {| bu_protocol := Js.orElse (forwardedProto req) "https";
     bu_host := match orNull (forwardedHost req) with
                | Some h => Some h
                | None => hostHeader req
                end;
     bu_browserId := browserId;
     bu_token := urlToken |}.

(** The replies of the JSON API, by status and the data of the body.
    [sessionAge] is the age of the last heartbeat in milliseconds; the body
    gives it in seconds, [Math.round(age / 1000)]. *)
Inductive ApiReply :=
| Assigned200 (sessionId : option string) (browserUrl : BrowserUrl) (existing : bool)
| Busy503 (inUse total : nat)
| Session200 (browserUrl : BrowserUrl) (sessionAge : Z)
| NoSession200
| MissingClientId400
| Alive200 (success : bool)
| Released200 (success : bool).

(** The client id the request-browser handler works with: the one of the
    body, or [auto_] and the first 30 characters of the base64 of
    [ip|user-agent]. *)
Definition effectiveClientId (req : Request) (parsedClientId : JsValue) : string :=
  let auto :=
    let ip := Js.orElse (forwardedFor req) (Js.orElse (socketAddress req) "unknown") in
    let ua := Js.take 50 (Js.orElse (userAgent req) "unknown") in
    "auto_" +:+ Js.take 30 (Codec.toString_base64 (Codec.Buffer_from (ip +:+ "|" +:+ ua))) in
  match parsedClientId with
  | JString s => if negb (Js.truthy s) || (Js.len s <? 10)%nat then auto else s
  | _ => auto
  end.

(** [POST /api/request-browser] with a body that parses; [newSessionId] is
    the result of [generateSessionId()]. *)
Definition requestBrowser (req : Request) (parsedClientId : JsValue)
    (newSessionId : string) (now : Z) (st : State) : ApiReply * State :=
  let cid := effectiveClientId req parsedClientId in
  let '(result, st) := assignBrowser newSessionId cid now st in
  match result with
  | None => (Busy503 (inUseCount st) (length (BROWSERS st)), st)
  | Some r =>
      match BROWSERS st !! a_browser r with
      | Some browser =>
          (Assigned200 (if a_existing r then sessionId browser else Some newSessionId)
                       (browserUrlFor req (id browser) (a_urlToken r))
                       (a_existing r), st)
      | None => (Busy503 (inUseCount st) (length (BROWSERS st)), st)
      end
  end.

(** [GET /api/check-session] *)
Definition checkSession (req : Request) (now : Z) (st : State) : ApiReply * State :=
  match orNull (searchParamsGet "clientId" (query req)) with
  | None => (MissingClientId400, st)
  | Some cid =>
      let '(found, st) := findBrowserByClientId cid st in
      match found ≫= (fun i => (fun b => (i, b)) <$> BROWSERS st !! i) with
      | Some (i, browser) =>
          let age := now - firstTime (lastHeartbeat browser) (lastUsed browser) in
          if age <? SESSION_TIMEOUT_MS then
            let '(_, st) := ensureCookieToken (id browser) st in
            let '(urlToken, st) := createUrlToken (id browser) now st in
            (Session200 (browserUrlFor req (id browser) urlToken) age, st)
          else (NoSession200, doReleaseBrowser i st)
      | None => (NoSession200, st)
      end
  end.

(** [POST /api/heartbeat] with a body that parses; [sampled] is the outcome
    of [Math.random() < 0.2]. *)
Definition heartbeat (parsedBrowserId parsedSessionId : JsValue) (now : Z)
    (sampled : bool) (st : State) : ApiReply * State :=
  if jsTruthy parsedBrowserId then
    match parseIntValue parsedBrowserId ≫= getBrowserById st with
    | Some i =>
        match BROWSERS st !! i with
        | Some browser =>
            if inUse browser then
              let st := updateBrowser i (withHeartbeat (Some now)) st in
              let st := setSessions (touchFirstSessionOf (id browser) now (sessions st)) st in
              (Alive200 true, if sampled then syncBrowserToFirebase i st else st)
            else (Alive200 false, st)
        | None => (Alive200 false, st)
        end
    | None => (Alive200 false, st)
    end
  else
    match parsedSessionId with
    | JString sid =>
        if Js.truthy sid then
          match sessionsGet sid (sessions st) with
          | Some session =>
              let st :=
                setSessions
                  (sessionsSet sid {| s_browserId := s_browserId session;
                                      s_clientId := s_clientId session;
                                      createdAt := createdAt session;
                                      lastActivity := Some now |} (sessions st)) st in
              match getBrowserById st (s_browserId session) with
              | Some i => (Alive200 true, updateBrowser i (withHeartbeat (Some now)) st)
              | None => (Alive200 false, st)
              end
          | None => (Alive200 false, st)
          end
        else (Alive200 false, st)
    | _ => (Alive200 false, st)
    end.

(** [POST /api/release] with a body that parses. *)
Definition release (parsedClientId parsedBrowserId : JsValue) (st : State)
  : ApiReply * State :=
  if jsTruthy parsedClientId then
    match parsedClientId with
    | JString cid =>
        let '(found, st) := findBrowserByClientId cid st in
        match found with
        | Some i => (Released200 true, doReleaseBrowser i st)
        | None => (Released200 false, st)
        end
    | _ => (Released200 false, st)
    end
  else if jsTruthy parsedBrowserId then
    match parseIntValue parsedBrowserId ≫= getBrowserById st with
    | Some i =>
        match BROWSERS st !! i with
        | Some browser =>
            if inUse browser then (Released200 true, doReleaseBrowser i st)
            else (Released200 false, st)
        | None => (Released200 false, st)
        end
    | None => (Released200 false, st)
    end
  else (Released200 false, st).

(** *** Restore from the mirror *)

(** The assignments of [restoreStateFromFirebase] to a browser object;
    [userId] is not among them. *)
Definition restored (saved : MirrorEntry) (b : Browser) : Browser :=
  {| id := id b; port := port b; audioPort := audioPort b; host := host b;
     inUse := true; lastUsed := m_lastUsed saved;
     lastHeartbeat := m_lastHeartbeat saved;
     userId := userId b; sessionId := m_sessionId saved;
     clientId := m_clientId saved |}.

(** The write [{ inUse: false }] for a stale entry. *)
Definition tombstone : MirrorEntry :=
  {| m_inUse := false; m_clientId := None; m_sessionId := None;
     m_lastUsed := None; m_lastHeartbeat := None |}.

(** One round of the loop of [restoreStateFromFirebase], on the browser at
    position [i]; [state] is the value read from the database, by slot id.
    Without database ([db] is [null]) the function returns at once. *)
Definition restoreBrowser (state : gmap Z MirrorEntry) (now : Z) (st : State) (i : nat)
  : State :=
  match mirror st, BROWSERS st !! i with
  | Some log, Some browser =>
      match state !! id browser with
      | Some saved =>
          if m_inUse saved then
            let age := now - firstTime (m_lastHeartbeat saved) (m_lastUsed saved) in
            if age <? SESSION_TIMEOUT_MS then
              let st := updateBrowser i (restored saved) st in
              let st :=
                match orNull (m_sessionId saved) with
                | Some sid =>
                    setSessions
                      (sessionsSet sid
                         {| s_browserId := id browser;
                            s_clientId := m_clientId saved;
                            createdAt := m_lastUsed saved;
                            lastActivity :=
                              match orNullZ (m_lastHeartbeat saved) with
                              | Some t => Some t
                              | None => m_lastUsed saved
                              end |}
                         (sessions st)) st
                | None => st
                end in
              let st :=
                match orNull (m_clientId saved) with
                | Some cid =>
                    setClientSessions (<[cid := id browser]> (clientSessions st)) st
                | None => st
                end in
              let '(cookieToken, st) := generateSecureToken st in
              let st :=
                setBrowserTokens (<[id browser := cookieToken]> (browserTokens st)) st in
              let st :=
                setTokenToBrowser (<[cookieToken := id browser]> (tokenToBrowser st)) st in
              setActiveConnections
                (<[id browser := {| count := 0; lastDisconnect := None |}]>
                   (activeConnections st)) st
            else setMirror (Some (log ++ [(id browser, tombstone)])%list) st
          else st
      | None => st
      end
  | _, _ => st
  end.

(** [restoreStateFromFirebase()] when nothing else runs between its rounds;
    [state] is [None] when the database holds no state. *)
Definition restoreStateFromFirebase (state : option (gmap Z MirrorEntry)) (now : Z)
    (st : State) : State :=
  match state with
  | Some state => fold_left (restoreBrowser state now) (seq 0 (length (BROWSERS st))) st
  | None => st
  end.

(** What a read of [nebula/browsers/state] gives in a database that held
    [before] when the server started: the state writes that the server has
    issued are in it, each in the place of the entry of its slot. *)
Definition written (before : gmap Z MirrorEntry) (st : State) : gmap Z MirrorEntry :=
  fold_left (fun state w => <[fst w := snd w]> state) (default [] (mirror st)) before.

(** *** Runs of the server *)

(** The events that change the state: requests, the two timers, the
    opening and closing of a tunnelled WebSocket, and the rounds of the
    restore.  Each handler runs to completion before the next event is
    taken, as callbacks do on the single JavaScript thread; requests that
    are in flight together are therefore served in some order, one after the
    other.  [restoreStateFromFirebase] is called when the server already
    listens, and it waits for the database before its loop and again in
    every round that meets a stale entry: requests can be served before its
    first round and between two rounds, so a round is an event of its own,
    with the state read from the database and the time of the round. *)
Inductive Event :=
| Browse (req : Request)
| RequestBrowser (req : Request) (parsedClientId : JsValue) (newSessionId : string) (now : Z)
| CheckSession (req : Request) (now : Z)
| Heartbeat (parsedBrowserId parsedSessionId : JsValue) (now : Z) (sampled : bool)
| Release (parsedClientId parsedBrowserId : JsValue)
| WsConnected (browserId now : Z)
| WsClosed (browserId now : Z)
| CleanupSessions (now : Z)
| CleanupUrlTokens (now : Z)
| RestoreRound (state : gmap Z MirrorEntry) (i : nat) (now : Z).

Definition step (st : State) (e : Event) : State :=
  match e with
  | Browse req => snd (handleRequest req st)
  | RequestBrowser req c sid now => snd (requestBrowser req c sid now st)
  | CheckSession req now => snd (checkSession req now st)
  | Heartbeat b s now sampled => snd (heartbeat b s now sampled st)
  | Release c b => snd (release c b st)
  | WsConnected b now => trackWsConnect b now st
  | WsClosed b now => trackWsDisconnect b now st
  | CleanupSessions now => cleanupSessions now st
  | CleanupUrlTokens now => cleanupUrlTokens now st
  | RestoreRound state i now => restoreBrowser state now st i
  end.

Definition run (st : State) (events : list Event) : State := fold_left step events st.

(** *** Predicates of the statements *)

(** The ids of the slots are pairwise distinct and none is [0], as in the
    [BROWSERS] array of the source. *)
Definition wfSlots (st : State) : Prop :=
  NoDup (map id (BROWSERS st)) /\ 0 ∉ map id (BROWSERS st).

(** [mints st st']: from [st] to [st'] the token counter has not gone back,
    and every URL token of [st'] either was one of [st], with the same
    entry, or was drawn in between. *)
Definition mints (st st' : State) : Prop :=
  (drawn st <= drawn st')%nat /\
  forall tok e, urlTokens st' !! tok = Some e ->
    urlTokens st !! tok = Some e \/
    exists n, (drawn st <= n < drawn st')%nat /\ tok = secureToken n.

(** A token that is neither stored nor ever drawn again. *)
Definition fresh (tok : string) (st : State) : Prop :=
  urlTokens st !! tok = None /\ forall n, (drawn st <= n)%nat -> secureToken n <> tok.

End Tokens.

(** The states the server can be in: those reached from the start state by a
    run of events. *)
Definition reachable (secureToken : nat -> string) (st : State) : Prop :=
  exists db events, st = run secureToken (initial db) events.

(** No round of the restore in the run meets a slot in use: the restore is
    over before a slot is assigned, as when no request is served before the
    database has answered, or it does nothing, as without database. *)
Fixpoint restoresFreeSlots (secureToken : nat -> string) (st : State)
    (events : list Event) : bool :=
  match events with
  | [] => true
  | e :: events =>
      match e with
      | RestoreRound _ i _ =>
          match mirror st, BROWSERS st !! i with
          | Some _, Some b => negb (inUse b)
          | _, _ => true
          end
      | _ => true
      end
      && restoresFreeSlots secureToken (step secureToken st e) events
  end.

(** The states reached by such runs. *)
Definition orderly (secureToken : nat -> string) (st : State) : Prop :=
  exists db events,
    restoresFreeSlots secureToken (initial db) events = true
    /\ st = run secureToken (initial db) events.

(** The run holds no round of the restore. *)
Definition isRestore (e : Event) : bool :=
  match e with
  | RestoreRound _ _ _ => true
  | _ => false
  end.

Definition withoutRestore (events : list Event) : bool :=
  forallb (fun e => negb (isRestore e)) events.

(** The states reached by runs without a round of the restore: those of a
    server without database, or whose database holds no state. *)
Definition undisturbed (secureToken : nat -> string) (st : State) : Prop :=
  exists db events,
    withoutRestore events = true /\ st = run secureToken (initial db) events.

(** Every slot in use has a client id, and the client map points from that
    id at the slot. *)
Definition clientIndex (st : State) : Prop :=
  forall i b, BROWSERS st !! i = Some b -> inUse b = true ->
    exists cid, clientId b = Some cid /\ Js.truthy cid = true
                /\ clientSessions st !! cid = Some (id b).

(** At most one slot per client id. *)
Definition oneSlotPerClient (st : State) : Prop :=
  forall i j a b, BROWSERS st !! i = Some a -> BROWSERS st !! j = Some b ->
    inUse a = true -> inUse b = true -> clientId a = clientId b -> i = j.

(** [kept st st' b b']: the slot [b] of [st] is the slot [b'] of [st'], with
    the same client and session, and what the client map and the cookie
    token map said of it in [st] they still say in [st']. *)
Definition kept (st st' : State) (b b' : Browser) : Prop :=
  id b' = id b /\ clientId b' = clientId b /\ sessionId b' = sessionId b
  /\ (forall cid, clientId b = Some cid -> clientSessions st !! cid = Some (id b) ->
        clientSessions st' !! cid = Some (id b))
  /\ (forall c, browserTokens st !! id b = Some c -> Js.truthy c = true ->
        browserTokens st' !! id b = Some c).

(** [shrinks st st']: no slot was claimed from [st] to [st']; the slots in
    use in [st'] were in use in [st] and are kept. *)
Definition shrinks (st st' : State) : Prop :=
  map id (BROWSERS st') = map id (BROWSERS st) /\
  forall i b', BROWSERS st' !! i = Some b' -> inUse b' = true ->
    exists b, BROWSERS st !! i = Some b /\ inUse b = true /\ kept st st' b b'.

(** [evolves st st']: the slots in use in both [st] and [st'] are kept. *)
Definition evolves (st st' : State) : Prop :=
  map id (BROWSERS st') = map id (BROWSERS st) /\
  forall i b b', BROWSERS st !! i = Some b -> inUse b = true ->
    BROWSERS st' !! i = Some b' -> inUse b' = true -> kept st st' b b'.

(** The session of client [cid] on the slot with id [bid] is live: the slot
    is in use and its client id is [cid], the test [findBrowserByClientId]
    makes. *)
Definition live (cid : string) (bid : Z) (st : State) : bool :=
  match getBrowserById st bid ≫= (fun i => BROWSERS st !! i) with
  | Some b => inUse b && bool_decide (clientId b = Some cid)
  | None => false
  end.

(** The session is live in [st] and after each of [events]. *)
Fixpoint staysLive (secureToken : nat -> string) (cid : string) (bid : Z)
    (st : State) (events : list Event) : bool :=
  live cid bid st &&
  match events with
  | [] => true
  | e :: events => staysLive secureToken cid bid (step secureToken st e) events
  end.

(** [occupies cid bid s i c st]: the slot with id [bid], at position [i], is
    in use by client [cid] under session id [s], the client map points at
    it, and its cookie token is [c]. *)
Definition occupies (cid : string) (bid : Z) (s : option string) (i : nat) (c : string)
    (st : State) : Prop :=
  exists b, BROWSERS st !! i = Some b /\ id b = bid /\ sessionId b = s
            /\ inUse b = true /\ clientId b = Some cid
            /\ clientSessions st !! cid = Some (id b)
            /\ browserTokens st !! id b = Some c /\ Js.truthy c = true.

(** [holds cid i c st]: the slot at position [i] is in use by client [cid],
    the client map points at it, and its cookie token is [c]. *)
Definition holds (cid : string) (i : nat) (c : string) (st : State) : Prop :=
  exists b, BROWSERS st !! i = Some b /\ inUse b = true /\ clientId b = Some cid
            /\ clientSessions st !! cid = Some (id b)
            /\ browserTokens st !! id b = Some c /\ Js.truthy c = true.




(** *** Further predicates *)

(** The slot with id [bid] is in use. *)
Definition slotInUse (bid : Z) (st : State) : Prop :=
  exists i b, BROWSERS st !! i = Some b /\ id b = bid /\ inUse b = true.

(** The token maps tell the truth about the slots: a cookie token is kept
    for a slot in use only and is not empty; what [tokenToBrowser] says of
    a token, [browserTokens] says of the slot; and every URL token carries
    the cookie token that its slot has now. *)
Definition tokensSound (st : State) : Prop :=
  (forall bid c, browserTokens st !! bid = Some c ->
     Js.truthy c = true /\ slotInUse bid st)
  /\ (forall c bid, tokenToBrowser st !! c = Some bid -> browserTokens st !! bid = Some c)
  /\ (forall tok e, urlTokens st !! tok = Some e ->
        browserTokens st !! u_browserId e = Some (u_cookieToken e)).

(** Every cookie token kept for a slot was drawn from the generator and
    opens that slot. *)
Definition cookiesIssued (secureToken : nat -> string) (st : State) : Prop :=
  forall bid c, browserTokens st !! bid = Some c ->
    tokenToBrowser st !! c = Some bid
    /\ exists n, (n < drawn st)%nat /\ c = secureToken n.

(** The connection records tell the truth about the slots: every slot in
    use has a record; no count is negative; and a record that counts an
    open socket has no disconnect time. *)
Definition connectionsSound (st : State) : Prop :=
  (forall i b, BROWSERS st !! i = Some b -> inUse b = true ->
     is_Some (activeConnections st !! id b))
  /\ (forall bid conn, activeConnections st !! bid = Some conn ->
        0 <= count conn /\ (0 < count conn -> lastDisconnect conn = None)).

(** What the records are about in a slot: its id and whether it is in
    use. *)
Definition usage (b : Browser) : Z * bool := (id b, inUse b).

(** The fixed part of a slot: its id, the port of its container, the port
    of its audio socket, and its host. *)
Definition config (b : Browser) : Z * Z * Z * string := (id b, port b, audioPort b, host b).

(** A [Cookie] header as a browser sends it: [name=value] pairs separated
    by [; ]. *)
Fixpoint cookieLine (pairs : list (string * string)) : string :=
  match pairs with
  | [] => EmptyString
  | [(n, v)] => n +:+ "=" +:+ v
  | (n, v) :: rest => n +:+ "=" +:+ v +:+ "; " +:+ cookieLine rest
  end.

(** A visible character of ASCII: [!] to [~]. *)
Definition isVisible (c : ascii) : bool :=
  let n := nat_of_ascii c in (33 <=? n)%nat && (n <=? 126)%nat.

(** A cookie name or value: not empty, and made of visible characters of
    ASCII other than [;] and [=]. *)
Definition cookieText (s : string) : bool :=
  Js.truthy s
  && forallb (fun c => isVisible c && negb (Ascii.eqb c ";" || Ascii.eqb c "="))
             (list_ascii_of_string s).

(** *** Further functions of the server *)

(** The decimal spelling of a non-negative integer, as a template literal
    writes a number; [fuel] digits at most. *)
Definition digitChar (d : Z) : ascii := ascii_of_nat (Z.to_nat (48 + d)).

Fixpoint decimalFrom (fuel : nat) (n : Z) (acc : string) : string :=
  match fuel with
  | O => acc
  | S fuel' =>
      let acc' := String (digitChar (n mod 10)) acc in
      if n <? 10 then acc' else decimalFrom fuel' (n / 10) acc'
  end.

(** [s] is a run of decimal digits. *)
Definition allDigits (s : string) : bool := forallb Js.isDigit (list_ascii_of_string s).

Definition decimal (n : Z) : string := decimalFrom (S (Z.to_nat (Z.log2 n))) n EmptyString.

(** [getContainerName(browserId)] *)
Definition getContainerName (browserId : Z) : string :=
  if browserId =? 1 then "browser" else "browser" +:+ decimal browserId.

(** The path of [browserUrl]: [/browser/${browser.id}/]. *)
Definition browserUrlPath (u : BrowserUrl) : string :=
  "/browser/" +:+ decimal (bu_browserId u) +:+ "/".

(** [getStatus()] *)
Record Status := mkStatus {
  total : nat;
  available : nat;
  inUseNow : nat;                 (* the field [inUse] *)
  browsers : list (Z * bool)      (* [{ id, available }] *)
}.

Definition getStatus (st : State) : Status :=
  {| total := length (BROWSERS st);
     available := length (List.filter (fun b => negb (inUse b)) (BROWSERS st));
     inUseNow := length (List.filter inUse (BROWSERS st));
     browsers := map (fun b => (id b, negb (inUse b))) (BROWSERS st) |}.

(** The bit operators on numbers: the operands are taken as 32-bit integers,
    and [>>] uses the low five bits of its count. *)
Definition toInt32 (x : Z) : Z := (x + 2 ^ 31) mod 2 ^ 32 - 2 ^ 31.
Definition shiftRight (x n : Z) : Z := Z.shiftr (toInt32 x) (n mod 32).
Definition bitAnd (x y : Z) : Z := Z.land (toInt32 x) (toInt32 y).

(** [makeWsFrame(data)] on the octets of [data]: a final binary frame
    without mask. *)
Definition makeWsFrame (payload : list Z) : list Z :=
  let len := Z.of_nat (length payload) in
  let header :=
    if len <? 126 then [130; len]
    else if len <? 65536 then
      [130; 126; bitAnd (shiftRight len 8) 255; bitAnd len 255]
    else
      ([130; 127]
         ++ map (fun i => bitAnd (shiftRight len (i * 8)) 255) [7; 6; 5; 4; 3; 2; 1; 0])%list in
  (header ++ payload)%list.

(** A run of octets read as a number, most significant octet first. *)
Definition bigEndian (bs : list Z) : Z := fold_left (fun acc b => 256 * acc + b) bs 0.

(** An oracle for concrete runs: the [n]-th token is [n + 1] letters [t]. *)
Fixpoint demoToken (n : nat) : string :=
  match n with
  | O => "t"
  | S n' => String "t" (demoToken n')
  end.

End Broker.

(** ** Concrete scenarios *)

Module Scenario.

Import Broker.
Local Open Scope Z_scope.

(** A request from one visitor, with the given path, query and cookies. *)
Definition visit (p : string) (q : list (string * string)) (cookies : option string)
  : Request :=
  {| method := "GET"; path := p; query := q; rawSearch := "";
     cookieHeader := cookies; forwardedFor := None;
     socketAddress := Some "10.0.0.7"; userAgent := Some "Mozilla/5.0";
     wsKey := Some "dGhlIHNhbXBsZSBub25jZQ=="; forwardedProto := None;
     forwardedHost := None; hostHeader := Some "nebula.example" |}.

(** A CORS preflight on the same path. *)
Definition preflight (p : string) (q : list (string * string)) : Request :=
  {| method := "OPTIONS"; path := p; query := q; rawSearch := "";
     cookieHeader := None; forwardedFor := None;
     socketAddress := Some "10.0.0.7"; userAgent := Some "Mozilla/5.0";
     wsKey := None; forwardedProto := None;
     forwardedHost := None; hostHeader := Some "nebula.example" |}.

Definition api : Request := visit "/api/request-browser" [] None.

(** One client has asked for a browser: slot 1 is assigned, its cookie token
    is [t] and the URL token of the reply is [tt]. *)
Definition assigned : State :=
  run demoToken (initial true) [RequestBrowser api (JString "client-0001") "sess_a" 1000].

(** The same client has asked twice and then released its browser. *)
Definition askedTwiceThenReleased : State :=
  run demoToken (initial true)
    [RequestBrowser api (JString "client-0001") "sess_a" 1000;
     RequestBrowser api (JString "client-0001") "sess_b" 2000;
     Release (JString "client-0001") JUndefined].

(** What happens between two calls of that client: another client asks for
    a browser, the first client opens its slot with the URL token and sends
    a heartbeat, a tunnelled socket opens and closes, and both timers fire. *)
Definition meanwhile : list Event :=
  [RequestBrowser api (JString "client-0002") "sess_x" 1200;
   Browse (visit "/browser/1/" [("token", "tt")] None);
   Heartbeat (JNumber 1) JUndefined 1300 true;
   WsConnected 1 1400;
   CleanupSessions 1500;
   CleanupUrlTokens 1500;
   WsClosed 1 1600;
   CheckSession (visit "/api/check-session" [("clientId", "client-0002")] None) 1700].

(** Ten clients have asked for a browser, one after the other: the pool
    is full. *)
Definition full : State :=
  run demoToken (initial true)
    (map (fun n => RequestBrowser api (JString ("client-000" +:+ decimal n))
                                  ("sess_" +:+ decimal n) (1000 + n))
         [0; 1; 2; 3; 4; 5; 6; 7; 8; 9]).

(** What the database holds when slot 2 was in use by [client-0001], with a
    heartbeat at 900, before the server started again. *)
Definition leftover : gmap Z MirrorEntry :=
  {[ 2 := {| m_inUse := true; m_clientId := Some "client-0001";
             m_sessionId := Some "sess_old"; m_lastUsed := Some 500;
             m_lastHeartbeat := Some 900 |} ]}.

Definition entry1 : UrlEntry :=
  {| u_browserId := 1; u_cookieToken := "t"; u_createdAt := 1000 |}.

(** The [browserUrl] of the reply to that request. *)
Definition url1 : BrowserUrl :=
  {| bu_protocol := "https"; bu_host := Some "nebula.example";
     bu_browserId := 1; bu_token := Some "tt" |}.

(** A visitor whose requests carry no client id: slot 1 is assigned to the
    id derived from the address and the agent. *)
Definition assignedAuto : State :=
  run demoToken (initial true) [RequestBrowser api JUndefined "sess_a" 1000].

(** *** Fetcher *)

(** A form endpoint that answers a POST with [302 Found]. *)
Definition shop (q : Fetcher.Request) : option Fetcher.Response :=
  if String.eqb (Fetcher.q_url q) "https://shop.example/submit"
  then Some {| Fetcher.statusCode := 302; Fetcher.location := Some "/done"; Fetcher.payload := "" |}
  else Some {| Fetcher.statusCode := 200; Fetcher.location := None; Fetcher.payload := "thanks" |}.

Definition post : Fetcher.Options :=
  {| Fetcher.o_method := Some "POST"; Fetcher.o_body := Some "item=1"; Fetcher.o_referer := None;
     Fetcher.o_csrfToken := None; Fetcher.o_cookies := None |}.

(** An origin that keeps redirecting until the URL is [limit] characters long. *)
Definition spin (limit : nat) (q : Fetcher.Request) : option Fetcher.Response :=
  if (String.length (Fetcher.q_url q) <? limit)%nat
  then Some {| Fetcher.statusCode := 307; Fetcher.location := Some (Fetcher.q_url q +:+ "/"); Fetcher.payload := "" |}
  else Some {| Fetcher.statusCode := 200; Fetcher.location := None; Fetcher.payload := "end" |}.

Definition absolute (rel base : string) : option string := Some rel.

Fixpoint deepen (url : string) (n : nat) : string :=
  match n with
  | O => url
  | S n' => deepen (url +:+ "/") n'
  end.

(** *** Rewriter and router *)

(** The parsed [https://site.example/dir/page.css]. *)
Definition siteBase : URL :=
  {| protocol := "https:"; hostname := "site.example";
     origin := "https://site.example"; pathname := "/dir/page.css";
     search := ""; href := "https://site.example/dir/page.css" |}.

Definition proxyOrigin : string := "https://proxy.example".

(** A proxy request without [Referer], from the address [10.0.0.7]. *)
Definition direct : Router.Request :=
  {| Router.h_referer := None; Router.h_forwardedFor := None;
     Router.remoteAddress := Some "10.0.0.7" |}.

(** The same with the [Referer] of a proxied page of [https://www.tiktok.com]. *)
Definition fromPage : Router.Request :=
  {| Router.h_referer :=
       Some "https://proxy.example/explore?__cpo=aHR0cHM6Ly93d3cudGlrdG9rLmNvbQ";
     Router.h_forwardedFor := None;
     Router.remoteAddress := Some "10.0.0.7" |}.

End Scenario.

(** * Properties *)

(** Closes a conjunction of closed equations by evaluation. *)
Ltac evaluate :=
  cbv zeta; repeat match goal with |- _ /\ _ => split end; vm_compute; reflexivity.

(** ** String facts *)

Module JsFacts.

Lemma app_nil_l s : EmptyString +:+ s = s.
Proof. reflexivity. Qed.

Lemma app_cons c s t : String c s +:+ t = String c (s +:+ t).
Proof. reflexivity. Qed.

Lemma app_nil_r s : s +:+ EmptyString = s.
Proof. induction s as [|c s IH]; [reflexivity|]. now rewrite app_cons, IH. Qed.

Lemma app_assoc s t u : (s +:+ t) +:+ u = s +:+ (t +:+ u).
Proof. induction s as [|c s IH]; [reflexivity|]. now rewrite !app_cons, IH. Qed.

Lemma length_app s t : String.length (s +:+ t) = (String.length s + String.length t)%nat.
Proof. induction s as [|c s IH]; [reflexivity|]. rewrite app_cons. simpl. now rewrite IH. Qed.

Lemma truthy_app_r s c t : Js.truthy (s +:+ String c t) = true.
Proof. destruct s; reflexivity. Qed.

End JsFacts.

(** ** URL codec *)

Module CodecTheory.
Import Codec JsFacts.
Local Open Scope Z_scope.

(** *** The octets of a string *)

Lemma octets_bytes s : Forall isByte (octets s).
Proof.
  unfold octets, isByte.
  induction (list_ascii_of_string s) as [|c cs IH]; constructor; [|exact IH].
  unfold byteOf. pose proof (nat_ascii_bounded c). lia.
Qed.

Lemma unpaired_cons b r : b <> 237 -> unpaired (b :: r) = b :: unpaired r.
Proof.
  intros Hb. cbn [unpaired]. destruct r as [|c1 [|c2 r2]]; try reflexivity.
  destruct (Z.eqb_spec b 237); [contradiction | reflexivity].
Qed.

Lemma unpaired_low c1 r :
  inRange 160 191 c1 = false -> unpaired (237 :: c1 :: r) = 237 :: unpaired (c1 :: r).
Proof.
  intros Hc. cbn [unpaired]. destruct r as [|c2 r2]; [reflexivity|].
  rewrite Hc, andb_false_r. reflexivity.
Qed.

Lemma unpaired_upto n bs :
  (length bs <= n)%nat ->
  length (unpaired bs) = length bs /\ (Forall isByte bs -> Forall isByte (unpaired bs)).
Proof.
  revert bs. induction n as [|n IH]; intros bs Hlen.
  { destruct bs; [split; [reflexivity | auto] | simpl in Hlen; lia]. }
  destruct bs as [|b r]; [split; [reflexivity | auto]|].
  assert (Hstep : length (b :: unpaired r) = length (b :: r)
                  /\ (Forall isByte (b :: r) -> Forall isByte (b :: unpaired r))).
  { destruct (IH r) as [Hl Hb]; [simpl in Hlen; lia|]. split.
    - simpl. now rewrite Hl.
    - intros H. inversion H; subst. constructor; auto. }
  cbn [unpaired]. destruct r as [|c1 [|c2 r2]]; try exact Hstep.
  destruct ((b =? 237) && inRange 160 191 c1 && inRange 128 191 c2); [|exact Hstep].
  destruct (IH r2) as [Hl Hb]; [simpl in Hlen; lia|]. split.
  - simpl. now rewrite Hl.
  - intros H. inversion H as [|? ? _ H1]; subst. inversion H1 as [|? ? _ H2]; subst.
    inversion H2; subst.
    repeat constructor; try (unfold isByte; lia). auto.
Qed.

Lemma length_unpaired bs : length (unpaired bs) = length bs.
Proof. now apply (unpaired_upto (length bs)). Qed.

Lemma unpaired_bytes bs : Forall isByte bs -> Forall isByte (unpaired bs).
Proof. now apply (unpaired_upto (length bs)). Qed.

Lemma utf8Lead_spec b k lo hi :
  utf8Lead b = Some (k, lo, hi) -> 128 <= lo /\ hi <= 191 /\ (b = 237 -> hi = 159).
Proof.
  unfold utf8Lead.
  repeat match goal with
         | |- context [if ?c then _ else _] => destruct c eqn:?
         end; intros H; try discriminate H; injection H as <- <- <-;
    (split; [lia|]; split; [lia|]); intros ->; try reflexivity;
    vm_compute in *; congruence.
Qed.

(** Decoded text holds no unpaired surrogate. *)
Lemma unpaired_sanitize_upto n bs :
  (length bs <= n)%nat -> unpaired (sanitize bs) = sanitize bs.
Proof.
  revert bs. induction n as [|n IH]; intros bs Hlen.
  { destruct bs; [reflexivity | simpl in Hlen; lia]. }
  destruct bs as [|b r]; [reflexivity|].
  assert (Hrep : forall t, (length t <= n)%nat ->
            unpaired (replacement ++ sanitize t)%list = (replacement ++ sanitize t)%list).
  { intros t Ht. unfold replacement. cbn [app].
    rewrite !unpaired_cons by lia. now rewrite IH. }
  assert (Hrep0 : unpaired replacement = replacement) by reflexivity.
  assert (Hcont : forall lo hi c t, 128 <= lo -> hi <= 191 -> inRange lo hi c = true ->
            unpaired (c :: t) = c :: unpaired t).
  { intros lo hi c t Hlo Hhi Hc. apply unpaired_cons. unfold inRange in Hc.
    apply andb_prop in Hc as [H1 H2]. apply Z.leb_le in H2. lia. }
  assert (Hlead : forall k lo hi c t, utf8Lead b = Some (k, lo, hi) ->
            inRange lo hi c = true -> unpaired (b :: c :: t) = b :: unpaired (c :: t)).
  { intros k lo hi c t Hl Hc. destruct (utf8Lead_spec _ _ _ _ Hl) as (_ & _ & H237).
    destruct (Z.eq_dec b 237) as [->|Hne]; [|now apply unpaired_cons].
    apply unpaired_low. specialize (H237 eq_refl). subst hi.
    unfold inRange in *. apply andb_prop in Hc as [_ Hc]. apply Z.leb_le in Hc.
    destruct (Z.leb_spec 160 c); [lia | reflexivity]. }
  cbn [sanitize]. destruct (b <? 128) eqn:Hb.
  { apply Z.ltb_lt in Hb. rewrite unpaired_cons by lia. f_equal.
    apply IH. simpl in Hlen. lia. }
  destruct (utf8Lead b) as [[[k lo] hi]|] eqn:Hl;
    [|apply Hrep; simpl in Hlen; lia].
  destruct (utf8Lead_spec _ _ _ _ Hl) as (Hlo & Hhi & _).
  destruct r as [|c1 r1]; [exact Hrep0|].
  destruct (inRange lo hi c1) eqn:H1; [|apply Hrep; simpl in Hlen |- *; lia].
  assert (IH1 : unpaired (sanitize r1) = sanitize r1)
    by (apply IH; simpl in Hlen; lia).
  destruct k as [|[|k]].
  - destruct r1 as [|c2 r2]; [exact Hrep0|].
    destruct (inRange 128 191 c2) eqn:H2; [|apply Hrep; simpl in Hlen |- *; lia].
    destruct r2 as [|c3 r3]; [exact Hrep0|].
    destruct (inRange 128 191 c3) eqn:H3; [|apply Hrep; simpl in Hlen |- *; lia].
    rewrite (Hlead _ _ _ _ _ eq_refl H1), (Hcont _ _ _ _ Hlo Hhi H1).
    rewrite (Hcont 128 191 c2) by (lia || exact H2).
    rewrite (Hcont 128 191 c3) by (lia || exact H3).
    do 4 f_equal. apply IH. simpl in Hlen. lia.
  - rewrite (Hlead _ _ _ _ _ eq_refl H1), (Hcont _ _ _ _ Hlo Hhi H1). now rewrite IH1.
  - destruct r1 as [|c2 r2]; [exact Hrep0|].
    destruct (inRange 128 191 c2) eqn:H2; [|apply Hrep; simpl in Hlen |- *; lia].
    destruct k as [|k].
    + rewrite (Hlead _ _ _ _ _ eq_refl H1), (Hcont _ _ _ _ Hlo Hhi H1).
      rewrite (Hcont 128 191 c2) by (lia || exact H2).
      do 3 f_equal. apply IH. simpl in Hlen. lia.
    + destruct r2 as [|c3 r3]; [exact Hrep0|].
      destruct (inRange 128 191 c3) eqn:H3; [|apply Hrep; simpl in Hlen |- *; lia].
      rewrite (Hlead _ _ _ _ _ eq_refl H1), (Hcont _ _ _ _ Hlo Hhi H1).
      rewrite (Hcont 128 191 c2) by (lia || exact H2).
      rewrite (Hcont 128 191 c3) by (lia || exact H3).
      do 4 f_equal. apply IH. simpl in Hlen. lia.
Qed.

(** On well-formed text [Buffer.from] gives the octets as they are. *)
Lemma Buffer_from_wellFormed s : wellFormed s -> Buffer_from s = octets s.
Proof.
  unfold wellFormed, Buffer_from. intros H. rewrite <- H.
  now apply (unpaired_sanitize_upto (length (octets s))).
Qed.

Lemma Buffer_from_bytes s : Forall isByte (Buffer_from s).
Proof. apply unpaired_bytes, octets_bytes. Qed.

(** *** Round trip *)

Lemma list_ind3 {A} (P : list A -> Prop) :
  P [] -> (forall x, P [x]) -> (forall x y, P [x; y]) ->
  (forall x y z l, P l -> P (x :: y :: z :: l)) ->
  forall l, P l.
Proof.
  intros H0 H1 H2 H3.
  fix IH 1. intros [|x [|y [|z l]]].
  - exact H0.
  - apply H1.
  - apply H2.
  - apply H3, IH.
Qed.

Lemma eqs_snoc k : eqs k +:+ "=" = eqs (S k).
Proof. induction k as [|k IH]; [reflexivity|]. simpl eqs in *. now rewrite app_cons, IH. Qed.

Lemma sextet_cases (P : Z -> Prop) :
  (forall k, (k < 64)%nat -> P (Z.of_nat k)) -> forall n, isSextet n -> P n.
Proof.
  intros H n [Hlo Hhi]. rewrite <- (Z2Nat.id n) by assumption.
  apply H. lia.
Qed.

(** What the codec needs of each base64 character. *)
Lemma sextet_char n :
  isSextet n ->
  unbase64 (b64char n) = Some n /\
  Ascii.eqb (b64char n) "=" = false /\
  Ascii.eqb (b64char n) "%" = false /\
  Ascii.eqb (urlSafe (b64char n)) "=" = false /\
  Ascii.eqb (urlSafe (b64char n)) "?" = false /\
  Ascii.eqb (urlSafe (b64char n)) "&" = false /\
  (let c1 := if Ascii.eqb (urlSafe (b64char n)) "-" then "+"%char
             else urlSafe (b64char n) in
   if Ascii.eqb c1 "_" then "/"%char else c1) = b64char n.
Proof.
  revert n. apply sextet_cases. intros k Hk.
  do 64 (destruct k as [|k]; [vm_compute; repeat split; reflexivity|]).
  lia.
Qed.

Lemma sextetsOfBytes_range b :
  Forall isByte b -> Forall isSextet (sextetsOfBytes b).
Proof.
  unfold isByte, isSextet.
  induction b as [|x|x y|x y z l IH] using list_ind3; intros Hb; simpl.
  - constructor.
  - inversion_clear Hb. repeat constructor; Z.div_mod_to_equations; lia.
  - inversion_clear Hb as [|? ? ? Hb']. inversion_clear Hb'.
    repeat constructor; Z.div_mod_to_equations; lia.
  - inversion_clear Hb as [|? ? ? Hb']. inversion_clear Hb' as [|? ? ? Hb''].
    inversion_clear Hb''.
    repeat (constructor; [Z.div_mod_to_equations; lia|]). auto.
Qed.

Lemma bytesOfSextets_sextetsOfBytes b :
  Forall isByte b -> bytesOfSextets (sextetsOfBytes b) = b.
Proof.
  unfold isByte.
  induction b as [|x|x y|x y z l IH] using list_ind3; intros Hb; simpl.
  - reflexivity.
  - inversion_clear Hb. f_equal. Z.div_mod_to_equations; lia.
  - inversion_clear Hb as [|? ? ? Hb']. inversion_clear Hb'.
    repeat f_equal; Z.div_mod_to_equations; lia.
  - inversion_clear Hb as [|? ? ? Hb']. inversion_clear Hb' as [|? ? ? Hb''].
    inversion_clear Hb''.
    rewrite IH by assumption.
    repeat f_equal; Z.div_mod_to_equations; lia.
Qed.

Lemma toString_base64_chars b :
  exists k, toString_base64 b = chars b64char (sextetsOfBytes b) +:+ eqs k.
Proof.
  induction b as [|x|x y|x y z l [k IH]] using list_ind3.
  - exists 0%nat. reflexivity.
  - exists 2%nat. reflexivity.
  - exists 1%nat. reflexivity.
  - exists k. simpl. rewrite IH. reflexivity.
Qed.

Lemma replace_to_safe l k :
  Js.replaceAll "/" "_" (Js.replaceAll "+" "-" (chars b64char l +:+ eqs k))
  = chars safeChar l +:+ eqs k.
Proof.
  induction l as [|n l IH].
  - rewrite !app_nil_l. induction k as [|k IHk]; [reflexivity|].
    simpl eqs. cbn [Js.replaceAll]. now rewrite IHk.
  - cbn [chars]. rewrite !app_cons. cbn [Js.replaceAll]. now rewrite IH.
Qed.

Lemma removeAll_eqs k : Js.removeAll "=" (eqs k) = EmptyString.
Proof. induction k as [|k IH]; [reflexivity|]. simpl. exact IH. Qed.

Lemma removeAll_safe l k :
  Forall isSextet l -> Js.removeAll "=" (chars safeChar l +:+ eqs k) = chars safeChar l.
Proof.
  induction 1 as [|n l Hn _ IH].
  - rewrite app_nil_l. apply removeAll_eqs.
  - cbn [chars]. rewrite app_cons. cbn [Js.removeAll]. unfold safeChar at 1.
    destruct (sextet_char n Hn) as (_ & _ & _ & -> & _). now rewrite IH.
Qed.

(** The fingerprint is the URL-safe spelling of the six-bit groups. *)
Lemma encodeUrl_chars url :
  encodeUrl url = chars safeChar (sextetsOfBytes (Buffer_from url)).
Proof.
  unfold encodeUrl.
  destruct (toString_base64_chars (Buffer_from url)) as [k ->].
  rewrite replace_to_safe. apply removeAll_safe, sextetsOfBytes_range.
  apply Buffer_from_bytes.
Qed.

Lemma split0_cons c x s :
  Js.split0 c (String x s) = if Ascii.eqb x c then EmptyString else String x (Js.split0 c s).
Proof.
  unfold Js.split0. cbn [Js.split].
  destruct (Ascii.eqb x c); [reflexivity|].
  destruct (Js.split c s); reflexivity.
Qed.

Lemma split0_safe l :
  Forall isSextet l ->
  Js.split0 "&" (Js.split0 "?" (chars safeChar l)) = chars safeChar l.
Proof.
  induction 1 as [|n l Hn _ IH]; [reflexivity|].
  cbn [chars]. destruct (sextet_char n Hn) as (_ & _ & _ & _ & Hq & Ha & _).
  rewrite split0_cons. unfold safeChar at 1. rewrite Hq.
  rewrite split0_cons. unfold safeChar at 1. rewrite Ha.
  now rewrite IH.
Qed.

Lemma replace_from_safe l :
  Forall isSextet l ->
  Js.replaceAll "_" "/" (Js.replaceAll "-" "+" (chars safeChar l)) = chars b64char l.
Proof.
  induction 1 as [|n l Hn _ IH]; [reflexivity|].
  cbn [chars Js.replaceAll]. rewrite IH. f_equal.
  destruct (sextet_char n Hn) as (_ & _ & _ & _ & _ & _ & Hback). exact Hback.
Qed.

Lemma padLoop_eqs fuel s : exists k, padLoop fuel s = s +:+ eqs k.
Proof.
  revert s. induction fuel as [|fuel IH]; intros s; cbn [padLoop].
  - exists 0%nat. now rewrite app_nil_r.
  - destruct (_ =? _)%nat.
    + exists 0%nat. now rewrite app_nil_r.
    + destruct (IH (s +:+ "=")) as [k ->]. exists (S k).
      rewrite app_assoc. reflexivity.
Qed.

(** Three rounds are enough for the padding loop to reach its exit test. *)
Lemma addPadding_exit s : (String.length (addPadding s) mod 4 = 0)%nat.
Proof.
  assert (Hlen : forall t, String.length (t +:+ "=") = S (String.length t)).
  { induction t as [|c t IH]; [reflexivity|]. rewrite app_cons. simpl. now rewrite IH. }
  unfold addPadding. cbn [padLoop].
  repeat match goal with
  | |- context [(?n mod 4 =? 0)%nat] =>
      destruct (Nat.eqb_spec (n mod 4) 0); [assumption|]
  end.
  rewrite !Hlen in *.
  pose proof (Nat.mod_upper_bound (String.length s) 4).
  pose proof (Nat.div_mod_eq (String.length s) 4).
  pose proof (Nat.div_mod_eq (S (S (S (String.length s)))) 4).
  pose proof (Nat.div_mod_eq (S (S (String.length s))) 4).
  pose proof (Nat.div_mod_eq (S (String.length s)) 4).
  pose proof (Nat.mod_upper_bound (S (S (S (String.length s)))) 4).
  pose proof (Nat.mod_upper_bound (S (S (String.length s))) 4).
  pose proof (Nat.mod_upper_bound (S (String.length s)) 4).
  lia.
Qed.

Lemma decodeFrom_plain l k fuel :
  Forall isSextet l ->
  (String.length (chars b64char l +:+ eqs k) <= fuel)%nat ->
  decodeFrom fuel (chars b64char l +:+ eqs k) = Some (chars b64char l +:+ eqs k).
Proof.
  intros Hl. revert fuel. induction Hl as [|n l Hn _ IH]; intros fuel.
  - rewrite app_nil_l. revert fuel. induction k as [|k IHk]; intros fuel Hfuel.
    + destruct fuel; reflexivity.
    + destruct fuel as [|fuel]; [cbn in Hfuel; lia|].
      simpl eqs in *. cbn [decodeFrom]. change (Ascii.eqb "=" "%") with false.
      cbv iota. rewrite IHk; [reflexivity | cbn in Hfuel; lia].
  - intros Hfuel. cbn [chars] in *. rewrite app_cons in *.
    destruct fuel as [|fuel]; [cbn in Hfuel; lia|].
    cbn [decodeFrom]. destruct (sextet_char n Hn) as (_ & _ & -> & _).
    rewrite IH; [reflexivity | cbn in Hfuel; lia].
Qed.

Lemma decodeURIComponent_plain l k :
  Forall isSextet l ->
  decodeURIComponent (chars b64char l +:+ eqs k) = Some (chars b64char l +:+ eqs k).
Proof. intros Hl. apply decodeFrom_plain; [exact Hl | lia]. Qed.

(** Escapes are decoded; a malformed escape, or escaped octets that are not
    UTF-8, make the call fail. *)
Example decodeURIComponent_escapes :
  decodeURIComponent "a%3Db" = Some "a=b"
  /\ decodeURIComponent "caf%C3%A9" = Some (String "c" (String "a" (String "f"
       (String (charOf 195) (String (charOf 169) EmptyString)))))
  /\ decodeURIComponent "%E9" = None
  /\ decodeURIComponent "100%" = None.
Proof. evaluate. Qed.

Lemma sextets_chars l k :
  Forall isSextet l -> sextets (chars b64char l +:+ eqs k) = l.
Proof.
  induction 1 as [|n l Hn _ IH].
  - rewrite app_nil_l. destruct k; reflexivity.
  - cbn [chars]. rewrite app_cons. cbn [sextets].
    destruct (sextet_char n Hn) as (-> & _). now rewrite IH.
Qed.

Lemma toString_Buffer_from s : wellFormed s -> toString_utf8 (Buffer_from s) = s.
Proof.
  intros Hwf. rewrite (Buffer_from_wellFormed s Hwf). revert Hwf.
  unfold toString_utf8, wellFormed. intros ->. unfold octets. rewrite map_map.
  rewrite <- (string_of_list_ascii_of_string s) at 2. f_equal.
  rewrite <- (map_id (list_ascii_of_string s)) at 2.
  apply map_ext. intros c. unfold charOf, byteOf.
  now rewrite Nat2Z.id, ascii_nat_embedding.
Qed.

(** ASCII text is well-formed. *)
Lemma sanitize_ascii bs : Forall (fun b => b < 128) bs -> sanitize bs = bs.
Proof.
  induction 1 as [|b bs Hb _ IH]; [reflexivity|].
  cbn [sanitize]. destruct (Z.ltb_spec b 128); [|lia]. now rewrite IH.
Qed.

Lemma wellFormed_ascii s :
  Forall (fun c => byteOf c < 128) (list_ascii_of_string s) -> wellFormed s.
Proof.
  intros H. apply sanitize_ascii. unfold octets.
  induction H; constructor; assumption.
Qed.

(** Ill-formed octets are replaced, well-formed sequences are kept. *)
Example sanitize_examples :
  sanitize [104; 195; 169; 33] = [104; 195; 169; 33]
  /\ sanitize [104; 233; 33] = [104; 239; 191; 189; 33]
  /\ sanitize [240; 159; 146; 169] = [240; 159; 146; 169]
  /\ sanitize [240; 159; 65] = [239; 191; 189; 65]
  /\ sanitize [237; 160; 128] = [239; 191; 189; 239; 191; 189; 239; 191; 189].
Proof. evaluate. Qed.

(** C5 fails as stated: [HTTP://WWW.EXAMPLE.COM/] is an absolute URL of
    scheme http, and the decoding of its fingerprint is [null], whatever
    the URL constructor says of it: [decodeUrl] tests the decoded text with
    [startsWith('http://')] and [startsWith('https://')], as it is
    spelled. *)
Lemma decode_encode_upper_case_scheme :
  wellFormed "HTTP://WWW.EXAMPLE.COM/"
  /\ encodeUrl "HTTP://WWW.EXAMPLE.COM/" = "SFRUUDovL1dXVy5FWEFNUExFLkNPTS8"
  /\ is_Some (PlainUrl.parse "HTTP://WWW.EXAMPLE.COM/")
  /\ forall newURL, decodeUrl newURL (encodeUrl "HTTP://WWW.EXAMPLE.COM/") = None.
Proof.
  split; [vm_compute; reflexivity|]. split; [vm_compute; reflexivity|].
  split; [vm_compute; eexists; reflexivity|].
  intros newURL. vm_compute. reflexivity.
Qed.

(** C5 (amended).  For every URL spelled with the prefix [http://] or
    [https://] in lower case, a well-formed text (without unpaired
    surrogate) that the URL constructor accepts, decoding its fingerprint
    gives the URL back: [decodeUrl (encodeUrl url) = url]. *)
Theorem decode_encode_roundtrip (newURL : string -> option URL) (url : string) :
  wellFormed url ->
  Js.startsWith url "http://" || Js.startsWith url "https://" = true ->
  is_Some (newURL url) ->
  decodeUrl newURL (encodeUrl url) = Some url.
Proof.
  intros Hwf Hscheme [u Hu].
  pose proof (sextetsOfBytes_range _ (Buffer_from_bytes url)) as Hsx.
  unfold decodeUrl. rewrite encodeUrl_chars.
  rewrite split0_safe, replace_from_safe by assumption.
  destruct (padLoop_eqs 3 (chars b64char (sextetsOfBytes (Buffer_from url))))
    as [k Hk].
  unfold addPadding. rewrite Hk.
  rewrite decodeURIComponent_plain by assumption.
  unfold Buffer_from_base64. rewrite sextets_chars by assumption.
  rewrite bytesOfSextets_sextetsOfBytes by apply Buffer_from_bytes.
  rewrite toString_Buffer_from by exact Hwf.
  apply orb_true_iff in Hscheme.
  destruct Hscheme as [-> | ->]; cbn [negb andb]; rewrite ?andb_false_r, Hu; reflexivity.
Qed.

Lemma decode_encode_roundtrip_witness :
  decodeUrl PlainUrl.parse (encodeUrl "https://www.tiktok.com/explore?lang=en")
  = Some "https://www.tiktok.com/explore?lang=en".
Proof.
  apply (decode_encode_roundtrip PlainUrl.parse "https://www.tiktok.com/explore?lang=en").
  - vm_compute. reflexivity.
  - reflexivity.
  - vm_compute. eexists. reflexivity.
Defined.

Example encodeUrl_tiktok :
  encodeUrl "https://www.tiktok.com" = "aHR0cHM6Ly93d3cudGlrdG9rLmNvbQ".
Proof. reflexivity. Qed.

Example decodeUrl_tiktok :
  decodeUrl PlainUrl.parse "aHR0cHM6Ly93d3cudGlrdG9rLmNvbQ" = Some "https://www.tiktok.com".
Proof. vm_compute. reflexivity. Qed.

Example decodeUrl_not_url : decodeUrl PlainUrl.parse "core.js" = None.
Proof. vm_compute. reflexivity. Qed.

(** The scheme test of [decodeUrl] is [startsWith('http://')] or
    [startsWith('https://')], on the text as it is spelled. *)
Example decodeUrl_scheme_test :
  decodeUrl PlainUrl.parse (encodeUrl "ftp://files.example/a") = None
  /\ decodeUrl PlainUrl.parse (encodeUrl "HTTP://WWW.EXAMPLE.COM/") = None
  /\ decodeUrl PlainUrl.parse (encodeUrl "http://www.example.com/")
     = Some "http://www.example.com/".
Proof. evaluate. Qed.

End CodecTheory.

(** ** Upstream fetcher *)

Module FetcherTheory.
Import Fetcher Scenario.
Local Open Scope Z_scope.

Section Redirects.

Variable upstream : Request -> option Response.
Variable resolveHref : string -> string -> option string.

Local Abbreviation fetch := (fetchUrl upstream resolveHref).

Lemma fetchUrl_redirect fuel url options res mid :
  upstream (requestOf url options) = Some res ->
  isRedirect res = true ->
  resolveHref (Js.orElse (location res) "") url = Some mid ->
  fetch (S fuel) url options
  = (requestOf url options :: fst (fetch fuel mid options),
     snd (fetch fuel mid options)).
Proof.
  intros Hup Hred Hres. cbn [fetchUrl]. rewrite Hup, Hred, Hres.
  destruct (fetch fuel mid options). reflexivity.
Qed.

Lemma fetchUrl_final fuel url options res :
  upstream (requestOf url options) = Some res ->
  isRedirect res = false ->
  fetch (S fuel) url options
  = ([requestOf url options],
     Some (Resolved {| r_data := payload res;
                       r_statusCode := statusCode res;
                       r_url := url |})).
Proof. intros Hup Hred. cbn [fetchUrl]. now rewrite Hup, Hred. Qed.

(** Every request of a fetch carries the method and body of the caller's
    [options], whatever the statuses on the way. *)
Lemma fetchUrl_same_options fuel url options :
  Forall (fun q => q_method q = Js.orElse (o_method options) "GET"
                   /\ q_body q = o_body options)
         (fst (fetch fuel url options)).
Proof.
  revert url. induction fuel as [|fuel IH]; intros url; cbn [fetchUrl].
  - constructor.
  - destruct (upstream _) as [res|]; [|repeat constructor].
    destruct (isRedirect res); [|repeat constructor].
    destruct (resolveHref _ _) as [mid|]; [|repeat constructor].
    specialize (IH mid). destruct (fetch fuel mid options) as [sent out].
    constructor; [split; reflexivity | exact IH].
Qed.

Lemma fetchUrl_hops options n url url' res fuel :
  hops upstream resolveHref options n url url' ->
  upstream (requestOf url' options) = Some res ->
  isRedirect res = false ->
  (n < fuel)%nat ->
  snd (fetch fuel url options)
    = Some (Resolved {| r_data := payload res;
                        r_statusCode := statusCode res;
                        r_url := url' |})
  /\ length (fst (fetch fuel url options)) = S n.
Proof.
  intros Hhops Hup Hfinal. revert fuel.
  induction Hhops as [url | n url r mid url' Hr Hred Hmid _ IH]; intros fuel Hfuel.
  - destruct fuel as [|fuel]; [lia|].
    rewrite (fetchUrl_final _ _ _ _ Hup Hfinal). split; reflexivity.
  - destruct fuel as [|fuel]; [lia|].
    rewrite (fetchUrl_redirect _ _ _ _ _ Hr Hred Hmid). cbn [fst snd length].
    destruct (IH Hup (fuel)) as [-> ->]; [lia|]. split; reflexivity.
Qed.

End Redirects.

(** C6 (amended).  The fetcher follows every 3xx response that carries a
    [Location] header, resolved against the current URL, to whatever depth
    the origin redirects: after [n] redirects in a row it has issued [n + 1]
    requests and resolves with the final response.  Every one of these
    requests is issued with the caller's method and body, for every 3xx
    status alike. *)
Theorem fetchUrl_follows_all_redirects
    (upstream : Request -> option Response)
    (resolveHref : string -> string -> option string)
    (options : Options) (n : nat) (url url' : string) (res : Response) (fuel : nat) :
  hops upstream resolveHref options n url url' ->
  upstream (requestOf url' options) = Some res ->
  isRedirect res = false ->
  (n < fuel)%nat ->
  snd (fetchUrl upstream resolveHref fuel url options)
    = Some (Resolved {| r_data := payload res;
                        r_statusCode := statusCode res;
                        r_url := url' |})
  /\ length (fst (fetchUrl upstream resolveHref fuel url options)) = S n
  /\ Forall (fun q => q_method q = Js.orElse (o_method options) "GET"
                      /\ q_body q = o_body options)
            (fst (fetchUrl upstream resolveHref fuel url options)).
Proof.
  intros Hhops Hup Hfinal Hfuel.
  destruct (fetchUrl_hops upstream resolveHref options n url url' res fuel)
    as [Hout Hlen]; try assumption.
  repeat split; try assumption. apply fetchUrl_same_options.
Qed.

Lemma deepen_length url n : String.length (deepen url n) = (String.length url + n)%nat.
Proof.
  revert url. induction n as [|n IH]; intros url; cbn [deepen].
  - lia.
  - rewrite IH, JsFacts.length_app. simpl. lia.
Qed.

Lemma spin_hops options limit n url :
  (String.length url + n <= limit)%nat ->
  hops (spin limit) absolute options n url (deepen url n).
Proof.
  revert url. induction n as [|n IH]; intros url Hlen; cbn [deepen].
  - constructor.
  - assert (Hup : spin limit (requestOf url options)
                  = Some {| statusCode := 307; location := Some (url +:+ "/");
                            payload := "" |}).
    { unfold spin, requestOf; cbn [q_url].
      destruct (Nat.ltb_spec (String.length url) limit); [reflexivity | lia]. }
    eapply hops_next; [exact Hup | | reflexivity | ].
    + unfold isRedirect; cbn [statusCode location Js.truthyOpt].
      now rewrite JsFacts.truthy_app_r.
    + cbn [location Js.orElse]. rewrite JsFacts.truthy_app_r.
      apply IH. rewrite JsFacts.length_app. simpl. lia.
Qed.

Lemma spin_depth n :
  length (fst (fetchUrl (spin (8 + n)) absolute (S n) "http://a" post)) = S n.
Proof.
  pose proof (spin_hops post (8 + n) n "http://a") as Hhops.
  eapply fetchUrl_hops with (res := {| statusCode := 200; location := None; payload := "end" |}).
  - apply Hhops. simpl. lia.
  - unfold spin, requestOf; cbn [q_url]. rewrite deepen_length.
    destruct (Nat.ltb_spec (String.length "http://a" + n) (8 + n)); [simpl in *; lia | reflexivity].
  - reflexivity.
  - lia.
Qed.

(** C6 fails as stated: a POST answered by [302] is re-sent as a POST, where
    the claim asks for a GET; and no depth bounds the redirects followed. *)
Lemma redirect_claim_fails :
  (exists q1 q2,
     fst (fetchUrl shop PlainUrl.resolveHref 5 "https://shop.example/submit" post)
       = [q1; q2]
     /\ q_url q2 = "https://shop.example/done"
     /\ q_method q2 = "POST"
     /\ q_method q2 <> specRedirectMethod 302 (q_method q1))
  /\ ~ (exists depth : nat, forall (up : Request -> option Response) fuel url,
          (length (fst (fetchUrl up absolute fuel url post)) <= depth)%nat).
Proof.
  split.
  - eexists _, _. vm_compute. repeat split. discriminate.
  - intros [depth Hdepth].
    specialize (Hdepth (spin (8 + depth)) (S depth) "http://a").
    rewrite spin_depth in Hdepth. lia.
Qed.

Lemma fetchUrl_follows_all_redirects_witness :
  snd (fetchUrl shop PlainUrl.resolveHref 5 "https://shop.example/submit" post)
    = Some (Resolved {| r_data := "thanks"; r_statusCode := 200;
                        r_url := "https://shop.example/done" |})
  /\ length (fst (fetchUrl shop PlainUrl.resolveHref 5 "https://shop.example/submit" post)) = 2%nat
  /\ Forall (fun q => q_method q = "POST" /\ q_body q = Some "item=1")
            (fst (fetchUrl shop PlainUrl.resolveHref 5 "https://shop.example/submit" post)).
Proof.
  apply (fetchUrl_follows_all_redirects shop PlainUrl.resolveHref post 1
           "https://shop.example/submit" "https://shop.example/done"
           {| statusCode := 200; location := None; payload := "thanks" |} 5).
  - eapply hops_next with (mid := "https://shop.example/done");
      [reflexivity | reflexivity | vm_compute; reflexivity | constructor].
  - reflexivity.
  - reflexivity.
  - lia.
Defined.

End FetcherTheory.

(** ** Content rewriter *)

Module RewriterTheory.
Import Rewriter Scenario.

(** C7, on the code.  Rewriting the style sheet [@import '/a.css';] and then
    rewriting the result again proxies the proxied URL a second time: the
    second pass appends a second [__cpo=] parameter, the fingerprint of the
    proxy URL itself.  [toProxyUrl] of [rewriteUrls] does the same to a URL
    that already carries [__cpo=], which the [includes('__cpo=')] guard of
    the injected client script would have returned unchanged. *)
Theorem rewriting_twice_reproxies :
  let rw := rewriteCss PlainUrl.parse siteBase proxyOrigin in
  let once := "https://proxy.example/a.css?__cpo=aHR0cHM6Ly9zaXRlLmV4YW1wbGUvYS5jc3M" in
  rw "@import '/a.css';" = "@import " +:+ dq +:+ once +:+ dq +:+ ";"
  /\ rw (rw "@import '/a.css';")
     = "@import " +:+ dq +:+ once +:+ "&__cpo=" +:+ Codec.encodeUrl once +:+ dq +:+ ";"
  /\ alreadyProxied once = true
  /\ toProxyUrl PlainUrl.parse siteBase proxyOrigin once
     = once +:+ "&__cpo=" +:+ Codec.encodeUrl once.
Proof. evaluate. Qed.

(** The same for a [url(...)] reference and for the [href] of an anchor. *)
Example rewriting_twice_url_and_href :
  let css := rewriteCss PlainUrl.parse siteBase proxyOrigin in
  let html := rewriteAnchors PlainUrl.parse siteBase proxyOrigin in
  Js.includes (css "body{background:url(img/x.png)}") "&__cpo=" = false
  /\ Js.includes (css (css "body{background:url(img/x.png)}")) "&__cpo=" = true
  /\ html "<a class='x' href='/foryou'>go</a>"
     = "<a class='x' href='https://proxy.example/foryou?__cpo=aHR0cHM6Ly9zaXRlLmV4YW1wbGUvZm9yeW91'>go</a>"
  /\ Js.includes (html (html "<a class='x' href='/foryou'>go</a>")) "&__cpo=" = true.
Proof. evaluate. Qed.

(** References that the rewriters leave alone. *)
Example rewriting_skips :
  toProxyUrl PlainUrl.parse siteBase proxyOrigin "#top" = "#top"
  /\ toProxyUrl PlainUrl.parse siteBase proxyOrigin "data:image/png;base64,AA==" = "data:image/png;base64,AA=="
  /\ rewriteCss PlainUrl.parse siteBase proxyOrigin ".d{background:URL( 'data:image/png;base64,AA==' )}"
     = ".d{background:URL( 'data:image/png;base64,AA==' )}".
Proof. evaluate. Qed.

End RewriterTheory.

(** ** Request router *)

Module RouterTheory.
Import Router Scenario.

(** C8, on the code.  A [__cpo] request whose target is
    [http://localhost:3003/foo], without [Referer] and from a client with no
    stored base, is fetched from [localhost:3003], which is the proxy itself
    (it listens on port 3003 unless [PORT] is set).  A target on
    [127.0.0.1:3003] is fetched as it is even when a base is stored for the
    client, because the fall-back to the stored base tests for [localhost]
    only. *)
Theorem localhost_target_is_fetched :
  Codec.encodeUrl "http://localhost:3003/foo" = "aHR0cDovL2xvY2FsaG9zdDozMDAzL2Zvbw"
  /\ routeCpo PlainUrl.parse direct ∅ "aHR0cDovL2xvY2FsaG9zdDozMDAzL2Zvbw"
     = Fetch "http://localhost:3003/foo" {[ "10.0.0.7" := "http://localhost:3003/foo" ]}
  /\ (isLoopbackHost <$> PlainUrl.parse "http://localhost:3003/foo") = Some true
  /\ Codec.encodeUrl "http://127.0.0.1:3003/api/x" = "aHR0cDovLzEyNy4wLjAuMTozMDAzL2FwaS94"
  /\ routeCpo PlainUrl.parse direct {[ "10.0.0.7" := "https://www.tiktok.com/explore" ]}
              "aHR0cDovLzEyNy4wLjAuMTozMDAzL2FwaS94"
     = Fetch "http://127.0.0.1:3003/api/x" {[ "10.0.0.7" := "http://127.0.0.1:3003/api/x" ]}.
Proof. evaluate. Qed.

(** With a usable base the localhost target is replaced before the fetch. *)
Example localhost_target_replaced :
  routeCpo PlainUrl.parse fromPage ∅ "aHR0cDovL2xvY2FsaG9zdDozMDAzL2Zvbw"
    = Fetch "https://www.tiktok.com/foo" {[ "10.0.0.7" := "https://www.tiktok.com/foo" ]}
  /\ routeCpo PlainUrl.parse direct {[ "10.0.0.7" := "https://www.tiktok.com/explore" ]}
              "aHR0cDovL2xvY2FsaG9zdDozMDAzL2Zvbw"
     = Fetch "https://www.tiktok.com/foo" {[ "10.0.0.7" := "https://www.tiktok.com/foo" ]}.
Proof. evaluate. Qed.

End RouterTheory.

(** ** Browser-session broker *)

Module BrokerTheory.
Import Broker.
Local Open Scope Z_scope.

(** *** Slots *)

Lemma wfSlots_initial db : wfSlots (initial db).
Proof. split; compute_done. Qed.

Lemma wfSlots_ids st st' :
  map id (BROWSERS st') = map id (BROWSERS st) -> wfSlots st -> wfSlots st'.
Proof. unfold wfSlots. intros ->. auto. Qed.

Lemma wfSlots_nonzero st i b : wfSlots st -> BROWSERS st !! i = Some b -> id b <> 0.
Proof.
  intros [_ Hz] Hb Hid. apply Hz. rewrite <- Hid.
  apply list_elem_of_lookup. exists i. rewrite list_lookup_fmap, Hb. reflexivity.
Qed.

Lemma getBrowserById_Some st bid i :
  getBrowserById st bid = Some i ->
  exists b, BROWSERS st !! i = Some b /\ id b = bid.
Proof.
  unfold getBrowserById. intros H.
  destruct (list_find _ _) as [[j b]|] eqn:Hfind; [|discriminate].
  cbn in H. injection H as <-.
  apply list_find_Some in Hfind as (Hb & Hid & _). eauto.
Qed.

Lemma getBrowserById_lookup st i b :
  NoDup (map id (BROWSERS st)) ->
  BROWSERS st !! i = Some b ->
  getBrowserById st (id b) = Some i.
Proof.
  intros Hnd Hb. unfold getBrowserById.
  destruct (list_find (fun b0 => id b0 = id b) (BROWSERS st)) as [[j c]|] eqn:Hfind.
  - apply list_find_Some in Hfind as (Hc & Hid & _). cbn. f_equal.
    eapply NoDup_lookup; [exact Hnd| |].
    + rewrite list_lookup_fmap, Hc. cbn. rewrite Hid. reflexivity.
    + rewrite list_lookup_fmap, Hb. reflexivity.
  - apply list_find_None in Hfind.
    rewrite Forall_forall in Hfind.
    exfalso. apply (Hfind b); [|reflexivity].
    eapply list_elem_of_lookup_2. exact Hb.
Qed.

(** A field assignment that keeps the id keeps every lookup by id. *)
Lemma list_find_id_alter (f : Browser -> Browser) bid i (l : list Browser) :
  (forall b, id (f b) = id b) ->
  fst <$> list_find (fun b => id b = bid) (alter f i l)
  = fst <$> list_find (fun b => id b = bid) l.
Proof.
  intros Hf. revert i. induction l as [|x l IH]; intros i; [reflexivity|].
  destruct i as [|i]; cbn.
  - rewrite Hf. destruct (decide (id x = bid)); reflexivity.
  - destruct (decide (id x = bid)); [reflexivity|].
    specialize (IH i). cbn in IH.
    destruct (list_find _ (alter f i l)) as [[? ?]|],
             (list_find _ l) as [[? ?]|]; cbn in *; congruence.
Qed.

Lemma ids_alter (f : Browser -> Browser) i (l : list Browser) :
  (forall b, id (f b) = id b) -> map id (alter f i l) = map id l.
Proof.
  intros Hf. revert i. induction l as [|x l IH]; intros [|i]; cbn; [reflexivity..| |].
  - now rewrite Hf.
  - now rewrite IH.
Qed.

(** *** Where URL tokens come from *)

Section Minting.

Variable secureToken : nat -> string.

Local Abbreviation mints := (Broker.mints secureToken).
Local Abbreviation fresh := (Broker.fresh secureToken).

Lemma mints_refl st : mints st st.
Proof. split; [lia | auto]. Qed.

Lemma mints_trans st1 st2 st3 : mints st1 st2 -> mints st2 st3 -> mints st1 st3.
Proof.
  intros [Hd1 H1] [Hd2 H2]. split; [lia|].
  intros tok e H3. destruct (H2 _ _ H3) as [H|(n & Hn & ->)].
  - destruct (H1 _ _ H) as [H'|(n & Hn & ->)]; [auto|].
    right. exists n. split; [lia | reflexivity].
  - right. exists n. split; [lia | reflexivity].
Qed.

Lemma mints_frame st st' :
  urlTokens st' = urlTokens st -> drawn st' = drawn st -> mints st st'.
Proof. intros Hu Hd. split; [lia|]. intros tok e. rewrite Hu. auto. Qed.

Lemma mints_fresh tok st st' : mints st st' -> fresh tok st -> fresh tok st'.
Proof.
  intros [Hd Hm] [Hnone Hnever]. split.
  - destruct (urlTokens st' !! tok) as [e|] eqn:He; [|reflexivity].
    destruct (Hm _ _ He) as [H|(n & Hn & ->)]; [congruence|].
    exfalso. apply (Hnever n); [lia | reflexivity].
  - intros n Hn. apply Hnever. lia.
Qed.

Lemma mints_insert st st' tok e :
  mints st st' -> (drawn st <= drawn st')%nat ->
  (exists n, (drawn st <= n < drawn st')%nat /\ tok = secureToken n) ->
  mints st (setUrlTokens (<[tok := e]> (urlTokens st')) st').
Proof.
  intros [Hd Hm] _ Hn. split; [exact Hd|]. intros t x. cbn.
  rewrite lookup_insert_Some. intros [[<- _]|[_ H]]; [right; exact Hn | auto].
Qed.

Lemma findBrowserByClientId_frame cid st :
  urlTokens (snd (findBrowserByClientId cid st)) = urlTokens st
  /\ drawn (snd (findBrowserByClientId cid st)) = drawn st
  /\ BROWSERS (snd (findBrowserByClientId cid st)) = BROWSERS st
  /\ browserTokens (snd (findBrowserByClientId cid st)) = browserTokens st
  /\ tokenToBrowser (snd (findBrowserByClientId cid st)) = tokenToBrowser st
  /\ sessions (snd (findBrowserByClientId cid st)) = sessions st.
Proof. unfold findBrowserByClientId. repeat case_match; cbn; auto 10. Qed.

Lemma syncBrowserToFirebase_frame i st :
  urlTokens (syncBrowserToFirebase i st) = urlTokens st
  /\ drawn (syncBrowserToFirebase i st) = drawn st
  /\ BROWSERS (syncBrowserToFirebase i st) = BROWSERS st
  /\ browserTokens (syncBrowserToFirebase i st) = browserTokens st
  /\ tokenToBrowser (syncBrowserToFirebase i st) = tokenToBrowser st
  /\ clientSessions (syncBrowserToFirebase i st) = clientSessions st
  /\ sessions (syncBrowserToFirebase i st) = sessions st.
Proof. unfold syncBrowserToFirebase. repeat case_match; cbn; auto 10. Qed.

(** A round of the restore either leaves the slots and all maps as they
    are, or restores the slot at [i] from its saved entry and draws a cookie
    token for it. *)
Lemma restoreBrowser_cases state now st i :
  (BROWSERS (restoreBrowser secureToken state now st i) = BROWSERS st
   /\ browserTokens (restoreBrowser secureToken state now st i) = browserTokens st
   /\ tokenToBrowser (restoreBrowser secureToken state now st i) = tokenToBrowser st
   /\ urlTokens (restoreBrowser secureToken state now st i) = urlTokens st
   /\ activeConnections (restoreBrowser secureToken state now st i) = activeConnections st
   /\ clientSessions (restoreBrowser secureToken state now st i) = clientSessions st
   /\ sessions (restoreBrowser secureToken state now st i) = sessions st
   /\ drawn (restoreBrowser secureToken state now st i) = drawn st)
  \/ (exists b saved,
        is_Some (mirror st) /\ BROWSERS st !! i = Some b /\ state !! id b = Some saved
        /\ m_inUse saved = true
        /\ now - firstTime (m_lastHeartbeat saved) (m_lastUsed saved) < SESSION_TIMEOUT_MS
        /\ BROWSERS (restoreBrowser secureToken state now st i)
           = alter (restored saved) i (BROWSERS st)
        /\ browserTokens (restoreBrowser secureToken state now st i)
           = <[id b := secureToken (drawn st)]> (browserTokens st)
        /\ tokenToBrowser (restoreBrowser secureToken state now st i)
           = <[secureToken (drawn st) := id b]> (tokenToBrowser st)
        /\ urlTokens (restoreBrowser secureToken state now st i) = urlTokens st
        /\ activeConnections (restoreBrowser secureToken state now st i)
           = <[id b := {| count := 0; lastDisconnect := None |}]> (activeConnections st)
        /\ clientSessions (restoreBrowser secureToken state now st i)
           = match orNull (m_clientId saved) with
             | Some cid => <[cid := id b]> (clientSessions st)
             | None => clientSessions st
             end
        /\ drawn (restoreBrowser secureToken state now st i) = S (drawn st)).
Proof.
  unfold restoreBrowser, generateSecureToken.
  destruct (mirror st) as [log|] eqn:Hlog; [|left; auto 10].
  destruct (BROWSERS st !! i) as [b|] eqn:Hb; [|left; auto 10].
  destruct (state !! id b) as [saved|] eqn:Hsaved; [|left; auto 10].
  destruct (m_inUse saved) eqn:Huse; [|left; auto 10].
  destruct (Z.ltb_spec (now - firstTime (m_lastHeartbeat saved) (m_lastUsed saved))
                       SESSION_TIMEOUT_MS) as [Hage|_]; [|left; cbn; auto 10].
  right. exists b, saved.
  destruct (orNull (m_sessionId saved)), (orNull (m_clientId saved)); cbn; auto 15.
Qed.

Lemma mints_restoreBrowser state now st i :
  mints st (restoreBrowser secureToken state now st i).
Proof.
  destruct (restoreBrowser_cases state now st i)
    as [(_ & _ & _ & Hu & _ & _ & _ & Hd)
       |(b & saved & _ & _ & _ & _ & _ & _ & _ & _ & Hu & _ & _ & Hd)].
  - now apply mints_frame.
  - split; [lia|]. intros tok e. rewrite Hu. auto.
Qed.

Lemma mints_createUrlToken bid now st :
  mints st (snd (createUrlToken secureToken bid now st)).
Proof.
  unfold createUrlToken, generateSecureToken. repeat case_match; cbn; try apply mints_refl.
  split; [cbn; lia|]. intros t x. cbn. rewrite lookup_insert_Some.
  intros [[<- _]|[_ Hold]]; [right; exists (drawn st); split; [lia | reflexivity] | auto].
Qed.

Lemma mints_ensureCookieToken bid st :
  mints st (snd (ensureCookieToken secureToken bid st)).
Proof.
  unfold ensureCookieToken, generateSecureToken. repeat case_match; cbn; try apply mints_refl.
  split; [cbn; lia | cbn; auto].
Qed.

Lemma mints_createSessionTokens bid now st :
  mints st (snd (createSessionTokens secureToken bid now st)).
Proof.
  unfold createSessionTokens, generateSecureToken.
  repeat case_match; cbn; (split; [cbn; lia|]); intros t x; cbn;
    rewrite lookup_insert_Some;
    (intros [[<- _]|[_ Hold]];
      [right; exists (S (drawn st)); split; [lia | reflexivity] | auto]).
Qed.

Lemma mints_doReleaseBrowser i st : mints st (doReleaseBrowser i st).
Proof.
  unfold doReleaseBrowser. repeat case_match; try apply mints_refl.
  all: match goal with
       | |- mints _ (syncBrowserToFirebase ?i ?s) =>
           destruct (syncBrowserToFirebase_frame i s) as (Hu & Hd & _)
       end.
  all: split; [rewrite Hd; cbn; lia|]; intros t x; rewrite Hu; cbn;
       rewrite map_lookup_filter_Some; intros [Hold _]; auto.
Qed.

Lemma mints_cleanupUrlTokens now st : mints st (cleanupUrlTokens now st).
Proof.
  split; [cbn; lia|]. intros t x. cbn.
  rewrite map_lookup_filter_Some. intros [Hold _]. auto.
Qed.

Lemma mints_reapBrowser now st i : mints st (reapBrowser now st i).
Proof.
  unfold reapBrowser.
  repeat case_match; try apply mints_refl; apply mints_doReleaseBrowser.
Qed.

Lemma mints_cleanupSessions now st : mints st (cleanupSessions now st).
Proof.
  unfold cleanupSessions. generalize (seq 0 (length (BROWSERS st))) as l.
  intros l. revert st. induction l as [|i l IH]; intros st; cbn.
  - apply mints_refl.
  - eapply mints_trans; [apply mints_reapBrowser | apply IH].
Qed.

Lemma mints_browseRoute req bid rest st : mints st (snd (browseRoute req bid rest st)).
Proof.
  unfold browseRoute. repeat case_match; simplify_eq; cbn; try apply mints_refl.
  all: split; [cbn; lia|]; intros t x; cbn;
       rewrite lookup_delete_Some; intros [_ Hold]; auto.
Qed.

Lemma mints_assignBrowser sid cid now st :
  mints st (snd (assignBrowser secureToken sid cid now st)).
Proof.
  unfold assignBrowser.
  destruct (findBrowserByClientId cid st) as [found st0] eqn:Hfind.
  pose proof (findBrowserByClientId_frame cid st) as (Hu0 & Hd0 & _).
  rewrite Hfind in Hu0, Hd0. cbn [snd] in Hu0, Hd0.
  apply (mints_trans _ st0); [now apply mints_frame|].
  destruct found as [i|].
  - match goal with
    | |- context [ensureCookieToken secureToken ?b ?s] =>
        pose proof (mints_ensureCookieToken b s) as Hens;
        destruct (ensureCookieToken secureToken b s) as [ck st1] eqn:Hck;
        assert (mints st0 s) as Hpre
    end.
    { destruct (syncBrowserToFirebase_frame i
        (setSessions
           (sessionsSet sid
              {| s_browserId := default 0 (id <$> BROWSERS st0 !! i);
                 s_clientId := Some cid; createdAt := Some now;
                 lastActivity := Some now |}
              (sessions (updateBrowser i (withHeartbeat (Some now)) st0)))
           (updateBrowser i (withHeartbeat (Some now)) st0))) as (Hu & Hd & _).
      apply mints_frame; [rewrite Hu | rewrite Hd]; reflexivity. }
    cbn [snd] in Hens.
    match goal with
    | |- context [createUrlToken secureToken ?b ?n ?s] =>
        pose proof (mints_createUrlToken b n s) as Hurl;
        destruct (createUrlToken secureToken b n s) as [u st2]
    end.
    cbn [snd] in *. eauto using mints_trans.
  - destruct (findAvailableBrowser st0) as [i|]; [|apply mints_refl].
    match goal with
    | |- context [createSessionTokens secureToken ?b ?n ?s] =>
        pose proof (mints_createSessionTokens b n s) as Hcst;
        destruct (createSessionTokens secureToken b n s) as [[ck u] st1];
        assert (mints st0 s) as Hpre
    end.
    { apply mints_frame; destruct (Js.truthy cid); reflexivity. }
    cbn [snd] in *.
    destruct (syncBrowserToFirebase_frame i st1) as (Hu & Hd & _).
    eapply mints_trans; [exact Hpre|]. eapply mints_trans; [exact Hcst|].
    apply mints_frame; assumption.
Qed.

Lemma mints_requestBrowser req c sid now st :
  mints st (snd (requestBrowser secureToken req c sid now st)).
Proof.
  unfold requestBrowser.
  pose proof (mints_assignBrowser sid (effectiveClientId req c) now st) as H.
  destruct (assignBrowser secureToken sid (effectiveClientId req c) now st) as [r st1].
  cbn [snd] in H. repeat case_match; exact H.
Qed.

Lemma mints_checkSession req now st :
  mints st (snd (checkSession secureToken req now st)).
Proof.
  unfold checkSession. destruct (orNull _) as [cid|]; [|apply mints_refl].
  destruct (findBrowserByClientId cid st) as [found st0] eqn:Hfind.
  pose proof (findBrowserByClientId_frame cid st) as (Hu0 & Hd0 & _).
  rewrite Hfind in Hu0, Hd0. cbn [snd] in Hu0, Hd0.
  apply (mints_trans _ st0); [now apply mints_frame|].
  destruct (found ≫= _) as [[i browser]|]; [|apply mints_refl].
  destruct (_ <? _).
  - pose proof (mints_ensureCookieToken (id browser) st0) as Hens.
    destruct (ensureCookieToken secureToken (id browser) st0) as [ck st1].
    pose proof (mints_createUrlToken (id browser) now st1) as Hurl.
    destruct (createUrlToken secureToken (id browser) now st1) as [u st2].
    cbn [snd] in *. eauto using mints_trans.
  - apply mints_doReleaseBrowser.
Qed.

Lemma mints_heartbeat b s now sampled st : mints st (snd (heartbeat b s now sampled st)).
Proof.
  unfold heartbeat.
  repeat case_match; cbn [snd]; try apply mints_refl;
    try (apply mints_frame; reflexivity).
  match goal with
  | |- mints _ (syncBrowserToFirebase ?i ?s) =>
      destruct (syncBrowserToFirebase_frame i s) as (Hu & Hd & _)
  end.
  apply mints_frame; [rewrite Hu | rewrite Hd]; reflexivity.
Qed.

Lemma mints_release c b st : mints st (snd (release c b st)).
Proof.
  unfold release.
  repeat case_match; cbn [snd]; try apply mints_refl; try apply mints_doReleaseBrowser.
  all: match goal with
       | H : findBrowserByClientId ?cid ?st = (_, ?st0) |- _ =>
           pose proof (findBrowserByClientId_frame cid st) as (Hu0 & Hd0 & _);
           rewrite H in Hu0, Hd0; cbn [snd] in Hu0, Hd0;
           apply (mints_trans _ st0); [now apply mints_frame|]
       end.
  - apply mints_doReleaseBrowser.
  - apply mints_refl.
Qed.

Lemma mints_trackWsConnect b now st : mints st (trackWsConnect b now st).
Proof. unfold trackWsConnect. repeat case_match; apply mints_frame; reflexivity. Qed.

Lemma mints_trackWsDisconnect b now st : mints st (trackWsDisconnect b now st).
Proof. unfold trackWsDisconnect. repeat case_match; apply mints_frame; reflexivity. Qed.

Lemma mints_step st e : mints st (step secureToken st e).
Proof.
  destruct e; cbn [step].
  - unfold handleRequest.
    repeat case_match; cbn [snd]; try apply mints_refl; apply mints_browseRoute.
  - apply mints_requestBrowser.
  - apply mints_checkSession.
  - apply mints_heartbeat.
  - apply mints_release.
  - apply mints_trackWsConnect.
  - apply mints_trackWsDisconnect.
  - apply mints_cleanupSessions.
  - apply mints_cleanupUrlTokens.
  - apply mints_restoreBrowser.
Qed.

Lemma mints_run events st : mints st (run secureToken st events).
Proof.
  revert st. induction events as [|e events IH]; intros st; cbn.
  - apply mints_refl.
  - eapply mints_trans; [apply mints_step | apply IH].
Qed.

End Minting.

(** *** The access check of the browser route *)

Lemma browseRoute_slot st bid i :
  getBrowserById st bid = Some i ->
  exists b, (getBrowserById st bid ≫= (fun i => BROWSERS st !! i)) = Some b /\ id b = bid.
Proof.
  intros Hi. destruct (getBrowserById_Some _ _ _ Hi) as (b & Hb & Hid).
  exists b. rewrite Hi. cbn. auto.
Qed.

(** A request that shows a stored URL token on the path of the token's own
    slot, and no valid cookie, is let through; the token is deleted and the
    cookie token of the entry is set. *)
Lemma browseRoute_consumes st req bid rest tok e :
  is_Some (getBrowserById st bid) ->
  searchParamsGet "token" (query req) = Some tok ->
  urlTokens st !! tok = Some e ->
  u_browserId e = bid ->
  validateBrowserAccess st req bid = false ->
  exists b,
    (getBrowserById st bid ≫= (fun i => BROWSERS st !! i)) = Some b /\ id b = bid /\
    browseRoute req bid rest st
    = (Proxied [SessionCookie (u_cookieToken e); BrowserCookie bid]
               (host b) (port b) rest (searchParamsDelete "token" (query req)),
       setUrlTokens (delete tok (urlTokens st)) st).
Proof.
  intros [i Hi] Htok He Hslot Hcookie.
  destruct (browseRoute_slot _ _ _ Hi) as (b & Hb & Hid).
  exists b. split; [exact Hb|]. split; [exact Hid|].
  unfold browseRoute. rewrite Hb, Hid, Hcookie, Htok, He, Hslot.
  cbn. rewrite Z.eqb_refl. reflexivity.
Qed.

(** A request that shows a token which is not stored, and no valid cookie,
    is answered with 403, and changes nothing. *)
Lemma browseRoute_unknown_token st req bid rest tok :
  is_Some (getBrowserById st bid) ->
  searchParamsGet "token" (query req) = Some tok ->
  urlTokens st !! tok = None ->
  validateBrowserAccess st req bid = false ->
  browseRoute req bid rest st = (Forbidden403, st).
Proof.
  intros [i Hi] Htok He Hcookie.
  destruct (browseRoute_slot _ _ _ Hi) as (b & Hb & Hid).
  unfold browseRoute. rewrite Hb, Hid, Hcookie, Htok, He. reflexivity.
Qed.

(** The session cookie is only ever set from a stored URL token. *)
Lemma browseRoute_session_cookie st req bid rest cookies h p u q st' c :
  browseRoute req bid rest st = (Proxied cookies h p u q, st') ->
  SessionCookie c ∈ cookies ->
  exists tok e, searchParamsGet "token" (query req) = Some tok
                /\ urlTokens st !! tok = Some e /\ u_cookieToken e = c.
Proof.
  unfold browseRoute. intros H Hin.
  repeat case_match; simplify_eq.
  all: repeat (apply elem_of_cons in Hin as [Hin|Hin]);
       try (apply elem_of_nil in Hin; contradiction);
       simplify_eq; eauto.
Qed.

Lemma handleRequest_route req st bid rest :
  String.eqb (method req) "OPTIONS" = false ->
  parseBrowserPath (path req) = Some (bid, rest) ->
  handleRequest req st = browseRoute req bid rest st.
Proof. intros Hm Hp. unfold handleRequest. now rewrite Hm, Hp. Qed.

Lemma handleRequest_session_cookie st req cookies h p u q st' c :
  handleRequest req st = (Proxied cookies h p u q, st') ->
  SessionCookie c ∈ cookies ->
  exists tok e, searchParamsGet "token" (query req) = Some tok
                /\ urlTokens st !! tok = Some e /\ u_cookieToken e = c.
Proof.
  unfold handleRequest. intros H Hin.
  destruct (String.eqb _ _); [discriminate|].
  destruct (parseBrowserPath _) as [[bid rest]|]; [|discriminate].
  eapply browseRoute_session_cookie; eassumption.
Qed.

(** C1.  A URL token stored for a slot lets one request through on that
    slot's path and sets the cookie token of its entry; the request deletes
    the token.  From then on, whatever events follow, no reply to a request
    showing the token sets a session cookie again, and a request on a
    browser path that shows it without a valid session cookie gets 403.
    The requests meant are those that reach the browser route: every method
    but [OPTIONS], which is answered 204 before.  The token generator is
    taken not to return this token a second time. *)
Theorem url_token_single_use (secureToken : nat -> string)
    (st : State) (req : Request) (bid : Z) (rest tok : string) (e : UrlEntry) :
  String.eqb (method req) "OPTIONS" = false ->
  parseBrowserPath (path req) = Some (bid, rest) ->
  is_Some (getBrowserById st bid) ->
  searchParamsGet "token" (query req) = Some tok ->
  urlTokens st !! tok = Some e ->
  u_browserId e = bid ->
  validateBrowserAccess st req bid = false ->
  (forall n, (drawn st <= n)%nat -> secureToken n <> tok) ->
  exists h p q st1,
    handleRequest req st
      = (Proxied [SessionCookie (u_cookieToken e); BrowserCookie bid] h p rest q, st1)
    /\ urlTokens st1 !! tok = None
    /\ forall events req2,
         searchParamsGet "token" (query req2) = Some tok ->
         (forall cookies h2 p2 u2 q2 st3 c,
            handleRequest req2 (run secureToken st1 events)
              = (Proxied cookies h2 p2 u2 q2, st3) ->
            SessionCookie c ∉ cookies)
         /\ (forall bid2 rest2,
               String.eqb (method req2) "OPTIONS" = false ->
               parseBrowserPath (path req2) = Some (bid2, rest2) ->
               is_Some (getBrowserById (run secureToken st1 events) bid2) ->
               validateBrowserAccess (run secureToken st1 events) req2 bid2 = false ->
               handleRequest req2 (run secureToken st1 events)
                 = (Forbidden403, run secureToken st1 events)).
Proof.
  intros Hmethod Hpath Hslot Htok He Hbid Hcookie Hnever.
  destruct (browseRoute_consumes st req bid rest tok e) as (b & _ & _ & Hgo);
    try assumption.
  eexists _, _, _, _. split; [rewrite (handleRequest_route _ _ _ _ Hmethod Hpath); exact Hgo|].
  split; [cbn; apply lookup_delete_eq|].
  intros events req2 Htok2.
  assert (Hfresh : fresh secureToken tok
                     (run secureToken (setUrlTokens (delete tok (urlTokens st)) st) events)).
  { eapply mints_fresh; [apply mints_run|].
    split; [cbn; apply lookup_delete_eq | exact Hnever]. }
  destruct Hfresh as [Hnone _]. split.
  - intros cookies h2 p2 u2 q2 st3 c Hreply Hin.
    destruct (handleRequest_session_cookie _ _ _ _ _ _ _ _ _ Hreply Hin)
      as (tok' & e' & Htok' & He' & _).
    congruence.
  - intros bid2 rest2 Hmethod2 Hpath2 Hslot2 Hcookie2.
    rewrite (handleRequest_route _ _ _ _ Hmethod2 Hpath2).
    now apply browseRoute_unknown_token with (tok := tok).
Qed.

(** C10.  A URL token shown on the path of another slot, without a valid
    cookie, is refused (403, or 404 when there is no such slot) and nothing
    is changed: the entry of the token is still in place, and on its own
    slot the token is then accepted for one request, after which it is
    refused.  The requests meant are those that reach the browser route
    (every method but [OPTIONS]). *)
Theorem url_token_wrong_slot
    (st : State) (req : Request) (other : Z) (rest tok : string) (e : UrlEntry) :
  String.eqb (method req) "OPTIONS" = false ->
  parseBrowserPath (path req) = Some (other, rest) ->
  urlTokens st !! tok = Some e ->
  u_browserId e <> other ->
  searchParamsGet "token" (query req) = Some tok ->
  validateBrowserAccess st req other = false ->
  (fst (handleRequest req st) = Forbidden403 \/ fst (handleRequest req st) = NotFound404)
  /\ (is_Some (getBrowserById st other) -> fst (handleRequest req st) = Forbidden403)
  /\ snd (handleRequest req st) = st
  /\ urlTokens (snd (handleRequest req st)) !! tok = Some e
  /\ forall req2 rest2,
       String.eqb (method req2) "OPTIONS" = false ->
       parseBrowserPath (path req2) = Some (u_browserId e, rest2) ->
       is_Some (getBrowserById st (u_browserId e)) ->
       searchParamsGet "token" (query req2) = Some tok ->
       validateBrowserAccess st req2 (u_browserId e) = false ->
       exists h p q st1,
         handleRequest req2 (snd (handleRequest req st))
           = (Proxied [SessionCookie (u_cookieToken e); BrowserCookie (u_browserId e)]
                      h p rest2 q, st1)
         /\ urlTokens st1 !! tok = None
         /\ forall req3 bid3 rest3,
              String.eqb (method req3) "OPTIONS" = false ->
              parseBrowserPath (path req3) = Some (bid3, rest3) ->
              searchParamsGet "token" (query req3) = Some tok ->
              is_Some (getBrowserById st1 bid3) ->
              validateBrowserAccess st1 req3 bid3 = false ->
              handleRequest req3 st1 = (Forbidden403, st1).
Proof.
  intros Hmethod Hpath He Hother Htok Hcookie.
  rewrite (handleRequest_route _ _ _ _ Hmethod Hpath).
  assert (Hrun : browseRoute req other rest st = (Forbidden403, st)
                 \/ (getBrowserById st other = None
                     /\ browseRoute req other rest st = (NotFound404, st))).
  { unfold browseRoute.
    destruct (getBrowserById st other) as [i|] eqn:Hi.
    - destruct (browseRoute_slot _ _ _ Hi) as (b & Hb & Hid).
      rewrite Hi in Hb. rewrite Hb, Hid, Hcookie, Htok, He. cbn.
      destruct (Z.eqb_spec (u_browserId e) other); [contradiction|]. now left.
    - right. split; reflexivity. }
  assert (Hst : snd (browseRoute req other rest st) = st).
  { destruct Hrun as [-> | [_ ->]]; reflexivity. }
  split; [destruct Hrun as [-> | [_ ->]]; auto|].
  split.
  { intros [i Hi]. destruct Hrun as [-> | [Hnone _]]; [reflexivity | congruence]. }
  split; [exact Hst|]. rewrite Hst. split; [exact He|].
  intros req2 rest2 Hmethod2 Hpath2 Hslot2 Htok2 Hcookie2.
  rewrite (handleRequest_route _ _ _ _ Hmethod2 Hpath2).
  destruct (browseRoute_consumes st req2 (u_browserId e) rest2 tok e)
    as (b & _ & _ & Hgo); try assumption; [reflexivity|].
  eexists _, _, _, _. split; [exact Hgo|]. split; [cbn; apply lookup_delete_eq|].
  intros req3 bid3 rest3 Hmethod3 Hpath3 Htok3 Hslot3 Hcookie3.
  rewrite (handleRequest_route _ _ _ _ Hmethod3 Hpath3).
  apply browseRoute_unknown_token with (tok := tok); try assumption.
  cbn. apply lookup_delete_eq.
Qed.

Lemma demoToken_length n : String.length (demoToken n) = S n.
Proof. induction n as [|n IH]; [reflexivity|]. cbn. now rewrite IH. Qed.

Lemma demoToken_inj n m : demoToken n = demoToken m -> n = m.
Proof.
  intros H. apply (f_equal String.length) in H.
  rewrite !demoToken_length in H. lia.
Qed.

Lemma demoToken_truthy n : Js.truthy (demoToken n) = true.
Proof. destruct n; reflexivity. Qed.

Lemma url_token_single_use_witness :
  exists h p q st1,
    handleRequest (Scenario.visit "/browser/1/" [("token", "tt")] None) Scenario.assigned
      = (Proxied [SessionCookie "t"; BrowserCookie 1] h p "/" q, st1)
    /\ urlTokens st1 !! "tt" = None
    /\ forall events req2,
         searchParamsGet "token" (query req2) = Some "tt" ->
         (forall cookies h2 p2 u2 q2 st3 c,
            handleRequest req2 (run demoToken st1 events)
              = (Proxied cookies h2 p2 u2 q2, st3) ->
            SessionCookie c ∉ cookies)
         /\ (forall bid2 rest2,
               String.eqb (method req2) "OPTIONS" = false ->
               parseBrowserPath (path req2) = Some (bid2, rest2) ->
               is_Some (getBrowserById (run demoToken st1 events) bid2) ->
               validateBrowserAccess (run demoToken st1 events) req2 bid2 = false ->
               handleRequest req2 (run demoToken st1 events)
                 = (Forbidden403, run demoToken st1 events)).
Proof.
  apply (url_token_single_use demoToken Scenario.assigned
           (Scenario.visit "/browser/1/" [("token", "tt")] None) 1 "/" "tt"
           Scenario.entry1).
  - reflexivity.
  - vm_compute. reflexivity.
  - exists 0%nat. vm_compute. reflexivity.
  - reflexivity.
  - vm_compute. reflexivity.
  - reflexivity.
  - vm_compute. reflexivity.
  - intros n Hn Heq. apply (demoToken_inj n 1) in Heq. subst n.
    vm_compute in Hn. lia.
Defined.

Lemma url_token_wrong_slot_witness :
  (fst (handleRequest (Scenario.visit "/browser/2/" [("token", "tt")] None)
                      Scenario.assigned) = Forbidden403
   \/ fst (handleRequest (Scenario.visit "/browser/2/" [("token", "tt")] None)
                         Scenario.assigned) = NotFound404)
  /\ fst (handleRequest (Scenario.visit "/browser/2/" [("token", "tt")] None)
                        Scenario.assigned) = Forbidden403
  /\ snd (handleRequest (Scenario.visit "/browser/2/" [("token", "tt")] None)
                        Scenario.assigned) = Scenario.assigned.
Proof.
  destruct (url_token_wrong_slot Scenario.assigned
              (Scenario.visit "/browser/2/" [("token", "tt")] None) 2 "/" "tt"
              Scenario.entry1) as (Hrefused & H403 & Hsame & _).
  - reflexivity.
  - vm_compute. reflexivity.
  - vm_compute. reflexivity.
  - vm_compute. discriminate.
  - reflexivity.
  - vm_compute. reflexivity.
  - split; [exact Hrefused|].
    split; [apply H403; exists 1%nat; vm_compute; reflexivity | exact Hsame].
Defined.

(** The session of scenario S4: the URL token opens slot 1 once, the cookie
    keeps it open, and the token is then refused; a preflight is answered
    without a look at either. *)
Example session_handoff :
  let first := handleRequest (Scenario.visit "/browser/1/" [("token", "tt")] None)
                             Scenario.assigned in
  fst first = Proxied [SessionCookie "t"; BrowserCookie 1] "localhost" 6901 "/" []
  /\ fst (handleRequest (Scenario.visit "/browser/1/" [("token", "tt")] None) (snd first))
     = Forbidden403
  /\ fst (handleRequest (Scenario.visit "/browser/1/" [] (Some "nebula_session=t")) (snd first))
     = Proxied [BrowserCookie 1] "localhost" 6901 "/" []
  /\ fst (handleRequest (Scenario.preflight "/browser/1/" [("token", "tt")]) Scenario.assigned)
     = NoContent204
  /\ snd (handleRequest (Scenario.preflight "/browser/1/" [("token", "tt")]) Scenario.assigned)
     = Scenario.assigned.
Proof. evaluate. Qed.

(** A token shown on the wrong slot first: it is refused there, and still
    opens its own slot once. *)
Example wrong_slot_then_own_slot :
  let failed := handleRequest (Scenario.visit "/browser/2/" [("token", "tt")] None)
                              Scenario.assigned in
  let first := handleRequest (Scenario.visit "/browser/1/" [("token", "tt")] None)
                             (snd failed) in
  fst failed = Forbidden403
  /\ fst first = Proxied [SessionCookie "t"; BrowserCookie 1] "localhost" 6901 "/" []
  /\ fst (handleRequest (Scenario.visit "/browser/1/" [("token", "tt")] None) (snd first))
     = Forbidden403.
Proof. evaluate. Qed.

(** *** One slot per client *)

Section Assign.

Variable secureToken : nat -> string.

(** Tokens are hexadecimal spellings of 32 bytes: never the empty string. *)
Hypothesis secureToken_truthy : forall n, Js.truthy (secureToken n) = true.

Lemma findBrowserByClientId_Some cid st i st0 :
  findBrowserByClientId cid st = (Some i, st0) ->
  st0 = st /\ Js.truthy cid = true /\
  exists b, BROWSERS st !! i = Some b /\ inUse b = true /\ clientId b = Some cid
            /\ clientSessions st !! cid = Some (id b).
Proof.
  unfold findBrowserByClientId. intros H.
  destruct (Js.truthy cid) eqn:Hcid; cbn in H; [|discriminate].
  destruct (clientSessions st !! cid) as [bid|] eqn:Hmap; [|discriminate].
  destruct (bid =? 0); [discriminate|].
  destruct (getBrowserById st bid) as [j|] eqn:Hj; [|discriminate].
  destruct (getBrowserById_Some _ _ _ Hj) as (b & Hb & Hid).
  rewrite Hb in H.
  destruct (inUse b) eqn:Huse; cbn in H; [|discriminate].
  destruct (bool_decide (clientId b = Some cid)) eqn:Hc; [|discriminate].
  apply bool_decide_eq_true in Hc. injection H as <- <-.
  repeat split; try reflexivity. exists b. rewrite Hid. auto.
Qed.

Lemma findBrowserByClientId_holds cid i c st :
  wfSlots st -> Js.truthy cid = true -> holds cid i c st ->
  findBrowserByClientId cid st = (Some i, st).
Proof.
  intros Hwf Hcid (b & Hb & Huse & Hclient & Hmap & _).
  unfold findBrowserByClientId. rewrite Hcid, Hmap. cbn.
  destruct (Z.eqb_spec (id b) 0) as [Hz|_].
  { exfalso. eapply wfSlots_nonzero; eauto. }
  rewrite (getBrowserById_lookup st i b) by (apply Hwf || exact Hb).
  rewrite Hb, Huse. cbn. rewrite bool_decide_eq_true_2 by exact Hclient. reflexivity.
Qed.

Lemma findAvailableBrowser_Some st i :
  findAvailableBrowser st = Some i ->
  exists b, BROWSERS st !! i = Some b /\ inUse b = false.
Proof.
  unfold findAvailableBrowser. intros H.
  destruct (list_find _ _) as [[j b]|] eqn:Hfind; [|discriminate].
  cbn in H. injection H as <-.
  apply list_find_Some in Hfind as (Hb & Hfree & _). eauto.
Qed.

(** Minting a URL token for a slot that has a cookie token. *)
Lemma createUrlToken_minted bid now st c :
  browserTokens st !! bid = Some c -> Js.truthy c = true ->
  createUrlToken secureToken bid now st
  = (Some (secureToken (drawn st)),
     setUrlTokens
       (<[secureToken (drawn st) :=
            {| u_browserId := bid; u_cookieToken := c; u_createdAt := now |}]>
          (urlTokens st))
       (setDrawn (S (drawn st)) st)).
Proof. intros Hc Ht. unfold createUrlToken. rewrite Hc, Ht. reflexivity. Qed.

Lemma ensureCookieToken_kept bid st c :
  browserTokens st !! bid = Some c -> Js.truthy c = true ->
  ensureCookieToken secureToken bid st = (c, st).
Proof. intros Hc Ht. unfold ensureCookieToken. rewrite Hc. cbn. rewrite Ht. reflexivity. Qed.

Lemma ensureCookieToken_spec bid st :
  exists c st',
    ensureCookieToken secureToken bid st = (c, st')
    /\ browserTokens st' !! bid = Some c /\ Js.truthy c = true
    /\ BROWSERS st' = BROWSERS st /\ clientSessions st' = clientSessions st
    /\ urlTokens st' = urlTokens st /\ (drawn st <= drawn st')%nat.
Proof.
  unfold ensureCookieToken.
  destruct (browserTokens st !! bid) as [c|] eqn:Hc; cbn.
  - destruct (Js.truthy c) eqn:Ht.
    + exists c, st. repeat split; auto.
    + eexists _, _. split; [reflexivity|]. cbn.
      rewrite lookup_insert_eq. repeat split; auto.
  - eexists _, _. split; [reflexivity|]. cbn.
    rewrite lookup_insert_eq. repeat split; auto.
Qed.

Lemma createSessionTokens_spec bid now st :
  exists st',
    createSessionTokens secureToken bid now st
    = ((secureToken (drawn st), secureToken (S (drawn st))), st')
    /\ BROWSERS st' = BROWSERS st /\ clientSessions st' = clientSessions st
    /\ browserTokens st' = <[bid := secureToken (drawn st)]> (browserTokens st)
    /\ urlTokens st'
       = <[secureToken (S (drawn st)) :=
             {| u_browserId := bid; u_cookieToken := secureToken (drawn st);
                u_createdAt := now |}]> (urlTokens st)
    /\ drawn st' = S (S (drawn st)).
Proof.
  unfold createSessionTokens, generateSecureToken.
  repeat case_match; cbn; eexists; (split; [reflexivity|]); cbn; auto 10.
Qed.

(** What a successful [assignBrowser] leaves behind. *)
Lemma assignBrowser_holds sid cid now st r st1 :
  wfSlots st -> Js.truthy cid = true ->
  assignBrowser secureToken sid cid now st = (Some r, st1) ->
  holds cid (a_browser r) (a_cookieToken r) st1
  /\ wfSlots st1
  /\ (exists k e, (k < drawn st1)%nat /\ a_urlToken r = Some (secureToken k)
                  /\ urlTokens st1 !! secureToken k = Some e
                  /\ u_cookieToken e = a_cookieToken r
                  /\ id <$> BROWSERS st1 !! a_browser r = Some (u_browserId e))
  /\ (a_existing r = false ->
      sessionId <$> BROWSERS st1 !! a_browser r = Some (Some sid)).
Proof.
  intros Hwf Hcid. unfold assignBrowser.
  destruct (findBrowserByClientId cid st) as [found st0] eqn:Hfind.
  destruct found as [i|].
  - destruct (findBrowserByClientId_Some _ _ _ _ Hfind)
      as (-> & _ & b & Hb & Huse & Hclient & Hmap).
    rewrite Hb. change (default 0 (id <$> Some b)) with (id b).
    match goal with
    | |- context [syncBrowserToFirebase i ?s] =>
        destruct (syncBrowserToFirebase_frame i s) as (Hu & Hd & HB & Hbt & Htb & Hcs & _);
        set (st' := syncBrowserToFirebase i s) in *
    end.
    destruct (ensureCookieToken_spec (id b) st')
      as (c & st2 & -> & Hc & Ht & HB2 & Hcs2 & Hu2 & Hd2).
    rewrite (createUrlToken_minted _ _ _ _ Hc Ht).
    intros H. injection H as <- <-. cbn.
    split; [|split; [|split; [|discriminate]]].
    + exists (withHeartbeat (Some now) b). cbn. rewrite HB2, HB. cbn.
      rewrite list_lookup_alter_eq, Hb. cbn. rewrite Hcs2, Hcs. cbn. auto 10.
    + eapply wfSlots_ids; [|exact Hwf]. cbn. rewrite HB2, HB. cbn.
      now apply ids_alter.
    + eexists (drawn st2), _. split; [lia|]. split; [reflexivity|].
      split; [apply lookup_insert_eq |]. split; [reflexivity|].
      cbn. rewrite HB2, HB. cbn. rewrite list_lookup_alter_eq, Hb. reflexivity.
  - pose proof (findBrowserByClientId_frame cid st) as (_ & _ & HB0 & _).
    rewrite Hfind in HB0. cbn [snd] in HB0.
    destruct (findAvailableBrowser st0) as [i|] eqn:Hfree; [|discriminate].
    destruct (findAvailableBrowser_Some _ _ Hfree) as (b & Hb & _).
    rewrite Hb, Hcid. change (default 0 (id <$> Some b)) with (id b).
    match goal with
    | |- context [createSessionTokens secureToken (id b) now ?s] =>
        destruct (createSessionTokens_spec (id b) now s)
          as (st2 & -> & HB2 & Hcs2 & Hbt2 & Hu2 & Hd2)
    end.
    destruct (syncBrowserToFirebase_frame i st2) as (Hu & Hd & HB & Hbt & Htb & Hcs & _).
    cbn in HB2, Hcs2, Hbt2, Hu2, Hd2.
    intros H. injection H as <- <-. cbn.
    split; [|split; [|split]].
    + exists (claimed sid cid now b). cbn. rewrite HB, Hcs, Hbt, HB2, Hcs2, Hbt2.
      rewrite list_lookup_alter_eq, Hb. cbn. rewrite !lookup_insert_eq. auto 10.
    + eapply wfSlots_ids; [|exact Hwf]. rewrite HB, HB2, <- HB0. now apply ids_alter.
    + rewrite Hu, Hd, Hu2, Hd2. eexists _, _.
      split; [|split; [reflexivity|split; [apply lookup_insert_eq |]]]; [lia|].
      split; [reflexivity|].
      cbn. rewrite HB, HB2. cbn. rewrite list_lookup_alter_eq, Hb. reflexivity.
    + intros _. rewrite HB, HB2. cbn. rewrite list_lookup_alter_eq, Hb. reflexivity.
Qed.

(** A second [assignBrowser] of the client that holds a slot. *)
Lemma assignBrowser_again sid cid now st i c :
  wfSlots st -> Js.truthy cid = true -> holds cid i c st ->
  exists st2,
    assignBrowser secureToken sid cid now st
    = (Some {| a_browser := i; a_existing := true; a_cookieToken := c;
               a_urlToken := Some (secureToken (drawn st)) |}, st2)
    /\ BROWSERS st2 = alter (withHeartbeat (Some now)) i (BROWSERS st)
    /\ browserTokens st2 = browserTokens st
    /\ tokenToBrowser st2 = tokenToBrowser st
    /\ clientSessions st2 = clientSessions st
    /\ (exists e, urlTokens st2 = <[secureToken (drawn st) := e]> (urlTokens st)
                  /\ u_cookieToken e = c)
    /\ drawn st2 = S (drawn st).
Proof.
  intros Hwf Hcid Hholds.
  pose proof Hholds as (b & Hb & Huse & Hclient & Hmap & Hc & Ht).
  unfold assignBrowser. rewrite (findBrowserByClientId_holds cid i c st) by assumption.
  rewrite Hb. change (default 0 (id <$> Some b)) with (id b).
  match goal with
  | |- context [syncBrowserToFirebase i ?s] =>
      destruct (syncBrowserToFirebase_frame i s) as (Hu & Hd & HB & Hbt & Htb & Hcs & _);
      set (st' := syncBrowserToFirebase i s) in *
  end.
  cbn in Hu, Hd, HB, Hbt, Htb, Hcs.
  assert (Hc' : browserTokens st' !! id b = Some c) by (rewrite Hbt; exact Hc).
  rewrite (ensureCookieToken_kept _ _ _ Hc' Ht).
  rewrite (createUrlToken_minted _ _ _ _ Hc' Ht).
  eexists. split; [rewrite Hd; reflexivity|]. cbn.
  rewrite Hu. repeat split; auto.
  eexists. split; reflexivity.
Qed.

Lemma inUseCount_heartbeat now i st st' :
  BROWSERS st' = alter (withHeartbeat (Some now)) i (BROWSERS st) ->
  inUseCount st' = inUseCount st.
Proof.
  unfold inUseCount. intros ->.
  generalize (BROWSERS st) as l. intros l. revert i.
  induction l as [|x l IH]; intros [|i]; cbn; try reflexivity.
  - destruct (inUse x); reflexivity.
  - destruct (inUse x); cbn; [f_equal|]; apply IH.
Qed.

Lemma effectiveClientId_truthy req v : Js.truthy (effectiveClientId req v) = true.
Proof.
  unfold effectiveClientId. destruct v; try reflexivity.
  destruct (negb (Js.truthy s) || (Js.len s <? 10)%nat) eqn:H; [reflexivity|].
  apply orb_false_elim in H as [H _].
  destruct (Js.truthy s); [reflexivity | discriminate].
Qed.


End Assign.







(** The derived id of that visitor, and the slot it is given twice. *)
Example derived_client_id_value :
  effectiveClientId Scenario.api JUndefined = "auto_MTAuMC4wLjd8TW96aWxsYS81LjA="
  /\ fst (requestBrowser demoToken Scenario.api (JString "short") "sess_b" 2000
                         Scenario.assignedAuto)
     = Assigned200 (Some "sess_a")
         {| bu_protocol := "https"; bu_host := Some "nebula.example";
            bu_browserId := 1; bu_token := Some "ttt" |} true.
Proof. split; vm_compute; reflexivity. Qed.

(** *** WebSocket upgrades *)

Lemma upgrade_route st req bid rest :
  parseBrowserPath (path req) = Some (bid, rest) ->
  upgrade st req
  = match getBrowserById st bid ≫= (fun i => BROWSERS st !! i) with
    | None => WsBadRequest400
    | Some browser =>
        if negb (isAudioPath rest) && negb (validateBrowserAccess st req (id browser))
        then WsForbidden403
        else if isAudioPath rest then
          if Js.truthyOpt (wsKey req) then AudioStream (id browser) else WsMissingKey400
        else Tunnel (host browser) (port browser) (rest +:+ rawSearch req)
    end.
Proof. intros Hpath. unfold upgrade. rewrite Hpath. reflexivity. Qed.

(** C2 fails as stated: slot 1 is assigned to a client, and an upgrade on
    [/browser/1/audio] or [/browser/1/kasmaudio] from a request without any
    cookie is not refused; the audio stream of the slot is served. *)
Lemma audio_upgrade_needs_no_cookie :
  validateBrowserAccess Scenario.assigned (Scenario.visit "/browser/1/audio" [] None) 1 = false
  /\ upgrade Scenario.assigned (Scenario.visit "/browser/1/audio" [] None) = AudioStream 1
  /\ upgrade Scenario.assigned (Scenario.visit "/browser/1/kasmaudio" [] None) = AudioStream 1
  /\ upgrade Scenario.assigned (Scenario.visit "/browser/1/websockify" [] None) = WsForbidden403.
Proof. evaluate. Qed.

(** C2 (amended).  An upgrade on [/browser/<id>/<rest>] whose [<rest>] is
    neither [/audio] nor starts with [/kasmaudio] is tunnelled to the slot's
    container only when the session cookie of the request maps to that slot;
    without such a cookie it is refused (403, or 400 when there is no such
    slot), and with it the tunnel is opened.  On the audio paths nothing is
    tunnelled and the cookie is not looked at: when the slot exists and the
    request has a WebSocket key, the server answers the handshake itself and
    serves the slot's audio. *)
Theorem upgrade_access_control (st : State) (req : Request) (bid : Z) (rest : string) :
  parseBrowserPath (path req) = Some (bid, rest) ->
  (isAudioPath rest = false ->
     (forall h p t, upgrade st req = Tunnel h p t ->
                    validateBrowserAccess st req bid = true)
     /\ (validateBrowserAccess st req bid = false ->
         upgrade st req = WsForbidden403 \/ upgrade st req = WsBadRequest400)
     /\ (validateBrowserAccess st req bid = true ->
         is_Some (getBrowserById st bid) ->
         exists h p, upgrade st req = Tunnel h p (rest +:+ rawSearch req)))
  /\ (isAudioPath rest = true ->
     (forall h p t, upgrade st req <> Tunnel h p t)
     /\ (is_Some (getBrowserById st bid) -> Js.truthyOpt (wsKey req) = true ->
         upgrade st req = AudioStream bid)).
Proof.
  intros Hpath. rewrite (upgrade_route _ _ _ _ Hpath).
  destruct (getBrowserById st bid) as [i|] eqn:Hi.
  - destruct (browseRoute_slot _ _ _ Hi) as (b & Hb & Hid).
    rewrite Hi in Hb. rewrite Hb, Hid.
    split; intros Haudio; rewrite Haudio; cbn [negb andb].
    + destruct (validateBrowserAccess st req bid); cbn [negb]; split; [|split| |split];
        try (intros; congruence); try (intros; discriminate); eauto.
    + split; [intros h p t; destruct (Js.truthyOpt (wsKey req)); discriminate|].
      intros _ ->. reflexivity.
  - cbn. split; intros Haudio.
    + split; [discriminate|]. split; [auto|]. intros _ [? ?]. discriminate.
    + split; [discriminate|]. intros [? ?]. discriminate.
Qed.

Lemma upgrade_access_control_witness :
  (isAudioPath "/websockify" = false ->
     (forall h p t,
        upgrade Scenario.assigned
                (Scenario.visit "/browser/1/websockify" [] (Some "nebula_session=t"))
          = Tunnel h p t ->
        validateBrowserAccess Scenario.assigned
          (Scenario.visit "/browser/1/websockify" [] (Some "nebula_session=t")) 1 = true)
     /\ (validateBrowserAccess Scenario.assigned
           (Scenario.visit "/browser/1/websockify" [] (Some "nebula_session=t")) 1 = false ->
         upgrade Scenario.assigned
                 (Scenario.visit "/browser/1/websockify" [] (Some "nebula_session=t"))
           = WsForbidden403
         \/ upgrade Scenario.assigned
                    (Scenario.visit "/browser/1/websockify" [] (Some "nebula_session=t"))
            = WsBadRequest400)
     /\ (validateBrowserAccess Scenario.assigned
           (Scenario.visit "/browser/1/websockify" [] (Some "nebula_session=t")) 1 = true ->
         is_Some (getBrowserById Scenario.assigned 1) ->
         exists h p,
           upgrade Scenario.assigned
                   (Scenario.visit "/browser/1/websockify" [] (Some "nebula_session=t"))
             = Tunnel h p ("/websockify" +:+ "")))
  /\ (isAudioPath "/websockify" = true ->
     (forall h p t,
        upgrade Scenario.assigned
                (Scenario.visit "/browser/1/websockify" [] (Some "nebula_session=t"))
          <> Tunnel h p t)
     /\ (is_Some (getBrowserById Scenario.assigned 1) ->
         Js.truthyOpt (Some "dGhlIHNhbXBsZSBub25jZQ==") = true ->
         upgrade Scenario.assigned
                 (Scenario.visit "/browser/1/websockify" [] (Some "nebula_session=t"))
           = AudioStream 1)).
Proof.
  apply (upgrade_access_control Scenario.assigned
           (Scenario.visit "/browser/1/websockify" [] (Some "nebula_session=t"))
           1 "/websockify").
  vm_compute. reflexivity.
Defined.

(** The tunnel of that request, and the refusal of a stranger's. *)
Example upgrade_with_and_without_cookie :
  upgrade Scenario.assigned
          (Scenario.visit "/browser/1/websockify" [] (Some "nebula_session=t"))
    = Tunnel "localhost" 6901 "/websockify"
  /\ upgrade Scenario.assigned
             (Scenario.visit "/browser/1/websockify" [] (Some "nebula_session=guess"))
     = WsForbidden403
  /\ upgrade Scenario.assigned
             (Scenario.visit "/browser/2/websockify" [] (Some "nebula_session=t"))
     = WsForbidden403.
Proof. evaluate. Qed.

(** *** Release *)

(** C3, on the code.  A client asks for a browser twice and then releases
    it.  Every slot is free afterwards and no token is left, but the
    [sessions] map still holds the record that the second call added for
    slot 1: the loop of [doReleaseBrowser] deletes one record of the slot and
    breaks. *)
Theorem release_leaves_a_session_record :
  map inUse (BROWSERS Scenario.askedTwiceThenReleased) = repeat false 10
  /\ map_to_list (tokenToBrowser Scenario.askedTwiceThenReleased) = []
  /\ map_to_list (urlTokens Scenario.askedTwiceThenReleased) = []
  /\ sessions Scenario.askedTwiceThenReleased
     = [("sess_b", {| s_browserId := 1; s_clientId := Some "client-0001";
                      createdAt := Some 2000; lastActivity := Some 2000 |})].
Proof. evaluate. Qed.

(** What [doReleaseBrowser] does take away: the client mapping, the cookie
    token in both maps, every URL token of the slot and the connection
    counter; the slot is marked free and a tombstone is written to the
    mirror.  No request showing the old cookie token passes the access check
    of any slot afterwards. *)
Lemma doReleaseBrowser_revokes st i b c :
  BROWSERS st !! i = Some b -> inUse b = true ->
  browserTokens st !! id b = Some c -> Js.truthy c = true ->
  browserTokens (doReleaseBrowser i st) !! id b = None
  /\ tokenToBrowser (doReleaseBrowser i st) !! c = None
  /\ (forall tok e, urlTokens (doReleaseBrowser i st) !! tok = Some e -> u_browserId e <> id b)
  /\ (forall cid, orNull (clientId b) = Some cid ->
                  clientSessions (doReleaseBrowser i st) !! cid = None)
  /\ activeConnections (doReleaseBrowser i st) !! id b = None
  /\ BROWSERS (doReleaseBrowser i st) !! i = Some (released b)
  /\ (forall log, mirror st = Some log ->
        mirror (doReleaseBrowser i st)
        = Some (log ++ [(id b, {| m_inUse := false; m_clientId := None;
                                  m_sessionId := None;
                                  m_lastUsed := orNullZ (lastUsed b);
                                  m_lastHeartbeat := None |})])%list)
  /\ (forall req bid, parseCookies req !! "nebula_session" = Some c ->
        validateBrowserAccess (doReleaseBrowser i st) req bid = false).
Proof.
  intros Hb Huse Hc Ht.
  assert (Htok : tokenToBrowser (doReleaseBrowser i st) !! c = None).
  { unfold doReleaseBrowser. rewrite Hb, Huse. cbn [negb].
    match goal with
    | |- context [syncBrowserToFirebase i ?s] =>
        destruct (syncBrowserToFirebase_frame i s) as (_ & _ & _ & _ & -> & _)
    end.
    destruct (orNull (clientId b)); cbn; rewrite Hc; cbn; rewrite Ht; cbn;
      apply lookup_delete_eq. }
  unfold doReleaseBrowser in *. rewrite Hb, Huse in *. cbn [negb] in *.
  unfold syncBrowserToFirebase in *.
  destruct (orNull (clientId b)) as [cid|] eqn:Hcid;
    cbn in *; rewrite Hc in *; cbn in *; rewrite Ht in *; cbn in *;
    rewrite list_lookup_alter_eq, Hb in *; cbn in *;
    destruct (mirror st) as [log|] eqn:Hlog; cbn in *.
  all: repeat split;
    try (apply lookup_delete_eq);
    try (intros tok e; rewrite map_lookup_filter_Some; cbn; tauto);
    try (intros ? [= <-]; apply lookup_delete_eq);
    try discriminate;
    try (intros ? [= <-]; reflexivity);
    try (intros req bid Hreq; unfold validateBrowserAccess; rewrite Hreq, Ht; cbn;
         apply bool_decide_eq_false_2; rewrite lookup_delete_eq; discriminate);
    try (rewrite list_lookup_alter_eq, Hb; reflexivity).
Qed.

(** *** The slots are fixed *)

Section Slots.

Variable secureToken : nat -> string.

(** [sameSlots st st']: the same slot ids at the same positions. *)
Local Abbreviation sameSlots st st' := (map id (BROWSERS st') = map id (BROWSERS st)).

Lemma sameSlots_trans (st1 st2 st3 : State) :
  sameSlots st1 st2 -> sameSlots st2 st3 -> sameSlots st1 st3.
Proof. congruence. Qed.

Lemma sameSlots_doReleaseBrowser i st : sameSlots st (doReleaseBrowser i st).
Proof.
  unfold doReleaseBrowser. repeat case_match; try reflexivity.
  all: match goal with
       | |- context [syncBrowserToFirebase ?i ?s] =>
           destruct (syncBrowserToFirebase_frame i s) as (_ & _ & -> & _)
       end; cbn; now apply ids_alter.
Qed.

Lemma sameSlots_cleanupSessions now st : sameSlots st (cleanupSessions now st).
Proof.
  unfold cleanupSessions. generalize (seq 0 (length (BROWSERS st))) as l.
  intros l. revert st. induction l as [|i l IH]; intros st; cbn; [reflexivity|].
  eapply sameSlots_trans; [|apply IH].
  unfold reapBrowser. repeat case_match; try reflexivity; apply sameSlots_doReleaseBrowser.
Qed.

Lemma createUrlToken_slots bid now st :
  BROWSERS (snd (createUrlToken secureToken bid now st)) = BROWSERS st.
Proof. unfold createUrlToken, generateSecureToken. repeat case_match; reflexivity. Qed.

Lemma ensureCookieToken_slots bid st :
  BROWSERS (snd (ensureCookieToken secureToken bid st)) = BROWSERS st.
Proof. unfold ensureCookieToken, generateSecureToken. repeat case_match; reflexivity. Qed.

Lemma sameSlots_assignBrowser sid cid now st :
  sameSlots st (snd (assignBrowser secureToken sid cid now st)).
Proof.
  unfold assignBrowser.
  destruct (findBrowserByClientId cid st) as [found st0] eqn:Hfind.
  pose proof (findBrowserByClientId_frame cid st) as (_ & _ & HB0 & _).
  rewrite Hfind in HB0. cbn [snd] in HB0. rewrite <- HB0.
  destruct found as [i|].
  - match goal with
    | |- context [ensureCookieToken secureToken ?b ?s] =>
        pose proof (ensureCookieToken_slots b s) as Hens;
        destruct (ensureCookieToken secureToken b s) as [ck st1]
    end.
    match goal with
    | |- context [createUrlToken secureToken ?b ?n ?s] =>
        pose proof (createUrlToken_slots b n s) as Hurl;
        destruct (createUrlToken secureToken b n s) as [u st2]
    end.
    cbn [snd] in *. rewrite Hurl, Hens.
    match goal with
    | |- context [syncBrowserToFirebase ?i ?s] =>
        destruct (syncBrowserToFirebase_frame i s) as (_ & _ & -> & _)
    end.
    cbn. now apply ids_alter.
  - destruct (findAvailableBrowser st0) as [i|]; [|reflexivity].
    match goal with
    | |- context [createSessionTokens secureToken ?b ?n ?s] =>
        destruct (createSessionTokens_spec secureToken b n s) as (st2 & -> & HB2 & _)
    end.
    cbn [snd].
    destruct (syncBrowserToFirebase_frame i st2) as (_ & _ & -> & _).
    rewrite HB2. destruct (Js.truthy cid); cbn; now apply ids_alter.
Qed.

Lemma sameSlots_step st e : sameSlots st (step secureToken st e).
Proof.
  destruct e; cbn [step].
  - unfold handleRequest, browseRoute. repeat case_match; simplify_eq; reflexivity.
  - unfold requestBrowser.
    pose proof (sameSlots_assignBrowser newSessionId
                  (effectiveClientId req parsedClientId) now st) as H.
    destruct (assignBrowser _ _ _ _ _) as [r st1]. cbn [snd] in H.
    repeat case_match; exact H.
  - unfold checkSession. destruct (orNull _) as [cid|]; [|reflexivity].
    destruct (findBrowserByClientId cid st) as [found st0] eqn:Hfind.
    pose proof (findBrowserByClientId_frame cid st) as (_ & _ & HB0 & _).
    rewrite Hfind in HB0. cbn [snd] in HB0. rewrite <- HB0.
    destruct (found ≫= _) as [[i browser]|]; [|reflexivity].
    destruct (_ <? _).
    + pose proof (ensureCookieToken_slots (id browser) st0) as Hens.
      destruct (ensureCookieToken secureToken (id browser) st0) as [ck st1].
      pose proof (createUrlToken_slots (id browser) now st1) as Hurl.
      destruct (createUrlToken secureToken (id browser) now st1) as [u st2].
      cbn [snd] in *. now rewrite Hurl, Hens.
    + apply sameSlots_doReleaseBrowser.
  - unfold heartbeat.
    repeat case_match; cbn [snd]; try reflexivity;
      try (cbn; now apply ids_alter).
    match goal with
    | |- context [syncBrowserToFirebase ?i ?s] =>
        destruct (syncBrowserToFirebase_frame i s) as (_ & _ & -> & _)
    end.
    cbn. now apply ids_alter.
  - unfold release.
    repeat case_match; cbn [snd]; try reflexivity; try apply sameSlots_doReleaseBrowser.
    all: match goal with
         | H : findBrowserByClientId ?cid ?st = (_, ?st0) |- _ =>
             pose proof (findBrowserByClientId_frame cid st) as (_ & _ & HB0 & _);
             rewrite H in HB0; cbn [snd] in HB0; rewrite <- HB0
         end; try reflexivity; apply sameSlots_doReleaseBrowser.
  - unfold trackWsConnect. repeat case_match; try reflexivity; cbn; now apply ids_alter.
  - unfold trackWsDisconnect. repeat case_match; reflexivity.
  - apply sameSlots_cleanupSessions.
  - reflexivity.
  - destruct (restoreBrowser_cases secureToken state now st i)
      as [(-> & _)|(b & saved & _ & _ & _ & _ & _ & -> & _)]; [reflexivity|].
    now apply ids_alter.
Qed.

Lemma sameSlots_run events st : sameSlots st (run secureToken st events).
Proof.
  revert st. induction events as [|e events IH]; intros st; cbn; [reflexivity|].
  eapply sameSlots_trans; [apply sameSlots_step | apply IH].
Qed.

(** In every state the server reaches, the slots are those of the
    [BROWSERS] array: ten slots with ids 1 to 10. *)
Lemma reachable_slots st :
  reachable secureToken st ->
  map id (BROWSERS st) = [1; 2; 3; 4; 5; 6; 7; 8; 9; 10] /\ wfSlots st.
Proof.
  intros (db & events & ->).
  pose proof (sameSlots_run events (initial db)) as H.
  split; [exact H|]. eapply wfSlots_ids; [exact H | apply wfSlots_initial].
Qed.

End Slots.

(** *** At most one slot per client *)

Section Steady.

Variable secureToken : nat -> string.

Lemma kept_refl st b : kept st st b b.
Proof. repeat split; auto. Qed.

Lemma kept_trans st1 st2 st3 a b c :
  kept st1 st2 a b -> kept st2 st3 b c -> kept st1 st3 a c.
Proof.
  intros (Hi & Hc & Hs & Hcs & Hbt) (Hi' & Hc' & Hs' & Hcs' & Hbt').
  repeat split; try congruence.
  - intros cid Hcid Hm. rewrite <- Hi. apply Hcs'; [congruence|].
    rewrite Hi. now apply Hcs.
  - intros t Ht Htr. rewrite <- Hi. apply Hbt'; [|exact Htr].
    rewrite Hi. now apply Hbt.
Qed.

Lemma shrinks_refl st : shrinks st st.
Proof. split; [reflexivity|]. intros i b Hb Hu. exists b. auto using kept_refl. Qed.

Lemma shrinks_trans st1 st2 st3 : shrinks st1 st2 -> shrinks st2 st3 -> shrinks st1 st3.
Proof.
  intros [Hids H] [Hids' H']. split; [congruence|].
  intros i c Hc Hu. destruct (H' i c Hc Hu) as (b & Hb & Hub & Hk').
  destruct (H i b Hb Hub) as (a & Ha & Hua & Hk).
  exists a. eauto using kept_trans.
Qed.

Lemma shrinks_evolves st st' : shrinks st st' -> evolves st st'.
Proof.
  intros [Hids H]. split; [exact Hids|]. intros i b b' Hb Hu Hb' Hu'.
  destruct (H i b' Hb' Hu') as (b0 & Hb0 & _ & Hk). congruence.
Qed.

Lemma shrinks_wf st st' :
  wfSlots st -> clientIndex st -> shrinks st st' -> wfSlots st' /\ clientIndex st'.
Proof.
  intros Hwf Hidx [Hids H]. split; [eapply wfSlots_ids; eauto|].
  intros i b' Hb' Hu'. destruct (H i b' Hb' Hu') as (b & Hb & Hu & Hi & Hc & _ & Hcs & _).
  destruct (Hidx i b Hb Hu) as (cid & Hcid & Ht & Hm).
  exists cid. rewrite Hc, Hi. auto.
Qed.

Lemma shrinks_frame st st' :
  BROWSERS st' = BROWSERS st -> clientSessions st' = clientSessions st ->
  browserTokens st' = browserTokens st -> shrinks st st'.
Proof.
  intros HB Hcs Hbt. split; [now rewrite HB|]. intros i b Hb Hu. rewrite HB in Hb.
  exists b. unfold kept. rewrite Hcs, Hbt. auto 10.
Qed.

(** Field assignments that keep [id], [inUse], [clientId] and [sessionId]. *)
Lemma shrinks_alter (f : Browser -> Browser) k st st' :
  (forall b, id (f b) = id b /\ inUse (f b) = inUse b
             /\ clientId (f b) = clientId b /\ sessionId (f b) = sessionId b) ->
  BROWSERS st' = alter f k (BROWSERS st) -> clientSessions st' = clientSessions st ->
  browserTokens st' = browserTokens st -> shrinks st st'.
Proof.
  intros Hf HB Hcs Hbt. split.
  { rewrite HB. apply ids_alter. intros b. apply Hf. }
  intros i b' Hb' Hu'. rewrite HB in Hb'. unfold kept. rewrite Hcs, Hbt.
  destruct (decide (k = i)) as [->|Hne].
  - rewrite list_lookup_alter_eq in Hb'.
    destruct (BROWSERS st !! i) as [a|] eqn:Ha; [|discriminate].
    cbn in Hb'. injection Hb' as <-. destruct (Hf a) as (Hid & Huse & Hcid & Hsid).
    exists a. rewrite Hid, Hcid, Hsid. repeat split; auto. congruence.
  - rewrite list_lookup_alter_ne in Hb' by exact Hne. exists b'. auto 10.
Qed.

Lemma withHeartbeat_keeps t b :
  id (withHeartbeat t b) = id b /\ inUse (withHeartbeat t b) = inUse b
  /\ clientId (withHeartbeat t b) = clientId b
  /\ sessionId (withHeartbeat t b) = sessionId b.
Proof. auto. Qed.

(** The client of a slot in use is found. *)
Lemma findBrowserByClientId_live cid st i b :
  wfSlots st -> Js.truthy cid = true ->
  BROWSERS st !! i = Some b -> inUse b = true -> clientId b = Some cid ->
  clientSessions st !! cid = Some (id b) ->
  findBrowserByClientId cid st = (Some i, st).
Proof.
  intros Hwf Hcid Hb Huse Hclient Hmap.
  unfold findBrowserByClientId. rewrite Hcid, Hmap. cbn.
  destruct (Z.eqb_spec (id b) 0) as [Hz|_].
  { exfalso. eapply wfSlots_nonzero; eauto. }
  rewrite (getBrowserById_lookup st i b) by (apply Hwf || exact Hb).
  rewrite Hb, Huse. cbn. rewrite bool_decide_eq_true_2 by exact Hclient. reflexivity.
Qed.

Lemma findBrowserByClientId_fields cid st :
  BROWSERS (snd (findBrowserByClientId cid st)) = BROWSERS st
  /\ browserTokens (snd (findBrowserByClientId cid st)) = browserTokens st
  /\ forall cid', cid' <> cid ->
       clientSessions (snd (findBrowserByClientId cid st)) !! cid'
       = clientSessions st !! cid'.
Proof.
  unfold findBrowserByClientId.
  repeat case_match; cbn; repeat split; auto; intros; now apply lookup_delete_ne.
Qed.

Lemma shrinks_findBrowserByClientId cid st :
  wfSlots st -> shrinks st (snd (findBrowserByClientId cid st)).
Proof.
  intros Hwf. destruct (findBrowserByClientId_fields cid st) as (HB & Hbt & Hcs).
  split; [now rewrite HB|]. intros i b Hb Hu. rewrite HB in Hb.
  exists b. unfold kept. rewrite Hbt. repeat split; auto.
  intros cid' Hclient Hmap. destruct (decide (cid' = cid)) as [->|Hne].
  - destruct (Js.truthy cid) eqn:Hcid.
    + now rewrite (findBrowserByClientId_live cid st i b).
    + unfold findBrowserByClientId. now rewrite Hcid.
  - now rewrite Hcs.
Qed.

(** A client that is not found holds no slot. *)
Lemma findBrowserByClientId_None cid st st0 :
  wfSlots st -> clientIndex st ->
  findBrowserByClientId cid st = (None, st0) ->
  forall i b, BROWSERS st0 !! i = Some b -> inUse b = true -> clientId b <> Some cid.
Proof.
  intros Hwf Hidx Hfind i b Hb Hu Hclient.
  destruct (findBrowserByClientId_fields cid st) as (HB & _).
  rewrite Hfind in HB. cbn [snd] in HB. rewrite HB in Hb.
  destruct (Hidx i b Hb Hu) as (cid' & Hcid' & Ht & Hm).
  assert (cid' = cid) by congruence. subst cid'.
  rewrite (findBrowserByClientId_live cid st i b) in Hfind by assumption.
  discriminate.
Qed.

Lemma doReleaseBrowser_fields j st bj :
  BROWSERS st !! j = Some bj -> inUse bj = true ->
  BROWSERS (doReleaseBrowser j st) = alter released j (BROWSERS st)
  /\ clientSessions (doReleaseBrowser j st)
     = match orNull (clientId bj) with
       | Some cid => delete cid (clientSessions st)
       | None => clientSessions st
       end
  /\ forall bid, bid <> id bj ->
       browserTokens (doReleaseBrowser j st) !! bid = browserTokens st !! bid.
Proof.
  intros Hj Hu. unfold doReleaseBrowser. rewrite Hj, Hu. cbn [negb].
  match goal with
  | |- context [syncBrowserToFirebase j ?s] =>
      destruct (syncBrowserToFirebase_frame j s) as (_ & _ & -> & -> & _ & -> & _)
  end.
  destruct (orNull (clientId bj)); cbn;
    (destruct (orNull _); cbn; repeat split; auto; intros; now apply lookup_delete_ne).
Qed.

Lemma orNull_Some o s : orNull o = Some s -> o = Some s.
Proof. unfold orNull. destruct o as [x|]; [|discriminate]. case_match; congruence. Qed.

Lemma shrinks_doReleaseBrowser j st :
  wfSlots st -> clientIndex st -> shrinks st (doReleaseBrowser j st).
Proof.
  intros Hwf Hidx.
  destruct (BROWSERS st !! j) as [bj|] eqn:Hj;
    [|unfold doReleaseBrowser; rewrite Hj; apply shrinks_refl].
  destruct (inUse bj) eqn:Huj;
    [|unfold doReleaseBrowser; rewrite Hj, Huj; apply shrinks_refl].
  destruct (doReleaseBrowser_fields j st bj Hj Huj) as (HB & Hcs & Hbt).
  split; [rewrite HB; now apply ids_alter|].
  intros i b Hb Hu. rewrite HB in Hb.
  destruct (decide (j = i)) as [->|Hne].
  { rewrite list_lookup_alter_eq, Hj in Hb. cbn in Hb. injection Hb as <-. discriminate. }
  rewrite list_lookup_alter_ne in Hb by exact Hne.
  assert (Hid : id b <> id bj).
  { intros Heq. apply Hne. destruct Hwf as [Hnd _].
    eapply NoDup_lookup; [exact Hnd| |].
    - rewrite list_lookup_fmap, Hj. reflexivity.
    - rewrite list_lookup_fmap, Hb. cbn. now rewrite Heq. }
  exists b. repeat split; auto.
  - intros cid Hclient Hmap. rewrite Hcs.
    destruct (orNull (clientId bj)) as [cj|] eqn:Hcj; [|exact Hmap].
    apply orNull_Some in Hcj.
    rewrite lookup_delete_ne; [exact Hmap|]. intros ->.
    destruct (Hidx j bj Hj Huj) as (c & Hc & _ & Hm). congruence.
  - intros c Hc _. now rewrite Hbt.
Qed.

Lemma shrinks_ensureCookieToken bid st :
  shrinks st (snd (ensureCookieToken secureToken bid st)).
Proof.
  unfold ensureCookieToken, generateSecureToken.
  destruct (orNull (browserTokens st !! bid)) as [c|] eqn:Hc; cbn; [apply shrinks_refl|].
  split; [reflexivity|]. intros i b Hb Hu. exists b. repeat split; auto.
  intros c Hlook Ht. cbn. destruct (decide (id b = bid)) as [<-|Hne].
  - rewrite Hlook in Hc. cbn in Hc. rewrite Ht in Hc. discriminate.
  - now rewrite lookup_insert_ne.
Qed.

Lemma shrinks_createUrlToken bid now st :
  shrinks st (snd (createUrlToken secureToken bid now st)).
Proof.
  unfold createUrlToken, generateSecureToken.
  repeat case_match; cbn; now apply shrinks_frame.
Qed.

Lemma shrinks_syncBrowserToFirebase i st : shrinks st (syncBrowserToFirebase i st).
Proof.
  destruct (syncBrowserToFirebase_frame i st) as (_ & _ & HB & Hbt & _ & Hcs & _).
  now apply shrinks_frame.
Qed.

Lemma shrinks_reapBrowser now st i :
  wfSlots st -> clientIndex st -> shrinks st (reapBrowser now st i).
Proof.
  intros Hwf Hidx. unfold reapBrowser.
  repeat case_match; try apply shrinks_refl; now apply shrinks_doReleaseBrowser.
Qed.

Lemma shrinks_cleanupSessions now st :
  wfSlots st -> clientIndex st -> shrinks st (cleanupSessions now st).
Proof.
  unfold cleanupSessions. generalize (seq 0 (length (BROWSERS st))) as l.
  intros l. revert st. induction l as [|i l IH]; intros st Hwf Hidx; cbn;
    [apply shrinks_refl|].
  pose proof (shrinks_reapBrowser now st i Hwf Hidx) as Hs.
  destruct (shrinks_wf _ _ Hwf Hidx Hs) as [Hwf' Hidx'].
  eapply shrinks_trans; [exact Hs | now apply IH].
Qed.

Lemma shrinks_handleRequest req st : shrinks st (snd (handleRequest req st)).
Proof.
  unfold handleRequest, browseRoute.
  repeat case_match; simplify_eq; cbn; now apply shrinks_frame.
Qed.

Lemma shrinks_checkSession req now st :
  wfSlots st -> clientIndex st -> shrinks st (snd (checkSession secureToken req now st)).
Proof.
  intros Hwf Hidx. unfold checkSession.
  destruct (orNull _) as [cid|]; [|apply shrinks_refl].
  pose proof (shrinks_findBrowserByClientId cid st Hwf) as Hs.
  destruct (findBrowserByClientId cid st) as [found st0]. cbn [snd] in Hs.
  destruct (shrinks_wf _ _ Hwf Hidx Hs) as [Hwf0 Hidx0].
  eapply shrinks_trans; [exact Hs|].
  destruct (found ≫= _) as [[i browser]|]; [|apply shrinks_refl].
  destruct (_ <? _).
  - pose proof (shrinks_ensureCookieToken (id browser) st0) as Hens.
    destruct (ensureCookieToken secureToken (id browser) st0) as [ck st1].
    pose proof (shrinks_createUrlToken (id browser) now st1) as Hurl.
    destruct (createUrlToken secureToken (id browser) now st1) as [u st2].
    cbn [snd] in *. eapply shrinks_trans; eauto.
  - now apply shrinks_doReleaseBrowser.
Qed.

Lemma shrinks_heartbeat b s now sampled st : shrinks st (snd (heartbeat b s now sampled st)).
Proof.
  unfold heartbeat.
  repeat case_match; cbn [snd]; try apply shrinks_refl.
  - eapply shrinks_trans; [|apply shrinks_syncBrowserToFirebase].
    eapply shrinks_alter; [apply (withHeartbeat_keeps (Some now)) | reflexivity..].
  - eapply shrinks_alter; [apply (withHeartbeat_keeps (Some now)) | reflexivity..].
  - eapply shrinks_alter; [apply (withHeartbeat_keeps (Some now)) | reflexivity..].
  - now apply shrinks_frame.
Qed.

Lemma shrinks_release c b st :
  wfSlots st -> clientIndex st -> shrinks st (snd (release c b st)).
Proof.
  intros Hwf Hidx. unfold release.
  destruct (jsTruthy c).
  - destruct c; try apply shrinks_refl.
    pose proof (shrinks_findBrowserByClientId s st Hwf) as Hs.
    destruct (findBrowserByClientId s st) as [found st0]. cbn [snd] in Hs.
    destruct (shrinks_wf _ _ Hwf Hidx Hs) as [Hwf0 Hidx0].
    destruct found; cbn [snd]; [|exact Hs].
    eapply shrinks_trans; [exact Hs | now apply shrinks_doReleaseBrowser].
  - repeat case_match; cbn [snd]; try apply shrinks_refl;
      now apply shrinks_doReleaseBrowser.
Qed.

Lemma shrinks_trackWsConnect b now st : shrinks st (trackWsConnect b now st).
Proof.
  unfold trackWsConnect. repeat case_match; try now apply shrinks_frame.
  eapply shrinks_alter; [apply (withHeartbeat_keeps (Some now)) | reflexivity..].
Qed.

Lemma shrinks_trackWsDisconnect b now st : shrinks st (trackWsDisconnect b now st).
Proof. unfold trackWsDisconnect. repeat case_match; now apply shrinks_frame. Qed.

Lemma slot_ids_differ st i j a b :
  wfSlots st -> BROWSERS st !! i = Some a -> BROWSERS st !! j = Some b ->
  i <> j -> id a <> id b.
Proof.
  intros [Hnd _] Ha Hb Hne Heq. apply Hne.
  eapply NoDup_lookup; [exact Hnd| |].
  - rewrite list_lookup_fmap, Ha. reflexivity.
  - rewrite list_lookup_fmap, Hb. cbn. now rewrite Heq.
Qed.

(** [assignBrowser] keeps the slots that are in use, and the client map in
    step with them. *)
Lemma assignBrowser_evolves sid cid now st :
  wfSlots st -> clientIndex st -> Js.truthy cid = true ->
  evolves st (snd (assignBrowser secureToken sid cid now st))
  /\ wfSlots (snd (assignBrowser secureToken sid cid now st))
  /\ clientIndex (snd (assignBrowser secureToken sid cid now st)).
Proof.
  intros Hwf Hidx Hcid. unfold assignBrowser.
  destruct (findBrowserByClientId cid st) as [found st0] eqn:Hfind.
  destruct found as [i|].
  - destruct (findBrowserByClientId_Some _ _ _ _ Hfind) as (-> & _).
    assert (Hs : shrinks st
              (snd (let st1 := updateBrowser i (withHeartbeat (Some now)) st in
                    let st2 :=
                      setSessions
                        (sessionsSet sid
                           {| s_browserId := default 0 (id <$> BROWSERS st !! i);
                              s_clientId := Some cid; createdAt := Some now;
                 lastActivity := Some now |}
                           (sessions st1)) st1 in
                    let st3 := syncBrowserToFirebase i st2 in
                    let '(cookieToken, st4) :=
                      ensureCookieToken secureToken
                        (default 0 (id <$> BROWSERS st !! i)) st3 in
                    let '(urlToken, st5) :=
                      createUrlToken secureToken
                        (default 0 (id <$> BROWSERS st !! i)) now st4 in
                    (Some {| a_browser := i; a_existing := true;
                             a_cookieToken := cookieToken; a_urlToken := urlToken |},
                     st5)))).
    { cbv zeta.
      match goal with
      | |- context [syncBrowserToFirebase i ?s] =>
          pose proof (shrinks_syncBrowserToFirebase i s) as Hsync;
          assert (Halter : shrinks st s)
            by (eapply shrinks_alter;
                [apply (withHeartbeat_keeps (Some now)) | reflexivity..]);
          set (st3 := syncBrowserToFirebase i s) in *
      end.
      pose proof (shrinks_ensureCookieToken (default 0 (id <$> BROWSERS st !! i)) st3)
        as Hens.
      destruct (ensureCookieToken secureToken _ st3) as [ck st4].
      pose proof (shrinks_createUrlToken (default 0 (id <$> BROWSERS st !! i)) now st4)
        as Hurl.
      destruct (createUrlToken secureToken _ now st4) as [u st5].
      cbn [snd] in *. eauto using shrinks_trans. }
    split; [now apply shrinks_evolves | now apply shrinks_wf with st].
  - pose proof (shrinks_findBrowserByClientId cid st Hwf) as Hs.
    pose proof (findBrowserByClientId_None cid st st0 Hwf Hidx Hfind) as Hnone.
    destruct (findBrowserByClientId_fields cid st) as (HB0 & Hbt0 & Hcs0).
    rewrite Hfind in Hs, HB0, Hbt0, Hcs0. cbn [snd] in Hs, HB0, Hbt0, Hcs0.
    destruct (shrinks_wf _ _ Hwf Hidx Hs) as [Hwf0 Hidx0].
    destruct (findAvailableBrowser st0) as [j|] eqn:Hfree.
    2:{ cbn [snd]. split; [now apply shrinks_evolves | auto]. }
    destruct (findAvailableBrowser_Some _ _ Hfree) as (bj & Hj & Hfj).
    rewrite Hj, Hcid. change (default 0 (id <$> Some bj)) with (id bj).
    match goal with
    | |- context [createSessionTokens secureToken (id bj) now ?s] =>
        destruct (createSessionTokens_spec secureToken (id bj) now s)
          as (st2 & -> & HB2 & Hcs2 & Hbt2 & _)
    end.
    destruct (syncBrowserToFirebase_frame j st2) as (_ & _ & HB & Hbt & _ & Hcs & _).
    cbn in HB2, Hcs2, Hbt2. cbn [snd].
    set (st1 := syncBrowserToFirebase j st2) in *.
    assert (HB1 : BROWSERS st1 = alter (claimed sid cid now) j (BROWSERS st0))
      by congruence.
    assert (Hcs1 : clientSessions st1 = <[cid := id bj]> (clientSessions st0))
      by congruence.
    assert (Hbt1 : browserTokens st1
                   = <[id bj := secureToken (drawn st0)]> (browserTokens st0)).
    { rewrite Hbt, Hbt2. reflexivity. }
    clearbody st1. clear HB Hbt Hcs HB2 Hcs2 Hbt2 st2.
    assert (Hids : map id (BROWSERS st1) = map id (BROWSERS st)).
    { rewrite HB1, <- HB0. now apply ids_alter. }
    assert (Hold : forall i b, BROWSERS st0 !! i = Some b -> inUse b = true ->
                     i <> j /\ BROWSERS st1 !! i = Some b /\ kept st0 st1 b b).
    { intros i b Hb Hu.
      assert (Hne : i <> j) by (intros ->; congruence).
      split; [exact Hne|]. split.
      { rewrite HB1, list_lookup_alter_ne by auto. exact Hb. }
      repeat split; auto.
      - intros cid' Hclient Hmap. rewrite Hcs1.
        rewrite lookup_insert_ne; [exact Hmap|].
        intros <-. now apply (Hnone i b).
      - intros c Hc _. rewrite Hbt1.
        rewrite lookup_insert_ne; [exact Hc|].
        apply not_eq_sym. eapply slot_ids_differ; eauto. }
    split; [|split].
    + split; [exact Hids|]. intros i b b' Hb Hu Hb' Hu'.
      destruct Hs as [_ Hs]. rewrite <- HB0 in Hb.
      destruct (Hold i b Hb Hu) as (_ & Hb1 & Hk).
      assert (b' = b) by congruence. subst b'.
      destruct (Hs i b Hb Hu) as (a & Ha & _ & Hk0).
      rewrite HB0 in Hb. assert (a = b) by congruence. subst a.
      eapply kept_trans; eauto.
    + eapply wfSlots_ids; eauto.
    + intros i b' Hb' Hu'. rewrite HB1 in Hb'.
      destruct (decide (j = i)) as [<-|Hne].
      * rewrite list_lookup_alter_eq, Hj in Hb'. cbn in Hb'. injection Hb' as <-.
        exists cid. cbn. rewrite Hcs1, lookup_insert_eq. auto.
      * rewrite list_lookup_alter_ne in Hb' by exact Hne.
        destruct (Hidx0 i b' Hb' Hu') as (cid' & Hcid' & Ht & Hm).
        destruct (Hold i b' Hb' Hu') as (_ & _ & _ & _ & _ & Hk & _).
        exists cid'. auto.
Qed.

(** Every step of the server other than a round of the restore keeps the
    slots that stay in use. *)
Lemma step_evolves st e :
  isRestore e = false ->
  wfSlots st -> clientIndex st ->
  evolves st (step secureToken st e)
  /\ wfSlots (step secureToken st e) /\ clientIndex (step secureToken st e).
Proof.
  intros Hno Hwf Hidx.
  assert (Hs : forall st', shrinks st st' ->
                 evolves st st' /\ wfSlots st' /\ clientIndex st').
  { intros st' Hs. split; [now apply shrinks_evolves | now apply shrinks_wf with st]. }
  destruct e; cbn [step].
  - apply Hs, shrinks_handleRequest.
  - unfold requestBrowser.
    pose proof (assignBrowser_evolves newSessionId
                  (effectiveClientId req parsedClientId) now st Hwf Hidx
                  (effectiveClientId_truthy _ _)) as H.
    destruct (assignBrowser _ _ _ _ _) as [r st1]. cbn [snd] in H.
    repeat case_match; exact H.
  - now apply Hs, shrinks_checkSession.
  - apply Hs, shrinks_heartbeat.
  - now apply Hs, shrinks_release.
  - apply Hs, shrinks_trackWsConnect.
  - apply Hs, shrinks_trackWsDisconnect.
  - now apply Hs, shrinks_cleanupSessions.
  - apply Hs. now apply shrinks_frame.
  - discriminate Hno.
Qed.

Lemma withoutRestore_cons e events :
  withoutRestore (e :: events) = true ->
  isRestore e = false /\ withoutRestore events = true.
Proof.
  unfold withoutRestore. cbn. intros H. apply andb_prop in H as [H1 H2].
  split; [now apply negb_true_iff | exact H2].
Qed.

Lemma run_wf events st :
  withoutRestore events = true ->
  wfSlots st -> clientIndex st ->
  wfSlots (run secureToken st events) /\ clientIndex (run secureToken st events).
Proof.
  revert st. induction events as [|e events IH]; intros st Hno Hwf Hidx; cbn; [auto|].
  apply withoutRestore_cons in Hno as [He Hno].
  destruct (step_evolves st e He Hwf Hidx) as (_ & Hwf' & Hidx'). now apply IH.
Qed.

Lemma clientIndex_initial db : clientIndex (initial db).
Proof.
  intros i b Hb Huse. exfalso.
  assert (Forall (fun x => inUse x = false) (BROWSERS (initial db))) as Hall
    by (cbn; repeat constructor).
  rewrite Forall_lookup in Hall. specialize (Hall i b Hb). congruence.
Qed.

Lemma clientIndex_one st : wfSlots st -> clientIndex st -> oneSlotPerClient st.
Proof.
  intros Hwf Hidx i j a b Ha Hb Hua Hub Hsame.
  destruct (Hidx i a Ha Hua) as (ca & Hca & _ & Hma).
  destruct (Hidx j b Hb Hub) as (cb & Hcb & _ & Hmb).
  destruct (decide (i = j)) as [|Hne]; [assumption|].
  exfalso. apply (slot_ids_differ st i j a b Hwf Ha Hb Hne). congruence.
Qed.

(** In every state the server reaches without a round of the restore, no
    two slots in use have the same client id, and the client map points
    from the client of each slot in use at that slot. *)
Lemma undisturbed_one_slot_per_client st :
  undisturbed secureToken st -> wfSlots st /\ clientIndex st /\ oneSlotPerClient st.
Proof.
  intros (db & events & Hno & ->).
  destruct (run_wf events (initial db) Hno (wfSlots_initial db) (clientIndex_initial db))
    as [Hwf Hidx].
  split; [exact Hwf|]. split; [exact Hidx | now apply clientIndex_one].
Qed.

Lemma occupies_holds cid bid s i c st : occupies cid bid s i c st -> holds cid i c st.
Proof. intros (b & Hb & _ & _ & H). exists b. auto. Qed.

Lemma live_slot cid bid st :
  live cid bid st = true ->
  exists i b, BROWSERS st !! i = Some b /\ id b = bid /\ inUse b = true
              /\ clientId b = Some cid.
Proof.
  unfold live. destruct (getBrowserById st bid) as [i|] eqn:Hi; [|discriminate].
  cbn. destruct (getBrowserById_Some _ _ _ Hi) as (b & Hb & Hid). rewrite Hb.
  intros H. apply andb_prop in H as [Hu Hc]. apply bool_decide_eq_true in Hc.
  eauto 10.
Qed.

Lemma staysLive_live cid bid st events :
  staysLive secureToken cid bid st events = true -> live cid bid st = true.
Proof. destruct events; cbn; intros H; apply andb_prop in H; tauto. Qed.

(** A step after which the session is live leaves the client on its slot. *)
Lemma occupies_step cid bid s i c st e :
  isRestore e = false ->
  wfSlots st -> clientIndex st -> occupies cid bid s i c st ->
  live cid bid (step secureToken st e) = true ->
  occupies cid bid s i c (step secureToken st e).
Proof.
  intros Hno Hwf Hidx (b & Hb & Hid & Hsid & Hu & Hclient & Hmap & Hc & Ht) Hlive.
  destruct (step_evolves st e Hno Hwf Hidx) as ([Hids Hev] & Hwf' & _).
  destruct (live_slot _ _ _ Hlive) as (i' & b' & Hb' & Hid' & Hu' & _).
  assert (i' = i).
  { destruct Hwf as [Hnd _]. eapply NoDup_lookup; [exact Hnd| |].
    - rewrite <- Hids, list_lookup_fmap, Hb'. cbn. rewrite Hid'. reflexivity.
    - rewrite list_lookup_fmap, Hb. cbn. now rewrite Hid. }
  subst i'. destruct (Hev i b b' Hb Hu Hb' Hu') as (Hi & Hcl & Hs & Hcs & Hbt).
  exists b'. rewrite Hi, Hcl, Hs. auto 10.
Qed.

Lemma occupies_run cid bid s i c events st :
  withoutRestore events = true ->
  wfSlots st -> clientIndex st -> occupies cid bid s i c st ->
  staysLive secureToken cid bid st events = true ->
  occupies cid bid s i c (run secureToken st events)
  /\ wfSlots (run secureToken st events) /\ clientIndex (run secureToken st events).
Proof.
  revert st.
  induction events as [|e events IH]; intros st Hno Hwf Hidx Hocc Hlive; [cbn; auto|].
  apply withoutRestore_cons in Hno as [He Hno].
  cbn in Hlive. apply andb_prop in Hlive as [_ Hlive].
  destruct (step_evolves st e He Hwf Hidx) as (_ & Hwf' & Hidx').
  cbn. apply IH; auto.
  apply occupies_step; auto. eapply staysLive_live; eauto.
Qed.

Hypothesis secureToken_truthy : forall n, Js.truthy (secureToken n) = true.

(** Two request-browser calls under one client id, with other events in
    between that leave the session live. *)
Lemma requestBrowser_later st req1 req2 v1 v2 sid1 sid2 now1 now2 s1 url1 ex1 st1 between :
  (forall n m, secureToken n = secureToken m -> n = m) ->
  wfSlots st -> clientIndex st ->
  effectiveClientId req1 v1 = effectiveClientId req2 v2 ->
  requestBrowser secureToken req1 v1 sid1 now1 st = (Assigned200 s1 url1 ex1, st1) ->
  withoutRestore between = true ->
  staysLive secureToken (effectiveClientId req1 v1) (bu_browserId url1) st1 between = true ->
  exists url2 st2 u1 u2 c,
    requestBrowser secureToken req2 v2 sid2 now2 (run secureToken st1 between)
    = (Assigned200 s1 url2 true, st2)
    /\ bu_browserId url2 = bu_browserId url1
    /\ bu_token url1 = Some u1 /\ bu_token url2 = Some u2 /\ u1 <> u2
    /\ browserTokens st1 !! bu_browserId url1 = Some c
    /\ browserTokens st2 !! bu_browserId url1 = Some c
    /\ u_cookieToken <$> urlTokens st1 !! u1 = Some c
    /\ u_cookieToken <$> urlTokens st2 !! u2 = Some c
    /\ inUseCount st2 = inUseCount (run secureToken st1 between)
    /\ oneSlotPerClient st2.
Proof.
  intros Hinj Hwf Hidx Hsame H1 Hno Hlive. unfold requestBrowser in H1.
  pose proof (assignBrowser_evolves sid1 (effectiveClientId req1 v1) now1 st Hwf Hidx
                (effectiveClientId_truthy _ _)) as (_ & _ & Hidx1).
  destruct (assignBrowser secureToken sid1 (effectiveClientId req1 v1) now1 st)
    as [[r|] st1'] eqn:Hassign; [|discriminate].
  cbn [snd] in Hidx1.
  destruct (assignBrowser_holds secureToken secureToken_truthy _ _ _ _ _ _ Hwf
              (effectiveClientId_truthy _ _) Hassign)
    as (Hholds & Hwf1 & (k & e & Hk & Hu1 & He & Hec & _) & Hsid).
  pose proof Hholds as (b & Hb & Huse & Hclient & Hmap & Hc & Ht).
  rewrite Hb in H1. injection H1 as <- <- <- <-. cbn [bu_browserId] in *.
  set (s1 := if a_existing r then sessionId b else Some sid1) in *.
  assert (Hocc : occupies (effectiveClientId req1 v1) (id b) s1 (a_browser r)
                          (a_cookieToken r) st1').
  { exists b. repeat split; auto. subst s1.
    destruct (a_existing r) eqn:Hex; [reflexivity|].
    specialize (Hsid eq_refl). rewrite Hb in Hsid. cbn in Hsid. congruence. }
  destruct (occupies_run _ _ _ _ _ between st1' Hno Hwf1 Hidx1 Hocc Hlive)
    as (Hocc' & Hwf' & Hidx').
  set (st' := run secureToken st1' between) in *.
  pose proof (mints_run secureToken between st1') as [Hdrawn _]. fold st' in Hdrawn.
  pose proof Hocc' as (b' & Hb' & Hid' & Hsid' & _ & _ & _ & Hc' & _).
  apply occupies_holds in Hocc'. rewrite Hsame in Hocc'.
  pose proof (assignBrowser_evolves sid2 (effectiveClientId req2 v2) now2 st' Hwf' Hidx'
                (effectiveClientId_truthy _ _)) as (_ & Hwf2 & Hidx2).
  destruct (assignBrowser_again secureToken sid2 _ now2 _ _ _ Hwf'
              (effectiveClientId_truthy _ _) Hocc')
    as (st2 & Hagain & HB2 & Hbt2 & _ & _ & (e2 & Hu2 & He2) & Hd2).
  rewrite Hagain in Hwf2, Hidx2. cbn [snd] in Hwf2, Hidx2.
  unfold requestBrowser. rewrite Hagain. cbn [a_browser a_existing a_urlToken].
  rewrite HB2, list_lookup_alter_eq, Hb'. cbn.
  eexists _, _, (secureToken k), (secureToken (drawn st')), (a_cookieToken r).
  split; [rewrite Hsid'; reflexivity|].
  cbn. rewrite Hbt2, Hu2, Hid'.
  assert (Hne : secureToken k <> secureToken (drawn st')).
  { intros Heq. apply Hinj in Heq. lia. }
  repeat split; auto.
  - now rewrite <- Hid'.
  - rewrite He. cbn. now rewrite Hec.
  - rewrite lookup_insert_eq. cbn. now rewrite He2.
  - eapply inUseCount_heartbeat. exact HB2.
  - now apply clientIndex_one.
Qed.

End Steady.

(** C4.  A restore from the mirror between two request-browser calls of
    one client breaks what the calls should keep.  The server listens before
    [restoreStateFromFirebase] has read the database, so a client can be
    served first: here [client-0001] is given slot 1, with cookie token [t]
    and session [sess_a], and the state of the slot is written to the
    database.  The read then gives a state in which slot 1 is in use, and
    the loop overwrites the slot: it draws the cookie token [ttt] for it and
    leaves [t] in [tokenToBrowser].  The slot is in use by the client
    before and after.
    - In a database that was empty, the second call of the client is
      answered with slot 1 and a URL token stored with the new cookie
      token: the cookie token of the slot is not preserved, and two cookie
      tokens open the slot.
    - In a database that held slot 2 as in use by the same client, from
      before the server started again, the loop restores slot 2 as well and
      points the client map at it: the second call is answered with slot 2
      and the session of the mirror, and two slots are in use by one
      client. *)
Theorem restore_between_calls_changes_cookie :
  let call1 := requestBrowser demoToken Scenario.api (JString "client-0001") "sess_a" 1000
                 (initial true) in
  let st2 := restoreStateFromFirebase demoToken (Some (written ∅ (snd call1))) 1500
               (snd call1) in
  let call2 := requestBrowser demoToken Scenario.api (JString "client-0001") "sess_b" 2000
                 st2 in
  let st2' := restoreStateFromFirebase demoToken
                (Some (written Scenario.leftover (snd call1))) 1500 (snd call1) in
  let call2' := requestBrowser demoToken Scenario.api (JString "client-0001") "sess_b" 2000
                  st2' in
  fst call1 = Assigned200 (Some "sess_a") Scenario.url1 false
  /\ browserTokens (snd call1) !! 1 = Some "t"
  /\ live "client-0001" 1 (snd call1) = true
  /\ live "client-0001" 1 st2 = true
  /\ fst call2
     = Assigned200 (Some "sess_a")
         {| bu_protocol := "https"; bu_host := Some "nebula.example";
            bu_browserId := 1; bu_token := Some "tttt" |} true
  /\ browserTokens (snd call2) !! 1 = Some "ttt"
  /\ u_cookieToken <$> urlTokens (snd call2) !! "tt" = Some "t"
  /\ u_cookieToken <$> urlTokens (snd call2) !! "tttt" = Some "ttt"
  /\ tokenToBrowser (snd call2) !! "t" = Some 1
  /\ tokenToBrowser (snd call2) !! "ttt" = Some 1
  /\ live "client-0001" 1 st2' = true
  /\ fst call2'
     = Assigned200 (Some "sess_old")
         {| bu_protocol := "https"; bu_host := Some "nebula.example";
            bu_browserId := 2; bu_token := Some "ttttt" |} true
  /\ inUseCount (snd call2') = 2%nat
  /\ clientId <$> BROWSERS (snd call2') !! 0%nat = Some (Some "client-0001")
  /\ clientId <$> BROWSERS (snd call2') !! 1%nat = Some (Some "client-0001").
Proof. evaluate. Qed.

(** The restore is a run of rounds, one for each slot. *)
Lemma restoreStateFromFirebase_run secureToken state now st :
  restoreStateFromFirebase secureToken (Some state) now st
  = run secureToken st
      (map (fun i => RestoreRound state i now) (seq 0 (length (BROWSERS st)))).
Proof.
  unfold restoreStateFromFirebase, run.
  generalize (seq 0 (length (BROWSERS st))) as l. intros l. revert st.
  induction l as [|i l IH]; intros st; [reflexivity|]. cbn. apply IH.
Qed.

(** X26.  Without a round of the restore, two request-browser calls under
    the same client id, the first of which was given a slot, are answered
    with the same slot and the same session id, whatever else the server
    does between them, as long as the session stays live: the slot stays in
    use by that client.  The second call assigns no further slot, the
    cookie token of the slot is the same after both, each reply carries a
    URL token of its own, stored with that cookie token when the reply is
    made, and afterwards no two slots in use have the same client id.
    Tokens are non-empty and the generator does not repeat itself. *)
Theorem same_client_same_slot (secureToken : nat -> string)
    (st : State) (req1 req2 : Request) (v1 v2 : JsValue) (sid1 sid2 : string)
    (now1 now2 : Z) (s1 : option string) (url1 : BrowserUrl) (ex1 : bool) (st1 : State)
    (between : list Event) :
  (forall n, Js.truthy (secureToken n) = true) ->
  (forall n m, secureToken n = secureToken m -> n = m) ->
  undisturbed secureToken st ->
  withoutRestore between = true ->
  effectiveClientId req1 v1 = effectiveClientId req2 v2 ->
  requestBrowser secureToken req1 v1 sid1 now1 st = (Assigned200 s1 url1 ex1, st1) ->
  staysLive secureToken (effectiveClientId req1 v1) (bu_browserId url1) st1 between = true ->
  exists url2 st2 u1 u2 c,
    requestBrowser secureToken req2 v2 sid2 now2 (run secureToken st1 between)
    = (Assigned200 s1 url2 true, st2)
    /\ bu_browserId url2 = bu_browserId url1
    /\ bu_token url1 = Some u1 /\ bu_token url2 = Some u2 /\ u1 <> u2
    /\ browserTokens st1 !! bu_browserId url1 = Some c
    /\ browserTokens st2 !! bu_browserId url1 = Some c
    /\ u_cookieToken <$> urlTokens st1 !! u1 = Some c
    /\ u_cookieToken <$> urlTokens st2 !! u2 = Some c
    /\ inUseCount st2 = inUseCount (run secureToken st1 between)
    /\ oneSlotPerClient st2.
Proof.
  intros Htruthy Hinj Hreach Hno Hsame Hreq Hlive.
  destruct (undisturbed_one_slot_per_client secureToken st Hreach) as (Hwf & Hidx & _).
  now apply (requestBrowser_later secureToken Htruthy st req1 req2 v1 v2 sid1 sid2
               now1 now2 s1 url1 ex1 st1 between).
Qed.

Lemma same_client_same_slot_witness :
  exists url2 st2 u1 u2 c,
    requestBrowser demoToken Scenario.api (JString "client-0001") "sess_b" 2000
                   (run demoToken Scenario.assigned Scenario.meanwhile)
      = (Assigned200 (Some "sess_a") url2 true, st2)
    /\ bu_browserId url2 = bu_browserId Scenario.url1
    /\ bu_token Scenario.url1 = Some u1 /\ bu_token url2 = Some u2 /\ u1 <> u2
    /\ browserTokens Scenario.assigned !! bu_browserId Scenario.url1 = Some c
    /\ browserTokens st2 !! bu_browserId Scenario.url1 = Some c
    /\ u_cookieToken <$> urlTokens Scenario.assigned !! u1 = Some c
    /\ u_cookieToken <$> urlTokens st2 !! u2 = Some c
    /\ inUseCount st2 = inUseCount (run demoToken Scenario.assigned Scenario.meanwhile)
    /\ oneSlotPerClient st2.
Proof.
  apply (same_client_same_slot demoToken (initial true) Scenario.api Scenario.api
           (JString "client-0001") (JString "client-0001") "sess_a" "sess_b"
           1000 2000 (Some "sess_a") Scenario.url1 false Scenario.assigned
           Scenario.meanwhile).
  - exact demoToken_truthy.
  - exact demoToken_inj.
  - exists true, []. split; reflexivity.
  - reflexivity.
  - reflexivity.
  - vm_compute. reflexivity.
  - vm_compute. reflexivity.
Defined.

(** The run of that scenario: the second client is given slot 2, and the
    first client is answered with slot 1 and its first session id again. *)
Example same_client_after_other_events :
  let st := run demoToken Scenario.assigned Scenario.meanwhile in
  inUseCount st = 2%nat
  /\ urlTokens st !! "tt" = None
  /\ fst (requestBrowser demoToken Scenario.api (JString "client-0001") "sess_b" 2000 st)
     = Assigned200 (Some "sess_a")
         {| bu_protocol := "https"; bu_host := Some "nebula.example";
            bu_browserId := 1; bu_token := Some (demoToken 5) |} true.
Proof. evaluate. Qed.

End BrokerTheory.

(** * Further properties of the code *)

(** ** URL codec: the fingerprint *)

Module CodecLaws.
Import Codec JsFacts CodecTheory.
Local Open Scope Z_scope.

Lemma length_chars (f : Z -> ascii) l : String.length (chars f l) = length l.
Proof. induction l as [|n l IH]; [reflexivity|]. simpl. now rewrite IH. Qed.

Lemma length_sextetsOfBytes b :
  length (sextetsOfBytes b) = ((4 * length b + 2) / 3)%nat.
Proof.
  induction b as [|x|x y|x y z l IH] using list_ind3; try reflexivity.
  cbn [sextetsOfBytes length]. rewrite IH.
  replace (4 * S (S (S (length l))) + 2)%nat with ((4 * length l + 2) + 4 * 3)%nat by lia.
  rewrite Nat.div_add by lia. lia.
Qed.

Lemma length_Buffer_from s : length (Buffer_from s) = String.length s.
Proof.
  unfold Buffer_from, octets. rewrite length_unpaired, length_map.
  induction s as [|c s IH]; [reflexivity|]. simpl. now rewrite IH.
Qed.

(** X1.  The fingerprint of a URL of [n] octets has [(4 n + 2) / 3]
    characters, rounded down: four characters for every three octets, and
    no padding. *)
Theorem encodeUrl_length (url : string) :
  String.length (encodeUrl url) = ((4 * String.length url + 2) / 3)%nat.
Proof.
  rewrite encodeUrl_chars, length_chars, length_sextetsOfBytes.
  now rewrite length_Buffer_from.
Qed.

Lemma safeChar_cpoChar n : isSextet n -> Router.cpoChar (safeChar n) = true.
Proof.
  revert n. apply sextet_cases. intros k Hk.
  do 64 (destruct k as [|k]; [vm_compute; reflexivity|]).
  lia.
Qed.

Lemma chars_cpoChar l :
  Forall isSextet l -> forallb Router.cpoChar (list_ascii_of_string (chars safeChar l)) = true.
Proof.
  induction 1 as [|n l Hn _ IH]; [reflexivity|].
  cbn [chars list_ascii_of_string forallb]. now rewrite safeChar_cpoChar, IH.
Qed.

(** X2.  A fingerprint is spelled with letters, digits, [-] and [_] only,
    the class of the referer expression of the relative branch: it holds no
    [=], [+], [/], [?], [&] or [%], and needs no escaping in a query. *)
Theorem encodeUrl_alphabet (url : string) :
  forallb Router.cpoChar (list_ascii_of_string (encodeUrl url)) = true.
Proof.
  rewrite encodeUrl_chars.
  apply chars_cpoChar, sextetsOfBytes_range, Buffer_from_bytes.
Qed.

Lemma safeChar_inj n m : isSextet n -> isSextet m -> safeChar n = safeChar m -> n = m.
Proof.
  intros Hn Hm Heq.
  destruct (sextet_char n Hn) as (Hun & _ & _ & _ & _ & _ & Hbn).
  destruct (sextet_char m Hm) as (Hum & _ & _ & _ & _ & _ & Hbm).
  unfold safeChar in Heq. cbv zeta in Hbn, Hbm. rewrite Heq in Hbn.
  rewrite Hbm in Hbn. rewrite Hbn in Hum. congruence.
Qed.

Lemma chars_safeChar_inj l l' :
  Forall isSextet l -> Forall isSextet l' ->
  chars safeChar l = chars safeChar l' -> l = l'.
Proof.
  intros Hl. revert l'. induction Hl as [|n l Hn _ IH]; intros l' Hl' Heq.
  - destruct l'; [reflexivity | discriminate].
  - destruct Hl' as [|m l' Hm Hl']; [discriminate|].
    cbn [chars] in Heq. injection Heq as Hc Ht.
    f_equal; [now apply safeChar_inj | now apply IH].
Qed.

Lemma byteOf_inj c c' : byteOf c = byteOf c' -> c = c'.
Proof.
  unfold byteOf. intros H. apply Nat2Z.inj in H.
  rewrite <- (ascii_nat_embedding c), <- (ascii_nat_embedding c'). now rewrite H.
Qed.

Lemma octets_inj s s' : octets s = octets s' -> s = s'.
Proof.
  unfold octets. revert s'.
  induction s as [|c s IH]; intros [|c' s'] H; try discriminate; [reflexivity|].
  cbn in H. injection H as Hc Ht. f_equal; [now apply byteOf_inj | now apply IH].
Qed.

(** X3.  Different URLs have different fingerprints, when both are
    well-formed texts, that is hold no unpaired surrogate.  (An unpaired
    surrogate and U+FFFD in its place give the same fingerprint.) *)
Theorem encodeUrl_injective (url url' : string) :
  wellFormed url -> wellFormed url' ->
  encodeUrl url = encodeUrl url' -> url = url'.
Proof.
  intros Hwf Hwf'. rewrite !encodeUrl_chars. intros H.
  apply chars_safeChar_inj in H;
    [|apply sextetsOfBytes_range, Buffer_from_bytes..].
  apply octets_inj.
  rewrite <- (Buffer_from_wellFormed url Hwf), <- (Buffer_from_wellFormed url' Hwf').
  rewrite <- (bytesOfSextets_sextetsOfBytes (Buffer_from url)) by apply Buffer_from_bytes.
  rewrite H. apply bytesOfSextets_sextetsOfBytes, Buffer_from_bytes.
Qed.

Lemma encodeUrl_injective_witness :
  "https://a.example/x" = "https://a.example/" +:+ "x".
Proof.
  apply (encodeUrl_injective "https://a.example/x" ("https://a.example/" +:+ "x")).
  - vm_compute. reflexivity.
  - vm_compute. reflexivity.
  - vm_compute. reflexivity.
Defined.

(** The unpaired surrogate U+D800 and U+FFFD have one fingerprint. *)
Example encodeUrl_unpaired_surrogate :
  encodeUrl (String "237" (String "160" (String "128" EmptyString)))
  = encodeUrl (String "239" (String "191" (String "189" EmptyString)))
  /\ encodeUrl (String "239" (String "191" (String "189" EmptyString))) = "77-9".
Proof. evaluate. Qed.

Lemma split0_safe_tail l c t :
  Forall isSextet l -> Ascii.eqb c "?" || Ascii.eqb c "&" = true ->
  Js.split0 "&" (Js.split0 "?" (chars safeChar l +:+ String c t)) = chars safeChar l.
Proof.
  intros Hl Hc. induction Hl as [|n l Hn _ IH].
  - rewrite app_nil_l, split0_cons.
    destruct (Ascii.eqb c "?") eqn:Hq; [reflexivity|].
    cbn in Hc. now rewrite split0_cons, Hc.
  - cbn [chars]. rewrite app_cons.
    destruct (sextet_char n Hn) as (_ & _ & _ & _ & Hq & Ha & _).
    rewrite split0_cons. unfold safeChar at 1. rewrite Hq.
    rewrite split0_cons. unfold safeChar at 1. rewrite Ha.
    now rewrite IH.
Qed.

(** Decoding a fingerprint, alone or followed by [?] or [&] and anything. *)
Lemma decodeUrl_fingerprint (newURL : string -> option URL) (url tail : string) :
  wellFormed url ->
  Js.startsWith url "http://" || Js.startsWith url "https://" = true ->
  is_Some (newURL url) ->
  match tail with
  | EmptyString => true
  | String c _ => Ascii.eqb c "?" || Ascii.eqb c "&"
  end = true ->
  decodeUrl newURL (encodeUrl url +:+ tail) = Some url.
Proof.
  intros Hwf Hscheme [u Hu] Htail.
  pose proof (sextetsOfBytes_range _ (Buffer_from_bytes url)) as Hsx.
  unfold decodeUrl. rewrite encodeUrl_chars.
  assert (Hsplit : Js.split0 "&" (Js.split0 "?"
                     (chars safeChar (sextetsOfBytes (Buffer_from url)) +:+ tail))
                   = chars safeChar (sextetsOfBytes (Buffer_from url))).
  { destruct tail as [|c t].
    - rewrite app_nil_r. now apply split0_safe.
    - now apply split0_safe_tail. }
  rewrite Hsplit, replace_from_safe by assumption.
  destruct (padLoop_eqs 3 (chars b64char (sextetsOfBytes (Buffer_from url))))
    as [k Hk].
  unfold addPadding. rewrite Hk.
  rewrite decodeURIComponent_plain by assumption.
  unfold Buffer_from_base64. rewrite sextets_chars by assumption.
  rewrite bytesOfSextets_sextetsOfBytes by apply Buffer_from_bytes.
  rewrite toString_Buffer_from by exact Hwf.
  apply orb_true_iff in Hscheme.
  destruct Hscheme as [-> | ->]; cbn [negb andb]; rewrite ?andb_false_r, Hu; reflexivity.
Qed.

(** X4.  [decodeUrl] reads the fingerprint up to the first [?] or [&]: what
    follows it in the parameter, such as a query string appended by a
    script of the page, does not change the result. *)
Theorem decodeUrl_ignores_query (newURL : string -> option URL) (url tail : string) :
  wellFormed url ->
  Js.startsWith url "http://" || Js.startsWith url "https://" = true ->
  is_Some (newURL url) ->
  decodeUrl newURL (encodeUrl url +:+ "?" +:+ tail) = Some url
  /\ decodeUrl newURL (encodeUrl url +:+ "&" +:+ tail) = Some url.
Proof.
  intros Hwf Hscheme Hurl.
  split; apply decodeUrl_fingerprint; auto.
Qed.

Lemma decodeUrl_ignores_query_witness :
  decodeUrl PlainUrl.parse (encodeUrl "https://www.tiktok.com/explore" +:+ "?" +:+ "lang=en&x=1")
  = Some "https://www.tiktok.com/explore"
  /\ decodeUrl PlainUrl.parse (encodeUrl "https://www.tiktok.com/explore" +:+ "&" +:+ "lang=en&x=1")
     = Some "https://www.tiktok.com/explore".
Proof.
  apply (decodeUrl_ignores_query PlainUrl.parse "https://www.tiktok.com/explore" "lang=en&x=1").
  - vm_compute. reflexivity.
  - reflexivity.
  - vm_compute. eexists. reflexivity.
Defined.

(** *** What [decodeUrl] returns *)

Lemma sanitize_replacement bs : sanitize (replacement ++ bs)%list = (replacement ++ sanitize bs)%list.
Proof. reflexivity. Qed.

Lemma sanitize_idem_upto n bs : (length bs <= n)%nat -> sanitize (sanitize bs) = sanitize bs.
Proof.
  revert bs. induction n as [|n IH]; intros bs Hlen.
  { destruct bs; [reflexivity | simpl in Hlen |- *; lia]. }
  destruct bs as [|b r]; [reflexivity|].
  assert (Hrep : forall t, (length t <= n)%nat ->
            sanitize (replacement ++ sanitize t)%list = (replacement ++ sanitize t)%list).
  { intros t Ht. rewrite sanitize_replacement. now rewrite IH. }
  cbn [sanitize]. destruct (b <? 128) eqn:Hb.
  { cbn [sanitize]. rewrite Hb. f_equal. apply IH. simpl in Hlen |- *. lia. }
  destruct (utf8Lead b) as [[[k lo] hi]|] eqn:Hlead;
    [|apply Hrep; simpl in Hlen |- *; lia].
  destruct r as [|c1 r1]; [reflexivity|].
  destruct (inRange lo hi c1) eqn:H1; [|apply Hrep; simpl in Hlen |- *; lia].
  destruct k as [|[|k]].
  - (* treated as a sequence of four *)
    destruct r1 as [|c2 r2]; [reflexivity|].
    destruct (inRange 128 191 c2) eqn:H2; [|apply Hrep; simpl in Hlen |- *; lia].
    destruct r2 as [|c3 r3]; [reflexivity|].
    destruct (inRange 128 191 c3) eqn:H3; [|apply Hrep; simpl in Hlen |- *; lia].
    cbn [sanitize]. rewrite Hb, Hlead, H1, H2, H3. do 4 f_equal.
    apply IH. simpl in Hlen |- *. lia.
  - cbn [sanitize]. rewrite Hb, Hlead, H1. do 2 f_equal. apply IH. simpl in Hlen |- *. lia.
  - destruct r1 as [|c2 r2]; [reflexivity|].
    destruct (inRange 128 191 c2) eqn:H2; [|apply Hrep; simpl in Hlen |- *; lia].
    destruct k as [|k].
    + cbn [sanitize]. rewrite Hb, Hlead, H1, H2. do 3 f_equal.
      apply IH. simpl in Hlen |- *. lia.
    + destruct r2 as [|c3 r3]; [reflexivity|].
      destruct (inRange 128 191 c3) eqn:H3; [|apply Hrep; simpl in Hlen |- *; lia].
      cbn [sanitize]. rewrite Hb, Hlead, H1, H2, H3. do 4 f_equal.
      apply IH. simpl in Hlen |- *. lia.
Qed.

(** Decoding octets as UTF-8 a second time changes nothing. *)
Lemma sanitize_idem bs : sanitize (sanitize bs) = sanitize bs.
Proof. now apply (sanitize_idem_upto (length bs)). Qed.

Lemma unbase64_range c n : unbase64 c = Some n -> isSextet n.
Proof.
  intros Hc.
  destruct c as [[] [] [] [] [] [] [] []]; vm_compute in Hc;
    first [discriminate Hc | injection Hc as <-; unfold isSextet; lia].
Qed.

Lemma sextets_range s : Forall isSextet (sextets s).
Proof.
  induction s as [|c s IH]; cbn [sextets]; [constructor|].
  destruct (unbase64 c) as [n|] eqn:Hn.
  - constructor; [eapply unbase64_range; eauto | exact IH].
  - destruct (Ascii.eqb c "="); [constructor | exact IH].
Qed.

Lemma list_ind4 {A} (P : list A -> Prop) :
  P [] -> (forall x, P [x]) -> (forall x y, P [x; y]) -> (forall x y z, P [x; y; z]) ->
  (forall x y z w l, P l -> P (x :: y :: z :: w :: l)) ->
  forall l, P l.
Proof.
  intros H0 H1 H2 H3 H4.
  fix IH 1. intros [|x [|y [|z [|w l]]]].
  - exact H0.
  - apply H1.
  - apply H2.
  - apply H3.
  - apply H4, IH.
Qed.

Lemma bytesOfSextets_range l : Forall isSextet l -> Forall isByte (bytesOfSextets l).
Proof.
  unfold isSextet, isByte.
  induction l as [|x|x y|x y z|x y z w l IH] using list_ind4; intros Hl; cbn [bytesOfSextets].
  - constructor.
  - constructor.
  - inversion_clear Hl as [|? ? ? Hl1]. inversion_clear Hl1.
    repeat constructor; Z.div_mod_to_equations; lia.
  - inversion_clear Hl as [|? ? ? Hl1]. inversion_clear Hl1 as [|? ? ? Hl2].
    inversion_clear Hl2.
    repeat constructor; Z.div_mod_to_equations; lia.
  - inversion_clear Hl as [|? ? ? Hl1]. inversion_clear Hl1 as [|? ? ? Hl2].
    inversion_clear Hl2 as [|? ? ? Hl3]. inversion_clear Hl3.
    repeat (constructor; [Z.div_mod_to_equations; lia|]). auto.
Qed.

Lemma sanitize_range_upto n bs :
  (length bs <= n)%nat -> Forall isByte bs -> Forall isByte (sanitize bs).
Proof.
  assert (Hrep : forall t, Forall isByte t -> Forall isByte (replacement ++ t)%list).
  { intros t Ht. repeat (constructor; [unfold isByte; lia|]). exact Ht. }
  revert bs. induction n as [|n IH]; intros bs Hlen Hbs.
  { destruct bs; [constructor | simpl in Hlen; lia]. }
  destruct bs as [|b r]; [constructor|].
  inversion_clear Hbs as [|? ? Hb Hr]. cbn [sanitize].
  destruct (b <? 128); [constructor; [exact Hb | apply IH; [simpl in Hlen; lia | exact Hr]]|].
  destruct (utf8Lead b) as [[[k lo] hi]|];
    [|apply Hrep, IH; [simpl in Hlen; lia | exact Hr]].
  destruct r as [|c1 r1]; [apply (Hrep []); constructor|].
  destruct (inRange lo hi c1);
    [|apply Hrep, IH; [simpl in Hlen |- *; lia | exact Hr]].
  inversion_clear Hr as [|? ? Hc1 Hr1].
  assert (Hfour :
    Forall isByte
      match r1 with
      | [] => replacement
      | c2 :: r2 =>
          if inRange 128 191 c2 then
            match r2 with
            | [] => replacement
            | c3 :: r3 =>
                if inRange 128 191 c3
                then b :: c1 :: c2 :: c3 :: sanitize r3
                else (replacement ++ sanitize r2)%list
            end
          else (replacement ++ sanitize r1)%list
      end).
  { destruct r1 as [|c2 r2]; [apply (Hrep []); constructor|].
    destruct (inRange 128 191 c2);
      [|apply Hrep, IH; [simpl in Hlen |- *; lia | exact Hr1]].
    inversion_clear Hr1 as [|? ? Hc2 Hr2].
    destruct r2 as [|c3 r3]; [apply (Hrep []); constructor|].
    destruct (inRange 128 191 c3);
      [|apply Hrep, IH; [simpl in Hlen |- *; lia | exact Hr2]].
    inversion_clear Hr2 as [|? ? Hc3 Hr3].
    repeat (constructor; [assumption|]). apply IH; [simpl in Hlen; lia | exact Hr3]. }
  destruct k as [|[|[|k]]]; try exact Hfour.
  - repeat (constructor; [assumption|]). apply IH; [simpl in Hlen; lia | exact Hr1].
  - destruct r1 as [|c2 r2]; [apply (Hrep []); constructor|].
    destruct (inRange 128 191 c2);
      [|apply Hrep, IH; [simpl in Hlen |- *; lia | exact Hr1]].
    inversion_clear Hr1 as [|? ? Hc2 Hr2].
    repeat (constructor; [assumption|]). apply IH; [simpl in Hlen; lia | exact Hr2].
Qed.

Lemma octets_chars bs :
  Forall isByte bs -> octets (string_of_list_ascii (map charOf bs)) = bs.
Proof.
  unfold octets. rewrite list_ascii_of_string_of_list_ascii, map_map.
  induction 1 as [|x l Hx _ IH]; [reflexivity|].
  cbn [map]. rewrite IH. f_equal. unfold byteOf, charOf, isByte in *.
  rewrite nat_ascii_embedding by lia. lia.
Qed.

(** The text decoded from octets is well-formed. *)
Lemma toString_utf8_wellFormed bs : Forall isByte bs -> wellFormed (toString_utf8 bs).
Proof.
  intros Hbs. unfold wellFormed, toString_utf8.
  rewrite octets_chars by now apply (sanitize_range_upto (length bs)).
  apply sanitize_idem.
Qed.

(** X5.  What [decodeUrl] returns is a well-formed text that begins with
    [http://] or [https://] and that the URL constructor accepts; its own
    fingerprint decodes to it again.  A parameter that does not decode to
    such a text gives [null]. *)
Theorem decodeUrl_result (newURL : string -> option URL) (encoded url : string) :
  decodeUrl newURL encoded = Some url ->
  wellFormed url
  /\ Js.startsWith url "http://" || Js.startsWith url "https://" = true
  /\ is_Some (newURL url)
  /\ decodeUrl newURL (encodeUrl url) = Some url.
Proof.
  unfold decodeUrl at 1.
  set (bytes := Buffer_from_base64 _).
  assert (Hbytes : Forall isByte bytes) by apply bytesOfSextets_range, sextets_range.
  pose proof (toString_utf8_wellFormed bytes Hbytes) as Hwf.
  destruct (negb (Js.startsWith (toString_utf8 bytes) "http://")
            && negb (Js.startsWith (toString_utf8 bytes) "https://")) eqn:Hscheme;
    [discriminate|].
  destruct (newURL (toString_utf8 bytes)) as [u|] eqn:Hu; [|discriminate].
  intros H. injection H as <-.
  assert (Hs : Js.startsWith (toString_utf8 bytes) "http://"
               || Js.startsWith (toString_utf8 bytes) "https://" = true).
  { destruct (Js.startsWith (toString_utf8 bytes) "http://"),
             (Js.startsWith (toString_utf8 bytes) "https://"); auto. }
  assert (Hsome : is_Some (newURL (toString_utf8 bytes))) by now exists u.
  split; [exact Hwf|]. split; [exact Hs|]. split; [exact Hsome|].
  rewrite <- (JsFacts.app_nil_r (encodeUrl (toString_utf8 bytes))).
  now apply decodeUrl_fingerprint.
Qed.

Lemma decodeUrl_result_witness :
  wellFormed "https://www.tiktok.com"
  /\ Js.startsWith "https://www.tiktok.com" "http://"
     || Js.startsWith "https://www.tiktok.com" "https://" = true
  /\ is_Some (PlainUrl.parse "https://www.tiktok.com")
  /\ decodeUrl PlainUrl.parse (encodeUrl "https://www.tiktok.com")
     = Some "https://www.tiktok.com".
Proof.
  apply (decodeUrl_result PlainUrl.parse "aHR0cHM6Ly93d3cudGlrdG9rLmNvbQ?x=1").
  vm_compute. reflexivity.
Defined.

End CodecLaws.

(** ** Rewriter and router: from a rewritten link to the fetch *)

Module RouterLaws.
Import Router Codec JsFacts CodecTheory CodecLaws.

Lemma startsWith_truthy s p : Js.truthy p = true -> Js.startsWith s p = true -> Js.truthy s = true.
Proof. destruct p; [discriminate|]. destruct s; [discriminate | reflexivity]. Qed.

Lemma scheme_truthy url :
  Js.startsWith url "http://" || Js.startsWith url "https://" = true -> Js.truthy url = true.
Proof.
  intros H. apply orb_true_iff in H as [H|H];
    eapply startsWith_truthy; try exact H; reflexivity.
Qed.

(** A [__cpo] request for a target that does not point at localhost. *)
Lemma routeCpo_fingerprint newURL req sessionBaseUrls url :
  wellFormed url ->
  Js.startsWith url "http://" || Js.startsWith url "https://" = true ->
  is_Some (newURL url) ->
  pointsAtLocalhost url = false ->
  routeCpo newURL req sessionBaseUrls (encodeUrl url)
  = Fetch url (<[clientIdOf req := url]> sessionBaseUrls).
Proof.
  intros Hwf Hscheme Hurl Hlocal. unfold routeCpo.
  rewrite <- (JsFacts.app_nil_r (encodeUrl url)).
  rewrite decodeUrl_fingerprint by auto. now rewrite Hlocal.
Qed.

(** X6.  A reference that [toProxyUrl] rewrites becomes the proxy origin,
    the path and query of the absolute target, and [__cpo=] with the
    fingerprint of the target; a request that carries this fingerprint is
    routed to a fetch of exactly that target, which becomes the stored base
    of the client.  The target is a well-formed [http(s)] URL that does not
    point at localhost. *)
Theorem rewritten_link_is_fetched (newURL : string -> option URL) (base : URL)
    (proxyOrigin url : string) (target : URL) (req : Request)
    (sessionBaseUrls : gmap string string) :
  Js.truthy url = true ->
  Js.startsWith url "data:" || Js.startsWith url "blob:"
    || Js.startsWith url "javascript:" || Js.startsWith url "#" = false ->
  wellFormed (Rewriter.absolutise base url) ->
  Js.startsWith (Rewriter.absolutise base url) "http://"
    || Js.startsWith (Rewriter.absolutise base url) "https://" = true ->
  newURL (Rewriter.absolutise base url) = Some target ->
  pointsAtLocalhost (Rewriter.absolutise base url) = false ->
  Rewriter.toProxyUrl newURL base proxyOrigin url
  = proxyOrigin +:+ pathname target
      +:+ (if Js.truthy (search target) then search target +:+ "&" else "?")
      +:+ "__cpo=" +:+ encodeUrl (Rewriter.absolutise base url)
  /\ routeCpo newURL req sessionBaseUrls (encodeUrl (Rewriter.absolutise base url))
     = Fetch (Rewriter.absolutise base url)
             (<[clientIdOf req := Rewriter.absolutise base url]> sessionBaseUrls).
Proof.
  intros Hurl Hskip Hwf Hscheme Htarget Hlocal. split.
  - unfold Rewriter.toProxyUrl, Rewriter.proxied. rewrite Hurl. cbn [negb orb].
    rewrite Hskip, Htarget. reflexivity.
  - apply routeCpo_fingerprint; eauto.
Qed.

Lemma rewritten_link_is_fetched_witness :
  Rewriter.toProxyUrl PlainUrl.parse Scenario.siteBase Scenario.proxyOrigin "img/x.png?v=2"
  = Scenario.proxyOrigin +:+ "/dir/img/x.png"
      +:+ (if Js.truthy "?v=2" then "?v=2" +:+ "&" else "?")
      +:+ "__cpo="
      +:+ encodeUrl (Rewriter.absolutise Scenario.siteBase "img/x.png?v=2")
  /\ routeCpo PlainUrl.parse Scenario.direct ∅
       (encodeUrl (Rewriter.absolutise Scenario.siteBase "img/x.png?v=2"))
     = Fetch (Rewriter.absolutise Scenario.siteBase "img/x.png?v=2")
             (<[clientIdOf Scenario.direct
                  := Rewriter.absolutise Scenario.siteBase "img/x.png?v=2"]> ∅).
Proof.
  apply (rewritten_link_is_fetched PlainUrl.parse Scenario.siteBase Scenario.proxyOrigin
           "img/x.png?v=2"
           {| protocol := "https:"; hostname := "site.example";
              origin := "https://site.example"; pathname := "/dir/img/x.png";
              search := "?v=2"; href := "https://site.example/dir/img/x.png?v=2" |}
           Scenario.direct ∅).
  - reflexivity.
  - reflexivity.
  - vm_compute. reflexivity.
  - reflexivity.
  - vm_compute. reflexivity.
  - reflexivity.
Defined.

Section RelativeBranch.

Variable newURL : string -> option URL.
Variable resolveHref : string -> string -> option string.

Lemma baseOf_session req sessionBaseUrls :
  h_referer req = None ->
  baseOf newURL req sessionBaseUrls = sessionBaseUrls !! clientIdOf req.
Proof. unfold baseOf. intros ->. cbn. now destruct (sessionBaseUrls !! clientIdOf req). Qed.

(** X7.  After a page was loaded through [__cpo], a request of the same
    client for a plain path, without [__cpo] and without referer, is
    resolved against the origin of that page and fetched from there, with
    the page as referer; the stored base stays the page.  The page is a
    well-formed [http(s)] URL whose host is not the loopback host. *)
Theorem relative_request_after_page_load (method1 method2 url1 page reqUrl fullUrl : string)
    (base : URL) (req1 req2 : Request) (sessionBaseUrls : gmap string string) :
  String.eqb method1 "OPTIONS" = false ->
  String.eqb method2 "OPTIONS" = false ->
  String.eqb url1 "/" || String.eqb url1 "" = false ->
  String.eqb reqUrl "/" || String.eqb reqUrl "" = false ->
  wellFormed page ->
  Js.startsWith page "http://" || Js.startsWith page "https://" = true ->
  newURL page = Some base ->
  pointsAtLocalhost page = false ->
  isLoopbackHost base = false ->
  clientIdOf req2 = clientIdOf req1 ->
  h_referer req2 = None ->
  resolveHref reqUrl (origin base) = Some fullUrl ->
  exists stored,
    handle newURL resolveHref method1 url1 (Some (encodeUrl page)) req1 sessionBaseUrls
    = (CpoRequest (Fetch page stored), stored)
    /\ stored !! clientIdOf req1 = Some page
    /\ handle newURL resolveHref method2 reqUrl None req2 stored
       = (RelativeRequest (FetchRelative fullUrl page), stored).
Proof.
  intros Hm1 Hm2 Hu1 Hu2 Hwf Hscheme Hbase Hlocal Hloop Hclient Href Hfull.
  exists (<[clientIdOf req1 := page]> sessionBaseUrls).
  assert (Htruthy : Js.truthy (encodeUrl page) = true).
  { assert (Hlen : String.length (encodeUrl page)
                   = ((4 * String.length page + 2) / 3)%nat).
    { rewrite CodecTheory.encodeUrl_chars, CodecLaws.length_chars,
        CodecLaws.length_sextetsOfBytes.
      now rewrite CodecLaws.length_Buffer_from. }
    pose proof (scheme_truthy page Hscheme) as Hp.
    destruct page as [|c p]; [discriminate|].
    destruct (encodeUrl (String c p)); [|reflexivity].
    cbn [String.length] in Hlen.
    assert (1 <= (4 * S (String.length p) + 2) / 3)%nat
      by (apply Nat.div_le_lower_bound; lia).
    lia. }
  split; [|split].
  - unfold handle. rewrite Hm1, Hu1. cbn [Js.truthyOpt default id]. rewrite Htruthy.
    rewrite routeCpo_fingerprint by eauto. reflexivity.
  - apply lookup_insert_eq.
  - unfold handle. rewrite Hm2, Hu2. cbn [Js.truthyOpt]. unfold routeRelative.
    rewrite baseOf_session by exact Href.
    rewrite Hclient, lookup_insert_eq, (scheme_truthy page Hscheme), Hbase, Hloop, Hfull.
    reflexivity.
Qed.

(** X8.  The relative branch fetches only what it resolved against the
    origin of a base whose host is neither [localhost] nor [127.0.0.1];
    with a loopback base, an unusable base or none at all, the request ends
    in the 404 of the handler. *)
Theorem relative_branch_never_loops (req : Request) (sessionBaseUrls : gmap string string)
    (reqUrl fullUrl referer : string) :
  routeRelative newURL resolveHref req sessionBaseUrls reqUrl = FetchRelative fullUrl referer ->
  exists base,
    baseOf newURL req sessionBaseUrls = Some referer
    /\ newURL referer = Some base
    /\ String.eqb (hostname base) "localhost" = false
    /\ String.eqb (hostname base) "127.0.0.1" = false
    /\ resolveHref reqUrl (origin base) = Some fullUrl.
Proof.
  unfold routeRelative.
  destruct (baseOf newURL req sessionBaseUrls) as [baseUrl|]; [|discriminate].
  destruct (Js.truthy baseUrl); [|discriminate].
  destruct (newURL baseUrl) as [base|] eqn:Hbase; [|discriminate].
  destruct (isLoopbackHost base) eqn:Hloop; [discriminate|].
  destruct (resolveHref reqUrl (origin base)) as [full|] eqn:Hfull; [|discriminate].
  intros H. injection H as <- <-.
  unfold isLoopbackHost in Hloop. apply orb_false_elim in Hloop as [H1 H2].
  exists base. auto 10.
Qed.

End RelativeBranch.

Lemma relative_request_after_page_load_witness :
  exists stored,
    handle PlainUrl.parse PlainUrl.resolveHref "GET" "/explore?__cpo=x"
           (Some (encodeUrl "https://www.tiktok.com/explore")) Scenario.direct ∅
    = (CpoRequest (Fetch "https://www.tiktok.com/explore" stored), stored)
    /\ stored !! clientIdOf Scenario.direct = Some "https://www.tiktok.com/explore"
    /\ handle PlainUrl.parse PlainUrl.resolveHref "POST" "/oapi/feed?n=3" None
              Scenario.direct stored
       = (RelativeRequest (FetchRelative "https://www.tiktok.com/oapi/feed?n=3"
                                         "https://www.tiktok.com/explore"), stored).
Proof.
  apply (relative_request_after_page_load PlainUrl.parse PlainUrl.resolveHref
           "GET" "POST" "/explore?__cpo=x" "https://www.tiktok.com/explore"
           "/oapi/feed?n=3" "https://www.tiktok.com/oapi/feed?n=3"
           {| protocol := "https:"; hostname := "www.tiktok.com";
              origin := "https://www.tiktok.com"; pathname := "/explore";
              search := ""; href := "https://www.tiktok.com/explore" |}
           Scenario.direct Scenario.direct ∅); try reflexivity.
  all: vm_compute; reflexivity.
Defined.

Lemma relative_branch_never_loops_witness :
  exists base,
    baseOf PlainUrl.parse Scenario.direct {[ "10.0.0.7" := "https://www.tiktok.com/explore" ]}
    = Some "https://www.tiktok.com/explore"
    /\ PlainUrl.parse "https://www.tiktok.com/explore" = Some base
    /\ String.eqb (hostname base) "localhost" = false
    /\ String.eqb (hostname base) "127.0.0.1" = false
    /\ PlainUrl.resolveHref "/api/x" (origin base) = Some "https://www.tiktok.com/api/x".
Proof.
  apply (relative_branch_never_loops PlainUrl.parse PlainUrl.resolveHref Scenario.direct
           {[ "10.0.0.7" := "https://www.tiktok.com/explore" ]} "/api/x"
           "https://www.tiktok.com/api/x" "https://www.tiktok.com/explore").
  vm_compute. reflexivity.
Defined.

(** A base on the loopback host, as the [__cpo] branch stores it for a
    localhost target, is not used: the relative request ends in 404. *)
Example relative_request_with_loopback_base :
  routeRelative PlainUrl.parse PlainUrl.resolveHref Scenario.direct
    {[ "10.0.0.7" := "http://localhost:3003/foo" ]} "/api/x" = NotFound404
  /\ routeRelative PlainUrl.parse PlainUrl.resolveHref Scenario.direct ∅ "/api/x"
     = NotFound404
  /\ routeRelative PlainUrl.parse PlainUrl.resolveHref Scenario.fromPage
       {[ "10.0.0.7" := "http://localhost:3003/foo" ]} "/api/x"
     = FetchRelative "https://www.tiktok.com/api/x" "https://www.tiktok.com".
Proof. evaluate. Qed.

End RouterLaws.

(** ** Broker: helpers of the server *)

Module ServerLaws.
Import Broker JsFacts BrokerTheory.
Local Open Scope Z_scope.

(** *** [getStatus] *)

Lemma filter_partition_length {A} (p : A -> bool) (l : list A) :
  (length (List.filter (fun x => negb (p x)) l) + length (List.filter p l))%nat = length l.
Proof.
  induction l as [|x l IH]; [reflexivity|].
  cbn [List.filter]. destruct (p x); cbn [negb length]; lia.
Qed.

(** X9.  In every state the server reaches, [getStatus] reports ten slots
    with the ids 1 to 10, each of them either available or in use: the two
    counts add up to ten, and the list names every slot with its own
    availability. *)
Theorem getStatus_counts (secureToken : nat -> string) (st : State) :
  reachable secureToken st ->
  total (getStatus st) = 10%nat
  /\ (available (getStatus st) + inUseNow (getStatus st))%nat = 10%nat
  /\ inUseNow (getStatus st) = inUseCount st
  /\ map fst (browsers (getStatus st)) = [1; 2; 3; 4; 5; 6; 7; 8; 9; 10]
  /\ forall i b, BROWSERS st !! i = Some b ->
       browsers (getStatus st) !! i = Some (id b, negb (inUse b)).
Proof.
  intros Hreach. destruct (reachable_slots secureToken st Hreach) as [Hids _].
  assert (Hlen : length (BROWSERS st) = 10%nat).
  { rewrite <- (length_map id), Hids. reflexivity. }
  unfold getStatus. cbn [total available inUseNow browsers].
  split; [exact Hlen|]. split; [now rewrite filter_partition_length|].
  split; [reflexivity|]. split.
  - rewrite map_map. exact Hids.
  - intros i b Hb. rewrite list_lookup_fmap, Hb. reflexivity.
Qed.

Lemma getStatus_counts_witness :
  total (getStatus Scenario.assigned) = 10%nat
  /\ (available (getStatus Scenario.assigned) + inUseNow (getStatus Scenario.assigned))%nat
     = 10%nat
  /\ inUseNow (getStatus Scenario.assigned) = inUseCount Scenario.assigned
  /\ map fst (browsers (getStatus Scenario.assigned)) = [1; 2; 3; 4; 5; 6; 7; 8; 9; 10]
  /\ forall i b, BROWSERS Scenario.assigned !! i = Some b ->
       browsers (getStatus Scenario.assigned) !! i = Some (id b, negb (inUse b)).
Proof.
  apply (getStatus_counts demoToken Scenario.assigned).
  exists true, [RequestBrowser Scenario.api (JString "client-0001") "sess_a" 1000].
  reflexivity.
Defined.

(** *** [makeWsFrame] *)

Lemma toInt32_small x : 0 <= x < 2 ^ 31 -> toInt32 x = x.
Proof. intros Hx. unfold toInt32. rewrite Z.mod_small; lia. Qed.

Lemma bitAnd_255 x : 0 <= x < 2 ^ 31 -> bitAnd x 255 = x mod 256.
Proof.
  intros Hx. unfold bitAnd. rewrite !toInt32_small by lia.
  change 255 with (Z.ones 8). rewrite Z.land_ones by lia. reflexivity.
Qed.

Lemma shiftRight_small x n k :
  0 <= x < 2 ^ 31 -> n mod 32 = k -> 0 <= k ->
  shiftRight x n = x / 2 ^ k /\ 0 <= x / 2 ^ k < 2 ^ 31.
Proof.
  intros Hx Hn Hk. unfold shiftRight. rewrite Hn, toInt32_small by lia.
  rewrite Z.shiftr_div_pow2 by lia. split; [reflexivity|].
  assert (0 < 2 ^ k) by (apply Z.pow_pos_nonneg; lia).
  split; [apply Z.div_pos; lia|].
  apply Z.div_lt_upper_bound; [lia|]. nia.
Qed.

(** X10.  For a payload of fewer than 65536 octets, [makeWsFrame] gives a
    final binary frame whose length field is the length of the payload: one
    octet below 126, and otherwise the marker 126 and two octets, most
    significant first.  The payload follows unchanged. *)
Theorem makeWsFrame_length_field (payload : list Z) :
  Z.of_nat (length payload) < 65536 ->
  if Z.of_nat (length payload) <? 126
  then makeWsFrame payload = 130 :: Z.of_nat (length payload) :: payload
  else exists hi lo,
         makeWsFrame payload = 130 :: 126 :: hi :: lo :: payload
         /\ 0 <= hi < 256 /\ 0 <= lo < 256
         /\ bigEndian [hi; lo] = Z.of_nat (length payload).
Proof.
  intros Hlen. unfold makeWsFrame. set (len := Z.of_nat (length payload)) in *.
  destruct (Z.ltb_spec len 126) as [Hs|Hs]; [reflexivity|].
  destruct (Z.ltb_spec len 65536) as [_|]; [|lia].
  assert (Hx : 0 <= len < 2 ^ 31) by lia.
  destruct (shiftRight_small len 8 8 Hx eq_refl ltac:(lia)) as [Hsh Hr].
  exists (len / 256), (len mod 256).
  rewrite Hsh, !bitAnd_255 by assumption.
  change (2 ^ 8) with 256 in *.
  rewrite (Z.mod_small (len / 256)) by (split; [apply Z.div_pos; lia | apply Z.div_lt_upper_bound; lia]).
  split; [reflexivity|].
  split; [split; [apply Z.div_pos; lia | apply Z.div_lt_upper_bound; lia]|].
  split; [apply Z.mod_pos_bound; lia|].
  unfold bigEndian. cbn [fold_left]. pose proof (Z.div_mod len 256). lia.
Qed.

Lemma makeWsFrame_length_field_witness :
  if Z.of_nat (length (repeat 7 (Z.to_nat 300))) <? 126
  then makeWsFrame (repeat 7 (Z.to_nat 300))
       = 130 :: Z.of_nat (length (repeat 7 (Z.to_nat 300))) :: repeat 7 (Z.to_nat 300)
  else exists hi lo,
         makeWsFrame (repeat 7 (Z.to_nat 300))
         = 130 :: 126 :: hi :: lo :: repeat 7 (Z.to_nat 300)
         /\ 0 <= hi < 256 /\ 0 <= lo < 256
         /\ bigEndian [hi; lo] = Z.of_nat (length (repeat 7 (Z.to_nat 300))).
Proof.
  apply (makeWsFrame_length_field (repeat 7 (Z.to_nat 300))).
  rewrite repeat_length, Z2Nat.id; lia.
Defined.

(** X11.  For a payload of 65536 octets or more (and fewer than 2^31), the
    eight octets of the length field are the four octets of the length,
    written twice: the shift counts 56, 48, 40 and 32 act as 24, 16, 8 and
    0.  Read as one number the field is the length times [2^32 + 1], not the
    length of the payload. *)
Theorem makeWsFrame_long_payload (payload : list Z) :
  65536 <= Z.of_nat (length payload) < 2 ^ 31 ->
  exists b3 b2 b1 b0,
    makeWsFrame payload
    = ([130; 127; b3; b2; b1; b0; b3; b2; b1; b0] ++ payload)%list
    /\ bigEndian [b3; b2; b1; b0] = Z.of_nat (length payload)
    /\ bigEndian [b3; b2; b1; b0; b3; b2; b1; b0]
       = Z.of_nat (length payload) * (2 ^ 32 + 1)
    /\ bigEndian [b3; b2; b1; b0; b3; b2; b1; b0] <> Z.of_nat (length payload).
Proof.
  intros Hlen. unfold makeWsFrame. set (len := Z.of_nat (length payload)) in *.
  destruct (Z.ltb_spec len 126) as [|_]; [lia|].
  destruct (Z.ltb_spec len 65536) as [|_]; [lia|].
  assert (Hx : 0 <= len < 2 ^ 31) by lia.
  cbn [map app].
  destruct (shiftRight_small len (7 * 8) 24 Hx eq_refl ltac:(lia)) as [-> H7].
  destruct (shiftRight_small len (6 * 8) 16 Hx eq_refl ltac:(lia)) as [-> H6].
  destruct (shiftRight_small len (5 * 8) 8 Hx eq_refl ltac:(lia)) as [-> H5].
  destruct (shiftRight_small len (4 * 8) 0 Hx eq_refl ltac:(lia)) as [-> H4].
  destruct (shiftRight_small len (3 * 8) 24 Hx eq_refl ltac:(lia)) as [-> _].
  destruct (shiftRight_small len (2 * 8) 16 Hx eq_refl ltac:(lia)) as [-> _].
  destruct (shiftRight_small len (1 * 8) 8 Hx eq_refl ltac:(lia)) as [-> _].
  destruct (shiftRight_small len (0 * 8) 0 Hx eq_refl ltac:(lia)) as [-> _].
  rewrite !bitAnd_255 by assumption.
  exists (len / 2 ^ 24 mod 256), (len / 2 ^ 16 mod 256), (len / 2 ^ 8 mod 256),
         (len / 2 ^ 0 mod 256).
  split; [reflexivity|].
  assert (Hbe : bigEndian [len / 2 ^ 24 mod 256; len / 2 ^ 16 mod 256;
                           len / 2 ^ 8 mod 256; len / 2 ^ 0 mod 256] = len).
  { unfold bigEndian. cbn [fold_left].
    change (2 ^ 24) with 16777216. change (2 ^ 16) with 65536.
    change (2 ^ 8) with 256. change (2 ^ 0) with 1. change (2 ^ 31) with 2147483648 in Hx.
    Z.div_mod_to_equations. lia. }
  assert (Hall : bigEndian [len / 2 ^ 24 mod 256; len / 2 ^ 16 mod 256;
                            len / 2 ^ 8 mod 256; len / 2 ^ 0 mod 256;
                            len / 2 ^ 24 mod 256; len / 2 ^ 16 mod 256;
                            len / 2 ^ 8 mod 256; len / 2 ^ 0 mod 256]
                 = len * (2 ^ 32 + 1)).
  { unfold bigEndian in *. cbn [fold_left] in *.
    change (2 ^ 32) with 4294967296. lia. }
  split; [exact Hbe|]. split; [exact Hall|]. rewrite Hall. lia.
Qed.

Lemma makeWsFrame_long_payload_witness :
  exists b3 b2 b1 b0,
    makeWsFrame (repeat 0 (Z.to_nat 65536))
    = ([130; 127; b3; b2; b1; b0; b3; b2; b1; b0] ++ repeat 0 (Z.to_nat 65536))%list
    /\ bigEndian [b3; b2; b1; b0] = Z.of_nat (length (repeat 0 (Z.to_nat 65536)))
    /\ bigEndian [b3; b2; b1; b0; b3; b2; b1; b0]
       = Z.of_nat (length (repeat 0 (Z.to_nat 65536))) * (2 ^ 32 + 1)
    /\ bigEndian [b3; b2; b1; b0; b3; b2; b1; b0]
       <> Z.of_nat (length (repeat 0 (Z.to_nat 65536))).
Proof.
  apply (makeWsFrame_long_payload (repeat 0 (Z.to_nat 65536))).
  rewrite repeat_length, Z2Nat.id; lia.
Defined.

(** *** Slot numbers in paths and names *)

Lemma digitsValue_snoc s c :
  Js.digitsValue (s +:+ String c EmptyString)
  = 10 * Js.digitsValue s + (Z.of_nat (nat_of_ascii c) - 48).
Proof.
  unfold Js.digitsValue.
  assert (Hl : list_ascii_of_string (s +:+ String c EmptyString)
               = (list_ascii_of_string s ++ [c])%list).
  { induction s as [|x s IH]; [reflexivity|]. rewrite app_cons. cbn. now rewrite IH. }
  rewrite Hl, fold_left_app. reflexivity.
Qed.

Lemma digitChar_spec d :
  0 <= d < 10 ->
  Js.isDigit (digitChar d) = true /\ Z.of_nat (nat_of_ascii (digitChar d)) - 48 = d.
Proof.
  intros Hd. unfold digitChar, Js.isDigit.
  rewrite nat_ascii_embedding by lia.
  split; [|lia].
  apply andb_true_intro. split; apply Nat.leb_le; lia.
Qed.

Lemma allDigits_snoc s c : allDigits (s +:+ String c EmptyString) = allDigits s && Js.isDigit c.
Proof.
  unfold allDigits. induction s as [|x s IH];
    [rewrite app_nil_l; cbn; destruct (Js.isDigit c); reflexivity|].
  rewrite app_cons. cbn. rewrite IH. now rewrite andb_assoc.
Qed.

Lemma decimalFrom_spec fuel n acc :
  0 <= n < 10 ^ Z.of_nat fuel -> (0 < fuel)%nat ->
  exists ds, decimalFrom fuel n acc = ds +:+ acc
             /\ Js.truthy ds = true /\ allDigits ds = true /\ Js.digitsValue ds = n.
Proof.
  revert n acc. induction fuel as [|fuel IH]; intros n acc Hn Hfuel; [lia|].
  cbn [decimalFrom].
  assert (Hd : 0 <= n mod 10 < 10) by (apply Z.mod_pos_bound; lia).
  destruct (digitChar_spec _ Hd) as [Hdig Hval].
  destruct (Z.ltb_spec n 10) as [Hsmall|Hbig].
  - exists (String (digitChar (n mod 10)) EmptyString).
    split; [reflexivity|]. split; [reflexivity|].
    split; [unfold allDigits; cbn; now rewrite Hdig|].
    unfold Js.digitsValue. cbn. rewrite Hval. rewrite Z.mod_small; lia.
  - destruct fuel as [|fuel'].
    { change (10 ^ Z.of_nat 1) with 10 in Hn. lia. }
    destruct (IH (n / 10) (String (digitChar (n mod 10)) acc)) as (ds & Heq & Ht & Hall & Hv).
    + split; [apply Z.div_pos; lia|].
      apply Z.div_lt_upper_bound; [lia|].
      rewrite Nat2Z.inj_succ, Z.pow_succ_r in Hn by lia. lia.
    + lia.
    + exists (ds +:+ String (digitChar (n mod 10)) EmptyString).
      rewrite Heq, app_assoc. split; [reflexivity|].
      split; [destruct ds; [discriminate | reflexivity]|].
      split; [now rewrite allDigits_snoc, Hall, Hdig|].
      rewrite digitsValue_snoc, Hv, Hval. pose proof (Z.div_mod n 10). lia.
Qed.

(** The decimal spelling of a number is a non-empty run of digits whose
    value is the number. *)
Lemma decimal_spec n :
  0 <= n ->
  Js.truthy (decimal n) = true /\ allDigits (decimal n) = true
  /\ Js.digitsValue (decimal n) = n.
Proof.
  intros Hn. unfold decimal.
  destruct (decimalFrom_spec (S (Z.to_nat (Z.log2 n))) n EmptyString) as (ds & -> & H).
  - split; [lia|]. rewrite Nat2Z.inj_succ, Z2Nat.id by apply Z.log2_nonneg.
    destruct (Z.eq_dec n 0) as [->|Hpos]; [reflexivity|].
    pose proof (Z.log2_spec n ltac:(lia)) as [_ Hlt].
    eapply Z.lt_le_trans; [exact Hlt|].
    apply Z.pow_le_mono_l. pose proof (Z.log2_nonneg n). lia.
  - lia.
  - now rewrite app_nil_r.
Qed.

Lemma takeWhile_digits ds rest :
  allDigits ds = true ->
  match rest with EmptyString => true | String c _ => negb (Js.isDigit c) end = true ->
  Js.takeWhile Js.isDigit (ds +:+ rest) = ds
  /\ Js.dropWhile Js.isDigit (ds +:+ rest) = rest.
Proof.
  unfold allDigits. intros Hds Hrest. induction ds as [|c ds IH].
  - rewrite app_nil_l. destruct rest as [|c r]; [split; reflexivity|].
    cbn. apply negb_true_iff in Hrest. rewrite Hrest. split; reflexivity.
  - cbn in Hds. apply andb_prop in Hds as [Hc Hds].
    rewrite app_cons. cbn. rewrite Hc. destruct (IH Hds) as [-> ->]. split; reflexivity.
Qed.

Lemma takeWhile_all p s :
  forallb p (list_ascii_of_string s) = true -> Js.takeWhile p s = s.
Proof.
  induction s as [|c s IH]; [reflexivity|]. cbn. intros H.
  apply andb_prop in H as [-> H]. now rewrite IH.
Qed.

Lemma parseBrowserPath_decimal (n : Z) (rest : string) :
  0 <= n ->
  forallb (fun c => negb (isLineBreak c)) (list_ascii_of_string rest) = true ->
  parseBrowserPath ("/browser/" +:+ decimal n) = Some (n, "/")
  /\ parseBrowserPath ("/browser/" +:+ decimal n +:+ "/" +:+ rest) = Some (n, "/" +:+ rest).
Proof.
  intros Hn Hrest. destruct (decimal_spec n Hn) as (Ht & Hall & Hv). split.
  - unfold parseBrowserPath.
    change (Js.startsWith ("/browser/" +:+ decimal n) "/browser/") with true.
    change (Js.drop 9 ("/browser/" +:+ decimal n)) with (decimal n).
    destruct (takeWhile_digits (decimal n) EmptyString Hall eq_refl) as [H1 H2].
    rewrite app_nil_r in H1, H2. rewrite H1, H2, Ht, Hv. reflexivity.
  - unfold parseBrowserPath.
    change (Js.startsWith ("/browser/" +:+ decimal n +:+ "/" +:+ rest) "/browser/") with true.
    change (Js.drop 9 ("/browser/" +:+ decimal n +:+ "/" +:+ rest))
      with (decimal n +:+ "/" +:+ rest).
    destruct (takeWhile_digits (decimal n) ("/" +:+ rest) Hall eq_refl) as [-> ->].
    rewrite Ht, Hv. change ("/" +:+ rest) with (String "/" rest).
    change (Ascii.eqb "/" "/") with true. cbn [andb].
    rewrite (takeWhile_all (fun x => negb (isLineBreak x)) (String "/" rest)).
    + now rewrite String.eqb_refl.
    + cbn [list_ascii_of_string forallb]. now rewrite Hrest.
Qed.



Lemma append_inv_head s x y : s +:+ x = s +:+ y -> x = y.
Proof.
  induction s as [|c s IH]; [now rewrite !app_nil_l|].
  rewrite !app_cons. intros H. injection H as H. now apply IH.
Qed.

(** X13.  [getContainerName] gives every slot number a container name of
    its own: [browser] for slot 1 and [browser<n>] for the others, so what
    is done to the container of one slot never reaches that of another. *)
Theorem getContainerName_injective (n m : Z) :
  0 <= n -> 0 <= m -> getContainerName n = getContainerName m -> n = m.
Proof.
  intros Hn Hm. unfold getContainerName.
  destruct (decimal_spec n Hn) as (Htn & _ & Hvn).
  destruct (decimal_spec m Hm) as (Htm & _ & Hvm).
  destruct (Z.eqb_spec n 1) as [->|Hn1], (Z.eqb_spec m 1) as [->|Hm1]; intros H.
  - reflexivity.
  - rewrite <- (app_nil_r "browser") in H at 1. apply append_inv_head in H.
    rewrite <- H in Htm. discriminate.
  - rewrite <- (app_nil_r "browser") in H at 2. apply append_inv_head in H.
    rewrite H in Htn. discriminate.
  - apply append_inv_head in H. congruence.
Qed.

Lemma getContainerName_injective_witness : 4 = 2 + 2.
Proof.
  apply (getContainerName_injective 4 (2 + 2)); [lia | lia | reflexivity].
Defined.

End ServerLaws.

(** ** Broker: what the token maps guarantee *)

Module TokenLaws.
Import Broker JsFacts BrokerTheory.
Local Open Scope Z_scope.

Section Tokens.

Variable secureToken : nat -> string.
Hypothesis secureToken_truthy : forall n, Js.truthy (secureToken n) = true.
Hypothesis secureToken_inj : forall n m, secureToken n = secureToken m -> n = m.

Local Abbreviation tokenInv st :=
  (wfSlots st /\ tokensSound st /\ cookiesIssued secureToken st).

(** [slots st st']: the same slot ids, and the slots in use stay in use. *)
Local Abbreviation slots st st' :=
  (map id (BROWSERS st') = map id (BROWSERS st)
   /\ forall bid, slotInUse bid st -> slotInUse bid st').

Lemma slots_same st st' : BROWSERS st' = BROWSERS st -> slots st st'.
Proof. intros HB. split; [now rewrite HB|]. unfold slotInUse. now rewrite HB. Qed.

Lemma slots_alter (f : Browser -> Browser) k st st' :
  (forall b, id (f b) = id b /\ (inUse b = true -> inUse (f b) = true)) ->
  BROWSERS st' = alter f k (BROWSERS st) -> slots st st'.
Proof.
  intros Hf HB. split.
  { rewrite HB. apply ids_alter. intros b. apply Hf. }
  intros bid (i & b & Hb & Hid & Hu). unfold slotInUse. rewrite HB.
  destruct (decide (k = i)) as [->|Hne].
  - exists i, (f b). rewrite list_lookup_alter_eq, Hb. destruct (Hf b) as [Hi Hu'].
    cbn. rewrite Hi. auto.
  - exists i, b. rewrite list_lookup_alter_ne by exact Hne. auto.
Qed.

Lemma slots_trans st1 st2 st3 : slots st1 st2 -> slots st2 st3 -> slots st1 st3.
Proof. intros [H1 H1'] [H2 H2']. split; [congruence | auto]. Qed.

(** Nothing changes in the token maps. *)
Lemma inv_frame st st' :
  slots st st' ->
  browserTokens st' = browserTokens st -> tokenToBrowser st' = tokenToBrowser st ->
  urlTokens st' = urlTokens st -> (drawn st <= drawn st')%nat ->
  tokenInv st -> tokenInv st'.
Proof.
  intros [Hids Huse] Hbt Httb Hurl Hd (Hwf & (Hb & Ht & Hu) & Hc).
  split; [eapply wfSlots_ids; eauto|]. split; [split; [|split]|].
  - intros bid c. rewrite Hbt. intros H. destruct (Hb bid c H). auto.
  - intros c bid. rewrite Httb, Hbt. apply Ht.
  - intros tok e. rewrite Hurl, Hbt. apply Hu.
  - intros bid c. rewrite Hbt, Httb. intros H.
    destruct (Hc bid c H) as (H1 & n & Hn & ->). split; [exact H1|]. exists n. split; [lia | reflexivity].
Qed.

(** A URL token is dropped. *)
Lemma inv_dropUrl st st' :
  slots st st' ->
  browserTokens st' = browserTokens st -> tokenToBrowser st' = tokenToBrowser st ->
  (forall tok e, urlTokens st' !! tok = Some e -> urlTokens st !! tok = Some e) ->
  (drawn st <= drawn st')%nat ->
  tokenInv st -> tokenInv st'.
Proof.
  intros [Hids Huse] Hbt Httb Hurl Hd (Hwf & (Hb & Ht & Hu) & Hc).
  split; [eapply wfSlots_ids; eauto|]. split; [split; [|split]|].
  - intros bid c. rewrite Hbt. intros H. destruct (Hb bid c H). auto.
  - intros c bid. rewrite Httb, Hbt. apply Ht.
  - intros tok e H. rewrite Hbt. apply (Hu tok e). now apply Hurl.
  - intros bid c. rewrite Hbt, Httb. intros H.
    destruct (Hc bid c H) as (H1 & n & Hn & ->). split; [exact H1|]. exists n. split; [lia | reflexivity].
Qed.

(** A URL token is minted for a slot, with the cookie token of the slot. *)
Lemma inv_mintUrl st st' tok e :
  slots st st' ->
  browserTokens st' = browserTokens st -> tokenToBrowser st' = tokenToBrowser st ->
  urlTokens st' = <[tok := e]> (urlTokens st) ->
  browserTokens st !! u_browserId e = Some (u_cookieToken e) ->
  (drawn st <= drawn st')%nat ->
  tokenInv st -> tokenInv st'.
Proof.
  intros [Hids Huse] Hbt Httb Hurl He Hd (Hwf & (Hb & Ht & Hu) & Hc).
  split; [eapply wfSlots_ids; eauto|]. split; [split; [|split]|].
  - intros bid c. rewrite Hbt. intros H. destruct (Hb bid c H). auto.
  - intros c bid. rewrite Httb, Hbt. apply Ht.
  - intros t x. rewrite Hurl, Hbt. rewrite lookup_insert_Some.
    intros [[_ <-]|[_ H]]; [exact He | now apply (Hu t x)].
  - intros bid c. rewrite Hbt, Httb. intros H.
    destruct (Hc bid c H) as (H1 & n & Hn & ->). split; [exact H1|]. exists n. split; [lia | reflexivity].
Qed.

(** A cookie token is drawn for a slot in use that has none. *)
Lemma inv_mintCookie st st' bid :
  slots st st' -> slotInUse bid st' ->
  browserTokens st !! bid = None ->
  browserTokens st' = <[bid := secureToken (drawn st)]> (browserTokens st) ->
  tokenToBrowser st' = <[secureToken (drawn st) := bid]> (tokenToBrowser st) ->
  urlTokens st' = urlTokens st -> drawn st' = S (drawn st) ->
  tokenInv st -> tokenInv st'.
Proof.
  intros [Hids Huse] Hslot Hnone Hbt Httb Hurl Hd (Hwf & (Hb & Ht & Hu) & Hc).
  split; [eapply wfSlots_ids; eauto|]. split; [split; [|split]|].
  - intros b c. rewrite Hbt, lookup_insert_Some.
    intros [[<- <-]|[_ H]]; [auto | destruct (Hb b c H); auto].
  - intros c b. rewrite Httb, Hbt, lookup_insert_Some.
    intros [[<- <-]|[Hne H]]; [apply lookup_insert_eq|].
    pose proof (Ht c b H) as Hbc.
    rewrite lookup_insert_ne; [exact Hbc | congruence].
  - intros tok e H. rewrite Hurl in H. pose proof (Hu tok e H) as He.
    rewrite Hbt, lookup_insert_ne; [exact He | congruence].
  - intros b c. rewrite Hbt, Httb, Hd, lookup_insert_Some.
    intros [[<- <-]|[Hne H]].
    + split; [apply lookup_insert_eq|]. exists (drawn st). split; [lia | reflexivity].
    + destruct (Hc b c H) as (H1 & n & Hn & ->). split.
      * rewrite lookup_insert_ne; [exact H1|]. intros Heq.
        apply secureToken_inj in Heq. lia.
      * exists n. split; [lia | reflexivity].
Qed.

Lemma doReleaseBrowser_tokens j st bj :
  BROWSERS st !! j = Some bj -> inUse bj = true ->
  BROWSERS (doReleaseBrowser j st) = alter released j (BROWSERS st)
  /\ browserTokens (doReleaseBrowser j st)
     = match orNull (browserTokens st !! id bj) with
       | Some _ => delete (id bj) (browserTokens st)
       | None => browserTokens st
       end
  /\ tokenToBrowser (doReleaseBrowser j st)
     = match orNull (browserTokens st !! id bj) with
       | Some old => delete old (tokenToBrowser st)
       | None => tokenToBrowser st
       end
  /\ urlTokens (doReleaseBrowser j st)
     = filter (fun kv => u_browserId (snd kv) ≠ id bj) (urlTokens st)
  /\ drawn (doReleaseBrowser j st) = drawn st.
Proof.
  intros Hj Hu. unfold doReleaseBrowser. rewrite Hj, Hu. cbn [negb].
  match goal with
  | |- context [syncBrowserToFirebase j ?s] =>
      destruct (syncBrowserToFirebase_frame j s) as (-> & -> & -> & -> & -> & _)
  end.
  destruct (orNull (clientId bj)); cbn;
    (destruct (orNull (browserTokens st !! id bj)); cbn; auto 10).
Qed.

Lemma slotInUse_other st st' j bj bid :
  wfSlots st -> BROWSERS st !! j = Some bj -> bid <> id bj ->
  BROWSERS st' = alter released j (BROWSERS st) ->
  slotInUse bid st -> slotInUse bid st'.
Proof.
  intros Hwf Hj Hne HB (i & b & Hb & Hid & Hu). exists i, b.
  rewrite HB, list_lookup_alter_ne; [auto|]. intros ->. congruence.
Qed.

(** A slot is released. *)
Lemma inv_doReleaseBrowser j st : tokenInv st -> tokenInv (doReleaseBrowser j st).
Proof.
  intros Hinv.
  destruct (BROWSERS st !! j) as [bj|] eqn:Hj;
    [|unfold doReleaseBrowser; now rewrite Hj].
  destruct (inUse bj) eqn:Huj;
    [|unfold doReleaseBrowser; now rewrite Hj, Huj].
  destruct (doReleaseBrowser_tokens j st bj Hj Huj) as (HB & Hbt & Httb & Hurl & Hd).
  destruct Hinv as (Hwf & (Hb & Ht & Hu) & Hc).
  assert (Hbt' : browserTokens (doReleaseBrowser j st) = delete (id bj) (browserTokens st)).
  { rewrite Hbt. destruct (browserTokens st !! id bj) as [c|] eqn:Hold; cbn.
    - destruct (Hb _ _ Hold) as [-> _]. reflexivity.
    - symmetry. now apply delete_id. }
  assert (Httb' : forall c b, tokenToBrowser (doReleaseBrowser j st) !! c = Some b <->
                    tokenToBrowser st !! c = Some b /\ b <> id bj).
  { intros c b. rewrite Httb. destruct (browserTokens st !! id bj) as [old|] eqn:Hold; cbn.
    - destruct (Hb _ _ Hold) as [-> _]. rewrite lookup_delete_Some. split.
      + intros [Hne H]. split; [exact H|]. intros ->.
        apply Ht in H. congruence.
      + intros [H Hne]. split; [|exact H]. intros <-.
        destruct (Hc _ _ Hold) as [Hpair _]. congruence.
    - split; [|tauto]. intros H. split; [exact H|]. intros ->.
      apply Ht in H. congruence. }
  split; [eapply wfSlots_ids; [|exact Hwf]; rewrite HB; now apply ids_alter|].
  split; [split; [|split]|].
  - intros bid c. rewrite Hbt', lookup_delete_Some. intros [Hne H].
    destruct (Hb bid c H) as [Htr Hin]. split; [exact Htr|].
    eapply slotInUse_other; eauto.
  - intros c bid H. apply Httb' in H as [H Hne].
    rewrite Hbt', lookup_delete_ne by congruence. now apply Ht.
  - intros tok e. rewrite Hurl, map_lookup_filter_Some. intros [H Hne]. cbn in Hne.
    rewrite Hbt', lookup_delete_ne by congruence. now apply (Hu tok e).
  - intros bid c. rewrite Hbt', Hd, lookup_delete_Some. intros [Hne H].
    destruct (Hc bid c H) as (H1 & n & Hn & ->). split.
    + apply Httb'. split; [exact H1 | congruence].
    + exists n. auto.
Qed.

Lemma inv_ensureCookieToken bid st :
  slotInUse bid st -> tokenInv st -> tokenInv (snd (ensureCookieToken secureToken bid st)).
Proof.
  intros Hslot Hinv. unfold ensureCookieToken, generateSecureToken.
  destruct (browserTokens st !! bid) as [c|] eqn:Hc; cbn.
  - pose proof Hinv as (_ & (Hb & _) & _). destruct (Hb _ _ Hc) as [Ht _].
    rewrite Ht. exact Hinv.
  - eapply (inv_mintCookie st _ bid); try reflexivity; try assumption.
    now apply slots_same.
Qed.

Lemma inv_createUrlToken bid now st :
  tokenInv st -> tokenInv (snd (createUrlToken secureToken bid now st)).
Proof.
  intros Hinv. unfold createUrlToken, generateSecureToken.
  destruct (browserTokens st !! bid) as [c|] eqn:Hc; cbn; [|exact Hinv].
  destruct (Js.truthy c); cbn; [|exact Hinv].
  eapply (inv_mintUrl st); try reflexivity; try exact Hinv.
  - now apply slots_same.
  - exact Hc.
  - cbn. lia.
Qed.

Lemma inv_createSessionTokens bid now st :
  slotInUse bid st -> browserTokens st !! bid = None ->
  tokenInv st -> tokenInv (snd (createSessionTokens secureToken bid now st)).
Proof.
  intros Hslot Hnone Hinv. unfold createSessionTokens, generateSecureToken.
  rewrite Hnone. cbn.
  set (sB := setTokenToBrowser (<[secureToken (drawn st) := bid]> (tokenToBrowser st))
               (setBrowserTokens (<[bid := secureToken (drawn st)]> (browserTokens st))
                  (setDrawn (S (drawn st)) st))).
  assert (HB : tokenInv sB).
  { eapply (inv_mintCookie st sB bid); try reflexivity; try assumption.
    now apply slots_same. }
  eapply (inv_mintUrl sB); try reflexivity; try exact HB.
  - now apply slots_same.
  - cbn. apply lookup_insert_eq.
  - cbn. lia.
Qed.

Lemma inv_findBrowserByClientId cid st :
  tokenInv st -> tokenInv (snd (findBrowserByClientId cid st)).
Proof.
  intros Hinv.
  destruct (findBrowserByClientId_frame cid st) as (Hu & Hd & HB & Hbt & Httb & _).
  eapply inv_frame; try eassumption; [now apply slots_same | lia].
Qed.

Lemma inv_syncBrowserToFirebase i st : tokenInv st -> tokenInv (syncBrowserToFirebase i st).
Proof.
  intros Hinv.
  destruct (syncBrowserToFirebase_frame i st) as (Hu & Hd & HB & Hbt & Httb & _).
  eapply inv_frame; try eassumption; [now apply slots_same | lia].
Qed.

Lemma withHeartbeat_slots t b :
  id (withHeartbeat t b) = id b /\ (inUse b = true -> inUse (withHeartbeat t b) = true).
Proof. auto. Qed.

Lemma claimed_slots sid cid now b :
  id (claimed sid cid now b) = id b /\ (inUse b = true -> inUse (claimed sid cid now b) = true).
Proof. auto. Qed.

(** A change of the slots that keeps those in use, and of nothing else that
    the token maps depend on. *)
Lemma inv_slots st st' :
  slots st st' ->
  browserTokens st' = browserTokens st -> tokenToBrowser st' = tokenToBrowser st ->
  urlTokens st' = urlTokens st -> drawn st' = drawn st ->
  tokenInv st -> tokenInv st'.
Proof. intros Hs Hbt Httb Hurl Hd. apply inv_frame; auto. lia. Qed.

Lemma inv_reapBrowser now st i : tokenInv st -> tokenInv (reapBrowser now st i).
Proof.
  intros Hinv. unfold reapBrowser.
  repeat case_match; try exact Hinv; now apply inv_doReleaseBrowser.
Qed.

Lemma inv_cleanupSessions now st : tokenInv st -> tokenInv (cleanupSessions now st).
Proof.
  unfold cleanupSessions. generalize (seq 0 (length (BROWSERS st))) as l.
  intros l. revert st. induction l as [|i l IH]; intros st Hinv; cbn; [exact Hinv|].
  apply IH. now apply inv_reapBrowser.
Qed.

Lemma inv_handleRequest req st : tokenInv st -> tokenInv (snd (handleRequest req st)).
Proof.
  intros Hinv. unfold handleRequest, browseRoute.
  repeat case_match; simplify_eq; cbn [snd]; try exact Hinv.
  all: eapply (inv_dropUrl st); try reflexivity; try exact Hinv;
    [now apply slots_same | cbn; intros t x Hx; now apply lookup_delete_Some in Hx as [_ Hx]].
Qed.

Lemma inv_cleanupUrlTokens now st : tokenInv st -> tokenInv (cleanupUrlTokens now st).
Proof.
  intros Hinv. eapply (inv_dropUrl st); try reflexivity; try exact Hinv.
  - now apply slots_same.
  - cbn. intros t x Hx. now apply map_lookup_filter_Some in Hx as [Hx _].
Qed.

Lemma inv_trackWsConnect b now st : tokenInv st -> tokenInv (trackWsConnect b now st).
Proof.
  intros Hinv. unfold trackWsConnect.
  repeat case_match; (eapply (inv_slots st); try reflexivity; try exact Hinv);
    try (now apply slots_same).
  eapply slots_alter; [apply (withHeartbeat_slots (Some now)) | reflexivity].
Qed.

Lemma inv_trackWsDisconnect b now st : tokenInv st -> tokenInv (trackWsDisconnect b now st).
Proof.
  intros Hinv. unfold trackWsDisconnect.
  repeat case_match; exact Hinv.
Qed.

Lemma inv_heartbeat b s now sampled st :
  tokenInv st -> tokenInv (snd (heartbeat b s now sampled st)).
Proof.
  intros Hinv. unfold heartbeat.
  repeat case_match; cbn [snd]; try exact Hinv;
    try apply inv_syncBrowserToFirebase;
    (eapply (inv_slots st); try reflexivity; try exact Hinv);
    try (now apply slots_same);
    (eapply slots_alter; [apply (withHeartbeat_slots (Some now)) | reflexivity]).
Qed.

Lemma inv_release c b st : tokenInv st -> tokenInv (snd (release c b st)).
Proof.
  intros Hinv. unfold release.
  destruct (jsTruthy c).
  - destruct c; try exact Hinv.
    pose proof (inv_findBrowserByClientId s st Hinv) as H0.
    destruct (findBrowserByClientId s st) as [found st0]. cbn [snd] in H0.
    destruct found; cbn [snd]; [now apply inv_doReleaseBrowser | exact H0].
  - repeat case_match; cbn [snd]; try exact Hinv; now apply inv_doReleaseBrowser.
Qed.

Lemma inv_checkSession req now st :
  tokenInv st -> tokenInv (snd (checkSession secureToken req now st)).
Proof.
  intros Hinv. unfold checkSession.
  destruct (orNull _) as [cid|]; [|exact Hinv].
  pose proof (inv_findBrowserByClientId cid st Hinv) as H0.
  destruct (findBrowserByClientId cid st) as [found st0] eqn:Hfind. cbn [snd] in H0.
  destruct found as [i|]; cbn [mbind option_bind]; [|exact H0].
  destruct (findBrowserByClientId_Some _ _ _ _ Hfind) as (-> & _ & b & Hb & Hu & _).
  rewrite Hb. cbn [fmap option_fmap option_map].
  destruct (_ <? _).
  - assert (Hslot : slotInUse (id b) st) by (exists i, b; auto).
    pose proof (inv_ensureCookieToken (id b) st Hslot Hinv) as H1.
    destruct (ensureCookieToken secureToken (id b) st) as [ck st1]. cbn [snd] in H1.
    pose proof (inv_createUrlToken (id b) now st1 H1) as H2.
    destruct (createUrlToken secureToken (id b) now st1) as [u st2]. exact H2.
  - now apply inv_doReleaseBrowser.
Qed.

Lemma inv_assignBrowser sid cid now st :
  tokenInv st -> tokenInv (snd (assignBrowser secureToken sid cid now st)).
Proof.
  intros Hinv. unfold assignBrowser.
  pose proof (inv_findBrowserByClientId cid st Hinv) as H0.
  destruct (findBrowserByClientId cid st) as [found st0] eqn:Hfind. cbn [snd] in H0.
  destruct found as [i|].
  - destruct (findBrowserByClientId_Some _ _ _ _ Hfind) as (-> & _ & b & Hb & Hu & _).
    rewrite Hb. change (default 0 (id <$> Some b)) with (id b).
    match goal with
    | |- context [syncBrowserToFirebase i ?s] =>
        assert (H1 : tokenInv (syncBrowserToFirebase i s));
        [ apply inv_syncBrowserToFirebase;
          eapply (inv_slots st); try reflexivity; try exact Hinv;
          eapply slots_alter; [apply (withHeartbeat_slots (Some now)) | reflexivity]
        | assert (Hslot : slotInUse (id b) (syncBrowserToFirebase i s));
          [ destruct (syncBrowserToFirebase_frame i s) as (_ & _ & HB & _);
            exists i, (withHeartbeat (Some now) b); rewrite HB; cbn;
            rewrite list_lookup_alter_eq, Hb; auto
          | set (st' := syncBrowserToFirebase i s) in * ] ]
    end.
    pose proof (inv_ensureCookieToken (id b) st' Hslot H1) as H2.
    destruct (ensureCookieToken secureToken (id b) st') as [ck st2]. cbn [snd] in H2.
    pose proof (inv_createUrlToken (id b) now st2 H2) as H3.
    destruct (createUrlToken secureToken (id b) now st2) as [u st3]. exact H3.
  - destruct (findAvailableBrowser st0) as [j|] eqn:Hfree; [|exact H0].
    destruct (findAvailableBrowser_Some _ _ Hfree) as (bj & Hj & Hfj).
    rewrite Hj. change (default 0 (id <$> Some bj)) with (id bj).
    assert (Hnone : browserTokens st0 !! id bj = None).
    { destruct (browserTokens st0 !! id bj) as [c|] eqn:Hc; [|reflexivity].
      destruct H0 as (Hwf0 & (Hb0 & _) & _).
      destruct (Hb0 _ _ Hc) as (_ & i & b & Hb & Hid & Hu).
      destruct (decide (i = j)) as [->|Hne]; [congruence|].
      exfalso. eapply (slot_ids_differ st0 i j b bj); eauto. }
    match goal with
    | |- context [createSessionTokens secureToken (id bj) now ?s] =>
        assert (H1 : tokenInv s);
        [ eapply (inv_slots st0); try exact H0;
          [ eapply slots_alter; [apply (claimed_slots sid cid now) |];
            destruct (Js.truthy cid); reflexivity
          | destruct (Js.truthy cid); reflexivity ..]
        | assert (Hslot : slotInUse (id bj) s);
          [ exists j, (claimed sid cid now bj);
            destruct (Js.truthy cid); cbn; rewrite list_lookup_alter_eq, Hj; auto
          | assert (Hnone1 : browserTokens s !! id bj = None)
              by (destruct (Js.truthy cid); exact Hnone);
            pose proof (inv_createSessionTokens (id bj) now s Hslot Hnone1 H1) as H2;
            destruct (createSessionTokens secureToken (id bj) now s) as [[ck u] st2] ] ]
    end.
    cbn [snd] in *. now apply inv_syncBrowserToFirebase.
Qed.

(** A round of the restore on a slot that is not in use. *)
Lemma inv_restoreBrowser state now st i :
  match mirror st, BROWSERS st !! i with
  | Some _, Some b => negb (inUse b)
  | _, _ => true
  end = true ->
  tokenInv st -> tokenInv (restoreBrowser secureToken state now st i).
Proof.
  intros Hfree Hinv.
  destruct (restoreBrowser_cases secureToken state now st i)
    as [(HB & Hbt & Httb & Hu & _ & _ & _ & Hd)
       |(b & saved & [log Hlog] & Hb & _ & _ & _ & HB & Hbt & Httb & Hu & _ & _ & Hd)].
  - eapply inv_frame; try eassumption; [now apply slots_same | lia].
  - rewrite Hlog, Hb in Hfree. apply negb_true_iff in Hfree.
    assert (Hnone : browserTokens st !! id b = None).
    { destruct (browserTokens st !! id b) as [c|] eqn:Hc; [|reflexivity].
      destruct Hinv as (Hwf & (Hb0 & _) & _).
      destruct (Hb0 _ _ Hc) as (_ & j & bj & Hj & Hid & Huj).
      destruct (decide (j = i)) as [->|Hne]; [congruence|].
      exfalso. eapply (slot_ids_differ st j i bj b); eauto. }
    eapply (inv_mintCookie st _ (id b)); try eassumption.
    + eapply slots_alter; [|exact HB]. intros x. split; reflexivity.
    + exists i, (restored saved b). rewrite HB, list_lookup_alter_eq, Hb. auto.
Qed.

Lemma inv_step st e :
  restoresFreeSlots secureToken st [e] = true ->
  tokenInv st -> tokenInv (step secureToken st e).
Proof.
  intros Hfree Hinv. destruct e; cbn [step].
  - now apply inv_handleRequest.
  - unfold requestBrowser.
    pose proof (inv_assignBrowser newSessionId (effectiveClientId req parsedClientId)
                  now st Hinv) as H.
    destruct (assignBrowser _ _ _ _ _) as [r st1]. cbn [snd] in H.
    repeat case_match; exact H.
  - now apply inv_checkSession.
  - now apply inv_heartbeat.
  - now apply inv_release.
  - now apply inv_trackWsConnect.
  - now apply inv_trackWsDisconnect.
  - now apply inv_cleanupSessions.
  - now apply inv_cleanupUrlTokens.
  - apply inv_restoreBrowser; [|exact Hinv].
    cbn in Hfree. now rewrite andb_true_r in Hfree.
Qed.

Lemma inv_run events st :
  restoresFreeSlots secureToken st events = true ->
  tokenInv st -> tokenInv (run secureToken st events).
Proof.
  revert st. induction events as [|e events IH]; intros st Hfree Hinv; cbn; [exact Hinv|].
  cbn [restoresFreeSlots] in Hfree. apply andb_prop in Hfree as [He Hfree].
  apply IH; [exact Hfree|]. apply inv_step; [|exact Hinv].
  cbn [restoresFreeSlots]. now rewrite He.
Qed.

(** The token maps tell the truth in every state reached by a run in which
    no round of the restore meets a slot in use. *)
Lemma inv_orderly st : orderly secureToken st -> tokenInv st.
Proof.
  intros (db & events & Hfree & ->). apply inv_run; [exact Hfree|].
  split; [apply wfSlots_initial|]. split; [split; [|split]|]; intros ? ?; cbn;
    rewrite lookup_empty; discriminate.
Qed.

(** *** What holds of the cookie tokens in every run *)

(** [sameCookies st st']: the two cookie maps are the same and no token was
    given back to the generator. *)
Local Abbreviation sameCookies st st' :=
  (browserTokens st' = browserTokens st /\ tokenToBrowser st' = tokenToBrowser st
   /\ Nat.le (drawn st) (drawn st')).

Local Abbreviation issued st := (cookiesIssued secureToken st).

Lemma issued_sameCookies st st' : sameCookies st st' -> issued st -> issued st'.
Proof.
  intros (Hbt & Httb & Hd) Hc bid c. rewrite Hbt, Httb. intros H.
  destruct (Hc bid c H) as (H1 & n & Hn & ->). split; [exact H1|].
  exists n. split; [lia | reflexivity].
Qed.

(** A cookie token is drawn for a slot; the token the slot had, if any, may
    be deleted from [tokenToBrowser]. *)
Lemma issued_mint st st' bid m :
  (forall c b, b <> bid -> tokenToBrowser st !! c = Some b -> m !! c = Some b) ->
  browserTokens st' = <[bid := secureToken (drawn st)]> (browserTokens st) ->
  tokenToBrowser st' = <[secureToken (drawn st) := bid]> m ->
  (drawn st < drawn st')%nat ->
  issued st -> issued st'.
Proof.
  intros Hm Hbt Httb Hd Hc b c. rewrite Hbt, Httb, lookup_insert_Some.
  intros [[<- <-]|[Hne H]].
  - split; [apply lookup_insert_eq|]. exists (drawn st). split; [lia | reflexivity].
  - destruct (Hc b c H) as (H1 & n & Hn & ->). split.
    + rewrite lookup_insert_ne; [apply Hm; [congruence | exact H1]|].
      intros Heq. apply secureToken_inj in Heq. lia.
    + exists n. split; [lia | reflexivity].
Qed.

Lemma issued_delete st bid old :
  issued st -> browserTokens st !! bid = Some old ->
  forall c b, b <> bid -> tokenToBrowser st !! c = Some b ->
    delete old (tokenToBrowser st) !! c = Some b.
Proof.
  intros Hc Hold c b Hne H. rewrite lookup_delete_ne; [exact H|].
  intros <-. destruct (Hc _ _ Hold) as [H1 _]. congruence.
Qed.

Lemma issued_doReleaseBrowser j st : issued st -> issued (doReleaseBrowser j st).
Proof.
  intros Hc.
  destruct (BROWSERS st !! j) as [bj|] eqn:Hj;
    [|unfold doReleaseBrowser; now rewrite Hj].
  destruct (inUse bj) eqn:Huj;
    [|unfold doReleaseBrowser; now rewrite Hj, Huj].
  destruct (doReleaseBrowser_tokens j st bj Hj Huj) as (_ & Hbt & Httb & _ & Hd).
  destruct (browserTokens st !! id bj) as [old|] eqn:Hold; cbn in Hbt, Httb;
    [destruct (Js.truthy old) eqn:Ht|].
  - intros b c. rewrite Hbt, Httb, Hd, lookup_delete_Some. intros [Hne H].
    destruct (Hc b c H) as (H1 & Hn). split; [|exact Hn].
    apply (issued_delete st (id bj) old Hc Hold); [congruence | exact H1].
  - apply (issued_sameCookies st); [|exact Hc]. repeat split; auto. lia.
  - apply (issued_sameCookies st); [|exact Hc]. repeat split; auto. lia.
Qed.

Lemma issued_ensureCookieToken bid st :
  issued st -> issued (snd (ensureCookieToken secureToken bid st)).
Proof.
  intros Hc. unfold ensureCookieToken, generateSecureToken.
  destruct (orNull (browserTokens st !! bid)); cbn [snd]; [exact Hc|].
  eapply (issued_mint st _ bid (tokenToBrowser st)); try reflexivity; auto.
Qed.

Lemma sameCookies_createUrlToken bid now st :
  sameCookies st (snd (createUrlToken secureToken bid now st)).
Proof. unfold createUrlToken, generateSecureToken. repeat case_match; cbn; auto. Qed.

Lemma sameCookies_findBrowserByClientId cid st : sameCookies st (snd (findBrowserByClientId cid st)).
Proof.
  destruct (findBrowserByClientId_frame cid st) as (_ & -> & _ & -> & -> & _). auto.
Qed.

Lemma sameCookies_syncBrowserToFirebase i st : sameCookies st (syncBrowserToFirebase i st).
Proof.
  destruct (syncBrowserToFirebase_frame i st) as (_ & -> & _ & -> & -> & _). auto.
Qed.

Lemma issued_createSessionTokens bid now st :
  issued st -> issued (snd (createSessionTokens secureToken bid now st)).
Proof.
  intros Hc. unfold createSessionTokens, generateSecureToken.
  destruct (browserTokens st !! bid) as [old|] eqn:Hold;
    [destruct (Js.truthy old)|]; cbn [snd].
  - eapply (issued_mint st _ bid (delete old (tokenToBrowser st)));
      try reflexivity; [now apply issued_delete | cbn; lia | exact Hc].
  - eapply (issued_mint st _ bid (tokenToBrowser st)); try reflexivity;
      [auto | cbn; lia | exact Hc].
  - eapply (issued_mint st _ bid (tokenToBrowser st)); try reflexivity;
      [auto | cbn; lia | exact Hc].
Qed.

Lemma issued_cleanupSessions now st : issued st -> issued (cleanupSessions now st).
Proof.
  unfold cleanupSessions. generalize (seq 0 (length (BROWSERS st))) as l.
  intros l. revert st. induction l as [|i l IH]; intros st Hc; cbn; [exact Hc|].
  apply IH. unfold reapBrowser.
  repeat case_match; try exact Hc; now apply issued_doReleaseBrowser.
Qed.

Lemma issued_assignBrowser sid cid now st :
  issued st -> issued (snd (assignBrowser secureToken sid cid now st)).
Proof.
  intros Hc. unfold assignBrowser.
  pose proof (issued_sameCookies _ _ (sameCookies_findBrowserByClientId cid st) Hc) as H0.
  destruct (findBrowserByClientId cid st) as [found st0]. cbn [snd] in H0.
  destruct found as [i|].
  - match goal with
    | |- context [ensureCookieToken secureToken ?b (syncBrowserToFirebase i ?s)] =>
        assert (H1 : issued (syncBrowserToFirebase i s))
          by (apply (issued_sameCookies s); [apply sameCookies_syncBrowserToFirebase|];
              apply (issued_sameCookies st0); [cbn; auto | exact H0]);
        pose proof (issued_ensureCookieToken b _ H1) as H2;
        destruct (ensureCookieToken secureToken b (syncBrowserToFirebase i s)) as [ck st2]
    end.
    cbn [snd] in H2.
    match goal with
    | |- context [createUrlToken secureToken ?b ?n st2] =>
        pose proof (issued_sameCookies _ _ (sameCookies_createUrlToken b n st2) H2) as H3;
        destruct (createUrlToken secureToken b n st2) as [u st3]
    end.
    exact H3.
  - destruct (findAvailableBrowser st0) as [j|]; [|exact H0].
    match goal with
    | |- context [createSessionTokens secureToken ?b ?n ?s] =>
        assert (H1 : issued s)
          by (apply (issued_sameCookies st0); [destruct (Js.truthy cid); cbn; auto | exact H0]);
        pose proof (issued_createSessionTokens b n s H1) as H2;
        destruct (createSessionTokens secureToken b n s) as [[ck u] st2]
    end.
    cbn [snd] in *. apply (issued_sameCookies st2); [apply sameCookies_syncBrowserToFirebase | exact H2].
Qed.

Lemma issued_step st e : issued st -> issued (step secureToken st e).
Proof.
  intros Hc. destruct e; cbn [step].
  - apply (issued_sameCookies st); [|exact Hc].
    unfold handleRequest, browseRoute. repeat case_match; simplify_eq; cbn; auto.
  - unfold requestBrowser.
    pose proof (issued_assignBrowser newSessionId (effectiveClientId req parsedClientId)
                  now st Hc) as H.
    destruct (assignBrowser _ _ _ _ _) as [r st1]. cbn [snd] in H.
    repeat case_match; exact H.
  - unfold checkSession. destruct (orNull _) as [cid|]; [|exact Hc].
    pose proof (issued_sameCookies _ _ (sameCookies_findBrowserByClientId cid st) Hc) as H0.
    destruct (findBrowserByClientId cid st) as [found st0]. cbn [snd] in H0.
    destruct (found ≫= _) as [[i browser]|]; [|exact H0].
    destruct (_ <? _); [|now apply issued_doReleaseBrowser].
    pose proof (issued_ensureCookieToken (id browser) st0 H0) as H1.
    destruct (ensureCookieToken secureToken (id browser) st0) as [ck st1]. cbn [snd] in H1.
    pose proof (issued_sameCookies _ _ (sameCookies_createUrlToken (id browser) now st1) H1) as H2.
    destruct (createUrlToken secureToken (id browser) now st1) as [u st2]. exact H2.
  - apply (issued_sameCookies st); [|exact Hc].
    unfold heartbeat. repeat case_match; cbn [snd]; auto.
    match goal with
    | |- context [syncBrowserToFirebase ?i ?s] =>
        destruct (syncBrowserToFirebase_frame i s) as (_ & -> & _ & -> & -> & _)
    end.
    cbn. auto.
  - unfold release.
    destruct (jsTruthy parsedClientId).
    + destruct parsedClientId; try exact Hc.
      pose proof (issued_sameCookies _ _ (sameCookies_findBrowserByClientId s st) Hc) as H0.
      destruct (findBrowserByClientId s st) as [found st0]. cbn [snd] in H0.
      destruct found; cbn [snd]; [now apply issued_doReleaseBrowser | exact H0].
    + repeat case_match; cbn [snd]; try exact Hc; now apply issued_doReleaseBrowser.
  - apply (issued_sameCookies st); [|exact Hc].
    unfold trackWsConnect. repeat case_match; cbn; auto.
  - apply (issued_sameCookies st); [|exact Hc].
    unfold trackWsDisconnect. repeat case_match; cbn; auto.
  - now apply issued_cleanupSessions.
  - apply (issued_sameCookies st); [|exact Hc]. cbn. auto.
  - destruct (restoreBrowser_cases secureToken state now st i)
      as [(_ & Hbt & Httb & _ & _ & _ & _ & Hd)
         |(b & saved & _ & _ & _ & _ & _ & _ & Hbt & Httb & _ & _ & _ & Hd)].
    + apply (issued_sameCookies st); [|exact Hc]. repeat split; auto. lia.
    + eapply (issued_mint st _ (id b) (tokenToBrowser st)); eauto. lia.
Qed.

(** In every state the server reaches, the cookie token of a slot was drawn
    from the generator and opens that slot. *)
Lemma issued_reachable st : reachable secureToken st -> issued st.
Proof.
  intros (db & events & ->).
  assert (H0 : issued (initial db))
    by (intros ? ?; cbn; rewrite lookup_empty; discriminate).
  revert H0. generalize (initial db) as st.
  induction events as [|e events IH]; intros st Hc; cbn; [exact Hc|].
  now apply IH, issued_step.
Qed.

End Tokens.

(** X14.  In every state the server reaches by a run in which no round of
    the restore meets a slot in use, a request passes the cookie check of a
    slot only if the slot is in use and the session cookie of the request
    is the cookie token the slot has now.  No cookie opens a free slot, and
    the cookie of a session that was released opens nothing.  Tokens are
    non-empty and the generator does not repeat itself.  (A round of the
    restore on a slot in use leaves the old cookie token of the slot in
    [tokenToBrowser], where it opens the slot beside the new one.) *)
Theorem cookie_opens_only_its_slot (secureToken : nat -> string) (st : State)
    (req : Request) (bid : Z) :
  (forall n, Js.truthy (secureToken n) = true) ->
  (forall n m, secureToken n = secureToken m -> n = m) ->
  orderly secureToken st ->
  validateBrowserAccess st req bid = true ->
  exists c,
    parseCookies req !! "nebula_session" = Some c
    /\ browserTokens st !! bid = Some c
    /\ slotInUse bid st
    /\ forall other, validateBrowserAccess st req other = true -> other = bid.
Proof.
  intros Htruthy Hinj Hreach Hok.
  destruct (inv_orderly secureToken Htruthy Hinj st Hreach) as (_ & (Hb & Ht & _) & _).
  unfold validateBrowserAccess in *.
  destruct (parseCookies req !! "nebula_session") as [c|]; [|discriminate].
  destruct (Js.truthy c); [|discriminate].
  apply bool_decide_eq_true in Hok.
  exists c. split; [reflexivity|]. split; [now apply Ht|].
  split; [now apply (Hb bid c), Ht|].
  intros other Hother. apply bool_decide_eq_true in Hother. congruence.
Qed.

Lemma cookie_opens_only_its_slot_witness :
  exists c,
    parseCookies (Scenario.visit "/browser/1/" [] (Some "nebula_session=t")) !! "nebula_session"
    = Some c
    /\ browserTokens Scenario.assigned !! 1 = Some c
    /\ slotInUse 1 Scenario.assigned
    /\ forall other,
         validateBrowserAccess Scenario.assigned
           (Scenario.visit "/browser/1/" [] (Some "nebula_session=t")) other = true ->
         other = 1.
Proof.
  apply (cookie_opens_only_its_slot demoToken Scenario.assigned
           (Scenario.visit "/browser/1/" [] (Some "nebula_session=t")) 1).
  - exact demoToken_truthy.
  - exact demoToken_inj.
  - exists true, [RequestBrowser Scenario.api (JString "client-0001") "sess_a" 1000].
    split; reflexivity.
  - vm_compute. reflexivity.
Defined.

(** X15.  In every state the server reaches by a run in which no round of
    the restore meets a slot in use, each stored URL token belongs to a
    slot that is in use, and the cookie token it carries is the one that
    opens this slot now: a token never outlives its session, and the cookie
    it hands out is accepted by the cookie check. *)
Theorem url_token_of_live_slot (secureToken : nat -> string) (st : State)
    (tok : string) (e : UrlEntry) :
  (forall n, Js.truthy (secureToken n) = true) ->
  (forall n m, secureToken n = secureToken m -> n = m) ->
  orderly secureToken st ->
  urlTokens st !! tok = Some e ->
  slotInUse (u_browserId e) st
  /\ browserTokens st !! u_browserId e = Some (u_cookieToken e)
  /\ tokenToBrowser st !! u_cookieToken e = Some (u_browserId e)
  /\ Js.truthy (u_cookieToken e) = true.
Proof.
  intros Htruthy Hinj Hreach He.
  destruct (inv_orderly secureToken Htruthy Hinj st Hreach) as (_ & (Hb & _ & Hu) & Hc).
  pose proof (Hu tok e He) as Hbt.
  destruct (Hb _ _ Hbt) as [Ht Hslot]. destruct (Hc _ _ Hbt) as [Httb _].
  auto.
Qed.

Lemma url_token_of_live_slot_witness :
  slotInUse (u_browserId Scenario.entry1) Scenario.assigned
  /\ browserTokens Scenario.assigned !! u_browserId Scenario.entry1
     = Some (u_cookieToken Scenario.entry1)
  /\ tokenToBrowser Scenario.assigned !! u_cookieToken Scenario.entry1
     = Some (u_browserId Scenario.entry1)
  /\ Js.truthy (u_cookieToken Scenario.entry1) = true.
Proof.
  apply (url_token_of_live_slot demoToken Scenario.assigned "tt" Scenario.entry1).
  - exact demoToken_truthy.
  - exact demoToken_inj.
  - exists true, [RequestBrowser Scenario.api (JString "client-0001") "sess_a" 1000].
    split; reflexivity.
  - vm_compute. reflexivity.
Defined.

(** X27.  A round of the restore on a slot in use leaves a cookie that
    outlives its session.  Slot 1 is held by [client-0001] with the cookie
    token [t] when the restore, which reads from the database what the
    server wrote when it assigned the slot, overwrites it: the slot gets
    the cookie token [ttt], and [t] stays in [tokenToBrowser], so that both
    cookies pass the cookie check of the slot.  When the client releases
    the slot, [ttt] is taken out and refused, and [t] still passes, on a
    free slot; and when the slot is given to [client-0002], [t] opens the
    session of that client. *)
Example restore_keeps_the_old_cookie :
  let old := Scenario.visit "/browser/1/" [] (Some "nebula_session=t") in
  let new := Scenario.visit "/browser/1/" [] (Some "nebula_session=ttt") in
  let st := restoreStateFromFirebase demoToken (Some (written ∅ Scenario.assigned)) 1500
              Scenario.assigned in
  let st' := snd (release (JString "client-0001") JUndefined st) in
  let st'' := snd (requestBrowser demoToken Scenario.api (JString "client-0002") "sess_c"
                     3000 st') in
  browserTokens Scenario.assigned !! 1 = Some "t"
  /\ browserTokens st !! 1 = Some "ttt"
  /\ validateBrowserAccess st old 1 = true
  /\ validateBrowserAccess st new 1 = true
  /\ inUse <$> BROWSERS st' !! 0%nat = Some false
  /\ browserTokens st' !! 1 = None
  /\ validateBrowserAccess st' new 1 = false
  /\ validateBrowserAccess st' old 1 = true
  /\ clientId <$> BROWSERS st'' !! 0%nat = Some (Some "client-0002")
  /\ validateBrowserAccess st'' old 1 = true
  /\ upgrade st'' (Scenario.visit "/browser/1/websockify" [] (Some "nebula_session=t"))
     = Tunnel "localhost" 6901 "/websockify".
Proof. evaluate. Qed.

End TokenLaws.

(** ** Broker: the pool and its sessions *)

Module PoolLaws.
Import Broker JsFacts BrokerTheory.
Local Open Scope Z_scope.

Section Pool.

Variable secureToken : nat -> string.

(** [sameConfig st st']: the same slots with the same fixed parts. *)
Local Abbreviation sameConfig st st' :=
  (map config (BROWSERS st') = map config (BROWSERS st)).

Lemma config_alter (f : Browser -> Browser) i (l : list Browser) :
  (forall b, config (f b) = config b) -> map config (alter f i l) = map config l.
Proof.
  intros Hf. revert i. induction l as [|x l IH]; intros [|i]; cbn; [reflexivity..| |].
  - now rewrite Hf.
  - now rewrite IH.
Qed.

Lemma sameConfig_doReleaseBrowser i st : sameConfig st (doReleaseBrowser i st).
Proof.
  unfold doReleaseBrowser. repeat case_match; try reflexivity.
  all: match goal with
       | |- context [syncBrowserToFirebase ?i ?s] =>
           destruct (syncBrowserToFirebase_frame i s) as (_ & _ & -> & _)
       end; cbn; now apply config_alter.
Qed.

Lemma sameConfig_cleanupSessions now st : sameConfig st (cleanupSessions now st).
Proof.
  unfold cleanupSessions. generalize (seq 0 (length (BROWSERS st))) as l.
  intros l. revert st. induction l as [|i l IH]; intros st; cbn; [reflexivity|].
  etransitivity; [apply IH|].
  unfold reapBrowser. repeat case_match; try reflexivity; apply sameConfig_doReleaseBrowser.
Qed.

Lemma sameConfig_assignBrowser sid cid now st :
  sameConfig st (snd (assignBrowser secureToken sid cid now st)).
Proof.
  unfold assignBrowser.
  destruct (findBrowserByClientId cid st) as [found st0] eqn:Hfind.
  pose proof (findBrowserByClientId_frame cid st) as (_ & _ & HB0 & _).
  rewrite Hfind in HB0. cbn [snd] in HB0. rewrite <- HB0.
  destruct found as [i|].
  - match goal with
    | |- context [ensureCookieToken secureToken ?b ?s] =>
        pose proof (ensureCookieToken_slots secureToken b s) as Hens;
        destruct (ensureCookieToken secureToken b s) as [ck st1]
    end.
    match goal with
    | |- context [createUrlToken secureToken ?b ?n ?s] =>
        pose proof (createUrlToken_slots secureToken b n s) as Hurl;
        destruct (createUrlToken secureToken b n s) as [u st2]
    end.
    cbn [snd] in *. rewrite Hurl, Hens.
    match goal with
    | |- context [syncBrowserToFirebase ?i ?s] =>
        destruct (syncBrowserToFirebase_frame i s) as (_ & _ & -> & _)
    end.
    cbn. now apply config_alter.
  - destruct (findAvailableBrowser st0) as [i|]; [|reflexivity].
    match goal with
    | |- context [createSessionTokens secureToken ?b ?n ?s] =>
        destruct (createSessionTokens_spec secureToken b n s) as (st2 & -> & HB2 & _)
    end.
    cbn [snd].
    destruct (syncBrowserToFirebase_frame i st2) as (_ & _ & -> & _).
    rewrite HB2. destruct (Js.truthy cid); cbn; now apply config_alter.
Qed.

Lemma sameConfig_step st e : sameConfig st (step secureToken st e).
Proof.
  destruct e; cbn [step].
  - unfold handleRequest, browseRoute. repeat case_match; simplify_eq; reflexivity.
  - unfold requestBrowser.
    pose proof (sameConfig_assignBrowser newSessionId
                  (effectiveClientId req parsedClientId) now st) as H.
    destruct (assignBrowser _ _ _ _ _) as [r st1]. cbn [snd] in H.
    repeat case_match; exact H.
  - unfold checkSession. destruct (orNull _) as [cid|]; [|reflexivity].
    destruct (findBrowserByClientId cid st) as [found st0] eqn:Hfind.
    pose proof (findBrowserByClientId_frame cid st) as (_ & _ & HB0 & _).
    rewrite Hfind in HB0. cbn [snd] in HB0. rewrite <- HB0.
    destruct (found ≫= _) as [[i browser]|]; [|reflexivity].
    destruct (_ <? _).
    + pose proof (ensureCookieToken_slots secureToken (id browser) st0) as Hens.
      destruct (ensureCookieToken secureToken (id browser) st0) as [ck st1].
      pose proof (createUrlToken_slots secureToken (id browser) now st1) as Hurl.
      destruct (createUrlToken secureToken (id browser) now st1) as [u st2].
      cbn [snd] in *. now rewrite Hurl, Hens.
    + apply sameConfig_doReleaseBrowser.
  - unfold heartbeat.
    repeat case_match; cbn [snd]; try reflexivity;
      try (cbn; now apply config_alter).
    match goal with
    | |- context [syncBrowserToFirebase ?i ?s] =>
        destruct (syncBrowserToFirebase_frame i s) as (_ & _ & -> & _)
    end.
    cbn. now apply config_alter.
  - unfold release.
    repeat case_match; cbn [snd]; try reflexivity; try apply sameConfig_doReleaseBrowser.
    all: match goal with
         | H : findBrowserByClientId ?cid ?st = (_, ?st0) |- _ =>
             pose proof (findBrowserByClientId_frame cid st) as (_ & _ & HB0 & _);
             rewrite H in HB0; cbn [snd] in HB0; rewrite <- HB0
         end; try reflexivity; apply sameConfig_doReleaseBrowser.
  - unfold trackWsConnect. repeat case_match; try reflexivity; cbn; now apply config_alter.
  - unfold trackWsDisconnect. repeat case_match; reflexivity.
  - apply sameConfig_cleanupSessions.
  - reflexivity.
  - destruct (restoreBrowser_cases secureToken state now st i)
      as [(-> & _)|(b & saved & _ & _ & _ & _ & _ & -> & _)]; [reflexivity|].
    now apply config_alter.
Qed.

Lemma sameConfig_run events st : sameConfig st (run secureToken st events).
Proof.
  revert st. induction events as [|e events IH]; intros st; cbn; [reflexivity|].
  etransitivity; [apply IH | apply sameConfig_step].
Qed.

End Pool.

(** X16.  No event changes the pool: in every state the server reaches
    there are the ten slots of the start, in their order, and the slot at
    position [i] has the id [i + 1], the container port [6900 + id], the
    audio port [4900 + id] and the host [localhost]. *)
Theorem pool_is_fixed (secureToken : nat -> string) (st : State) (i : nat) (b : Browser) :
  reachable secureToken st ->
  BROWSERS st !! i = Some b ->
  length (BROWSERS st) = 10%nat
  /\ id b = Z.of_nat i + 1
  /\ port b = 6900 + id b
  /\ audioPort b = 4900 + id b
  /\ host b = "localhost".
Proof.
  intros (db & events & ->) Hb.
  pose proof (sameConfig_run secureToken events (initial db)) as Hcfg.
  split.
  { rewrite <- (length_map config), Hcfg. reflexivity. }
  assert (Hi : map config (BROWSERS (run secureToken (initial db) events)) !! i
               = Some (config b)) by (rewrite list_lookup_fmap, Hb; reflexivity).
  rewrite Hcfg in Hi. cbn in Hi.
  do 10 (destruct i as [|i]; [cbn in Hi; injection Hi as H1 H2 H3 H4; rewrite <- H1, <- H2, <- H3, <- H4; repeat split; reflexivity|]).
  destruct i; discriminate.
Qed.

Lemma pool_is_fixed_witness :
  length (BROWSERS Scenario.askedTwiceThenReleased) = 10%nat
  /\ id (slot 3) = Z.of_nat 2 + 1
  /\ port (slot 3) = 6900 + id (slot 3)
  /\ audioPort (slot 3) = 4900 + id (slot 3)
  /\ host (slot 3) = "localhost".
Proof.
  apply (pool_is_fixed demoToken Scenario.askedTwiceThenReleased 2 (slot 3)).
  - exists true, [RequestBrowser Scenario.api (JString "client-0001") "sess_a" 1000;
                  RequestBrowser Scenario.api (JString "client-0001") "sess_b" 2000;
                  Release (JString "client-0001") JUndefined].
    reflexivity.
  - vm_compute. reflexivity.
Defined.

End PoolLaws.

(** ** Broker: cookies and the hand-off *)

Module CookieLaws.
Import Broker JsFacts BrokerTheory.
Local Open Scope Z_scope.

Lemma split_cons c x s :
  Js.split c (String x s)
  = if Ascii.eqb x c then EmptyString :: Js.split c s
    else match Js.split c s with
         | [] => [String x EmptyString]
         | p :: ps => String x p :: ps
         end.
Proof. reflexivity. Qed.

Lemma split_nonempty c s : Js.split c s <> [].
Proof.
  induction s as [|x s IH]; [discriminate|]. rewrite split_cons.
  destruct (Ascii.eqb x c); [discriminate|]. destruct (Js.split c s); discriminate.
Qed.

(** Splitting at [c] a text that begins with a piece free of [c]. *)
Lemma split_piece c s t :
  forallb (fun x => negb (Ascii.eqb x c)) (list_ascii_of_string s) = true ->
  Js.split c (s +:+ String c t) = s :: Js.split c t
  /\ Js.split c s = [s].
Proof.
  induction s as [|x s IH]; intros Hs.
  - rewrite app_nil_l, split_cons, Ascii.eqb_refl. split; reflexivity.
  - cbn in Hs. apply andb_prop in Hs as [Hx Hs]. apply negb_true_iff in Hx.
    destruct (IH Hs) as [IH1 IH2].
    rewrite app_cons, !split_cons, Hx, IH1, IH2. split; reflexivity.
Qed.

(** *** [trim] on visible text *)

Lemma stripAny_visible x s :
  isVisible x = true -> Js.stripAny Js.blanks (String x s) = None.
Proof.
  destruct x as [[] [] [] [] [] [] [] []]; intros H; try discriminate H; reflexivity.
Qed.

Lemma stripAny_visible_end x s :
  isVisible x = true -> Js.stripAny (map Js.reverse Js.blanks) (String x s) = None.
Proof.
  destruct x as [[] [] [] [] [] [] [] []]; intros H; try discriminate H; reflexivity.
Qed.

Lemma stripAll_visible ps fuel x s :
  Js.stripAny ps (String x s) = None -> Js.stripAll ps fuel (String x s) = String x s.
Proof. intros H. destruct fuel; cbn; [reflexivity | now rewrite H]. Qed.

Lemma trimStart_visible x s : isVisible x = true -> Js.trimStart (String x s) = String x s.
Proof. intros H. apply stripAll_visible. now apply stripAny_visible. Qed.

Lemma trimStart_blank x s :
  isVisible x = true -> Js.trimStart (String " " (String x s)) = String x s.
Proof.
  intros H. unfold Js.trimStart. cbn [String.length Js.stripAll].
  change (Js.stripAny Js.blanks (String " " (String x s))) with (Some (String x s)).
  cbv beta iota. now rewrite (stripAny_visible x s H).
Qed.

Lemma list_ascii_of_string_append s t :
  list_ascii_of_string (s +:+ t) = (list_ascii_of_string s ++ list_ascii_of_string t)%list.
Proof. induction s as [|x s IH]; [reflexivity|]. rewrite app_cons. cbn. now rewrite IH. Qed.

Lemma reverse_reverse s : Js.reverse (Js.reverse s) = s.
Proof.
  unfold Js.reverse. rewrite list_ascii_of_string_of_list_ascii, rev_involutive.
  apply string_of_list_ascii_of_string.
Qed.

(** A text that ends with visible characters is not cut at its end. *)
Lemma trimEnd_visible p v :
  Js.truthy v = true -> forallb isVisible (list_ascii_of_string v) = true ->
  Js.trimEnd (p +:+ v) = p +:+ v.
Proof.
  intros Ht Hv. unfold Js.trimEnd.
  assert (Hrev : exists x r, Js.reverse (p +:+ v) = String x r /\ isVisible x = true).
  { unfold Js.reverse. rewrite list_ascii_of_string_append, rev_app_distr.
    destruct (rev (list_ascii_of_string v)) as [|x r] eqn:Hr.
    - apply (f_equal (@rev ascii)) in Hr. rewrite rev_involutive in Hr. cbn in Hr.
      destruct v; [discriminate Ht | discriminate Hr].
    - exists x, (string_of_list_ascii (r ++ rev (list_ascii_of_string p))).
      split; [reflexivity|].
      rewrite forallb_forall in Hv. apply Hv. apply in_rev. rewrite Hr. now left. }
  destruct Hrev as (x & r & Hrev & Hx). rewrite Hrev.
  rewrite stripAll_visible by now apply stripAny_visible_end.
  rewrite <- Hrev. apply reverse_reverse.
Qed.

Lemma forallb_weaken {A} (p q : A -> bool) l :
  (forall x, p x = true -> q x = true) -> forallb p l = true -> forallb q l = true.
Proof.
  intros Hpq. induction l as [|x l IH]; [reflexivity|]. cbn. intros H.
  apply andb_prop in H as [Hx Hl]. now rewrite (Hpq x Hx), IH.
Qed.

Lemma forallb_append p s t :
  forallb p (list_ascii_of_string (s +:+ t))
  = forallb p (list_ascii_of_string s) && forallb p (list_ascii_of_string t).
Proof.
  induction s as [|x s IH]; [reflexivity|]. rewrite app_cons. cbn. rewrite IH.
  now rewrite andb_assoc.
Qed.

Lemma cookieText_parts s :
  cookieText s = true ->
  Js.truthy s = true
  /\ forallb (fun x => negb (Ascii.eqb x ";")) (list_ascii_of_string s) = true
  /\ forallb (fun x => negb (Ascii.eqb x "=")) (list_ascii_of_string s) = true
  /\ forallb isVisible (list_ascii_of_string s) = true.
Proof.
  unfold cookieText. intros H. apply andb_prop in H as [Ht H].
  split; [exact Ht|].
  repeat split; eapply forallb_weaken; try exact H; cbn; intros x Hx;
    apply andb_prop in Hx as [Hv Hx];
    apply negb_true_iff in Hx; apply orb_false_elim in Hx as [H1 H2];
    now rewrite ?H1, ?H2, ?Hv.
Qed.

(** One [name=value] piece of the header, with or without the blank that
    follows the separator. *)
Lemma cookie_piece n v (cookies : gmap string string) blank :
  cookieText n = true -> cookieText v = true ->
  match Js.split "=" (Js.trim ((if blank : bool then " " else "") +:+ n +:+ "=" +:+ v)) with
  | name :: value :: _ =>
      if Js.truthy name && Js.truthy value then setProperty name value cookies else cookies
  | _ => cookies
  end = setProperty n v cookies.
Proof.
  intros Hn Hv.
  destruct (cookieText_parts n Hn) as (Htn & _ & Hen & Hsn).
  destruct (cookieText_parts v Hv) as (Htv & _ & Hev & Hsv).
  assert (Htrim : Js.trim ((if blank then " " else "") +:+ n +:+ "=" +:+ v)
                  = n +:+ "=" +:+ v).
  { unfold Js.trim.
    assert (Hstart : Js.trimStart ((if blank then " " else "") +:+ n +:+ "=" +:+ v)
                     = n +:+ "=" +:+ v).
    { destruct n as [|x n]; [discriminate Htn|].
      cbn in Hsn. apply andb_prop in Hsn as [Hx _].
      destruct blank.
      - change (" " +:+ String x n +:+ "=" +:+ v)
          with (String " " (String x (n +:+ "=" +:+ v))).
        now apply trimStart_blank.
      - rewrite app_nil_l. change (String x n +:+ "=" +:+ v)
          with (String x (n +:+ "=" +:+ v)).
        now apply trimStart_visible. }
    rewrite Hstart. rewrite <- !JsFacts.app_assoc. now apply trimEnd_visible. }
  rewrite Htrim.
  change (n +:+ "=" +:+ v) with (n +:+ String "=" v).
  destruct (split_piece "=" n v Hen) as [-> _].
  destruct (split_piece "=" v EmptyString Hev) as [_ ->].
  now rewrite Htn, Htv.
Qed.

Lemma cookies_fold pairs blank (acc : gmap string string) :
  pairs <> [] ->
  forallb (fun kv => cookieText (fst kv) && cookieText (snd kv)) pairs = true ->
  fold_left
    (fun cookies cookie =>
       match Js.split "=" (Js.trim cookie) with
       | name :: value :: _ =>
           if Js.truthy name && Js.truthy value
           then setProperty name value cookies else cookies
       | _ => cookies
       end)
    (Js.split ";" ((if blank : bool then " " else "") +:+ cookieLine pairs)) acc
  = fold_left (fun cookies kv => setProperty (fst kv) (snd kv) cookies) pairs acc.
Proof.
  revert blank acc. induction pairs as [|[n v] rest IH]; intros blank acc Hne Hall;
    [congruence|].
  cbn [forallb fst snd] in Hall. apply andb_prop in Hall as [Hnv Hrest].
  apply andb_prop in Hnv as [Hn Hv].
  destruct (cookieText_parts n Hn) as (_ & Hcn & _ & _).
  destruct (cookieText_parts v Hv) as (_ & Hcv & _ & _).
  assert (Hpiece : forallb (fun x => negb (Ascii.eqb x ";"))
                     (list_ascii_of_string
                        ((if blank then " " else "") +:+ n +:+ "=" +:+ v)) = true).
  { rewrite !forallb_append, Hcn, Hcv. destruct blank; reflexivity. }
  destruct rest as [|p rest].
  - cbn [cookieLine].
    destruct (split_piece ";" _ EmptyString Hpiece) as [_ ->].
    cbn [fold_left fst snd]. now apply cookie_piece.
  - assert (Hline : (if blank then " " else "") +:+ cookieLine ((n, v) :: p :: rest)
                    = ((if blank then " " else "") +:+ n +:+ "=" +:+ v)
                        +:+ String ";" ((if true then " " else "") +:+ cookieLine (p :: rest))).
    { cbn [cookieLine]. destruct p as [pn pv].
      rewrite !JsFacts.app_assoc. reflexivity. }
    rewrite Hline. destruct (split_piece ";" _ ((if true then " " else "") +:+ cookieLine (p :: rest)) Hpiece) as [-> _].
    cbn [fold_left fst snd]. rewrite cookie_piece by assumption.
    apply (IH true (setProperty n v acc)); [discriminate | exact Hrest].
Qed.

(** X17.  [parseCookies] reads a [Cookie] header of [name=value] pairs
    separated by [; ] as the object that has these pairs as properties, a
    later pair replacing an earlier one of the same name; a pair named
    [__proto__] sets no property, and an empty header gives the empty
    object.  Names and values are not empty and made of visible characters
    of ASCII other than [;] and [=]. *)
Theorem parseCookies_pairs (req : Request) (pairs : list (string * string)) :
  cookieHeader req = Some (cookieLine pairs) ->
  forallb (fun kv => cookieText (fst kv) && cookieText (snd kv)) pairs = true ->
  parseCookies req
  = fold_left (fun cookies kv =>
                 if String.eqb (fst kv) "__proto__" then cookies
                 else <[fst kv := snd kv]> cookies) pairs ∅.
Proof.
  intros Hh Hall. unfold parseCookies. rewrite Hh.
  destruct pairs as [|p rest]; [reflexivity|].
  assert (Ht : Js.truthy (cookieLine (p :: rest)) = true).
  { destruct p as [n v]. cbn [forallb fst] in Hall.
    apply andb_prop in Hall as [Hnv _]. apply andb_prop in Hnv as [Hn _].
    destruct (cookieText_parts n Hn) as (Htn & _).
    destruct n; [discriminate|]. destruct rest; reflexivity. }
  rewrite Ht.
  rewrite <- (JsFacts.app_nil_l (cookieLine (p :: rest))).
  apply (cookies_fold (p :: rest) false ∅); [discriminate | exact Hall].
Qed.

Lemma parseCookies_pairs_witness :
  parseCookies (Scenario.visit "/browser/1/" []
                  (Some (cookieLine [("nebula_session", "abc123"); ("__proto__", "x");
                                     ("nebula_browser", "1")])))
  = fold_left (fun cookies kv =>
                 if String.eqb (fst kv) "__proto__" then cookies
                 else <[fst kv := snd kv]> cookies)
      [("nebula_session", "abc123"); ("__proto__", "x"); ("nebula_browser", "1")] ∅.
Proof.
  apply (parseCookies_pairs
           (Scenario.visit "/browser/1/" []
              (Some (cookieLine [("nebula_session", "abc123"); ("__proto__", "x");
                                 ("nebula_browser", "1")])))
           [("nebula_session", "abc123"); ("__proto__", "x"); ("nebula_browser", "1")]);
    reflexivity.
Defined.

(** A value that holds [=] is cut at it, and a piece without [=] or with an
    empty side is dropped; a no-break space around a piece is trimmed like a
    blank. *)
Example parseCookies_edges :
  parseCookies (Scenario.visit "/" [] (Some "a=b=c; flag; =x; y=; k = v")) !! "a" = Some "b"
  /\ parseCookies (Scenario.visit "/" [] (Some "a=b=c; flag; =x; y=; k = v")) !! "flag" = None
  /\ parseCookies (Scenario.visit "/" [] (Some "a=b=c; flag; =x; y=; k = v")) !! "y" = None
  /\ parseCookies (Scenario.visit "/" [] (Some "a=b=c; flag; =x; y=; k = v")) !! "k " = Some " v"
  /\ parseCookies (Scenario.visit "/" [] None) = ∅
  /\ parseCookies
       (Scenario.visit "/" []
          (Some (String "194" (String "160" "a=b" +:+ String "194" (String "160" "; __proto__=x")))))
     = {[ "a" := "b" ]}.
Proof. evaluate. Qed.

End CookieLaws.

Module HandoffLaws.
Import Broker JsFacts BrokerTheory.
Local Open Scope Z_scope.

Lemma reachable_step secureToken st e :
  reachable secureToken st -> reachable secureToken (step secureToken st e).
Proof.
  intros (db & events & ->). exists db, (events ++ [e])%list.
  unfold run. now rewrite fold_left_app.
Qed.

Lemma reachable_address secureToken st i b :
  reachable secureToken st -> BROWSERS st !! i = Some b ->
  host b = "localhost" /\ port b = 6900 + id b /\ 0 <= id b.
Proof.
  intros (db & events & ->) Hb.
  pose proof (PoolLaws.sameConfig_run secureToken events (initial db)) as Hcfg.
  assert (Hi : map config (BROWSERS (run secureToken (initial db) events)) !! i
               = Some (config b)) by (rewrite list_lookup_fmap, Hb; reflexivity).
  rewrite Hcfg in Hi. cbn in Hi.
  do 10 (destruct i as [|i];
         [cbn in Hi; injection Hi as H1 H2 H3 H4;
          rewrite <- H1, <- H2, <- H4; repeat split; (reflexivity || lia)|]).
  destruct i; discriminate.
Qed.

(** X18.  The [browserUrl] of a request-browser reply works: a first
    request on its path with its token, and without cookies, is proxied to
    the container of the assigned slot, [localhost] at port [6900 + id],
    with the token taken out of the query, and it sets the session cookie
    and the browser cookie; the cookie token set is the one the slot has,
    so every later request that sends it back passes the cookie check of
    this slot.  Tokens are non-empty and the generator does not repeat
    itself. *)
Theorem browser_url_opens_slot (secureToken : nat -> string) (st : State)
    (req : Request) (v : JsValue) (sid : string) (now : Z)
    (s : option string) (url : BrowserUrl) (ex : bool) (st1 : State) (visit : Request) :
  (forall n, Js.truthy (secureToken n) = true) ->
  (forall n m, secureToken n = secureToken m -> n = m) ->
  reachable secureToken st ->
  requestBrowser secureToken req v sid now st = (Assigned200 s url ex, st1) ->
  String.eqb (method visit) "OPTIONS" = false ->
  path visit = browserUrlPath url ->
  searchParamsGet "token" (query visit) = bu_token url ->
  cookieHeader visit = None ->
  exists c st2,
    handleRequest visit st1
    = (Proxied [SessionCookie c; BrowserCookie (bu_browserId url)]
               "localhost" (6900 + bu_browserId url) "/"
               (searchParamsDelete "token" (query visit)), st2)
    /\ browserTokens st2 !! bu_browserId url = Some c
    /\ forall later,
         parseCookies later !! "nebula_session" = Some c ->
         validateBrowserAccess st2 later (bu_browserId url) = true.
Proof.
  intros Htruthy Hinj Hreach Hreq Hmethod Hpath Htoken Hcookie.
  assert (Hreach1 : reachable secureToken st1).
  { pose proof (reachable_step secureToken st (RequestBrowser req v sid now) Hreach) as H.
    cbn [step] in H. now rewrite Hreq in H. }
  pose proof (TokenLaws.issued_reachable secureToken Hinj st1 Hreach1) as Hc1.
  destruct (reachable_slots secureToken st1 Hreach1) as [_ Hwf1].
  destruct (reachable_slots secureToken st Hreach) as [_ Hwf].
  unfold requestBrowser in Hreq.
  destruct (assignBrowser secureToken sid (effectiveClientId req v) now st)
    as [[r|] st1'] eqn:Hassign; [|discriminate].
  destruct (assignBrowser_holds secureToken Htruthy _ _ _ _ _ _ Hwf
              (effectiveClientId_truthy _ _) Hassign)
    as (Hholds & _ & (k & e & Hk & Hurl & He & Hec & Hslot) & _).
  destruct Hholds as (b & Hb & Huse & _ & _ & Hc & Ht).
  rewrite Hb in Hreq. injection Hreq as <- <- <- <-.
  cbn [bu_browserId bu_token browserUrlFor] in *.
  destruct (reachable_address secureToken st1' _ b Hreach1 Hb) as (Hhost & Hport & Hid).
  (* the token of the reply is stored for this slot *)
  rewrite Hb in Hslot. cbn in Hslot. injection Hslot as Hslot. symmetry in Hslot.
  assert (Hparse : parseBrowserPath (path visit) = Some (id b, "/")).
  { rewrite Hpath. unfold browserUrlPath. cbn [bu_browserId].
    now destruct (ServerLaws.parseBrowserPath_decimal (id b) EmptyString Hid eq_refl). }
  assert (Hno : validateBrowserAccess st1' visit (id b) = false).
  { unfold validateBrowserAccess, parseCookies. now rewrite Hcookie. }
  assert (Hfound : is_Some (getBrowserById st1' (id b))).
  { exists (a_browser r). apply getBrowserById_lookup; [apply Hwf1 | exact Hb]. }
  rewrite Hurl in Htoken.
  destruct (browseRoute_consumes st1' visit (id b) "/" _ e Hfound Htoken He Hslot Hno)
    as (b' & Hb' & Hid' & Hroute).
  assert (b' = b).
  { destruct Hfound as [j Hj]. rewrite Hj in Hb'. cbn in Hb'.
    rewrite (getBrowserById_lookup st1' (a_browser r) b) in Hj by (apply Hwf1 || exact Hb).
    congruence. }
  subst b'.
  exists (a_cookieToken r), (setUrlTokens (delete (secureToken k) (urlTokens st1')) st1').
  split; [|split].
  - rewrite (handleRequest_route _ _ _ _ Hmethod Hparse), Hroute, Hec, Hhost, Hport.
    reflexivity.
  - exact Hc.
  - intros later Hlater. unfold validateBrowserAccess. rewrite Hlater, Ht.
    apply bool_decide_eq_true. cbn. now destruct (Hc1 _ _ Hc).
Qed.

Lemma browser_url_opens_slot_witness :
  exists c st2,
    handleRequest (Scenario.visit "/browser/1/" [("token", "tt")] None) Scenario.assigned
    = (Proxied [SessionCookie c; BrowserCookie (bu_browserId Scenario.url1)]
               "localhost" (6900 + bu_browserId Scenario.url1) "/"
               (searchParamsDelete "token"
                  (query (Scenario.visit "/browser/1/" [("token", "tt")] None))), st2)
    /\ browserTokens st2 !! bu_browserId Scenario.url1 = Some c
    /\ forall later,
         parseCookies later !! "nebula_session" = Some c ->
         validateBrowserAccess st2 later (bu_browserId Scenario.url1) = true.
Proof.
  apply (browser_url_opens_slot demoToken (initial true) Scenario.api
           (JString "client-0001") "sess_a" 1000 (Some "sess_a") Scenario.url1 false
           Scenario.assigned (Scenario.visit "/browser/1/" [("token", "tt")] None)).
  - exact demoToken_truthy.
  - exact demoToken_inj.
  - exists true, []. reflexivity.
  - vm_compute. reflexivity.
  - reflexivity.
  - vm_compute. reflexivity.
  - reflexivity.
  - reflexivity.
Defined.

End HandoffLaws.

(** ** Broker: timers, the session check and a full pool *)

Module SessionLaws.
Import Broker JsFacts BrokerTheory.
Local Open Scope Z_scope.

(** X19.  [cleanupUrlTokens] deletes the URL tokens that are more than five
    minutes old and keeps the others as they are; it touches nothing else.
    A token it deleted is refused like an unknown one: a request that shows
    it on the path of its slot, without a valid cookie, gets 403. *)
Theorem url_token_expires (st : State) (now : Z) (req : Request) (bid : Z)
    (rest tok : string) (e : UrlEntry) :
  urlTokens st !! tok = Some e ->
  String.eqb (method req) "OPTIONS" = false ->
  parseBrowserPath (path req) = Some (bid, rest) ->
  is_Some (getBrowserById st bid) ->
  searchParamsGet "token" (query req) = Some tok ->
  validateBrowserAccess st req bid = false ->
  (if now - u_createdAt e >? 5 * 60 * 1000
   then urlTokens (cleanupUrlTokens now st) !! tok = None
        /\ handleRequest req (cleanupUrlTokens now st)
           = (Forbidden403, cleanupUrlTokens now st)
   else urlTokens (cleanupUrlTokens now st) !! tok = Some e)
  /\ BROWSERS (cleanupUrlTokens now st) = BROWSERS st
  /\ browserTokens (cleanupUrlTokens now st) = browserTokens st
  /\ tokenToBrowser (cleanupUrlTokens now st) = tokenToBrowser st
  /\ forall t x, urlTokens (cleanupUrlTokens now st) !! t = Some x ->
       urlTokens st !! t = Some x /\ now - u_createdAt x <= 5 * 60 * 1000.
Proof.
  intros He Hm Hp Hslot Htok Hcookie.
  split; [|repeat split; try reflexivity].
  - destruct (Z.gtb_spec (now - u_createdAt e) (5 * 60 * 1000)) as [Hold|Hyoung].
    + assert (Hgone : urlTokens (cleanupUrlTokens now st) !! tok = None).
      { unfold cleanupUrlTokens. cbn. apply map_lookup_filter_None. right.
        intros x Hx. rewrite He in Hx. injection Hx as <-. cbn. lia. }
      split; [exact Hgone|].
      rewrite (handleRequest_route _ _ _ _ Hm Hp).
      now apply (browseRoute_unknown_token _ req bid rest tok).
    + unfold cleanupUrlTokens. cbn. apply map_lookup_filter_Some. split; [exact He|].
      cbn. lia.
  - unfold cleanupUrlTokens in H. cbn in H.
    now apply map_lookup_filter_Some in H as [H _].
  - unfold cleanupUrlTokens in H. cbn in H.
    apply map_lookup_filter_Some in H as [_ H]. cbn in H. lia.
Qed.

Lemma url_token_expires_witness :
  (if 400000 - u_createdAt Scenario.entry1 >? 5 * 60 * 1000
   then urlTokens (cleanupUrlTokens 400000 Scenario.assigned) !! "tt" = None
        /\ handleRequest (Scenario.visit "/browser/1/" [("token", "tt")] None)
                         (cleanupUrlTokens 400000 Scenario.assigned)
           = (Forbidden403, cleanupUrlTokens 400000 Scenario.assigned)
   else urlTokens (cleanupUrlTokens 400000 Scenario.assigned) !! "tt" = Some Scenario.entry1)
  /\ BROWSERS (cleanupUrlTokens 400000 Scenario.assigned) = BROWSERS Scenario.assigned
  /\ browserTokens (cleanupUrlTokens 400000 Scenario.assigned)
     = browserTokens Scenario.assigned
  /\ tokenToBrowser (cleanupUrlTokens 400000 Scenario.assigned)
     = tokenToBrowser Scenario.assigned
  /\ forall t x, urlTokens (cleanupUrlTokens 400000 Scenario.assigned) !! t = Some x ->
       urlTokens Scenario.assigned !! t = Some x /\ 400000 - u_createdAt x <= 5 * 60 * 1000.
Proof.
  apply (url_token_expires Scenario.assigned 400000
           (Scenario.visit "/browser/1/" [("token", "tt")] None) 1 "/" "tt" Scenario.entry1).
  - vm_compute. reflexivity.
  - reflexivity.
  - vm_compute. reflexivity.
  - vm_compute. eexists. reflexivity.
  - reflexivity.
  - vm_compute. reflexivity.
Defined.

(** *** The session timer *)

Lemma doReleaseBrowser_effect j st bj :
  BROWSERS st !! j = Some bj -> inUse bj = true ->
  BROWSERS (doReleaseBrowser j st) = alter released j (BROWSERS st)
  /\ activeConnections (doReleaseBrowser j st) = delete (id bj) (activeConnections st)
  /\ (forall bid, bid <> id bj ->
        browserTokens (doReleaseBrowser j st) !! bid = browserTokens st !! bid)
  /\ orNull (browserTokens (doReleaseBrowser j st) !! id bj) = None.
Proof.
  intros Hj Hu. unfold doReleaseBrowser. rewrite Hj, Hu. cbn [negb].
  unfold syncBrowserToFirebase.
  destruct (browserTokens st !! id bj) as [c|] eqn:Hc;
    [destruct (Js.truthy c) eqn:Ht|];
    repeat case_match; cbn in *; rewrite ?Hc, ?Ht in *; cbn in *; simplify_eq;
    repeat split; auto;
    try (intros; now apply lookup_delete_ne);
    try (now rewrite lookup_delete_eq);
    try (now rewrite Hc; cbn; rewrite Ht);
    try (now rewrite Hc).
Qed.

(** What a round of the timer on slot [j] leaves of another slot. *)
Lemma reapBrowser_other now st j i b :
  wfSlots st -> i <> j -> BROWSERS st !! i = Some b ->
  BROWSERS (reapBrowser now st j) !! i = Some b
  /\ activeConnections (reapBrowser now st j) !! id b = activeConnections st !! id b
  /\ browserTokens (reapBrowser now st j) !! id b = browserTokens st !! id b.
Proof.
  intros Hwf Hne Hb.
  assert (Hrel : forall bj, BROWSERS st !! j = Some bj -> inUse bj = true ->
            BROWSERS (doReleaseBrowser j st) !! i = Some b
            /\ activeConnections (doReleaseBrowser j st) !! id b
               = activeConnections st !! id b
            /\ browserTokens (doReleaseBrowser j st) !! id b = browserTokens st !! id b).
  { intros bj Hj Hu.
    destruct (doReleaseBrowser_effect j st bj Hj Hu) as (HB & Hconn & Hbt & _).
    assert (Hid : id b <> id bj) by (eapply slot_ids_differ; eauto).
    split; [rewrite HB, list_lookup_alter_ne by auto; exact Hb|].
    split; [rewrite Hconn; now apply lookup_delete_ne | now apply Hbt]. }
  unfold reapBrowser.
  destruct (BROWSERS st !! j) as [bj|] eqn:Hj; [|auto].
  destruct (inUse bj) eqn:Hu; cbn [negb]; [|auto].
  repeat case_match; auto; now apply (Hrel bj).
Qed.

Lemma sameSlots_reapBrowser now st j :
  map id (BROWSERS (reapBrowser now st j)) = map id (BROWSERS st).
Proof.
  unfold reapBrowser.
  repeat case_match; try reflexivity; apply sameSlots_doReleaseBrowser.
Qed.

(** The rounds on a list of slots that does not hold [i]. *)
Lemma reapBrowsers_other now l st i b :
  wfSlots st -> i ∉ l -> BROWSERS st !! i = Some b ->
  wfSlots (fold_left (reapBrowser now) l st)
  /\ BROWSERS (fold_left (reapBrowser now) l st) !! i = Some b
  /\ activeConnections (fold_left (reapBrowser now) l st) !! id b
     = activeConnections st !! id b
  /\ browserTokens (fold_left (reapBrowser now) l st) !! id b = browserTokens st !! id b.
Proof.
  revert st. induction l as [|j l IH]; intros st Hwf Hi Hb; cbn [fold_left]; [auto|].
  apply not_elem_of_cons in Hi as [Hne Hi].
  destruct (reapBrowser_other now st j i b Hwf Hne Hb) as (HB & Hconn & Hbt).
  assert (Hwf' : wfSlots (reapBrowser now st j))
    by (eapply wfSlots_ids; [apply sameSlots_reapBrowser | exact Hwf]).
  destruct (IH _ Hwf' Hi HB) as (H1 & H2 & H3 & H4).
  rewrite H3, H4. auto.
Qed.

Lemma seq_around i n :
  (i < n)%nat -> seq 0 n = (seq 0 i ++ i :: seq (S i) (n - S i))%list.
Proof.
  intros Hi. replace n with (i + (1 + (n - S i)))%nat at 1 by lia.
  rewrite seq_app. cbn [seq Nat.add]. reflexivity.
Qed.

(** [cleanupSessions] as the rounds before slot [i], the round on it, and
    the rounds after it. *)
Lemma cleanupSessions_around now st i b :
  wfSlots st -> BROWSERS st !! i = Some b ->
  exists s1,
    wfSlots s1 /\ BROWSERS s1 !! i = Some b
    /\ activeConnections s1 !! id b = activeConnections st !! id b
    /\ browserTokens s1 !! id b = browserTokens st !! id b
    /\ cleanupSessions now st
       = fold_left (reapBrowser now) (seq (S i) (length (BROWSERS st) - S i))
                   (reapBrowser now s1 i).
Proof.
  intros Hwf Hb.
  assert (Hi : (i < length (BROWSERS st))%nat) by (eapply lookup_lt_Some; eauto).
  exists (fold_left (reapBrowser now) (seq 0 i) st).
  destruct (reapBrowsers_other now (seq 0 i) st i b Hwf) as (H1 & H2 & H3 & H4);
    [rewrite elem_of_seq; lia | exact Hb |].
  split; [exact H1|]. split; [exact H2|]. split; [exact H3|]. split; [exact H4|].
  unfold cleanupSessions. rewrite (seq_around i _ Hi), fold_left_app. reflexivity.
Qed.

(** X20.  After [cleanupSessions], a slot that was in use with a last
    heartbeat (or, without one, an assignment) more than five minutes old
    is free: it has no client and no session, no connection record and no
    usable cookie token.  A slot in use whose last heartbeat is not older
    than that, and which has an open socket, is left exactly as it was,
    with its cookie token. *)
Theorem cleanupSessions_by_heartbeat (st : State) (now : Z) (i : nat) (b : Browser) :
  wfSlots st ->
  BROWSERS st !! i = Some b ->
  inUse b = true ->
  (firstTime (lastHeartbeat b) (lastUsed b) <> 0 ->
   now - firstTime (lastHeartbeat b) (lastUsed b) > SESSION_TIMEOUT_MS ->
     BROWSERS (cleanupSessions now st) !! i = Some (released b)
     /\ orNull (browserTokens (cleanupSessions now st) !! id b) = None
     /\ activeConnections (cleanupSessions now st) !! id b = None)
  /\ (now - firstTime (lastHeartbeat b) (lastUsed b) <= SESSION_TIMEOUT_MS ->
      (exists conn, activeConnections st !! id b = Some conn /\ 0 < count conn) ->
      BROWSERS (cleanupSessions now st) !! i = Some b
      /\ browserTokens (cleanupSessions now st) !! id b = browserTokens st !! id b
      /\ activeConnections (cleanupSessions now st) !! id b
         = activeConnections st !! id b).
Proof.
  intros Hwf Hb Hu.
  set (lastHb := firstTime (lastHeartbeat b) (lastUsed b)).
  destruct (cleanupSessions_around now st i b Hwf Hb)
    as (s1 & Hwf1 & Hb1 & Hconn1 & Hbt1 & ->).
  set (later := seq (S i) (length (BROWSERS st) - S i)).
  assert (Hlater : i ∉ later) by (unfold later; rewrite elem_of_seq; lia).
  split.
  - intros Hnz Hold.
    assert (Hreap : reapBrowser now s1 i = doReleaseBrowser i s1).
    { unfold reapBrowser. rewrite Hb1, Hu. cbn [negb]. fold lastHb.
      destruct (Z.eqb_spec lastHb 0) as [|_]; [contradiction|].
      destruct (Z.gtb_spec (now - lastHb) SESSION_TIMEOUT_MS); [reflexivity | lia]. }
    rewrite Hreap.
    destruct (doReleaseBrowser_effect i s1 b Hb1 Hu) as (HB & Hconn & _ & Hbt).
    assert (Hfree : BROWSERS (doReleaseBrowser i s1) !! i = Some (released b))
      by (rewrite HB, list_lookup_alter_eq, Hb1; reflexivity).
    assert (Hwf2 : wfSlots (doReleaseBrowser i s1))
      by (eapply wfSlots_ids; [apply sameSlots_doReleaseBrowser | exact Hwf1]).
    destruct (reapBrowsers_other now later _ i (released b) Hwf2 Hlater Hfree)
      as (_ & H1 & H2 & H3).
    cbn [released id] in H2, H3.
    split; [exact H1|]. split; [rewrite H3; exact Hbt|].
    rewrite H2, Hconn. apply lookup_delete_eq.
  - intros Hyoung (conn & Hconn & Hcount).
    assert (Hreap : reapBrowser now s1 i = s1).
    { unfold reapBrowser. rewrite Hb1, Hu. cbn [negb]. fold lastHb.
      destruct (Z.gtb_spec (now - lastHb) SESSION_TIMEOUT_MS) as [|_]; [lia|].
      rewrite andb_false_r, Hconn1, Hconn.
      destruct (Z.leb_spec (count conn) 0); [lia | reflexivity]. }
    rewrite Hreap.
    destruct (reapBrowsers_other now later s1 i b Hwf1 Hlater Hb1) as (_ & H1 & H2 & H3).
    rewrite H2, H3, Hconn1, Hbt1. auto.
Qed.

Lemma cleanupSessions_by_heartbeat_witness :
  (firstTime (lastHeartbeat (claimed "sess_a" "client-0001" 1000 (slot 1)))
             (lastUsed (claimed "sess_a" "client-0001" 1000 (slot 1))) <> 0 ->
   400000 - firstTime (lastHeartbeat (claimed "sess_a" "client-0001" 1000 (slot 1)))
                      (lastUsed (claimed "sess_a" "client-0001" 1000 (slot 1)))
     > SESSION_TIMEOUT_MS ->
     BROWSERS (cleanupSessions 400000 Scenario.assigned) !! 0%nat
       = Some (released (claimed "sess_a" "client-0001" 1000 (slot 1)))
     /\ orNull (browserTokens (cleanupSessions 400000 Scenario.assigned)
                  !! id (claimed "sess_a" "client-0001" 1000 (slot 1))) = None
     /\ activeConnections (cleanupSessions 400000 Scenario.assigned)
          !! id (claimed "sess_a" "client-0001" 1000 (slot 1)) = None)
  /\ (400000 - firstTime (lastHeartbeat (claimed "sess_a" "client-0001" 1000 (slot 1)))
                         (lastUsed (claimed "sess_a" "client-0001" 1000 (slot 1)))
        <= SESSION_TIMEOUT_MS ->
      (exists conn,
         activeConnections Scenario.assigned
           !! id (claimed "sess_a" "client-0001" 1000 (slot 1)) = Some conn
         /\ 0 < count conn) ->
      BROWSERS (cleanupSessions 400000 Scenario.assigned) !! 0%nat
        = Some (claimed "sess_a" "client-0001" 1000 (slot 1))
      /\ browserTokens (cleanupSessions 400000 Scenario.assigned)
           !! id (claimed "sess_a" "client-0001" 1000 (slot 1))
         = browserTokens Scenario.assigned
             !! id (claimed "sess_a" "client-0001" 1000 (slot 1))
      /\ activeConnections (cleanupSessions 400000 Scenario.assigned)
           !! id (claimed "sess_a" "client-0001" 1000 (slot 1))
         = activeConnections Scenario.assigned
             !! id (claimed "sess_a" "client-0001" 1000 (slot 1))).
Proof.
  apply (cleanupSessions_by_heartbeat Scenario.assigned 400000 0
           (claimed "sess_a" "client-0001" 1000 (slot 1))).
  - split; compute_done.
  - vm_compute. reflexivity.
  - reflexivity.
Defined.

(** The timer at work: the session of [Scenario.assigned], last heard of at
    1000, is released by a run at 400000 and kept by a run at 200000 after
    its socket has opened. *)
Example cleanupSessions_runs :
  inUseCount (cleanupSessions 400000 Scenario.assigned) = 0%nat
  /\ inUseCount (cleanupSessions 200000 (trackWsConnect 1 1500 Scenario.assigned)) = 1%nat
  /\ inUseCount (cleanupSessions 200000 Scenario.assigned) = 0%nat.
Proof. evaluate. Qed.

(** *** A full pool *)

Lemma findAvailableBrowser_None st :
  forallb inUse (BROWSERS st) = true -> findAvailableBrowser st = None.
Proof.
  intros Hall. unfold findAvailableBrowser.
  destruct (list_find _ _) as [[j b]|] eqn:Hfind; [|reflexivity].
  apply list_find_Some in Hfind as (Hb & Hfree & _).
  rewrite forallb_forall in Hall.
  rewrite (Hall b) in Hfree; [discriminate|].
  apply list_elem_of_In. eapply list_elem_of_lookup_2; eauto.
Qed.

Lemma inUseCount_all st : forallb inUse (BROWSERS st) = true -> inUseCount st = length (BROWSERS st).
Proof.
  unfold inUseCount. induction (BROWSERS st) as [|b l IH]; [reflexivity|].
  cbn. intros H. apply andb_prop in H as [-> H]. cbn. now rewrite IH.
Qed.

(** X21.  When every slot is in use and none of them by the client that
    asks, request-browser answers 503 with a count of slots in use equal to
    the number of slots; no slot, cookie token or URL token changes: a
    session in progress is never handed to another client. *)
Theorem request_when_pool_is_full (secureToken : nat -> string) (st : State)
    (req : Request) (v : JsValue) (sid : string) (now : Z) :
  forallb (fun b => inUse b
                    && negb (bool_decide (clientId b = Some (effectiveClientId req v))))
          (BROWSERS st) = true ->
  exists st',
    requestBrowser secureToken req v sid now st
    = (Busy503 (length (BROWSERS st)) (length (BROWSERS st)), st')
    /\ BROWSERS st' = BROWSERS st
    /\ browserTokens st' = browserTokens st
    /\ tokenToBrowser st' = tokenToBrowser st
    /\ urlTokens st' = urlTokens st
    /\ sessions st' = sessions st.
Proof.
  intros Hall. unfold requestBrowser, assignBrowser.
  destruct (findBrowserByClientId_frame (effectiveClientId req v) st)
    as (Hu & _ & HB & Hbt & Httb & Hs).
  destruct (findBrowserByClientId (effectiveClientId req v) st) as [found st0] eqn:Hfind.
  cbn [snd] in *.
  assert (Hbusy : forallb inUse (BROWSERS st) = true).
  { eapply CookieLaws.forallb_weaken; [|exact Hall].
    intros b Hb. now apply andb_prop in Hb as [Hb _]. }
  destruct found as [i|].
  - exfalso.
    destruct (findBrowserByClientId_Some _ _ _ _ Hfind) as (_ & _ & b & Hb & _ & Hc & _).
    rewrite forallb_forall in Hall.
    assert (Hin : In b (BROWSERS st))
      by (apply list_elem_of_In; eapply list_elem_of_lookup_2; eauto).
    apply Hall in Hin. apply andb_prop in Hin as [_ Hin].
    apply negb_true_iff, bool_decide_eq_false in Hin. contradiction.
  - rewrite findAvailableBrowser_None by (rewrite HB; exact Hbusy).
    exists st0. rewrite inUseCount_all by (rewrite HB; exact Hbusy).
    rewrite HB. auto 10.
Qed.

Lemma request_when_pool_is_full_witness :
  exists st',
    requestBrowser demoToken Scenario.api (JString "client-late-1") "sess_z" 5000
                   Scenario.full
    = (Busy503 (length (BROWSERS Scenario.full)) (length (BROWSERS Scenario.full)), st')
    /\ BROWSERS st' = BROWSERS Scenario.full
    /\ browserTokens st' = browserTokens Scenario.full
    /\ tokenToBrowser st' = tokenToBrowser Scenario.full
    /\ urlTokens st' = urlTokens Scenario.full
    /\ sessions st' = sessions Scenario.full.
Proof.
  apply (request_when_pool_is_full demoToken Scenario.full Scenario.api
           (JString "client-late-1") "sess_z" 5000).
  vm_compute. reflexivity.
Defined.

(** *** The session check *)

(** X22.  check-session for a client that holds a slot: when the last
    heartbeat of the slot is less than five minutes old, the reply names
    the slot and carries a newly drawn URL token, stored with the cookie
    token of the slot, which stays the same; the slot itself is not
    touched, and its heartbeat is not refreshed.  When the heartbeat is
    older, the reply says that there is no session and the slot is
    released. *)
Theorem checkSession_of_holder (secureToken : nat -> string) (st : State)
    (req : Request) (now : Z) (cid : string) (i : nat) (b : Browser) (c : string) :
  wfSlots st ->
  searchParamsGet "clientId" (query req) = Some cid ->
  Js.truthy cid = true ->
  BROWSERS st !! i = Some b -> inUse b = true -> clientId b = Some cid ->
  clientSessions st !! cid = Some (id b) ->
  browserTokens st !! id b = Some c -> Js.truthy c = true ->
  if now - firstTime (lastHeartbeat b) (lastUsed b) <? SESSION_TIMEOUT_MS
  then exists st',
         checkSession secureToken req now st
         = (Session200 (browserUrlFor req (id b) (Some (secureToken (drawn st))))
                       (now - firstTime (lastHeartbeat b) (lastUsed b)), st')
         /\ BROWSERS st' = BROWSERS st
         /\ browserTokens st' = browserTokens st
         /\ urlTokens st'
            = <[secureToken (drawn st) :=
                  {| u_browserId := id b; u_cookieToken := c; u_createdAt := now |}]>
                (urlTokens st)
  else checkSession secureToken req now st = (NoSession200, doReleaseBrowser i st)
       /\ BROWSERS (doReleaseBrowser i st) !! i = Some (released b)
       /\ clientSessions (doReleaseBrowser i st) !! cid = None.
Proof.
  intros Hwf Hq Hcid Hb Hu Hclient Hmap Hc Ht.
  unfold checkSession. rewrite Hq. cbn [orNull]. rewrite Hcid.
  rewrite (findBrowserByClientId_live cid st i b) by assumption.
  cbn [mbind option_bind]. rewrite Hb. cbn [fmap option_fmap option_map].
  destruct (_ <? _).
  - rewrite (ensureCookieToken_kept secureToken _ _ _ Hc Ht).
    rewrite (createUrlToken_minted secureToken _ _ _ _ Hc Ht).
    eexists. split; [reflexivity|]. cbn. auto.
  - split; [reflexivity|].
    destruct (doReleaseBrowser_effect i st b Hb Hu) as (HB & _).
    split; [rewrite HB, list_lookup_alter_eq, Hb; reflexivity|].
    destruct (doReleaseBrowser_fields i st b Hb Hu) as (_ & Hcs & _).
    rewrite Hcs, Hclient. cbn [orNull]. rewrite Hcid. apply lookup_delete_eq.
Qed.

Lemma checkSession_of_holder_witness :
  if 2000 - firstTime (lastHeartbeat (claimed "sess_a" "client-0001" 1000 (slot 1)))
                      (lastUsed (claimed "sess_a" "client-0001" 1000 (slot 1)))
     <? SESSION_TIMEOUT_MS
  then exists st',
         checkSession demoToken
           (Scenario.visit "/api/check-session" [("clientId", "client-0001")] None)
           2000 Scenario.assigned
         = (Session200
              (browserUrlFor
                 (Scenario.visit "/api/check-session" [("clientId", "client-0001")] None)
                 (id (claimed "sess_a" "client-0001" 1000 (slot 1)))
                 (Some (demoToken (drawn Scenario.assigned))))
              (2000 - firstTime
                        (lastHeartbeat (claimed "sess_a" "client-0001" 1000 (slot 1)))
                        (lastUsed (claimed "sess_a" "client-0001" 1000 (slot 1)))), st')
         /\ BROWSERS st' = BROWSERS Scenario.assigned
         /\ browserTokens st' = browserTokens Scenario.assigned
         /\ urlTokens st'
            = <[demoToken (drawn Scenario.assigned) :=
                  {| u_browserId := id (claimed "sess_a" "client-0001" 1000 (slot 1));
                     u_cookieToken := "t"; u_createdAt := 2000 |}]>
                (urlTokens Scenario.assigned)
  else checkSession demoToken
         (Scenario.visit "/api/check-session" [("clientId", "client-0001")] None)
         2000 Scenario.assigned
       = (NoSession200, doReleaseBrowser 0 Scenario.assigned)
       /\ BROWSERS (doReleaseBrowser 0 Scenario.assigned) !! 0%nat
          = Some (released (claimed "sess_a" "client-0001" 1000 (slot 1)))
       /\ clientSessions (doReleaseBrowser 0 Scenario.assigned) !! "client-0001" = None.
Proof.
  apply (checkSession_of_holder demoToken Scenario.assigned
           (Scenario.visit "/api/check-session" [("clientId", "client-0001")] None)
           2000 "client-0001" 0 (claimed "sess_a" "client-0001" 1000 (slot 1)) "t").
  - split; compute_done.
  - reflexivity.
  - reflexivity.
  - vm_compute. reflexivity.
  - reflexivity.
  - reflexivity.
  - vm_compute. reflexivity.
  - vm_compute. reflexivity.
  - reflexivity.
Defined.

(** *** Heartbeats and the timer *)

(** What a run of [cleanupSessions] leaves at position [i] is what its round
    on [i] leaves there. *)
Lemma cleanupSessions_at now st i b :
  wfSlots st -> BROWSERS st !! i = Some b ->
  exists s1,
    BROWSERS s1 !! i = Some b
    /\ activeConnections s1 !! id b = activeConnections st !! id b
    /\ forall b', BROWSERS (reapBrowser now s1 i) !! i = Some b' ->
         BROWSERS (cleanupSessions now st) !! i = Some b'.
Proof.
  intros Hwf Hb.
  destruct (cleanupSessions_around now st i b Hwf Hb) as (s1 & Hwf1 & Hb1 & Hconn1 & _ & ->).
  exists s1. split; [exact Hb1|]. split; [exact Hconn1|].
  intros b' Hb'.
  assert (Hwf2 : wfSlots (reapBrowser now s1 i))
    by (eapply wfSlots_ids; [apply sameSlots_reapBrowser | exact Hwf1]).
  apply (reapBrowsers_other now _ _ i b' Hwf2); [rewrite elem_of_seq; lia | exact Hb'].
Qed.

(** X24.  A heartbeat that names a slot in use is answered with success and
    sets the heartbeat time of the slot.  A run of [cleanupSessions] within
    five minutes of it leaves the slot alone if a socket of the slot is
    open.  If none is open the heartbeat does not help: the run releases
    the slot once the assignment is more than a minute old and the last
    socket was closed (or, if there is no such time, the slot was assigned)
    more than two minutes ago. *)
Theorem heartbeat_then_cleanup (st : State) (i : nat) (b : Browser)
    (parsedSessionId : JsValue) (now later : Z) (sampled : bool) :
  wfSlots st ->
  BROWSERS st !! i = Some b ->
  inUse b = true ->
  now <> 0 ->
  later - now <= SESSION_TIMEOUT_MS ->
  exists st1,
    heartbeat (JNumber (id b)) parsedSessionId now sampled st = (Alive200 true, st1)
    /\ BROWSERS st1 !! i = Some (withHeartbeat (Some now) b)
    /\ ((exists conn, activeConnections st !! id b = Some conn /\ 0 < count conn) ->
        BROWSERS (cleanupSessions later st1) !! i = Some (withHeartbeat (Some now) b))
    /\ ((forall conn, activeConnections st !! id b = Some conn -> count conn <= 0) ->
        later - default 0 (lastUsed b) > 60000 ->
        firstTime (activeConnections st !! id b ≫= lastDisconnect) (lastUsed b) <> 0 ->
        later - firstTime (activeConnections st !! id b ≫= lastDisconnect) (lastUsed b)
          > WS_PRESENCE_TIMEOUT_MS ->
        BROWSERS (cleanupSessions later st1) !! i
        = Some (released (withHeartbeat (Some now) b))).
Proof.
  intros Hwf Hb Hu Hnow Hsoon.
  pose proof (wfSlots_nonzero st i b Hwf Hb) as Hid.
  set (st0 := setSessions (touchFirstSessionOf (id b) now (sessions st))
                (updateBrowser i (withHeartbeat (Some now)) st)).
  set (st1 := if sampled then syncBrowserToFirebase i st0 else st0).
  assert (Hbeat : heartbeat (JNumber (id b)) parsedSessionId now sampled st
                  = (Alive200 true, st1)).
  { unfold heartbeat. cbn [jsTruthy parseIntValue mbind option_bind].
    destruct (Z.eqb_spec (id b) 0) as [|_]; [contradiction|]. cbn [negb].
    rewrite (getBrowserById_lookup st i b (proj1 Hwf) Hb), Hb, Hu. reflexivity. }
  assert (HB : BROWSERS st1 = alter (withHeartbeat (Some now)) i (BROWSERS st)).
  { unfold st1. destruct sampled; [|reflexivity].
    destruct (syncBrowserToFirebase_frame i st0) as (_ & _ & -> & _). reflexivity. }
  assert (Hconn : activeConnections st1 = activeConnections st).
  { unfold st1. destruct sampled; [|reflexivity].
    unfold syncBrowserToFirebase. repeat case_match; reflexivity. }
  assert (Hb1 : BROWSERS st1 !! i = Some (withHeartbeat (Some now) b))
    by (rewrite HB, list_lookup_alter_eq, Hb; reflexivity).
  assert (Hwf1 : wfSlots st1).
  { apply (wfSlots_ids st); [|exact Hwf]. rewrite HB. now apply ids_alter. }
  exists st1. split; [exact Hbeat|]. split; [exact Hb1|].
  destruct (cleanupSessions_at later st1 i _ Hwf1 Hb1) as (s1 & Hs1 & Hc1 & Hend).
  cbn [withHeartbeat id] in Hc1. rewrite Hconn in Hc1.
  assert (Hfresh : firstTime (Some now) (lastUsed b) = now).
  { unfold firstTime, orNullZ. destruct (Z.eqb_spec now 0); [contradiction | reflexivity]. }
  assert (Hround : reapBrowser later s1 i
                   = let conn := activeConnections st !! id b in
                     let idle := match conn with
                                 | None => true
                                 | Some c => count c <=? 0
                                 end in
                     if idle then
                       let disconnectTime :=
                         firstTime (conn ≫= lastDisconnect) (lastUsed b) in
                       let assignAge := later - default 0 (lastUsed b) in
                       if (assignAge >? 60000) && negb (disconnectTime =? 0)
                          && (later - disconnectTime >? WS_PRESENCE_TIMEOUT_MS)
                       then doReleaseBrowser i s1
                       else s1
                     else s1).
  { unfold reapBrowser. rewrite Hs1. cbn [withHeartbeat inUse lastHeartbeat lastUsed id].
    rewrite Hu, Hfresh, Hc1. cbn [negb].
    destruct (Z.gtb_spec (later - now) SESSION_TIMEOUT_MS) as [|_]; [lia|].
    rewrite andb_false_r. reflexivity. }
  rewrite Hround in Hend. cbv zeta in Hend.
  split.
  - intros (conn & Hc & Hcount). apply Hend. rewrite Hc.
    destruct (Z.leb_spec (count conn) 0); [lia | exact Hs1].
  - intros Hidle Hage Hnz Hold. apply Hend.
    assert (Hi : match activeConnections st !! id b with
                 | None => true
                 | Some c => count c <=? 0
                 end = true).
    { destruct (activeConnections st !! id b) as [conn|]; [|reflexivity].
      apply Z.leb_le, Hidle. reflexivity. }
    rewrite Hi.
    destruct (Z.gtb_spec (later - default 0 (lastUsed b)) 60000) as [_|]; [|lia].
    destruct (Z.eqb_spec (firstTime (activeConnections st !! id b ≫= lastDisconnect)
                                    (lastUsed b)) 0) as [|_]; [contradiction|].
    destruct (Z.gtb_spec (later - firstTime (activeConnections st !! id b ≫= lastDisconnect)
                                            (lastUsed b)) WS_PRESENCE_TIMEOUT_MS) as [_|];
      [|lia].
    cbn [negb andb].
    destruct (doReleaseBrowser_effect i s1 _ Hs1 Hu) as (-> & _).
    rewrite list_lookup_alter_eq, Hs1. reflexivity.
Qed.

Lemma heartbeat_then_cleanup_witness :
  exists st1,
    heartbeat (JNumber (id (claimed "sess_a" "client-0001" 1000 (slot 1)))) JUndefined
              100000 false Scenario.assigned
    = (Alive200 true, st1)
    /\ BROWSERS st1 !! 0%nat
       = Some (withHeartbeat (Some 100000) (claimed "sess_a" "client-0001" 1000 (slot 1)))
    /\ ((exists conn,
           activeConnections Scenario.assigned
             !! id (claimed "sess_a" "client-0001" 1000 (slot 1)) = Some conn
           /\ 0 < count conn) ->
        BROWSERS (cleanupSessions 200000 st1) !! 0%nat
        = Some (withHeartbeat (Some 100000) (claimed "sess_a" "client-0001" 1000 (slot 1))))
    /\ ((forall conn,
           activeConnections Scenario.assigned
             !! id (claimed "sess_a" "client-0001" 1000 (slot 1)) = Some conn ->
           count conn <= 0) ->
        200000 - default 0 (lastUsed (claimed "sess_a" "client-0001" 1000 (slot 1))) > 60000 ->
        firstTime (activeConnections Scenario.assigned
                     !! id (claimed "sess_a" "client-0001" 1000 (slot 1)) ≫= lastDisconnect)
                  (lastUsed (claimed "sess_a" "client-0001" 1000 (slot 1))) <> 0 ->
        200000 - firstTime (activeConnections Scenario.assigned
                              !! id (claimed "sess_a" "client-0001" 1000 (slot 1))
                              ≫= lastDisconnect)
                           (lastUsed (claimed "sess_a" "client-0001" 1000 (slot 1)))
          > WS_PRESENCE_TIMEOUT_MS ->
        BROWSERS (cleanupSessions 200000 st1) !! 0%nat
        = Some (released (withHeartbeat (Some 100000)
                            (claimed "sess_a" "client-0001" 1000 (slot 1))))).
Proof.
  apply (heartbeat_then_cleanup Scenario.assigned 0
           (claimed "sess_a" "client-0001" 1000 (slot 1)) JUndefined 100000 200000 false).
  - split; compute_done.
  - vm_compute. reflexivity.
  - reflexivity.
  - lia.
  - vm_compute. discriminate.
Defined.

(** The two cases at work on [Scenario.assigned], assigned at 1000: after a
    heartbeat at 100000 a run at 200000 releases the slot when no socket
    was opened, and keeps it when one was. *)
Example heartbeat_without_socket :
  inUseCount (cleanupSessions 200000
                (snd (heartbeat (JNumber 1) JUndefined 100000 false Scenario.assigned)))
  = 0%nat
  /\ inUseCount (cleanupSessions 200000
                   (snd (heartbeat (JNumber 1) JUndefined 100000 false
                           (trackWsConnect 1 1500 Scenario.assigned))))
     = 1%nat.
Proof. evaluate. Qed.

End SessionLaws.
(** ** Broker: tunnels and connection records *)

Module UpgradeLaws.
Import Broker JsFacts BrokerTheory.
Local Open Scope Z_scope.

(** X23.  In every state the server reaches by a run in which no round of
    the restore meets a slot in use, an upgrade is tunnelled only to the
    container of a slot in use whose cookie token is the session cookie of
    the request: [localhost] at port [6900 + id].  On a browser path the
    slot is the one of the path and the upstream path is the rest of it; on
    [/websockify] and [/api/...] the slot is the one the [nebula_browser]
    cookie names and the path is kept.  Tokens are non-empty and the
    generator does not repeat itself. *)
Theorem tunnel_reaches_own_slot (secureToken : nat -> string) (st : State)
    (req : Request) (h : string) (p : Z) (target : string) :
  (forall n, Js.truthy (secureToken n) = true) ->
  (forall n m, secureToken n = secureToken m -> n = m) ->
  orderly secureToken st ->
  upgrade st req = Tunnel h p target ->
  exists bid c,
    parseCookies req !! "nebula_session" = Some c
    /\ browserTokens st !! bid = Some c
    /\ slotInUse bid st
    /\ h = "localhost" /\ p = 6900 + bid
    /\ match parseBrowserPath (path req) with
       | Some (n, rest) => n = bid /\ target = rest +:+ rawSearch req
       | None => parseCookies req !! "nebula_browser" ≫= parseInt10 = Some bid
                 /\ target = path req +:+ rawSearch req
       end.
Proof.
  intros Htruthy Hinj Horderly Hup.
  destruct (TokenLaws.inv_orderly secureToken Htruthy Hinj st Horderly)
    as (_ & (Hb & Ht & _) & _).
  assert (Hreach : reachable secureToken st)
    by (destruct Horderly as (db & events & _ & ->); now exists db, events).
  assert (Hopen : forall i b, BROWSERS st !! i = Some b ->
            validateBrowserAccess st req (id b) = true ->
            exists c, parseCookies req !! "nebula_session" = Some c
                      /\ browserTokens st !! id b = Some c
                      /\ slotInUse (id b) st
                      /\ host b = "localhost" /\ port b = 6900 + id b).
  { intros i b Hi Hok. unfold validateBrowserAccess in Hok.
    destruct (parseCookies req !! "nebula_session") as [c|]; [|discriminate].
    destruct (Js.truthy c); [|discriminate].
    apply bool_decide_eq_true in Hok.
    destruct (HandoffLaws.reachable_address secureToken st i b Hreach Hi) as (Hh & Hp & _).
    exists c. split; [reflexivity|]. split; [now apply Ht|].
    split; [now apply (Hb (id b) c), Ht|]. auto. }
  unfold upgrade in Hup.
  destruct (parseBrowserPath (path req)) as [[n rest]|].
  - destruct (getBrowserById st n) as [i|] eqn:Hg; [|discriminate].
    destruct (getBrowserById_Some st n i Hg) as (b & Hi & Hid).
    cbn [mbind option_bind] in Hup. rewrite Hi in Hup.
    destruct (isAudioPath rest).
    { cbn in Hup. destruct (Js.truthyOpt (wsKey req)); discriminate. }
    destruct (validateBrowserAccess st req (id b)) eqn:Hok; [|discriminate].
    cbn in Hup. injection Hup as <- <- <-.
    destruct (Hopen i b Hi Hok) as (c & H1 & H2 & H3 & H4 & H5).
    exists (id b), c. rewrite Hid in *. auto 10.
  - destruct (String.eqb (path req) "/websockify" || Js.startsWith (path req) "/api/");
      [|discriminate].
    unfold getBrowserFromCookie in Hup.
    destruct (parseCookies req !! "nebula_browser" ≫= parseInt10) as [bid|]; [|discriminate].
    destruct (negb (bid =? 0) && (1 <=? bid) && (bid <=? Z.of_nat (length (BROWSERS st))));
      [|discriminate].
    destruct (getBrowserById st bid) as [i|] eqn:Hg; [|discriminate].
    destruct (getBrowserById_Some st bid i Hg) as (b & Hi & Hid).
    cbn [mbind option_bind] in Hup. rewrite Hi in Hup.
    destruct (validateBrowserAccess st req (id b)) eqn:Hok; [|discriminate].
    cbn in Hup. injection Hup as <- <- <-.
    destruct (Hopen i b Hi Hok) as (c & H1 & H2 & H3 & H4 & H5).
    exists (id b), c. rewrite Hid in *. auto 10.
Qed.

Lemma tunnel_reaches_own_slot_witness :
  exists bid c,
    parseCookies (Scenario.visit "/websockify" [] (Some "nebula_session=t; nebula_browser=1"))
      !! "nebula_session" = Some c
    /\ browserTokens Scenario.assigned !! bid = Some c
    /\ slotInUse bid Scenario.assigned
    /\ "localhost" = "localhost" /\ 6901 = 6900 + bid
    /\ match parseBrowserPath
               (path (Scenario.visit "/websockify" []
                        (Some "nebula_session=t; nebula_browser=1"))) with
       | Some (n, rest) =>
           n = bid
           /\ "/websockify"
              = rest +:+ rawSearch (Scenario.visit "/websockify" []
                                      (Some "nebula_session=t; nebula_browser=1"))
       | None =>
           parseCookies (Scenario.visit "/websockify" []
                           (Some "nebula_session=t; nebula_browser=1"))
             !! "nebula_browser" ≫= parseInt10 = Some bid
           /\ "/websockify"
              = path (Scenario.visit "/websockify" []
                        (Some "nebula_session=t; nebula_browser=1"))
                +:+ rawSearch (Scenario.visit "/websockify" []
                                 (Some "nebula_session=t; nebula_browser=1"))
       end.
Proof.
  apply (tunnel_reaches_own_slot demoToken Scenario.assigned
           (Scenario.visit "/websockify" [] (Some "nebula_session=t; nebula_browser=1"))
           "localhost" 6901 "/websockify").
  - exact demoToken_truthy.
  - exact demoToken_inj.
  - exists true, [RequestBrowser Scenario.api (JString "client-0001") "sess_a" 1000].
    split; reflexivity.
  - vm_compute. reflexivity.
Defined.

End UpgradeLaws.

Module ConnectionLaws.
Import Broker JsFacts BrokerTheory.
Local Open Scope Z_scope.

Section Connections.

Variable secureToken : nat -> string.

(** [quiet st st']: the same slots, in use or not as before, and the same
    connection records. *)
Local Abbreviation quiet st st' :=
  (map usage (BROWSERS st') = map usage (BROWSERS st)
   /\ activeConnections st' = activeConnections st).

Lemma usage_alter (f : Browser -> Browser) i (l : list Browser) :
  (forall b, usage (f b) = usage b) -> map usage (alter f i l) = map usage l.
Proof.
  intros Hf. revert i. induction l as [|x l IH]; intros [|i]; cbn; [reflexivity..| |].
  - now rewrite Hf.
  - now rewrite IH.
Qed.

Lemma sound_quiet st st' : quiet st st' -> connectionsSound st -> connectionsSound st'.
Proof.
  intros [HB Hc] [Hrec Hcount]. split.
  - intros i b' Hb' Hu. rewrite Hc.
    assert (Hi : map usage (BROWSERS st) !! i = Some (usage b'))
      by (rewrite <- HB, list_lookup_fmap, Hb'; reflexivity).
    rewrite list_lookup_fmap in Hi.
    destruct (BROWSERS st !! i) as [b|] eqn:Hb; [|discriminate].
    injection Hi as Hid Huse. rewrite <- Hid. apply (Hrec i b Hb). congruence.
  - intros bid conn. rewrite Hc. apply Hcount.
Qed.

Lemma quiet_syncBrowserToFirebase i st : quiet st (syncBrowserToFirebase i st).
Proof. unfold syncBrowserToFirebase. repeat case_match; auto. Qed.

Lemma quiet_findBrowserByClientId cid st : quiet st (snd (findBrowserByClientId cid st)).
Proof. unfold findBrowserByClientId. repeat case_match; auto. Qed.

Lemma quiet_ensureCookieToken bid st : quiet st (snd (ensureCookieToken secureToken bid st)).
Proof. unfold ensureCookieToken, generateSecureToken. repeat case_match; auto. Qed.

Lemma quiet_createUrlToken bid now st :
  quiet st (snd (createUrlToken secureToken bid now st)).
Proof. unfold createUrlToken, generateSecureToken. repeat case_match; auto. Qed.

Lemma quiet_createSessionTokens bid now st :
  quiet st (snd (createSessionTokens secureToken bid now st)).
Proof. unfold createSessionTokens, generateSecureToken. repeat case_match; auto. Qed.

Lemma quiet_trans st1 st2 st3 : quiet st1 st2 -> quiet st2 st3 -> quiet st1 st3.
Proof. intros [H1 H2] [H3 H4]. split; congruence. Qed.

Lemma quiet_handleRequest req st : quiet st (snd (handleRequest req st)).
Proof. unfold handleRequest, browseRoute. repeat case_match; simplify_eq; auto. Qed.

Lemma quiet_heartbeat b s now sampled st : quiet st (snd (heartbeat b s now sampled st)).
Proof.
  unfold heartbeat.
  repeat case_match; cbn [snd]; auto;
    try (eapply quiet_trans; [|apply quiet_syncBrowserToFirebase]);
    (split; [cbn; now apply usage_alter | reflexivity]).
Qed.

(** *** Release *)

Lemma sound_doReleaseBrowser i st :
  wfSlots st -> connectionsSound st -> connectionsSound (doReleaseBrowser i st).
Proof.
  intros [Hnd _] [Hrec Hcount].
  destruct (BROWSERS st !! i) as [b|] eqn:Hb;
    [destruct (inUse b) eqn:Hu|].
  - destruct (SessionLaws.doReleaseBrowser_effect i st b Hb Hu) as (HB & Hc & _).
    split.
    + intros j b' Hb' Hu'. rewrite HB in Hb'. rewrite Hc.
      destruct (decide (j = i)) as [->|Hne].
      * rewrite list_lookup_alter_eq, Hb in Hb'. injection Hb' as <-. discriminate.
      * rewrite list_lookup_alter_ne in Hb' by congruence.
        rewrite lookup_delete_ne; [now apply (Hrec j b')|].
        intros Hid. apply Hne. eapply NoDup_lookup; [exact Hnd| |].
        -- rewrite list_lookup_fmap, Hb'. reflexivity.
        -- rewrite list_lookup_fmap, Hb. cbn. now rewrite Hid.
    + intros bid conn. rewrite Hc. intros [_ H]%lookup_delete_Some. now apply (Hcount bid).
  - unfold doReleaseBrowser. rewrite Hb, Hu. split; assumption.
  - unfold doReleaseBrowser. rewrite Hb. split; assumption.
Qed.

Lemma sound_cleanupSessions now st :
  wfSlots st -> connectionsSound st -> connectionsSound (cleanupSessions now st).
Proof.
  unfold cleanupSessions. generalize (seq 0 (length (BROWSERS st))) as l.
  intros l. revert st. induction l as [|i l IH]; intros st Hwf Hs; cbn [fold_left]; [exact Hs|].
  apply IH.
  - eapply wfSlots_ids; [apply SessionLaws.sameSlots_reapBrowser | exact Hwf].
  - unfold reapBrowser. repeat case_match; try exact Hs; now apply sound_doReleaseBrowser.
Qed.

(** *** Assignment *)

Lemma sound_assignBrowser sid cid now st :
  connectionsSound st -> connectionsSound (snd (assignBrowser secureToken sid cid now st)).
Proof.
  intros Hs. unfold assignBrowser.
  pose proof (quiet_findBrowserByClientId cid st) as Hq0.
  destruct (findBrowserByClientId cid st) as [found st0]. cbn [snd] in Hq0.
  apply (sound_quiet _ _ Hq0) in Hs. clear Hq0 st.
  destruct found as [i|].
  - match goal with
    | |- context [ensureCookieToken secureToken ?b ?s] =>
        pose proof (quiet_ensureCookieToken b s) as Hens;
        destruct (ensureCookieToken secureToken b s) as [ck st1]
    end.
    match goal with
    | |- context [createUrlToken secureToken ?b ?n ?s] =>
        pose proof (quiet_createUrlToken b n s) as Hurl;
        destruct (createUrlToken secureToken b n s) as [u st2]
    end.
    cbn [snd] in *. refine (sound_quiet _ _ _ Hs).
    eapply quiet_trans; [|exact Hurl]. eapply quiet_trans; [|exact Hens].
    eapply quiet_trans; [|apply quiet_syncBrowserToFirebase].
    split; [cbn; now apply usage_alter | reflexivity].
  - destruct (findAvailableBrowser st0) as [i|] eqn:Hfree; [|exact Hs].
    unfold findAvailableBrowser in Hfree.
    destruct (list_find _ _) as [[i' b]|] eqn:Hfind; [|discriminate].
    injection Hfree as ->. apply list_find_Some in Hfind as (Hb & _ & _).
    rewrite Hb. cbn [fmap option_fmap option_map default]. unfold Datatypes.id.
    match goal with
    | |- context [createSessionTokens secureToken ?b ?n ?s] =>
        pose proof (quiet_createSessionTokens b n s) as Htok;
        destruct (createSessionTokens secureToken b n s) as [[ck u] st2]
    end.
    cbn [snd] in *.
    refine (sound_quiet _ _ (quiet_syncBrowserToFirebase i st2) _).
    refine (sound_quiet _ _ Htok _).
    destruct Hs as [Hrec Hcount]. split.
    + intros j b' Hb' Hu'.
      assert (HB : BROWSERS st0 !! j = Some b' \/ id b' = id b).
      { destruct (Js.truthy cid); cbn in Hb';
          (destruct (decide (j = i)) as [->|Hne];
           [rewrite list_lookup_alter_eq, Hb in Hb'; injection Hb' as <-; now right
           |rewrite list_lookup_alter_ne in Hb' by congruence; now left]). }
      destruct (Js.truthy cid); cbn [activeConnections setActiveConnections
        setClientSessions setSessions updateBrowser setBrowsers];
        (destruct HB as [HB| ->];
         [destruct (decide (id b' = id b)) as [->|Hne];
          [rewrite lookup_insert_eq; eauto
          |rewrite lookup_insert_ne by congruence; now apply (Hrec j b')]
         |rewrite lookup_insert_eq; eauto]).
    + intros bid conn Hconn.
      assert (H : <[id b := {| count := 0; lastDisconnect := None |}]>
                    (activeConnections st0) !! bid = Some conn)
        by (destruct (Js.truthy cid); exact Hconn).
      apply lookup_insert_Some in H as [[_ <-]|[_ H]]; [cbn; lia | now apply (Hcount bid)].
Qed.

(** *** Sockets *)

Lemma sound_trackWsConnect bid now st :
  connectionsSound st -> connectionsSound (trackWsConnect bid now st).
Proof.
  intros [Hrec Hcount].
  set (conn := default {| count := 0; lastDisconnect := None |} (activeConnections st !! bid)).
  set (st1 := setActiveConnections
                (<[bid := {| count := count conn + 1; lastDisconnect := None |}]>
                   (activeConnections st)) st).
  assert (H0 : 0 <= count conn).
  { unfold conn. destruct (activeConnections st !! bid) as [c|] eqn:Hc; cbn; [|lia].
    now apply (Hcount bid c). }
  assert (Hs1 : connectionsSound st1).
  { split.
    - intros i b Hb Hu. cbn.
      destruct (decide (id b = bid)) as [->|Hne];
        [rewrite lookup_insert_eq; eauto
        |rewrite lookup_insert_ne by congruence; now apply (Hrec i b)].
    - intros k c. cbn. intros [[_ <-]|[_ H]]%lookup_insert_Some; [cbn|now apply (Hcount k)].
      split; [lia | reflexivity]. }
  unfold trackWsConnect. fold conn. fold st1.
  repeat case_match; try exact Hs1.
  refine (sound_quiet _ _ _ Hs1). split; [cbn; now apply usage_alter | reflexivity].
Qed.

Lemma sound_trackWsDisconnect bid now st :
  connectionsSound st -> connectionsSound (trackWsDisconnect bid now st).
Proof.
  intros [Hrec Hcount]. unfold trackWsDisconnect.
  destruct (activeConnections st !! bid) as [conn|] eqn:Hconn; [|split; assumption].
  destruct (Hcount bid conn Hconn) as [H0 Hopen].
  split.
  - intros i b Hb Hu. cbn.
    destruct (decide (id b = bid)) as [->|Hne];
      [rewrite lookup_insert_eq; eauto
      |rewrite lookup_insert_ne by congruence; now apply (Hrec i b)].
  - intros k c. cbn. intros [[_ <-]|[_ H]]%lookup_insert_Some; [cbn|now apply (Hcount k)].
    split; [lia|]. intros Hpos.
    destruct (Z.eqb_spec (Z.max 0 (count conn - 1)) 0); [lia|]. apply Hopen. lia.
Qed.

(** *** The restore *)

Lemma sound_restoreBrowser state now st i :
  connectionsSound st -> connectionsSound (restoreBrowser secureToken state now st i).
Proof.
  intros Hs.
  destruct (restoreBrowser_cases secureToken state now st i)
    as [(HB & _ & _ & _ & Hc & _)
       |(b & saved & _ & Hb & _ & _ & _ & HB & _ & _ & _ & Hc & _)].
  - apply (sound_quiet st); [|exact Hs]. now rewrite HB, Hc.
  - destruct Hs as [Hrec Hcount]. split.
    + intros j b' Hb' Hu'. rewrite Hc. rewrite HB in Hb'.
      destruct (decide (j = i)) as [->|Hne].
      * rewrite list_lookup_alter_eq, Hb in Hb'. injection Hb' as <-. cbn.
        rewrite lookup_insert_eq. eauto.
      * rewrite list_lookup_alter_ne in Hb' by congruence.
        destruct (decide (id b' = id b)) as [->|Hid];
          [rewrite lookup_insert_eq; eauto
          |rewrite lookup_insert_ne by congruence; now apply (Hrec j b')].
    + intros bid conn. rewrite Hc.
      intros [[_ <-]|[_ H]]%lookup_insert_Some; [cbn; lia | now apply (Hcount bid)].
Qed.

(** *** Runs *)

Lemma sound_step st e :
  wfSlots st -> connectionsSound st -> connectionsSound (step secureToken st e).
Proof.
  intros Hwf Hs. destruct e; cbn [step].
  - exact (sound_quiet _ _ (quiet_handleRequest req st) Hs).
  - unfold requestBrowser.
    pose proof (sound_assignBrowser newSessionId
                  (effectiveClientId req parsedClientId) now st Hs) as H.
    destruct (assignBrowser _ _ _ _ _) as [r st1]. cbn [snd] in H.
    repeat case_match; exact H.
  - unfold checkSession. destruct (orNull _) as [cid|]; [|exact Hs].
    pose proof (quiet_findBrowserByClientId cid st) as Hq0.
    pose proof (findBrowserByClientId_frame cid st) as (_ & _ & HB0 & _).
    destruct (findBrowserByClientId cid st) as [found st0]. cbn [snd] in Hq0, HB0.
    apply (sound_quiet _ _ Hq0) in Hs.
    assert (Hwf0 : wfSlots st0) by (eapply wfSlots_ids; [now rewrite HB0 | exact Hwf]).
    destruct (found ≫= _) as [[i browser]|]; [|exact Hs].
    destruct (_ <? _).
    + pose proof (quiet_ensureCookieToken (id browser) st0) as Hens.
      destruct (ensureCookieToken secureToken (id browser) st0) as [ck st1].
      pose proof (quiet_createUrlToken (id browser) now st1) as Hurl.
      destruct (createUrlToken secureToken (id browser) now st1) as [u st2].
      cbn [snd] in *. refine (sound_quiet _ _ _ Hs). eapply quiet_trans; eauto.
    + now apply sound_doReleaseBrowser.
  - exact (sound_quiet _ _ (quiet_heartbeat _ _ _ _ st) Hs).
  - unfold release.
    repeat case_match; cbn [snd]; try exact Hs; try now apply sound_doReleaseBrowser.
    all: match goal with
         | H : findBrowserByClientId ?cid ?st = (_, ?st0) |- _ =>
             pose proof (quiet_findBrowserByClientId cid st) as Hq0;
             pose proof (findBrowserByClientId_frame cid st) as (_ & _ & HB0 & _);
             rewrite H in Hq0, HB0; cbn [snd] in Hq0, HB0;
             apply (sound_quiet _ _ Hq0) in Hs
         end; try exact Hs.
    apply sound_doReleaseBrowser; [|exact Hs].
    eapply wfSlots_ids; [|exact Hwf]. now rewrite HB0.
  - now apply sound_trackWsConnect.
  - now apply sound_trackWsDisconnect.
  - now apply sound_cleanupSessions.
  - apply (sound_quiet st); [|exact Hs]. split; reflexivity.
  - now apply sound_restoreBrowser.
Qed.

Lemma sound_run events st :
  wfSlots st -> connectionsSound st -> connectionsSound (run secureToken st events).
Proof.
  revert st. induction events as [|e events IH]; intros st Hwf Hs; cbn; [exact Hs|].
  apply IH; [|now apply sound_step].
  eapply wfSlots_ids; [apply sameSlots_step | exact Hwf].
Qed.

End Connections.

(** X25.  In every state the server reaches, each slot in use has a
    connection record; the count of a record is never negative, and a
    record that counts an open socket has no disconnect time.  So the
    socket rule of [cleanupSessions] always finds a record for a slot in
    use, and never measures an idle time while a socket is counted. *)
Theorem connection_records_sound (secureToken : nat -> string) (st : State)
    (i : nat) (b : Browser) :
  reachable secureToken st ->
  BROWSERS st !! i = Some b ->
  inUse b = true ->
  exists conn,
    activeConnections st !! id b = Some conn
    /\ 0 <= count conn
    /\ (0 < count conn -> lastDisconnect conn = None).
Proof.
  intros (db & events & ->) Hb Hu.
  destruct (sound_run secureToken events (initial db)) as [Hrec Hcount].
  - apply wfSlots_initial.
  - split.
    + intros j bj Hj Huse. exfalso. revert Hj Huse. cbn.
      do 10 (destruct j as [|j]; [cbn; intros [= <-]; discriminate|]).
      destruct j; discriminate.
    + intros bid conn. cbn. rewrite lookup_empty. discriminate.
  - destruct (Hrec i b Hb Hu) as [conn Hconn].
    exists conn. split; [exact Hconn|]. now apply (Hcount (id b)).
Qed.

Lemma connection_records_sound_witness :
  exists conn,
    activeConnections (trackWsConnect 1 1500 Scenario.assigned)
      !! id (withHeartbeat (Some 1500) (claimed "sess_a" "client-0001" 1000 (slot 1)))
    = Some conn
    /\ 0 <= count conn
    /\ (0 < count conn -> lastDisconnect conn = None).
Proof.
  apply (connection_records_sound demoToken (trackWsConnect 1 1500 Scenario.assigned) 0
           (withHeartbeat (Some 1500) (claimed "sess_a" "client-0001" 1000 (slot 1)))).
  - exists true, [RequestBrowser Scenario.api (JString "client-0001") "sess_a" 1000;
                  WsConnected 1 1500].
    reflexivity.
  - vm_compute. reflexivity.
  - reflexivity.
Defined.

End ConnectionLaws.
